(* ===== verification/_CoqProject ===== *)
-Q . S2P
Prelude.v
Format.v
Ids.v
IdsSpec.v
Tables.v
Modes.v
Message.v
Sql.v
FileDb.v
FileDbSpec.v
Xattr.v
XattrSpec.v
LogDb.v
ServerOp.v
OpInvariant.v
FsSpec.v
OpRefine.v
XattrRefine.v
Refine.v
Paths.v
PathsSpec.v
ClientPath.v
ClientPathSpec.v
ServerLoop.v
ServerLoopSpec.v
ClientConn.v
ClientConnSpec.v
ClientOp.v
ClientOpSpec.v
Io.v
Wrappers.v
WrapXattr.v
SampleKernel.v
WrapSpec.v
Emulator.v
AclSpec.v
RoundTrip.v
System.v
LogQuery.v
LogQuerySpec.v
PseudoLog.v
PseudoLogSpec.v
Debug.v
DebugSpec.v
Env.v
EnvSpec.v
Lock.v
LockSpec.v
Passwd.v
PasswdSpec.v
Startup.v
StartupSpec.v
Migrate.v
MigrateSpec.v
Exec.v
ExecSpec.v
Daemon.v
DaemonSpec.v
ServerSelect.v
ServerSelectSpec.v
Main.v
MainSpec.v
TreeWalk.v
TreeWalkSpec.v
Accounts.v
AccountsSpec.v
FileOps.v
FileOpsSpec.v
