(* ===== verification/Prelude.v ===== *)
(** * A verification development for pseudo

    pseudo lets an unprivileged user run programs that believe they are root.
    A library preloaded into every program (the client) wraps the system calls
    on files; a server keeps, in a SQLite database, the owner, mode and device
    number each file is believed to have, and its extended attributes.  A
    wrapper makes the real call as far as the user may, tells the server what
    the program meant, and overlays the server's answer on what the kernel
    says.  A second database logs operations; [pseudolog] reads it.

    ** How a call travels, and where each part is modelled

    - wrappers of calls on files, [ports/unix/guts] and [ports/linux/guts]:
      [Io], [Wrappers] (calls on paths and descriptors), [FileOps] (streams,
      temporary files, hard links, the current directory), [TreeWalk] ([nftw]
      and [ftw]); of extended attributes,
      [ports/linux/xattr/pseudo_wrappers.c]: [WrapXattr]; of user and group
      ids, [ports/uids_generic/guts]: [Ids]; of the users and groups
      themselves: [Accounts];
    - what every wrapper does before and after its own work, and the
      exclusion of other threads and of signal handlers,
      [templates/wrapfuncs.c] and [pseudo_wrappers.c]: [Lock];
    - what a process reads when it starts and where a changed root and an exec
      lead, [pseudo_client.c]: [Startup]; the exec family and [posix_spawn],
      [ports/unix/guts] and [ports/common/pseudo_wrappers.c]: [Exec]; the
      files of users and groups: [Passwd];
    - canonical paths, [pseudo_util.c]: [Paths]; the paths of descriptors, the
      current directory and the changed root, [pseudo_client.c]: [ClientPath];
    - [pseudo_client_op] in [pseudo_client.c]: [ClientOp]; its connection and
      retries: [ClientConn];
    - the message, [pseudo_ipc.c]: [Message];
    - [main] of [pseudo.c], which runs programs, works on the database and
      starts or stops servers, and how a client starts one: [Main];
    - how one server comes to be, its lock and pid file, [pseudo_server.c]:
      [Daemon]; its event loop and the table of clients: [ServerLoop] with
      [epoll], [ServerSelect] with [select]; the handler [pseudo_op], [pseudo.c]: [ServerOp];
    - the database, [pseudo_db.c]: [Sql] (tables, and SQLite as an interface),
      [Migrate] (creating a database and bringing an older one up to date), [FileDb] (files),
      [Xattr] (attributes), [LogDb] and [LogQuery] (the log);
    - [pseudolog.c]: [PseudoLog]; debug flags and the event log,
      [pseudo_util.c]: [Debug]; the environment of child processes,
      [pseudo_util.c]: [Env];
    - shared: [Tables] (the enumerations), [Modes] (file modes), [Format]
      (decimal numbers), this file.

    The theorems about a file are in the file of the same name with [Spec]
    after it, or at its end.

    ** How state and effects are modelled

    A C function is a function from the state it works on to the new state and
    its result, with the early returns of the source in their order.  [None]
    is an access outside a block of memory, so a theorem that a function
    returns [Some] says it is free of such accesses.  Integers are [Z], with
    their width written out where the C code can reach it.  What is not
    the program's own is an argument: SQLite ([Sql.SqlEngine], with the
    documented meaning of the statements in [Sql.SqlLaws], and a concrete
    engine, [mem_engine], that satisfies them), the kernel under the wrappers
    ([Io], with a small concrete kernel in [SampleKernel]), the answers of
    [connect], [read] and [write], what [lstat] and [readlink] say of a path,
    [getopt], the time functions and [regexec].

    ** The theorems

    - The contract of the whole.  [FsSpec] is the abstract file system,
      [Refine.server_refines_fs] says the handler implements it,
      [RoundTrip.operation_round_trip] that what the client asks is what the
      handler does and what it answers is what the client gets, and
      [System.calls_refine] that programs see the file system root would see.
      [Emulator] is the interface between wrappers and client those proofs
      meet at.
    - Each layer for itself: the deletion protocol, renaming and attributes
      ([FileDbSpec], [XattrSpec]), canonical paths that stay in their buffers
      and under their root ([PathsSpec], [ClientPathSpec]), requests that end
      and survive the death of a server ([ClientConnSpec]), a server loop
      whose tables stay in order ([ServerLoopSpec]), a message block that is
      never overrun ([Message], [ClientOpSpec]).
    - What survives an exec: ids ([IdsSpec]), the variables and the preloaded
      library ([EnvSpec]), the root and the files of users ([StartupSpec],
      [PasswdSpec]), the program, arguments and signal mask ([ExecSpec]); and
      what an environment that names pseudo's variables changes of it.
    - The options given to pseudo arrive at the server its programs start
      ([MainSpec]).
    - At most one of several servers started at once holds the directory
      ([DaemonSpec]), and its two event loops serve a client alike
      ([ServerSelectSpec]).
    - Every way to open a file is told, and a hard link is the same file
      ([FileOpsSpec]); a walk gives each callback what the program would see
      ([TreeWalkSpec]); the groups of a user fit the array ([AccountsSpec]).
    - The log: queries say what their traits describe ([LogQuerySpec]) and a
      report shows what the log kept of an entry ([PseudoLogSpec]).
    - Threads, signals and forks exclude each other, also around the opening of
      a pipe, which waits with the lock dropped ([LockSpec]), and a database
      that a numbered version left complete is brought up to date
      ([MigrateSpec]).

    ** Fuel and bounds

    Recursion in [Paths] is bounded by [PSEUDO_MAX_LINK_RECURSION], as in the
    source, and loops over a string by its length; [PathsSpec] proves that the
    fuel given is enough.  A request is tried at most [PSEUDO_RETRIES] times.
    Loops of the server run over their tables.  Building a query grows a
    buffer at most once per fragment.  Sizes are those of x86-64.

    ** Not modelled

    - The Darwin port; the development follows Linux.
    - Wrappers whose only work is to hand a canonical path to the kernel
      (truncate, utime, pathconf, scandir and their like): their definition
      would be the kernel's call.
    - Debugging messages and diagnostics; profiling; the templates that
      generate the wrappers.

    ** Findings

    Where the code does something else than it means to, a definition follows
    the code and a theorem or an example shows the difference. *)

From stdpp Require Import base gmap strings list fin_maps numbers.
From Stdlib Require Import ZArith Lia Ascii.

Open Scope Z_scope.

Declare Scope pseudo_scope.
Delimit Scope pseudo_scope with pseudo.
Open Scope pseudo_scope.

(** ** Bytes and C strings

    A [char] array is a [list ascii]; a C string is such a list read up to its
    first NUL.  [$ "text"] writes a literal. *)

Abbreviation bytes := (list ascii).

Notation "$ s" := (String.list_ascii_of_string s%string) (at level 1, format "$ s") : pseudo_scope.

Definition NUL : ascii := Ascii.zero.

Definition slash : ascii := "/"%char.

Definition Z_of_byte (b : ascii) : Z := Z.of_N (N_of_ascii b).

#[global] Arguments Z_of_byte : simpl never.

Definition byte_of_Z (z : Z) : ascii := ascii_of_N (Z.to_N (z mod 256)).

(** The bytes before the first NUL: what [strlen], [strcmp] and
    [sqlite3_bind_text(..., -1, ...)] see. *)
Fixpoint c_str (l : bytes) : bytes :=
  match l with
  | [] => []
  | c :: l' => if decide (c = NUL) then [] else c :: c_str l'
  end.

Definition strlen (l : bytes) : nat := length (c_str l).

(** [memcmp]-style comparison: bytewise and unsigned, the shorter string
    first when one is a prefix of the other. *)
Fixpoint str_compare (a b : bytes) : comparison :=
  match a, b with
  | [], [] => Eq
  | [], _ :: _ => Lt
  | _ :: _, [] => Gt
  | x :: a', y :: b' =>
      match Z.compare (Z_of_byte x) (Z_of_byte y) with
      | Eq => str_compare a' b'
      | c => c
      end
  end.

Definition str_ltb (a b : bytes) : bool :=
  match str_compare a b with Lt => true | _ => false end.

(** Is [y] a prefix of [x]? *)
Fixpoint prefixb (y x : bytes) : bool :=
  match y, x with
  | [], _ => true
  | _ :: _, [] => false
  | a :: y', b :: x' => bool_decide (a = b) && prefixb y' x'
  end.

(** [pseudo_path_max()] and the contents of a fresh [malloc] of that size. *)
Class PathMax := { pseudo_path_max : Z; malloc_path_max : bytes }.

(** ** Machine integers *)

Definition wrap_unsigned (w : Z) (z : Z) : Z := z mod 2 ^ w.

Definition wrap_signed (w : Z) (z : Z) : Z :=
  (z + 2 ^ (w - 1)) mod 2 ^ w - 2 ^ (w - 1).

Abbreviation int32 := (wrap_signed 32).
Abbreviation int64 := (wrap_signed 64).
Abbreviation uint32 := (wrap_unsigned 32).
Abbreviation uint64 := (wrap_unsigned 64).

Definition INT64_MAX : Z := 2 ^ 63 - 1.
Definition INT64_MIN : Z := - 2 ^ 63.

(** C's view of a condition as an [int]. *)
Definition b2z (b : bool) : Z := if b then 1 else 0.

(** Little-endian memory image of an integer of [n] bytes. *)
Fixpoint le_bytes (n : nat) (z : Z) : bytes :=
  match n with
  | O => []
  | S n' => byte_of_Z z :: le_bytes n' (z / 256)
  end.

Fixpoint le_val (l : bytes) : Z :=
  match l with
  | [] => 0
  | b :: l' => Z_of_byte b + 256 * le_val l'
  end.

(** ** Tables: row id to row *)

Section Tables.
Context {R : Type}.

Definition tdelete (p : R -> bool) (t : gmap Z R) : gmap Z R :=
  filter (fun kv => p kv.2 = false) t.

Definition tupdate (p : R -> bool) (f : R -> R) (t : gmap Z R) : gmap Z R :=
  (fun r => if p r then f r else r) <$> t.

Definition tmatch (p : R -> bool) (t : gmap Z R) : gmap Z R :=
  filter (fun kv => p kv.2 = true) t.

(** The rows matching [p], in the order of the map. *)
Definition trows (p : R -> bool) (t : gmap Z R) : list (Z * R) :=
  map_to_list (tmatch p t).

(** The least id above every id in use. *)
Definition fresh_id (t : gmap Z R) : Z :=
  1 + foldr Z.max 0 (map_to_list t).*1.
End Tables.

(** ** Tactics *)

(** A decidable fact about constants, such as two names being different. *)
Ltac key := apply (bool_decide_unpack _); by vm_compute.

(** Split every [if] and [match] of the goal or a hypothesis. *)
Ltac break_match :=
  repeat match goal with
    | H : context [match ?x with _ => _ end] |- _ =>
        lazymatch x with context [match _ with _ => _ end] => fail | _ => destruct x eqn:? end
    | |- context [match ?x with _ => _ end] =>
        lazymatch x with context [match _ with _ => _ end] => fail | _ => destruct x eqn:? end
    end.

(** Replace boolean reflections by the facts they decide. *)
Ltac bool_facts :=
  repeat match goal with
    | H : bool_decide _ = true |- _ => apply bool_decide_eq_true in H
    | H : bool_decide _ = false |- _ => apply bool_decide_eq_false in H
    | H : (_ && _)%bool = true |- _ => apply andb_true_iff in H as [? ?]
    | H : negb _ = true |- _ => apply negb_true_iff in H
    | H : negb _ = false |- _ => apply negb_false_iff in H
    | H : (_ =? _) = true |- _ => apply Z.eqb_eq in H
    | H : (_ =? _) = false |- _ => apply Z.eqb_neq in H
    | H : (_ <? _) = true |- _ => apply Z.ltb_lt in H
    | H : (_ <? _) = false |- _ => apply Z.ltb_ge in H
    end.

Create HintDb pseudo.
Create Rewrite HintDb pseudo.

(** ** Lemmas on bytes and strings *)

Lemma Z_of_byte_range b : 0 <= Z_of_byte b < 256.
Proof.
  unfold Z_of_byte. pose proof (N_ascii_bounded b). lia.
Qed.

Lemma Z_of_byte_inj a b : Z_of_byte a = Z_of_byte b -> a = b.
Proof.
  unfold Z_of_byte. intros H%N2Z.inj.
  by rewrite <- (ascii_N_embedding a), <- (ascii_N_embedding b), H.
Qed.

Lemma Z_of_byte_of_Z z : Z_of_byte (byte_of_Z z) = z mod 256.
Proof.
  unfold Z_of_byte, byte_of_Z.
  pose proof (Z.mod_pos_bound z 256 eq_refl).
  rewrite N_ascii_embedding by lia. lia.
Qed.

Lemma byte_of_Z_of_byte b : byte_of_Z (Z_of_byte b) = b.
Proof.
  apply Z_of_byte_inj. rewrite Z_of_byte_of_Z.
  apply Z.mod_small, Z_of_byte_range.
Qed.

Lemma c_str_no_nul l : NUL ∉ c_str l.
Proof.
  induction l as [|c l IH]; simpl; [set_solver|].
  case_decide; [set_solver|]. rewrite not_elem_of_cons. naive_solver.
Qed.

Lemma c_str_id l : NUL ∉ l -> c_str l = l.
Proof.
  induction l as [|c l IH]; simpl; [done|].
  rewrite not_elem_of_cons. intros [? ?]. rewrite decide_False by done.
  f_equal. auto.
Qed.

Lemma no_nul_b l : forallb (fun c => negb (bool_decide (c = NUL))) l = true -> NUL ∉ l.
Proof.
  intros H Hin. rewrite forallb_forall in H. apply list_elem_of_In in Hin.
  specialize (H _ Hin). by rewrite bool_decide_eq_true_2 in H.
Qed.

Lemma c_str_idemp l : c_str (c_str l) = c_str l.
Proof. apply c_str_id, c_str_no_nul. Qed.

Lemma c_str_app_nul s t : NUL ∉ s -> c_str (s ++ NUL :: t) = s.
Proof.
  induction s as [|c s IH]; simpl; [done|].
  rewrite not_elem_of_cons. intros [? ?]. rewrite decide_False by done.
  f_equal. auto.
Qed.

Lemma c_str_nul_r s : NUL ∉ s -> c_str (s ++ [NUL]) = s.
Proof. apply c_str_app_nul. Qed.

Lemma c_str_length l : (length (c_str l) <= length l)%nat.
Proof. induction l; simpl; [lia|]. case_decide; simpl; lia. Qed.

Lemma strlen_app_nul s t : NUL ∉ s -> strlen (s ++ NUL :: t) = length s.
Proof. intros ?. unfold strlen. by rewrite c_str_app_nul. Qed.

Lemma prefixb_spec y x : prefixb y x = true <-> exists z, x = y ++ z.
Proof.
  revert x. induction y as [|a y IH]; intros [|b x]; simpl; split.
  - by exists [].
  - done.
  - by eexists.
  - done.
  - done.
  - by intros [z ?].
  - intros H. bool_facts. subst. apply IH in H0 as [z ->]. by eexists.
  - intros [z [= -> ->]]. rewrite bool_decide_eq_true_2 by done.
    simpl. apply IH. by eexists.
Qed.

Lemma prefixb_app y z : prefixb y (y ++ z) = true.
Proof. apply prefixb_spec. by eexists. Qed.

Lemma str_compare_refl a : str_compare a a = Eq.
Proof. induction a; simpl; [done|]. by rewrite Z.compare_refl. Qed.

Lemma str_compare_eq a b : str_compare a b = Eq <-> a = b.
Proof.
  split; [|intros ->; apply str_compare_refl].
  revert b. induction a as [|x a IH]; intros [|y b]; simpl; try done.
  destruct (Z.compare_spec (Z_of_byte x) (Z_of_byte y)) as [E| |]; try done.
  apply Z_of_byte_inj in E as ->. intros ?%IH. by subst.
Qed.

Lemma str_compare_app p a b : str_compare (p ++ a) (p ++ b) = str_compare a b.
Proof. induction p; simpl; [done|]. by rewrite Z.compare_refl. Qed.

Lemma str_compare_antisym a b : str_compare b a = CompOpp (str_compare a b).
Proof.
  revert b. induction a as [|x a IH]; intros [|y b]; simpl; try done.
  rewrite (Z.compare_antisym (Z_of_byte x) (Z_of_byte y)).
  destruct (Z_of_byte x ?= Z_of_byte y); simpl; auto.
Qed.

Definition str_le (a b : bytes) : Prop := str_compare a b <> Gt.

#[export] Instance str_le_dec : RelDecision str_le.
Proof. unfold str_le. intros a b. apply _. Defined.

#[export] Instance str_le_total : Total str_le.
Proof.
  intros a b. unfold str_le. rewrite (str_compare_antisym a b).
  destruct (str_compare a b); simpl; auto.
Qed.

#[export] Instance str_le_trans : Transitive str_le.
Proof.
  unfold str_le. intros a b c. revert b c.
  induction a as [|x a IH]; intros [|y b] [|z c]; simpl; try done.
  intros H1 H2. specialize (IH b c).
  destruct (Z.compare_spec (Z_of_byte x) (Z_of_byte y)), (Z.compare_spec (Z_of_byte y) (Z_of_byte z));
    try done; destruct (Z.compare_spec (Z_of_byte x) (Z_of_byte z)); try done; try lia; auto.
Qed.

(** The interval trick of the SQL statements: the strings strictly between
    [p ++ "/"] and [p ++ "0"] are exactly those that continue [p ++ "/"]. *)
Lemma str_between_slash p x :
  str_ltb (p ++ ["/"%char]) x && str_ltb x (p ++ ["0"%char]) = true
  <-> exists c t, x = p ++ "/"%char :: c :: t.
Proof.
  unfold str_ltb. split.
  - revert x. induction p as [|a p IH]; intros [|b x]; cbn [str_compare app]; try done.
    + destruct (Z.compare_spec (Z_of_byte "/") (Z_of_byte b)) as [E|E|E]; try done.
      * apply Z_of_byte_inj in E. subst b. destruct x as [|c x]; [done|].
        intros _. by eexists _, _.
      * destruct (Z.compare_spec (Z_of_byte b) (Z_of_byte "0")) as [F|F|F]; try done.
        -- rewrite andb_comm. by destruct x.
        -- change (Z_of_byte "/") with 47 in E. change (Z_of_byte "0") with 48 in F. lia.
    + destruct (Z.compare_spec (Z_of_byte a) (Z_of_byte b)) as [E|E|E]; try done.
      * apply Z_of_byte_inj in E. subst. rewrite Z.compare_refl. intros H.
        destruct (IH _ H) as (c & t & ->). by exists c, t.
      * rewrite (proj2 (Z.compare_gt_iff (Z_of_byte b) (Z_of_byte a))) by lia. done.
  - intros (c & t & ->). rewrite !str_compare_app. done.
Qed.

(** ** Lemmas on machine integers *)

Lemma wrap_unsigned_range w z : 0 <= w -> 0 <= wrap_unsigned w z < 2 ^ w.
Proof. intros. apply Z.mod_pos_bound. by apply Z.pow_pos_nonneg. Qed.

Lemma wrap_unsigned_small w z : 0 <= z < 2 ^ w -> wrap_unsigned w z = z.
Proof. apply Z.mod_small. Qed.

Lemma wrap_signed_range w z : 0 < w -> - 2 ^ (w - 1) <= wrap_signed w z < 2 ^ (w - 1).
Proof.
  intros. unfold wrap_signed.
  pose proof (Z.mod_pos_bound (z + 2 ^ (w - 1)) (2 ^ w)
    ltac:(apply Z.pow_pos_nonneg; lia)).
  replace (2 ^ w) with (2 * 2 ^ (w - 1)) in *; [lia|].
  rewrite <- Z.pow_succ_r by lia. f_equal. lia.
Qed.

Lemma wrap_signed_small w z : 0 < w -> - 2 ^ (w - 1) <= z < 2 ^ (w - 1) -> wrap_signed w z = z.
Proof.
  intros. unfold wrap_signed. rewrite Z.mod_small; [lia|].
  replace (2 ^ w) with (2 * 2 ^ (w - 1)); [lia|].
  rewrite <- Z.pow_succ_r by lia. f_equal. lia.
Qed.

Lemma wrap_unsigned_signed w z : 0 < w -> wrap_unsigned w (wrap_signed w z) = wrap_unsigned w z.
Proof.
  intros. unfold wrap_unsigned, wrap_signed.
  rewrite Zminus_mod, Zmod_mod, <- Zminus_mod. f_equal. lia.
Qed.

Lemma wrap_signed_unsigned w z : wrap_signed w (wrap_unsigned w z) = wrap_signed w z.
Proof.
  unfold wrap_unsigned, wrap_signed.
  by rewrite Zplus_mod, Zmod_mod, <- Zplus_mod.
Qed.

Lemma wrap_signed_idemp w z : 0 < w -> wrap_signed w (wrap_signed w z) = wrap_signed w z.
Proof. intros. apply wrap_signed_small; [done|]. by apply wrap_signed_range. Qed.

Lemma bit_is_set a i : 0 <= i -> negb (Z.land a (Z.shiftl 1 i) =? 0) = Z.testbit a i.
Proof.
  intros Hi. destruct (Z.eqb_spec (Z.land a (Z.shiftl 1 i)) 0) as [E|E]; cbn [negb].
  - pose proof (f_equal (fun z => Z.testbit z i) E) as Hb. cbv beta in Hb. rewrite Z.land_spec, Z.bits_0 in Hb.
    rewrite Z.shiftl_spec, Z.sub_diag in Hb by lia. change (Z.testbit 1 0) with true in Hb.
    by rewrite andb_true_r in Hb.
  - destruct (Z.testbit a i) eqn:Hb; [done|]. destruct E. apply Z.bits_inj'. intros n Hn.
    rewrite Z.land_spec, Z.bits_0, Z.shiftl_1_l, Z.pow2_bits_eqb by done.
    destruct (Z.eqb_spec i n) as [->|]; [by rewrite Hb|apply andb_false_r].
Qed.

Lemma length_le_bytes n z : length (le_bytes n z) = n.
Proof. revert z. induction n; intros; simpl; [done|]. by rewrite IHn. Qed.

Lemma le_val_le_bytes n z : le_val (le_bytes n z) = z mod 2 ^ (8 * Z.of_nat n).
Proof.
  revert z. induction n as [|n IH]; intros z; simpl.
  - by rewrite Z.mod_1_r.
  - rewrite Z_of_byte_of_Z, IH.
    replace (8 * Z.of_nat (S n)) with (8 + 8 * Z.of_nat n) by lia.
    rewrite Z.pow_add_r by lia. change (2 ^ 8) with 256.
    rewrite Z.rem_mul_r; [lia|lia|]. apply Z.pow_pos_nonneg; lia.
Qed.

Lemma le_val_nonneg l : 0 <= le_val l.
Proof. induction l as [|b l IH]; simpl; [done|]. pose proof (Z_of_byte_range b). lia. Qed.

(** ** Lemmas on tables *)

Section TableLemmas.
Context {R : Type}.
Implicit Types (t : gmap Z R) (p : R -> bool).

Lemma lookup_tdelete p t i r :
  tdelete p t !! i = Some r <-> t !! i = Some r /\ p r = false.
Proof. apply map_lookup_filter_Some. Qed.

Lemma lookup_tmatch p t i r :
  tmatch p t !! i = Some r <-> t !! i = Some r /\ p r = true.
Proof. apply map_lookup_filter_Some. Qed.

Lemma lookup_tupdate p f t i :
  tupdate p f t !! i = (fun r => if p r then f r else r) <$> t !! i.
Proof. unfold tupdate. by rewrite lookup_fmap. Qed.

Lemma lookup_tupdate_Some p f t i r :
  tupdate p f t !! i = Some r <->
  exists r0, t !! i = Some r0 /\ r = (if p r0 then f r0 else r0).
Proof. rewrite lookup_tupdate. rewrite fmap_Some. naive_solver. Qed.

Lemma tdelete_none p t :
  (forall i r, t !! i = Some r -> p r = false) -> tdelete p t = t.
Proof. intros H. apply map_filter_id. intros. by eapply H. Qed.

Lemma tupdate_none p f t :
  (forall i r, t !! i = Some r -> p r = false) -> tupdate p f t = t.
Proof.
  intros H. apply map_eq. intros i. rewrite lookup_tupdate.
  destruct (t !! i) eqn:E; simpl; [|done]. by rewrite (H _ _ E).
Qed.

Lemma tupdate_ext p q f g t :
  (forall r, p r = q r) -> (forall r, f r = g r) -> tupdate p f t = tupdate q g t.
Proof.
  intros Hp Hf. apply map_eq. intros i. rewrite !lookup_tupdate.
  destruct (t !! i) as [r|]; simpl; [|done]. rewrite Hp, Hf. done.
Qed.

Lemma elem_of_trows p t i r :
  (i, r) ∈ trows p t <-> t !! i = Some r /\ p r = true.
Proof. unfold trows. rewrite elem_of_map_to_list. apply lookup_tmatch. Qed.

Lemma trows_nonempty p t (P : R -> Prop) :
  (forall r, p r = true <-> P r) ->
  trows p t <> [] <-> exists i r, t !! i = Some r /\ P r.
Proof.
  intros HP. split.
  - destruct (trows p t) as [|[i r] l] eqn:E; [done|]. intros _. exists i, r.
    rewrite <- HP. apply elem_of_trows. rewrite E. left.
  - intros (i & r & Hi & Hr%HP) Hnil.
    assert ((i, r) ∈ trows p t) as Hin by by apply elem_of_trows.
    rewrite Hnil in Hin. by apply elem_of_nil in Hin.
Qed.

Lemma fresh_id_pos t : 0 < fresh_id t.
Proof.
  unfold fresh_id. assert (forall l, 0 <= foldr Z.max 0 l) as H by (intros l; induction l; simpl; lia).
  specialize (H (map_to_list t).*1). lia.
Qed.

Lemma fresh_id_fresh t : t !! fresh_id t = None.
Proof.
  apply eq_None_not_Some. intros [r H].
  apply elem_of_map_to_list in H. unfold fresh_id in H.
  assert (forall l x, x ∈ l -> x <= foldr Z.max 0 l) as Hmax.
  { induction l; intros x Hx; simpl; [by apply elem_of_nil in Hx|].
    apply elem_of_cons in Hx as [->|Hx]; [lia|]. specialize (IHl _ Hx). lia. }
  apply (list_elem_of_fmap_2 fst) in H. apply Hmax in H. simpl in H. lia.
Qed.
End TableLemmas.

#[export] Hint Resolve wrap_unsigned_range wrap_signed_range c_str_no_nul Z_of_byte_range : pseudo.
#[export] Hint Rewrite c_str_idemp length_le_bytes : pseudo.
