(* ===== verification/Format.v ===== *)
(** [%d] of [printf] and [sscanf] on the 32-bit integers the program prints
    and reads: process ids in the server's answers, user and group ids in the
    environment. *)

From stdpp Require Import base list.
From Stdlib Require Import ZArith Lia Ascii.
From S2P Require Import Prelude.

Open Scope Z_scope.

(** ** Printing *)

(** Decimal digits of an [int], as [printf] writes them. *)
Fixpoint digits (fuel : nat) (n : Z) (acc : bytes) : bytes :=
  match fuel with
  | O => acc
  | S fuel =>
      let acc := ascii_of_N (Z.to_N (48 + n mod 10)) :: acc in
      if n / 10 =? 0 then acc else digits fuel (n / 10) acc
  end.

Definition decimal (n : Z) : bytes :=
  if n <? 0 then "-"%char :: digits 10 (- n) [] else digits 10 n [].

(** ** Scanning *)

Definition digit_value (c : ascii) : option Z :=
  let v := Z_of_byte c - 48 in if (0 <=? v) && (v <=? 9) then Some v else None.

(** The digits at the front, after the value [v] of those before. *)
Fixpoint scan_digits (v : Z) (l : bytes) : Z * bytes :=
  match l with
  | c :: l' => match digit_value c with Some d => scan_digits (10 * v + d) l' | None => (v, l) end
  | [] => (v, [])
  end.

Definition is_space (c : ascii) : bool :=
  let v := Z_of_byte c in (v =? 32) || ((9 <=? v) && (v <=? 13)).

Fixpoint skip_space (l : bytes) : bytes :=
  match l with
  | c :: l' => if is_space c then skip_space l' else l
  | [] => []
  end.

(** One [%d]: at least one digit, after white space and a sign. *)
Definition scan_int (l : bytes) : option (Z * bytes) :=
  let l := skip_space l in
  let '(sign, l) := match l with
                    | c :: l' => if bool_decide (c = "-"%char) then (-1, l')
                                 else if bool_decide (c = "+"%char) then (1, l') else (1, l)
                    | [] => (1, [])
                    end in
  match l with
  | c :: _ => match digit_value c with
              | Some _ => let '(v, rest) := scan_digits 0 l in Some (int32 (sign * v), rest)
              | None => None
              end
  | [] => None
  end.

(** [sscanf(l, "%d,%d,...", ...)] with [n] conversions: the values assigned. *)
Fixpoint scan_ints (n : nat) (l : bytes) : list Z :=
  match n with
  | O => []
  | S n =>
      match scan_int l with
      | None => []
      | Some (v, rest) =>
          v :: match rest with
               | c :: rest => if bool_decide (c = ","%char) then scan_ints n rest else []
               | [] => []
               end
      end
  end.

(** ** What is printed can be read *)

Lemma digit_value_digit d : 0 <= d < 10 -> digit_value (ascii_of_N (Z.to_N (48 + d))) = Some d.
Proof.
  intros Hd. unfold digit_value, Z_of_byte. rewrite N_ascii_embedding by lia.
  rewrite Z2N.id by lia. replace (48 + d - 48) with d by lia.
  by rewrite (proj2 (Z.leb_le 0 d)), (proj2 (Z.leb_le d 9)) by lia.
Qed.

Lemma scan_digits_app f n l : (0 < f)%nat -> 0 <= n < 10 ^ Z.of_nat f ->
  scan_digits 0 (digits f n l) = scan_digits n l.
Proof.
  revert n l. induction f as [|f IH]; intros n l Hf Hn; [lia|]. cbn [digits]. cbv zeta.
  assert (0 <= n mod 10 < 10) as Hm by (apply Z.mod_pos_bound; lia).
  pose proof (Z.div_mod n 10 ltac:(lia)) as Hdm.
  destruct (Z.eqb_spec (n / 10) 0) as [Hz|Hnz].
  - cbn [scan_digits]. rewrite digit_value_digit by done. f_equal. lia.
  - assert (0 <= n / 10 < 10 ^ Z.of_nat f) as Hq.
    { split; [apply Z.div_pos; lia|]. apply Z.div_lt_upper_bound; [lia|].
      rewrite Nat2Z.inj_succ, Z.pow_succ_r in Hn by lia. lia. }
    rewrite IH; [|destruct f; [simpl in Hq; lia|lia]|done].
    cbn [scan_digits]. rewrite digit_value_digit by done. f_equal. lia.
Qed.

Lemma digits_head f n l : (0 < f)%nat -> 0 <= n -> exists c r d, digits f n l = c :: r /\ digit_value c = Some d.
Proof.
  revert n l. induction f as [|f IH]; intros n l Hf Hn; [lia|]. cbn [digits]. cbv zeta.
  assert (0 <= n mod 10 < 10) as Hm by (apply Z.mod_pos_bound; lia).
  destruct (_ =? 0).
  - eexists _, _, _. split; [done|]. by apply digit_value_digit.
  - destruct f as [|f].
    + eexists _, _, _. split; [done|]. by apply digit_value_digit.
    + apply IH; [lia|]. apply Z.div_pos; lia.
Qed.

Lemma digit_not_space c d : digit_value c = Some d -> is_space c = false /\ c <> "-"%char /\ c <> "+"%char.
Proof.
  unfold digit_value, is_space. set (v := Z_of_byte c). intros H.
  assert (48 <= v <= 57) as Hv.
  { destruct (Z.leb_spec 0 (v - 48)); [|done]. destruct (Z.leb_spec (v - 48) 9); [lia|done]. }
  split; [|split; intros ->; subst v; vm_compute in Hv; destruct Hv; congruence].
  rewrite (proj2 (Z.eqb_neq v 32)) by lia. cbn [orb]. apply andb_false_iff. right. apply Z.leb_gt. lia.
Qed.

(** A printed integer in front of something that is not a digit. *)
Lemma scan_int_decimal z rest : - 2 ^ 31 <= z < 2 ^ 31 ->
  match rest with c :: _ => digit_value c = None | [] => True end ->
  scan_int (decimal z ++ rest) = Some (z, rest).
Proof.
  intros Hz Hrest.
  assert (forall n l, digits 10 n [] ++ l = digits 10 n l) as Happ.
  { assert (forall f n acc l, digits f n acc ++ l = digits f n (acc ++ l)) as H; [|intros; by rewrite H].
    intros f. induction f as [|f IH]; intros n acc l; [done|]. cbn [digits]. cbv zeta. destruct (_ =? 0); [done|]. by rewrite IH. }
  assert (forall v, scan_digits v rest = (v, rest)) as Hstop
    by (intros v; destruct rest as [|c r]; [done|]; cbn [scan_digits]; by rewrite Hrest).
  assert (10 ^ Z.of_nat 10 = 10000000000) as Hp by done.
  unfold decimal. destruct (Z.ltb_spec z 0) as [Hneg|Hpos].
  - unfold scan_int. cbn [app skip_space]. change (is_space "-") with false. cbn beta iota zeta.
    rewrite bool_decide_eq_true_2 by done. rewrite Happ.
    destruct (digits_head 10 (- z) rest) as (c & r & d & Hd & Hc); [lia|lia|]. rewrite Hd, Hc, <- Hd.
    rewrite scan_digits_app by lia. rewrite Hstop. rewrite wrap_signed_small by lia. do 2 f_equal. lia.
  - rewrite Happ. destruct (digits_head 10 z rest) as (c & r & d & Hd & Hc); [lia|lia|].
    destruct (digit_not_space c d Hc) as (Hs & Hm & Hpl). unfold scan_int. rewrite Hd. cbn [skip_space]. rewrite Hs. cbn beta iota zeta.
    rewrite !bool_decide_eq_false_2 by done. rewrite Hc, <- Hd.
    rewrite scan_digits_app by lia. rewrite Hstop. rewrite wrap_signed_small by lia. do 2 f_equal. lia.
Qed.

(** [snprintf("%d,%d,%d,%d")] and back. *)
Definition four_ints (a b c d : Z) : bytes :=
  decimal a ++ ","%char :: decimal b ++ ","%char :: decimal c ++ ","%char :: decimal d.

Lemma scan_four_ints a b c d : - 2 ^ 31 <= a < 2 ^ 31 -> - 2 ^ 31 <= b < 2 ^ 31 -> - 2 ^ 31 <= c < 2 ^ 31 -> - 2 ^ 31 <= d < 2 ^ 31 ->
  scan_ints 4 (four_ints a b c d) = [a; b; c; d].
Proof.
  intros Ha Hb Hc Hd. unfold four_ints. cbn [scan_ints].
  rewrite scan_int_decimal by done. cbn beta iota. rewrite bool_decide_eq_true_2 by done.
  rewrite scan_int_decimal by done. cbn beta iota. rewrite bool_decide_eq_true_2 by done.
  rewrite scan_int_decimal by done. cbn beta iota. rewrite bool_decide_eq_true_2 by done.
  rewrite <- (app_nil_r (decimal d)). by rewrite scan_int_decimal.
Qed.
