(* ===== verification/Ids.v ===== *)
(** The emulated user and group ids: the wrappers of [ports/uids_generic/guts]
    and [ports/linux/guts], the environment variables that carry the ids over
    an [exec] ([pseudo_client_touchuid], [pseudo_client_touchgid]) and the part
    of [pseudo_init_client] that reads them.

    Ids are [uid_t] and [gid_t], unsigned 32-bit integers; [(uid_t) -1] leaves
    an id alone where the source says so. *)

From stdpp Require Import base list.
From Stdlib Require Import ZArith Lia Ascii.
From S2P Require Import Prelude Format.

Open Scope Z_scope.

(** The ids of the process and its variables [PSEUDO_UIDS], [PSEUDO_GIDS]. *)
Record ids := mkIds {
  pseudo_ruid : Z; pseudo_euid : Z; pseudo_suid : Z; id_fuid : Z;
  pseudo_rgid : Z; pseudo_egid : Z; pseudo_sgid : Z; id_fgid : Z;
  PSEUDO_UIDS : option bytes;
  PSEUDO_GIDS : option bytes
}.

Definition set_uids r e s f (i : ids) : ids :=
  match i with mkIds _ _ _ _ rg eg sg fg u g => mkIds r e s f rg eg sg fg u g end.
Definition set_gids r e s f (i : ids) : ids :=
  match i with mkIds ru eu su fu _ _ _ _ u g => mkIds ru eu su fu r e s f u g end.

Definition NO_CHANGE : Z := 2 ^ 32 - 1.        (* (uid_t) -1 *)
Definition EPERM : Z := 1.
Definition EFAULT : Z := 14.

Definition pseudo_client_touchuid (i : ids) : ids :=
  match i with mkIds ru eu su fu rg eg sg fg _ g =>
    mkIds ru eu su fu rg eg sg fg (Some (four_ints (int32 ru) (int32 eu) (int32 su) (int32 fu))) g end.

Definition pseudo_client_touchgid (i : ids) : ids :=
  match i with mkIds ru eu su fu rg eg sg fg u _ =>
    mkIds ru eu su fu rg eg sg fg u (Some (four_ints (int32 rg) (int32 eg) (int32 sg) (int32 fg))) end.

(** A wrapper's result: the ids, the return code, [errno] if it is set. *)
Definition result : Type := ids * Z * option Z.
Definition done_ (i : ids) : result := (i, 0, None).
Definition refused (i : ids) : result := (i, -1, Some EPERM).

(** ** Reading *)

Definition wrap_getuid (i : ids) : Z := pseudo_ruid i.
Definition wrap_geteuid (i : ids) : Z := pseudo_euid i.
Definition wrap_getgid (i : ids) : Z := pseudo_rgid i.
Definition wrap_getegid (i : ids) : Z := pseudo_egid i.

(** Which pointers were given; what is stored through them, the return code. *)
Definition wrap_getresuid (ruid euid suid : bool) (i : ids) : option Z * option Z * option Z * Z * option Z :=
  let get (b : bool) (v : Z) := if b then Some v else None in
  (get ruid (pseudo_ruid i), get euid (pseudo_euid i), get suid (pseudo_suid i),
   if ruid && euid && suid then 0 else -1, if ruid && euid && suid then None else Some EFAULT).

Definition wrap_getresgid (rgid egid sgid : bool) (i : ids) : option Z * option Z * option Z * Z * option Z :=
  let get (b : bool) (v : Z) := if b then Some v else None in
  (get rgid (pseudo_rgid i), get egid (pseudo_egid i), get sgid (pseudo_sgid i),
   if rgid && egid && sgid then 0 else -1, if rgid && egid && sgid then None else Some EFAULT).

(** ** Changing *)

Definition own_uid (i : ids) (v : Z) : bool := (v =? pseudo_euid i) || (v =? pseudo_ruid i) || (v =? pseudo_suid i).
Definition own_gid (i : ids) (v : Z) : bool := (v =? pseudo_egid i) || (v =? pseudo_rgid i) || (v =? pseudo_sgid i).

Definition wrap_setuid (uid : Z) (i : ids) : result :=
  if pseudo_euid i =? 0 then done_ (pseudo_client_touchuid (set_uids uid uid uid uid i))
  else if own_uid i uid then
    done_ (pseudo_client_touchuid (set_uids (pseudo_ruid i) uid (pseudo_suid i) uid i))
  else refused i.

Definition wrap_setgid (gid : Z) (i : ids) : result :=
  if pseudo_euid i =? 0 then done_ (pseudo_client_touchgid (set_gids gid gid gid gid i))
  else if own_gid i gid then
    done_ (pseudo_client_touchgid (set_gids (pseudo_rgid i) gid (pseudo_sgid i) gid i))
  else refused i.

Definition wrap_seteuid (euid : Z) (i : ids) : result :=
  if (pseudo_euid i =? 0) || own_uid i euid
  then done_ (pseudo_client_touchuid (set_uids (pseudo_ruid i) euid (pseudo_suid i) euid i))
  else refused i.

Definition wrap_setegid (egid : Z) (i : ids) : result :=
  if (pseudo_euid i =? 0) || own_gid i egid
  then done_ (pseudo_client_touchgid (set_gids (pseudo_rgid i) egid (pseudo_sgid i) egid i))
  else refused i.

(** May the caller ask for this id? *)
Definition uid_refused (i : ids) (v : Z) : bool :=
  negb (pseudo_euid i =? 0) && negb (v =? NO_CHANGE) && negb (own_uid i v).
Definition gid_refused (i : ids) (v : Z) : bool :=
  negb (pseudo_euid i =? 0) && negb (v =? NO_CHANGE) && negb (own_gid i v).

Definition or_keep (v old : Z) : Z := if v =? NO_CHANGE then old else v.

Definition wrap_setreuid (ruid euid : Z) (i : ids) : result :=
  if uid_refused i ruid || uid_refused i euid then refused i
  else
    let e := or_keep euid (pseudo_euid i) in
    done_ (pseudo_client_touchuid (set_uids (or_keep ruid (pseudo_ruid i)) e (pseudo_suid i) e i)).

(** The group ids change, but the user ids' variable is written. *)
Definition wrap_setregid (rgid egid : Z) (i : ids) : result :=
  if gid_refused i rgid || gid_refused i egid then refused i
  else
    let e := or_keep egid (pseudo_egid i) in
    done_ (pseudo_client_touchuid (set_gids (or_keep rgid (pseudo_rgid i)) e (pseudo_sgid i) e i)).

Definition wrap_setresuid (ruid euid suid : Z) (i : ids) : result :=
  if uid_refused i ruid || uid_refused i euid || uid_refused i suid then refused i
  else
    let e := or_keep euid (pseudo_euid i) in
    done_ (pseudo_client_touchuid
      (set_uids (or_keep ruid (pseudo_ruid i)) e (or_keep suid (pseudo_suid i)) e i)).

Definition wrap_setresgid (rgid egid sgid : Z) (i : ids) : result :=
  if gid_refused i rgid || gid_refused i egid || gid_refused i sgid then refused i
  else
    let e := or_keep egid (pseudo_egid i) in
    done_ (pseudo_client_touchuid
      (set_gids (or_keep rgid (pseudo_rgid i)) e (or_keep sgid (pseudo_sgid i)) e i)).

Definition wrap_setfsuid (fsuid : Z) (i : ids) : result :=
  if (pseudo_euid i =? 0) || own_uid i fsuid
  then done_ (set_uids (pseudo_ruid i) (pseudo_euid i) (pseudo_suid i) fsuid i)
  else refused i.

Definition wrap_setfsgid (fsgid : Z) (i : ids) : result :=
  if (pseudo_euid i =? 0) || own_gid i fsgid
  then done_ (set_gids (pseudo_rgid i) (pseudo_egid i) (pseudo_sgid i) fsgid i)
  else refused i.

(** The size and the list are ignored. *)
Definition wrap_setgroups (size : Z) (list : list Z) (i : ids) : result := done_ i.

(** ** Starting *)

(** What [sscanf] stores: the values it converted, the old ones behind them;
    an [int] is stored in an unsigned variable. *)
Definition scanned (values : list Z) (k : nat) (old : Z) : Z :=
  match values !! k with Some v => uint32 v | None => old end.

(** [PSEUDO_UIDS] first; the fourth value of [PSEUDO_GIDS] goes to [pseudo_fuid]. *)
Definition read_uids (i : ids) : ids :=
  match PSEUDO_UIDS i with
  | Some env =>
      let v := scan_ints 4 env in
      set_uids (scanned v 0 (pseudo_ruid i)) (scanned v 1 (pseudo_euid i)) (scanned v 2 (pseudo_suid i)) (scanned v 3 (id_fuid i)) i
  | None => i
  end.

Definition read_gids (i : ids) : ids :=
  match PSEUDO_GIDS i with
  | Some env =>
      let v := scan_ints 4 env in
      set_uids (pseudo_ruid i) (pseudo_euid i) (pseudo_suid i) (scanned v 3 (id_fuid i))
        (set_gids (scanned v 0 (pseudo_rgid i)) (scanned v 1 (pseudo_egid i)) (scanned v 2 (pseudo_sgid i)) (id_fgid i) i)
  | None => i
  end.

(** A program started with these variables; its own ids are 0 at first. *)
Definition start_ids (uids gids : option bytes) : ids := read_gids (read_uids (mkIds 0 0 0 0 0 0 0 0 uids gids)).

Definition exec_ids (i : ids) : ids := start_ids (PSEUDO_UIDS i) (PSEUDO_GIDS i).

(** ** Sequences of calls *)

Inductive id_call :=
| Setuid (uid : Z) | Seteuid (euid : Z) | Setreuid (ruid euid : Z) | Setresuid (ruid euid suid : Z) | Setfsuid (fsuid : Z)
| Setgid (gid : Z) | Setegid (egid : Z) | Setregid (rgid egid : Z) | Setresgid (rgid egid sgid : Z) | Setfsgid (fsgid : Z)
| Setgroups (size : Z) (list : list Z).

Definition id_step (c : id_call) (i : ids) : result :=
  match c with
  | Setuid u => wrap_setuid u i | Seteuid u => wrap_seteuid u i | Setreuid r e => wrap_setreuid r e i
  | Setresuid r e s => wrap_setresuid r e s i | Setfsuid f => wrap_setfsuid f i
  | Setgid g => wrap_setgid g i | Setegid g => wrap_setegid g i | Setregid r e => wrap_setregid r e i
  | Setresgid r e s => wrap_setresgid r e s i | Setfsgid f => wrap_setfsgid f i
  | Setgroups n l => wrap_setgroups n l i
  end.

Definition id_run (cs : list id_call) (i : ids) : ids := foldl (fun i c => (id_step c i).1.1) i cs.
