(* ===== verification/IdsSpec.v ===== *)
(** The emulated ids: a process that gave up its privileges cannot get them
    back, and what of the ids survives an [exec]. *)

From stdpp Require Import base list.
From Stdlib Require Import ZArith Lia Ascii.
From S2P Require Import Prelude Format Ids.

Open Scope Z_scope.

Definition uids_of (i : ids) : list Z := [pseudo_ruid i; pseudo_euid i; pseudo_suid i].
Definition gids_of (i : ids) : list Z := [pseudo_rgid i; pseudo_egid i; pseudo_sgid i].

(** All ids of [j] are ids of [i]. *)
Record within (i j : ids) : Prop := {
  within_uids : uids_of j ⊆ uids_of i;
  within_gids : gids_of j ⊆ gids_of i;
  within_fuid : id_fuid j ∈ id_fuid i :: uids_of i;
  within_fgid : id_fgid j ∈ id_fgid i :: gids_of i
}.

#[export] Instance within_preorder : PreOrder within.
Proof.
  split.
  - intros i. split; [done|done|left|left].
  - intros i j k [A B C D] [A' B' C' D']. split; [by transitivity (uids_of j)|by transitivity (gids_of j)| |].
    + apply elem_of_cons in C' as [->|?]; [done|]. right. auto.
    + apply elem_of_cons in D' as [->|?]; [done|]. right. auto.
Qed.

Lemma own_uid_in i v : own_uid i v = true <-> v ∈ uids_of i.
Proof. unfold own_uid, uids_of. rewrite !orb_true_iff, !Z.eqb_eq, !elem_of_cons, elem_of_nil. tauto. Qed.

Lemma own_gid_in i v : own_gid i v = true <-> v ∈ gids_of i.
Proof. unfold own_gid, gids_of. rewrite !orb_true_iff, !Z.eqb_eq, !elem_of_cons, elem_of_nil. tauto. Qed.

Lemma sub3 (a b c : Z) l : a ∈ l -> b ∈ l -> c ∈ l -> [a; b; c] ⊆ l.
Proof. intros Ha Hb Hc x. rewrite !elem_of_cons, elem_of_nil. intros [->|[->|[->|[]]]]; done. Qed.

Lemma own_ids i : pseudo_ruid i ∈ uids_of i /\ pseudo_euid i ∈ uids_of i /\ pseudo_suid i ∈ uids_of i /\
  pseudo_rgid i ∈ gids_of i /\ pseudo_egid i ∈ gids_of i /\ pseudo_sgid i ∈ gids_of i.
Proof. unfold uids_of, gids_of. rewrite !elem_of_cons. auto 10. Qed.

Lemma touchuid_within i j : within i j -> within i (pseudo_client_touchuid j).
Proof. intros []. destruct j. by split. Qed.
Lemma touchgid_within i j : within i j -> within i (pseudo_client_touchgid j).
Proof. intros []. destruct j. by split. Qed.

Lemma set_uids_within i r e s f : r ∈ uids_of i -> e ∈ uids_of i -> s ∈ uids_of i -> f ∈ uids_of i -> within i (set_uids r e s f i).
Proof. intros. destruct i. split; [by apply sub3|done|by right|left]. Qed.
Lemma set_gids_within i r e s f : r ∈ gids_of i -> e ∈ gids_of i -> s ∈ gids_of i -> f ∈ gids_of i -> within i (set_gids r e s f i).
Proof. intros. destruct i. split; [done|by apply sub3|left|by right]. Qed.

(** Without privileges an id that is not refused is one of one's own. *)
Lemma uid_allowed i v old : pseudo_euid i <> 0 -> uid_refused i v = false -> old ∈ uids_of i -> or_keep v old ∈ uids_of i.
Proof.
  intros He. unfold uid_refused, or_keep. rewrite (proj2 (Z.eqb_neq _ _) He). cbn [negb andb].
  destruct (v =? NO_CHANGE); [done|]. cbn [negb andb]. intros H%negb_false_iff _. by apply own_uid_in.
Qed.
Lemma gid_allowed i v old : pseudo_euid i <> 0 -> gid_refused i v = false -> old ∈ gids_of i -> or_keep v old ∈ gids_of i.
Proof.
  intros He. unfold gid_refused, or_keep. rewrite (proj2 (Z.eqb_neq _ _) He). cbn [negb andb].
  destruct (v =? NO_CHANGE); [done|]. cbn [negb andb]. intros H%negb_false_iff _. by apply own_gid_in.
Qed.

Lemma id_step_within c i : pseudo_euid i <> 0 -> within i (id_step c i).1.1.
Proof.
  intros He. destruct (own_ids i) as (Hr & Heu & Hs & Hrg & Heg & Hsg). pose proof (proj2 (Z.eqb_neq _ _) He) as Hz.
  destruct c as [u|e|r e|r e s|f|u|e|r e|r e s|f|n l]; cbn [id_step].
  - unfold wrap_setuid. rewrite Hz. destruct (own_uid i u) eqn:Ho; [|done]. apply own_uid_in in Ho.
    by apply touchuid_within, set_uids_within.
  - unfold wrap_seteuid. rewrite Hz. cbn [orb]. destruct (own_uid i e) eqn:Ho; [|done]. apply own_uid_in in Ho.
    by apply touchuid_within, set_uids_within.
  - unfold wrap_setreuid. destruct (uid_refused i r) eqn:H1; [done|]. destruct (uid_refused i e) eqn:H2; [done|].
    apply touchuid_within, set_uids_within; [by apply uid_allowed..|done|by apply uid_allowed].
  - unfold wrap_setresuid. destruct (uid_refused i r) eqn:H1; [done|]. destruct (uid_refused i e) eqn:H2; [done|].
    destruct (uid_refused i s) eqn:H3; [done|]. apply touchuid_within, set_uids_within; by apply uid_allowed.
  - unfold wrap_setfsuid. rewrite Hz. cbn [orb]. destruct (own_uid i f) eqn:Ho; [|done]. apply own_uid_in in Ho.
    by apply set_uids_within.
  - unfold wrap_setgid. rewrite Hz. destruct (own_gid i u) eqn:Ho; [|done]. apply own_gid_in in Ho.
    by apply touchgid_within, set_gids_within.
  - unfold wrap_setegid. rewrite Hz. cbn [orb]. destruct (own_gid i e) eqn:Ho; [|done]. apply own_gid_in in Ho.
    by apply touchgid_within, set_gids_within.
  - unfold wrap_setregid. destruct (gid_refused i r) eqn:H1; [done|]. destruct (gid_refused i e) eqn:H2; [done|].
    apply touchuid_within, set_gids_within; [by apply gid_allowed..|done|by apply gid_allowed].
  - unfold wrap_setresgid. destruct (gid_refused i r) eqn:H1; [done|]. destruct (gid_refused i e) eqn:H2; [done|].
    destruct (gid_refused i s) eqn:H3; [done|]. apply touchuid_within, set_gids_within; by apply gid_allowed.
  - unfold wrap_setfsgid. rewrite Hz. cbn [orb]. destruct (own_gid i f) eqn:Ho; [|done]. apply own_gid_in in Ho.
    by apply set_gids_within.
  - done.
Qed.

Lemma id_run_within cs i : 0 ∉ uids_of i -> within i (id_run cs i).
Proof.
  revert i. induction cs as [|c cs IH]; intros i Hi; [done|].
  assert (pseudo_euid i <> 0) as He by (intros H0; apply Hi; rewrite <- H0; by apply own_ids).
  pose proof (id_step_within c i He) as Hw. cbn [id_run foldl] in *. etransitivity; [exact Hw|].
  apply IH. intros H0. apply Hi. by apply (within_uids _ _ Hw).
Qed.

(** ** The environment *)

Definition uid_ok (v : Z) : Prop := 0 <= v < 2 ^ 32.

Lemma uid_roundtrip v : uid_ok v -> uint32 (int32 v) = v.
Proof. intros Hv. rewrite wrap_unsigned_signed by lia. by apply wrap_unsigned_small. Qed.

Lemma scan_uids a b c d : scan_ints 4 (four_ints (int32 a) (int32 b) (int32 c) (int32 d)) = [int32 a; int32 b; int32 c; int32 d].
Proof. apply scan_four_ints; apply (wrap_signed_range 32); lia. Qed.

(** The variables say what the ids are, and the file system's ids are the
    effective ones. *)
Record mirrored (i : ids) : Prop := {
  mir_uids : uid_ok (pseudo_ruid i) /\ uid_ok (pseudo_euid i) /\ uid_ok (pseudo_suid i);
  mir_gids : uid_ok (pseudo_rgid i) /\ uid_ok (pseudo_egid i) /\ uid_ok (pseudo_sgid i);
  mir_fs : id_fuid i = pseudo_euid i /\ id_fgid i = pseudo_egid i;
  mir_uid_var : match PSEUDO_UIDS i with
    | Some env => env = four_ints (int32 (pseudo_ruid i)) (int32 (pseudo_euid i)) (int32 (pseudo_suid i)) (int32 (id_fuid i))
    | None => pseudo_ruid i = 0 /\ pseudo_euid i = 0 /\ pseudo_suid i = 0
    end;
  mir_gid_var : match PSEUDO_GIDS i with
    | Some env => env = four_ints (int32 (pseudo_rgid i)) (int32 (pseudo_egid i)) (int32 (pseudo_sgid i)) (int32 (id_fgid i))
    | None => pseudo_rgid i = 0 /\ pseudo_egid i = 0 /\ pseudo_sgid i = 0
    end
}.

(** The calls that write the variable of the ids they change. *)
Definition mirrors (c : id_call) : Prop :=
  match c with
  | Setuid u | Seteuid u | Setgid u | Setegid u => uid_ok u
  | Setreuid r e => uid_ok r /\ uid_ok e
  | Setresuid r e s => uid_ok r /\ uid_ok e /\ uid_ok s
  | Setgroups _ _ => True
  | Setregid _ _ | Setresgid _ _ _ | Setfsuid _ | Setfsgid _ => False
  end.

Lemma or_keep_ok v old : uid_ok v -> uid_ok old -> uid_ok (or_keep v old).
Proof. unfold or_keep. by destruct (_ =? _). Qed.

Lemma uids_mirrored i r e s : mirrored i -> uid_ok r -> uid_ok e -> uid_ok s ->
  mirrored (pseudo_client_touchuid (set_uids r e s e i)).
Proof. intros [A B [C D] F G] ? ? ?. destruct i. constructor; cbn in *; auto. Qed.
Lemma gids_mirrored i r e s : mirrored i -> uid_ok r -> uid_ok e -> uid_ok s ->
  mirrored (pseudo_client_touchgid (set_gids r e s e i)).
Proof. intros [A B [C D] F G] ? ? ?. destruct i. constructor; cbn in *; auto. Qed.

Lemma id_step_mirrored c i : mirrors c -> mirrored i -> mirrored (id_step c i).1.1.
Proof.
  intros Hc Hi. pose proof (mir_uids _ Hi) as (Hr & He & Hs). pose proof (mir_gids _ Hi) as (Hrg & Heg & Hsg).
  destruct c as [u|e|r e|r e s|f|u|e|r e|r e s|f|n l]; cbn [id_step mirrors] in *; try done.
  - unfold wrap_setuid. destruct (_ =? 0); [|destruct (own_uid i u); [|done]]; by apply uids_mirrored.
  - unfold wrap_seteuid. destruct (_ || _); [|done]. by apply uids_mirrored.
  - unfold wrap_setreuid. destruct (_ || _); [done|]. destruct Hc. apply uids_mirrored; try done; by apply or_keep_ok.
  - unfold wrap_setresuid. destruct (_ || _); [done|]. destruct Hc as (?&?&?). apply uids_mirrored; try done; by apply or_keep_ok.
  - unfold wrap_setgid. destruct (_ =? 0); [|destruct (own_gid i u); [|done]]; by apply gids_mirrored.
  - unfold wrap_setegid. destruct (_ || _); [|done]. by apply gids_mirrored.
Qed.

Lemma id_run_mirrored cs i : Forall mirrors cs -> mirrored i -> mirrored (id_run cs i).
Proof.
  revert i. induction cs as [|c cs IH]; intros i Hcs Hi; [done|]. apply Forall_cons in Hcs as [Hc Hcs].
  cbn [id_run foldl]. apply IH; [done|]. by apply id_step_mirrored.
Qed.

(** What a program started by a mirrored process reads. *)
Lemma exec_mirrored i : mirrored i ->
  uids_of (exec_ids i) = uids_of i /\ gids_of (exec_ids i) = gids_of i /\ id_fgid (exec_ids i) = 0 /\
  id_fuid (exec_ids i) = match PSEUDO_GIDS i with Some _ => id_fgid i | None => id_fuid i end.
Proof.
  intros [(Hr & He & Hs) (Hrg & Heg & Hsg) [Hfu Hfg] Hu Hg]. unfold exec_ids, start_ids, uids_of, gids_of.
  destruct i as [ru eu su fu rg eg sg fg u g]. cbn in Hr, He, Hs, Hrg, Heg, Hsg, Hfu, Hfg, Hu, Hg.
  cbn [PSEUDO_UIDS PSEUDO_GIDS pseudo_ruid pseudo_euid pseudo_suid id_fuid pseudo_rgid pseudo_egid pseudo_sgid id_fgid]. subst fu fg.
  destruct u as [u|], g as [g|]; unfold read_uids, read_gids, scanned;
    cbn -[scan_ints four_ints wrap_signed wrap_unsigned]; subst; rewrite ?scan_uids; cbn -[wrap_signed wrap_unsigned]; rewrite ?uid_roundtrip by done;
    try destruct Hu as (-> & -> & ->); try destruct Hg as (-> & -> & ->); repeat split; try done.
Qed.

(** ** Properties *)

(** C39: a process none of whose user ids is 0 stays within the ids it has,
    whatever calls it makes: its real, effective and saved ids, user and group,
    are always among those it started with, and so are the ids new files get.
    In particular [setuid] gives up root for good, while [seteuid] leaves the
    way back through the real id. *)
Theorem ids_no_escalation (i : ids) (cs : list id_call) :
  (0 ∉ uids_of i -> within i (id_run cs i)) /\
  (forall u, pseudo_euid i = 0 -> u <> 0 ->
     forall v, v ∈ id_fuid (id_run (Setuid u :: cs) i) :: uids_of (id_run (Setuid u :: cs) i) -> v = u) /\
  (forall u, pseudo_euid i = 0 -> pseudo_ruid i = 0 -> u <> 0 ->
     pseudo_euid (id_run [Seteuid u; Seteuid 0] i) = 0).
Proof.
  split; [apply id_run_within|]. split.
  - intros u He Hu v Hv. cbn [id_run foldl id_step] in Hv.
    assert ((wrap_setuid u i).1.1 = pseudo_client_touchuid (set_uids u u u u i)) as Hset
      by (unfold wrap_setuid; by rewrite He).
    rewrite Hset in Hv. set (j := pseudo_client_touchuid _) in *.
    assert (uids_of j = [u; u; u] /\ id_fuid j = u) as [Hj Hf] by (by destruct i).
    assert (within j (id_run cs j)) as [Hw _ Hwf _].
    { apply id_run_within. rewrite Hj, !elem_of_cons, elem_of_nil. naive_solver. }
    rewrite Hj in Hw. rewrite Hj, Hf in Hwf. apply elem_of_cons in Hv as [->|Hv].
    + rewrite !elem_of_cons, elem_of_nil in Hwf. naive_solver.
    + apply Hw in Hv. rewrite !elem_of_cons, elem_of_nil in Hv. naive_solver.
  - intros u He Hr Hu. cbn [id_run foldl id_step]. unfold wrap_seteuid. rewrite He. cbn [orb done_ fst].
    destruct i. cbn in *. subst. unfold own_uid. cbn. destruct u; by cbn.
Qed.

(** After any sequence of calls that write the variable of the ids they
    change, a program that is started gets the same real, effective and saved
    ids, user and group.  The ids new files get do not survive: the fourth
    number of [PSEUDO_GIDS] is read into the user id, and the group id starts
    as 0.  [setregid] writes the wrong variable, so its effect is lost, too. *)
Theorem ids_survive_exec (i : ids) (cs : list id_call) :
  mirrored i -> Forall mirrors cs ->
  let j := id_run cs i in
  uids_of (exec_ids j) = uids_of j /\ gids_of (exec_ids j) = gids_of j /\
  id_fgid (exec_ids j) = 0 /\
  id_fuid (exec_ids j) = match PSEUDO_GIDS j with Some _ => id_fgid j | None => id_fuid j end /\
  (pseudo_euid j = 0 -> forall rgid egid, rgid <> NO_CHANGE -> rgid <> pseudo_rgid j ->
     pseudo_rgid (exec_ids (id_step (Setregid rgid egid) j).1.1) <> rgid).
Proof.
  intros Hi Hcs. cbv zeta. pose proof (id_run_mirrored cs i Hcs Hi) as Hj. set (j := id_run cs i) in *.
  destruct (exec_mirrored j Hj) as (H1 & H2 & H3 & H4). do 4 (split; [done|]).
  intros He rgid egid Hn Hne. cbn [id_step]. unfold wrap_setregid, gid_refused. rewrite He. cbn [Z.eqb negb andb orb done_ fst].
  assert (forall k e, PSEUDO_GIDS k = PSEUDO_GIDS j -> exec_ids k = e -> pseudo_rgid e = pseudo_rgid j) as Hk.
  { intros k e Hk <-. unfold exec_ids, start_ids. rewrite Hk. injection H2 as H2 _ _. revert H2. unfold exec_ids, start_ids, read_gids, read_uids.
    destruct (PSEUDO_UIDS k), (PSEUDO_UIDS j), (PSEUDO_GIDS j); done. }
  erewrite Hk; [by intros ?; apply Hne| |done]. by destruct j.
Qed.

(** ** Witnesses *)

Definition root_ids : ids := mkIds 0 0 0 0 0 0 0 0 None None.

Lemma root_mirrored : mirrored root_ids.
Proof. constructor; repeat split; vm_compute; congruence. Qed.

Lemma ids_no_escalation_witness :
  within (id_run [Setuid 1000] root_ids) (id_run [Setresuid 0 0 0; Seteuid 0] (id_run [Setuid 1000] root_ids)).
Proof.
  apply (ids_no_escalation (id_run [Setuid 1000] root_ids) [Setresuid 0 0 0; Seteuid 0]).
  change (uids_of (id_run [Setuid 1000] root_ids)) with [1000; 1000; 1000].
  rewrite !elem_of_cons, elem_of_nil. intros [H|[H|[H|[]]]]; discriminate H.
Defined.

Lemma ids_survive_exec_witness :
  uids_of (exec_ids (id_run [Setegid 100; Seteuid 1000] root_ids)) = [0; 1000; 0].
Proof.
  destruct (ids_survive_exec root_ids [Setegid 100; Seteuid 1000] root_mirrored) as [H _].
  - repeat constructor; vm_compute; congruence.
  - exact H.
Defined.
