(* ===== verification/Tables.v ===== *)
(** The enumerations of [enums/*.in] and the lookup functions the template
    [table_templates/pseudo_tables.c] generates for each of them: an id is a
    C [int], [0] is the "none" entry, and an id outside the table is answered
    by a default. *)

From stdpp Require Import base list numbers strings.
From Stdlib Require Import ZArith Lia Ascii.
From S2P Require Import Prelude.

Open Scope Z_scope.

(** ** The generated lookup functions *)

(** [pseudo_X_name]: [names] holds "none" followed by the entries, so that its
    length is [X_MAX]. *)
Definition enum_name (names : list bytes) (id : Z) : bytes :=
  if (id <? 0) || (Z.of_nat (length names) <=? id) then $"unknown"
  else default ($"unknown") (names !! Z.to_nat id).

Fixpoint enum_scan (names : list bytes) (id : Z) (name : bytes) : Z :=
  match names with
  | [] => -1
  | n :: names' => if decide (n = name) then id else enum_scan names' (id + 1) name
  end.

(** [pseudo_X_id]: [None] is the NULL pointer. *)
Definition enum_id (names : list bytes) (name : option bytes) : Z :=
  match name with
  | None => -1
  | Some s => enum_scan names 0 s
  end.

(** [pseudo_X_column]: the column's default value answers a bad id. *)
Definition enum_column {A} (dflt : A) (column : list A) (id : Z) : A :=
  if (id <? 0) || (Z.of_nat (length column) <=? id) then dflt
  else default dflt (column !! Z.to_nat id).

(** ** [enums/op.in] *)

Inductive pseudo_op_t :=
  | OP_NONE | OP_CHDIR | OP_CHMOD | OP_CHOWN | OP_CHROOT | OP_CLOSE | OP_CREAT
  | OP_DUP | OP_FCHMOD | OP_FCHOWN | OP_FSTAT | OP_LINK | OP_MKDIR | OP_MKNOD
  | OP_OPEN | OP_RENAME | OP_STAT | OP_UNLINK | OP_SYMLINK | OP_EXEC
  | OP_MAY_UNLINK | OP_DID_UNLINK | OP_CANCEL_UNLINK | OP_GET_XATTR
  | OP_LIST_XATTR | OP_REMOVE_XATTR | OP_SET_XATTR | OP_CREATE_XATTR
  | OP_REPLACE_XATTR | OP_CLOSEFROM
  | OP_other (code : Z).   (* a value outside the table *)

#[export] Instance pseudo_op_eq_dec : EqDecision pseudo_op_t.
Proof. solve_decision. Defined.

Definition op_all : list pseudo_op_t :=
  [OP_NONE; OP_CHDIR; OP_CHMOD; OP_CHOWN; OP_CHROOT; OP_CLOSE; OP_CREAT;
   OP_DUP; OP_FCHMOD; OP_FCHOWN; OP_FSTAT; OP_LINK; OP_MKDIR; OP_MKNOD;
   OP_OPEN; OP_RENAME; OP_STAT; OP_UNLINK; OP_SYMLINK; OP_EXEC;
   OP_MAY_UNLINK; OP_DID_UNLINK; OP_CANCEL_UNLINK; OP_GET_XATTR;
   OP_LIST_XATTR; OP_REMOVE_XATTR; OP_SET_XATTR; OP_CREATE_XATTR;
   OP_REPLACE_XATTR; OP_CLOSEFROM].

Definition op_names : list bytes :=
  [$"none"; $"chdir"; $"chmod"; $"chown"; $"chroot"; $"close"; $"creat"; $"dup";
   $"fchmod"; $"fchown"; $"fstat"; $"link"; $"mkdir"; $"mknod"; $"open";
   $"rename"; $"stat"; $"unlink"; $"symlink"; $"exec"; $"may-unlink";
   $"did-unlink"; $"cancel-unlink"; $"get-xattr"; $"list-xattr";
   $"remove-xattr"; $"set-xattr"; $"create-xattr"; $"replace-xattr"; $"closefrom"].

(** The [wait] column: does the client need the answer? *)
Definition op_waits : list Z :=
  [0; 0; 0; 0; 0; 0; 0; 0; 0; 0; 1; 0; 0; 1; 0; 0; 1; 0; 0; 0; 1; 0; 0; 1; 1; 1;
   0; 1; 1; 0].

Fixpoint index_of (ops : list pseudo_op_t) (o : pseudo_op_t) (i : Z) : Z :=
  match ops with
  | [] => -1
  | o' :: ops' => if decide (o' = o) then i else index_of ops' o (i + 1)
  end.

Definition op_code (o : pseudo_op_t) : Z :=
  match o with
  | OP_other z => z
  | _ => index_of op_all o 0
  end.

Definition op_of_code (z : Z) : pseudo_op_t :=
  if z <? 0 then OP_other z else default (OP_other z) (op_all !! Z.to_nat z).

Definition pseudo_op_name (o : pseudo_op_t) : bytes := enum_name op_names (op_code o).
Definition pseudo_op_id (name : option bytes) : Z := enum_id op_names name.
Definition pseudo_op_wait (o : pseudo_op_t) : Z := enum_column 0 op_waits (op_code o).

(** ** [enums/msg_type.in], [enums/res.in], [enums/sev.in] *)

Definition PSEUDO_MSG_NONE : Z := 0.
Definition PSEUDO_MSG_PING : Z := 1.
Definition PSEUDO_MSG_SHUTDOWN : Z := 2.
Definition PSEUDO_MSG_OP : Z := 3.
Definition PSEUDO_MSG_ACK : Z := 4.
Definition PSEUDO_MSG_NAK : Z := 5.
Definition PSEUDO_MSG_FASTOP : Z := 6.

Definition msg_type_names : list bytes :=
  [$"none"; $"ping"; $"shutdown"; $"op"; $"ack"; $"nak"; $"fastop"].

Definition RESULT_NONE : Z := 0.
Definition RESULT_SUCCEED : Z := 1.
Definition RESULT_FAIL : Z := 2.
Definition RESULT_ERROR : Z := 3.
Definition RESULT_ABORT : Z := 4.

Definition res_names : list bytes :=
  [$"none"; $"succeed"; $"fail"; $"error"; $"abort"].

Definition SEVERITY_NONE : Z := 0.
Definition SEVERITY_DEBUG : Z := 1.
Definition SEVERITY_INFO : Z := 2.
Definition SEVERITY_WARN : Z := 3.
Definition SEVERITY_ERROR : Z := 4.
Definition SEVERITY_CRITICAL : Z := 5.

Definition sev_names : list bytes :=
  [$"none"; $"debug"; $"info"; $"warn"; $"error"; $"critical"].

(** ** [enums/query_field.in], [enums/query_type.in] *)

Definition PSQF_NONE : Z := 0.
Definition PSQF_ACCESS : Z := 1.
Definition PSQF_CLIENT : Z := 2.
Definition PSQF_DEV : Z := 3.
Definition PSQF_FD : Z := 4.
Definition PSQF_FTYPE : Z := 5.
Definition PSQF_GID : Z := 6.
Definition PSQF_ID : Z := 7.
Definition PSQF_INODE : Z := 8.
Definition PSQF_MODE : Z := 9.
Definition PSQF_OP : Z := 10.
Definition PSQF_ORDER : Z := 11.
Definition PSQF_PATH : Z := 12.
Definition PSQF_PERM : Z := 13.
Definition PSQF_PROGRAM : Z := 14.
Definition PSQF_RESULT : Z := 15.
Definition PSQF_SEVERITY : Z := 16.
Definition PSQF_STAMP : Z := 17.
Definition PSQF_TAG : Z := 18.
Definition PSQF_TEXT : Z := 19.
Definition PSQF_TYPE : Z := 20.
Definition PSQF_UID : Z := 21.
Definition PSQF_MAX : Z := 22.

Definition query_field_names : list bytes :=
  [$"none"; $"access"; $"client"; $"dev"; $"fd"; $"ftype"; $"gid"; $"id";
   $"inode"; $"mode"; $"op"; $"order"; $"path"; $"perm"; $"program"; $"result";
   $"severity"; $"stamp"; $"tag"; $"text"; $"type"; $"uid"].

Definition PSQT_UNKNOWN : Z := -1.
Definition PSQT_NONE : Z := 0.
Definition PSQT_EXACT : Z := 1.
Definition PSQT_LESS : Z := 2.
Definition PSQT_GREATER : Z := 3.
Definition PSQT_BITAND : Z := 4.
Definition PSQT_NOTEQUAL : Z := 5.
Definition PSQT_LIKE : Z := 6.
Definition PSQT_NOTLIKE : Z := 7.
Definition PSQT_SQLPAT : Z := 8.

Definition query_type_names : list bytes :=
  [$"none"; $"exact"; $"less"; $"greater"; $"bitand"; $"notequal"; $"like";
   $"notlike"; $"sqlpat"].

Definition query_type_sqls : list bytes :=
  [$"LITTLE BOBBY TABLES"; $"="; $"<"; $">"; $"&"; $"!="; $"LIKE"; $"NOT LIKE";
   $"LIKE"].

Definition pseudo_query_field_name (f : Z) : bytes := enum_name query_field_names f.
Definition pseudo_query_type_sql (t : Z) : bytes :=
  enum_column ($"LITTLE BOBBY TABLES") query_type_sqls t.

(** ** [enums/debug_type.in] *)

Definition debug_names : list bytes :=
  [$"none"; $"consistency"; $"file"; $"op"; $"pid"; $"client"; $"server"; $"db";
   $"xattrdb"; $"profile"; $"syscall"; $"env"; $"chroot"; $"path"; $"sql";
   $"wrapper"; $"ipc"; $"invoke"; $"benchmark"; $"verbose"; $"xattr"].

(** The [symbolic] column; the "none" entry holds the default, a NUL. *)
Definition debug_symbols : bytes := NUL :: $"nfoPcvdDRyerpswikbVx".

Definition PDBG_MAX : Z := 21.

Definition pseudo_debug_type_symbolic (id : Z) : ascii := enum_column NUL debug_symbols id.

(** The inverse of the INDEXED column: a table over the bytes from the least
    to the greatest symbol, [0] where no symbol was given. *)
Fixpoint symbol_scan (syms : bytes) (id : Z) (c : ascii) : Z :=
  match syms with
  | [] => 0
  | s :: syms' => if decide (s = c) then id else symbol_scan syms' (id + 1) c
  end.

Definition pseudo_debug_type_symbolic_id (c : ascii) : Z :=
  let z := Z_of_byte c in
  if (z <? Z_of_byte "D") || (Z_of_byte "y" <? z) then -1
  else let id := symbol_scan (tail debug_symbols) 1 c in
       if negb (id =? 0) then id else -1.

(** ** Lemmas *)

Lemma enum_scan_lookup names i k s :
  NoDup names -> names !! k = Some s -> enum_scan names i s = i + Z.of_nat k.
Proof.
  revert i k. induction names as [|n names IH]; intros i k Hnd Hk; [done|].
  apply NoDup_cons in Hnd as [Hn Hnd]. destruct k as [|k]; simpl in *.
  - injection Hk as ->. rewrite decide_True by done. lia.
  - rewrite decide_False.
    + rewrite (IH _ k) by done. lia.
    + intros ->. apply Hn. by eapply list_elem_of_lookup_2.
Qed.

(** In a table without repeated names, the id of the name of an id is the id. *)
Lemma enum_id_name names id :
  NoDup names -> 0 <= id < Z.of_nat (length names) ->
  enum_id names (Some (enum_name names id)) = id.
Proof.
  intros Hnd Hid. unfold enum_id, enum_name.
  replace (id <? 0) with false by (symmetry; apply Z.ltb_ge; lia).
  replace (Z.of_nat (length names) <=? id) with false by (symmetry; apply Z.leb_gt; lia).
  destruct (lookup_lt_is_Some_2 names (Z.to_nat id)) as [s Hs]; [lia|].
  simpl. rewrite Hs. simpl. rewrite (enum_scan_lookup _ _ _ _ Hnd Hs). lia.
Qed.

Lemma op_of_code_op_code o :
  (forall z, o = OP_other z -> z < 0 \/ 30 <= z) -> op_of_code (op_code o) = o.
Proof.
  intros H. destruct o; try reflexivity. unfold op_of_code, op_code.
  destruct (Z.ltb_spec code 0); [done|].
  destruct (H _ eq_refl); [lia|]. rewrite lookup_ge_None_2; [done|]. simpl. lia.
Qed.
