(* ===== verification/Modes.v ===== *)
(** File modes and access bits: the type bits of [st_mode] the server tests,
    the macros [PSEUDO_FS_MODE] and [PSEUDO_DB_MODE] of [pseudo_client.h],
    [PSEUDO_ACCESS] of [pseudo_ipc.h] and [pseudo_access_fopen] of
    [pseudo_util.c]. *)

From stdpp Require Import base list numbers strings.
From Stdlib Require Import ZArith Lia Ascii.
From S2P Require Import Prelude.

Open Scope Z_scope.

(** ** [sys/stat.h] *)

Definition S_IFMT : Z := 0xf000.
Definition S_IFIFO : Z := 0x1000.
Definition S_IFCHR : Z := 0x2000.
Definition S_IFDIR : Z := 0x4000.
Definition S_IFBLK : Z := 0x6000.
Definition S_IFREG : Z := 0x8000.
Definition S_IFLNK : Z := 0xa000.
Definition S_IFSOCK : Z := 0xc000.

Definition S_ISDIR (m : Z) : bool := Z.land m S_IFMT =? S_IFDIR.
Definition S_ISLNK (m : Z) : bool := Z.land m S_IFMT =? S_IFLNK.
Definition S_ISBLK (m : Z) : bool := Z.land m S_IFMT =? S_IFBLK.
Definition S_ISCHR (m : Z) : bool := Z.land m S_IFMT =? S_IFCHR.
Definition S_ISREG (m : Z) : bool := Z.land m S_IFMT =? S_IFREG.

(** ** [pseudo_client.h]: modes on disk and modes in the database *)

(** [S_IRUSR | S_IWUSR] is 0600, [S_IXUSR] 0100, [S_IWGRP | S_IWOTH] 022. *)
Definition PSEUDO_FS_MODE (mode : Z) (isdir : bool) : Z :=
  Z.ldiff (Z.lor mode (Z.lor 0x180 (if isdir then 0x40 else 0))) 0x12.

(** 0722 *)
Definition PSEUDO_DB_MODE (fs_mode user_mode : Z) : Z :=
  Z.lor (Z.ldiff fs_mode 0x1d2) (Z.land user_mode 0x1d2).

(** ** [pseudo_ipc.h]: access bits of an [open] *)

Definition PSA_EXEC : Z := 1.
Definition PSA_WRITE : Z := Z.shiftl PSA_EXEC 1.
Definition PSA_READ : Z := Z.shiftl PSA_WRITE 1.
Definition PSA_APPEND : Z := Z.shiftl PSA_READ 1.

Definition O_ACCMODE : Z := 3.
Definition O_RDONLY : Z := 0.
Definition O_WRONLY : Z := 1.
Definition O_RDWR : Z := 2.
Definition O_APPEND : Z := 0x400.

Definition PSEUDO_ACCESS_MAP (mode fcntl_access pseudo_access : Z) : Z :=
  if Z.land mode O_ACCMODE =? fcntl_access then pseudo_access else 0.

Definition PSEUDO_ACCESS_FLAG (mode fcntl_access pseudo_access : Z) : Z :=
  if negb (Z.land mode fcntl_access =? 0) then pseudo_access else 0.

Definition PSEUDO_ACCESS (mode : Z) : Z :=
  Z.lor (Z.lor (Z.lor (PSEUDO_ACCESS_MAP mode O_RDONLY PSA_READ)
                      (PSEUDO_ACCESS_MAP mode O_WRONLY PSA_WRITE))
               (PSEUDO_ACCESS_MAP mode O_RDWR (Z.lor PSA_READ PSA_WRITE)))
        (PSEUDO_ACCESS_FLAG mode O_APPEND PSA_APPEND).

(** ** [pseudo_access_fopen] *)

(** The [switch]: the bits a letter adds, or [None] for the default case. *)
Definition fopen_bits (c : ascii) : option Z :=
  match c with
  | "a"%char => Some (Z.lor PSA_APPEND PSA_WRITE)
  | "r"%char => Some PSA_READ
  | "w"%char => Some PSA_WRITE
  | "x"%char => Some PSA_EXEC
  | "b"%char => Some 0
  | "c"%char | "e"%char | "m"%char => Some 0
  | "+"%char => Some (Z.lor PSA_READ PSA_WRITE)
  | _ => None
  end.

Definition fopen_step (access : Z) (c : ascii) : Z :=
  match fopen_bits c with
  | Some b => Z.lor access b
  | None => -1
  end.

Definition pseudo_access_fopen (mode : bytes) : Z :=
  foldl fopen_step 0 (c_str mode).

(** ** Lemmas *)

(** The low 12 bits (permissions) can be changed freely without changing the
    file type. *)
Lemma fmt_of_lor_low a b m :
  Z.land m S_IFMT = 0 -> Z.land a S_IFMT = Z.land b S_IFMT ->
  Z.land (Z.lor a m) S_IFMT = Z.land b S_IFMT.
Proof. intros H <-. rewrite Z.land_lor_distr_l, H. apply Z.lor_0_r. Qed.

Lemma fmt_of_ldiff_low a m :
  Z.land m S_IFMT = 0 -> Z.land (Z.ldiff a m) S_IFMT = Z.land a S_IFMT.
Proof.
  intros H. apply Z.bits_inj'. intros n ?.
  apply (f_equal (fun z => Z.testbit z n)) in H.
  rewrite Z.land_spec, Z.bits_0 in H.
  rewrite !Z.land_spec, Z.ldiff_spec.
  by destruct (Z.testbit a n), (Z.testbit m n), (Z.testbit S_IFMT n).
Qed.

Lemma fs_mode_fmt mode isdir :
  Z.land (PSEUDO_FS_MODE mode isdir) S_IFMT = Z.land mode S_IFMT.
Proof.
  unfold PSEUDO_FS_MODE. rewrite fmt_of_ldiff_low by done.
  by apply fmt_of_lor_low; [destruct isdir|].
Qed.

Lemma db_mode_fmt fs user :
  Z.land (PSEUDO_DB_MODE fs user) S_IFMT = Z.land fs S_IFMT.
Proof.
  unfold PSEUDO_DB_MODE. apply fmt_of_lor_low.
  - rewrite <- Z.land_assoc. by rewrite Z.land_0_r.
  - by apply fmt_of_ldiff_low.
Qed.

Definition fopen_char (c : ascii) : bool := bool_decide (c ∈ ($"arwxbcem+")).

Lemma fopen_bits_table c :
  match fopen_bits c with
  | Some b => fopen_char c && (0 <=? b) && (b <? 16)
  | None => negb (fopen_char c)
  end = true.
Proof. destruct c as [[] [] [] [] [] [] [] []]; vm_compute; reflexivity. Qed.

Lemma fopen_step_m1 c : fopen_step (-1) c = -1.
Proof. unfold fopen_step. destruct (fopen_bits c); [apply Z.lor_m1_l|done]. Qed.

Lemma fopen_fold_m1 l : foldl fopen_step (-1) l = -1.
Proof. induction l; simpl; [done|]. by rewrite fopen_step_m1. Qed.

Lemma lor_lt_16 a b : 0 <= a < 16 -> 0 <= b < 16 -> 0 <= Z.lor a b < 16.
Proof.
  intros Ha Hb. split; [apply Z.lor_nonneg; lia|].
  destruct (Z.eq_dec (Z.lor a b) 0) as [->|Hz]; [lia|].
  apply (Z.log2_lt_cancel _ (2 ^ 4)).
  rewrite Z.log2_lor by lia. rewrite Z.log2_pow2 by lia.
  pose proof (Z.log2_le_mono a 15). pose proof (Z.log2_le_mono b 15).
  change (Z.log2 15) with 3 in *. lia.
Qed.

Lemma fopen_step_spec a c :
  0 <= a < 16 ->
  (fopen_char c = true /\ 0 <= fopen_step a c < 16) \/
  (fopen_char c = false /\ fopen_step a c = -1).
Proof.
  intros Ha. pose proof (fopen_bits_table c) as Hc. unfold fopen_step.
  destruct (fopen_bits c) as [b|]; [left|right; split; [by apply negb_true_iff|done]].
  apply andb_true_iff in Hc as [[Hc H1]%andb_true_iff H2].
  split; [done|]. apply lor_lt_16; [done|]. lia.
Qed.

Lemma fopen_fold_spec l a :
  0 <= a < 16 ->
  (forallb fopen_char l = true /\ 0 <= foldl fopen_step a l < 16) \/
  (forallb fopen_char l = false /\ foldl fopen_step a l = -1).
Proof.
  revert a. induction l as [|c l IH]; intros a Ha; simpl; [by left|].
  destruct (fopen_step_spec a c Ha) as [[Hc ?]|[Hc ->]]; rewrite Hc; simpl.
  - by apply IH.
  - right. by rewrite fopen_fold_m1.
Qed.

(** ** Properties *)

(** The database mode recovers the mode the program asked for from the mode
    that was really set on disk. *)
Theorem db_mode_of_fs_mode m isdir :
  PSEUDO_DB_MODE (PSEUDO_FS_MODE m isdir) m = m.
Proof.
  apply Z.bits_inj'. intros n ?. unfold PSEUDO_DB_MODE, PSEUDO_FS_MODE.
  rewrite !Z.lor_spec, !Z.ldiff_spec, !Z.land_spec, !Z.lor_spec.
  assert (Z.testbit (if isdir then 0x40 else 0) n = true -> Z.testbit 0x1d2 n = true) as Hx.
  { destruct isdir; [|by rewrite Z.bits_0].
    intros Hb. change 0x40 with (2 ^ 6) in Hb. rewrite Z.pow2_bits_eqb in Hb by lia.
    apply Z.eqb_eq in Hb as <-. done. }
  assert (Z.testbit 0x1d2 n = Z.testbit 0x1d2 n || Z.testbit 0x180 n || Z.testbit 0x12 n) as Hy.
  { change 0x1d2 with (Z.lor (Z.lor 0x180 0x12) 0x40). rewrite !Z.lor_spec.
    by destruct (Z.testbit 0x180 n), (Z.testbit 0x12 n), (Z.testbit 0x40 n). }
  destruct (Z.testbit m n), (Z.testbit 0x180 n), (Z.testbit 0x12 n),
    (Z.testbit (if isdir then 0x40 else 0) n), (Z.testbit 0x1d2 n); naive_solver.
Qed.

(** C34: [pseudo_access_fopen] answers -1 exactly for a mode string with an
    unknown letter (wherever it stands), and otherwise a set of access bits. *)
Theorem pseudo_access_fopen_spec mode :
  (pseudo_access_fopen mode = -1 <-> forallb fopen_char (c_str mode) = false) /\
  (forallb fopen_char (c_str mode) = true -> 0 <= pseudo_access_fopen mode < 16).
Proof.
  unfold pseudo_access_fopen.
  destruct (fopen_fold_spec (c_str mode) 0) as [[-> ?]|[-> ->]]; split; naive_solver lia.
Qed.
