(* ===== verification/Message.v ===== *)
(** The IPC message of [pseudo_ipc.h] and the functions of [pseudo_ipc.c]: its
    layout in memory and on the socket, allocation, sending, receiving into
    the reused buffer, and the copies between a message and a [struct stat].

    A [pseudo_msg_t] is a header and the bytes allocated for its flexible
    member [path]; assigning one C struct to another copies the header only.
    The layout is the x86-64 one: no padding, [path] at offset 76 of a struct
    whose [sizeof] is 80. *)

From stdpp Require Import base list numbers strings.
From Stdlib Require Import ZArith Lia Ascii.
From S2P Require Import Prelude Tables.

Open Scope Z_scope.

Record header := mkHeader {
  m_type : Z;
  m_op : pseudo_op_t;
  m_result : Z;
  m_access : Z;
  m_client : Z;
  m_fd : Z;
  m_dev : Z;
  m_ino : Z;
  m_uid : Z;
  m_gid : Z;
  m_mode : Z;
  m_rdev : Z;
  m_pathlen : Z;
  m_nlink : Z;
  m_deleting : Z
}.

Record pseudo_msg_t := mkMsg { hdr :> header; m_path : bytes }.

#[export] Instance header_eq_dec : EqDecision header.
Proof. solve_decision. Defined.
#[export] Instance pseudo_msg_eq_dec : EqDecision pseudo_msg_t.
Proof. solve_decision. Defined.

(** ** Field assignment *)

Definition set_type v (m : pseudo_msg_t) : pseudo_msg_t :=
  match m with mkMsg (mkHeader _ o r a c f d i u g mo rd pl n de) p =>
    mkMsg (mkHeader v o r a c f d i u g mo rd pl n de) p end.
Definition set_op v (m : pseudo_msg_t) : pseudo_msg_t :=
  match m with mkMsg (mkHeader t _ r a c f d i u g mo rd pl n de) p =>
    mkMsg (mkHeader t v r a c f d i u g mo rd pl n de) p end.
Definition set_result v (m : pseudo_msg_t) : pseudo_msg_t :=
  match m with mkMsg (mkHeader t o _ a c f d i u g mo rd pl n de) p =>
    mkMsg (mkHeader t o v a c f d i u g mo rd pl n de) p end.
Definition set_access v (m : pseudo_msg_t) : pseudo_msg_t :=
  match m with mkMsg (mkHeader t o r _ c f d i u g mo rd pl n de) p =>
    mkMsg (mkHeader t o r v c f d i u g mo rd pl n de) p end.
Definition set_client v (m : pseudo_msg_t) : pseudo_msg_t :=
  match m with mkMsg (mkHeader t o r a _ f d i u g mo rd pl n de) p =>
    mkMsg (mkHeader t o r a v f d i u g mo rd pl n de) p end.
Definition set_fd v (m : pseudo_msg_t) : pseudo_msg_t :=
  match m with mkMsg (mkHeader t o r a c _ d i u g mo rd pl n de) p =>
    mkMsg (mkHeader t o r a c v d i u g mo rd pl n de) p end.
Definition set_dev v (m : pseudo_msg_t) : pseudo_msg_t :=
  match m with mkMsg (mkHeader t o r a c f _ i u g mo rd pl n de) p =>
    mkMsg (mkHeader t o r a c f v i u g mo rd pl n de) p end.
Definition set_ino v (m : pseudo_msg_t) : pseudo_msg_t :=
  match m with mkMsg (mkHeader t o r a c f d _ u g mo rd pl n de) p =>
    mkMsg (mkHeader t o r a c f d v u g mo rd pl n de) p end.
Definition set_uid v (m : pseudo_msg_t) : pseudo_msg_t :=
  match m with mkMsg (mkHeader t o r a c f d i _ g mo rd pl n de) p =>
    mkMsg (mkHeader t o r a c f d i v g mo rd pl n de) p end.
Definition set_gid v (m : pseudo_msg_t) : pseudo_msg_t :=
  match m with mkMsg (mkHeader t o r a c f d i u _ mo rd pl n de) p =>
    mkMsg (mkHeader t o r a c f d i u v mo rd pl n de) p end.
Definition set_mode v (m : pseudo_msg_t) : pseudo_msg_t :=
  match m with mkMsg (mkHeader t o r a c f d i u g _ rd pl n de) p =>
    mkMsg (mkHeader t o r a c f d i u g v rd pl n de) p end.
Definition set_rdev v (m : pseudo_msg_t) : pseudo_msg_t :=
  match m with mkMsg (mkHeader t o r a c f d i u g mo _ pl n de) p =>
    mkMsg (mkHeader t o r a c f d i u g mo v pl n de) p end.
Definition set_pathlen v (m : pseudo_msg_t) : pseudo_msg_t :=
  match m with mkMsg (mkHeader t o r a c f d i u g mo rd _ n de) p =>
    mkMsg (mkHeader t o r a c f d i u g mo rd v n de) p end.
Definition set_nlink v (m : pseudo_msg_t) : pseudo_msg_t :=
  match m with mkMsg (mkHeader t o r a c f d i u g mo rd pl _ de) p =>
    mkMsg (mkHeader t o r a c f d i u g mo rd pl v de) p end.
Definition set_deleting v (m : pseudo_msg_t) : pseudo_msg_t :=
  match m with mkMsg (mkHeader t o r a c f d i u g mo rd pl n _) p =>
    mkMsg (mkHeader t o r a c f d i u g mo rd pl n v) p end.
Definition set_path v (m : pseudo_msg_t) : pseudo_msg_t := mkMsg (hdr m) v.

(** [*dst = *src]: the header, not the path. *)
Definition assign_header (dst src : pseudo_msg_t) : pseudo_msg_t := mkMsg (hdr src) (m_path dst).

(** The path as a C string. *)
Definition path_str (m : pseudo_msg_t) : bytes := c_str (m_path m).

(** ** Layout *)

Definition PSEUDO_HEADER_SIZE : Z := 76.
Definition sizeof_pseudo_msg_t : Z := 80.

Definition header_bytes (h : header) : bytes :=
  le_bytes 4 (m_type h) ++ le_bytes 4 (op_code (m_op h)) ++ le_bytes 4 (m_result h) ++
  le_bytes 4 (m_access h) ++ le_bytes 4 (m_client h) ++ le_bytes 4 (m_fd h) ++
  le_bytes 8 (m_dev h) ++ le_bytes 8 (m_ino h) ++ le_bytes 4 (m_uid h) ++
  le_bytes 4 (m_gid h) ++ le_bytes 8 (m_mode h) ++ le_bytes 8 (m_rdev h) ++
  le_bytes 4 (m_pathlen h) ++ le_bytes 4 (m_nlink h) ++ le_bytes 4 (m_deleting h).

#[global] Arguments header_bytes : simpl never.

Definition field (off len : nat) (l : bytes) : Z := le_val (take len (drop off l)).

Definition header_of_bytes (l : bytes) : header :=
  {| m_type := int32 (field 0 4 l);
     m_op := op_of_code (int32 (field 4 4 l));
     m_result := int32 (field 8 4 l);
     m_access := int32 (field 12 4 l);
     m_client := int32 (field 16 4 l);
     m_fd := int32 (field 20 4 l);
     m_dev := field 24 8 l;
     m_ino := field 32 8 l;
     m_uid := field 40 4 l;
     m_gid := field 44 4 l;
     m_mode := field 48 8 l;
     m_rdev := field 56 8 l;
     m_pathlen := field 64 4 l;
     m_nlink := int32 (field 68 4 l);
     m_deleting := int32 (field 72 4 l) |}.

#[global] Arguments header_of_bytes : simpl never.

(** Every field within its C type. *)
Definition in_int32 (z : Z) : Prop := - 2 ^ 31 <= z < 2 ^ 31.
Definition in_uint32 (z : Z) : Prop := 0 <= z < 2 ^ 32.
Definition in_uint64 (z : Z) : Prop := 0 <= z < 2 ^ 64.

Definition header_ok (h : header) : Prop :=
  in_int32 (m_type h) /\ in_int32 (op_code (m_op h)) /\
  op_of_code (op_code (m_op h)) = m_op h /\ in_int32 (m_result h) /\
  in_int32 (m_access h) /\ in_int32 (m_client h) /\ in_int32 (m_fd h) /\
  in_uint64 (m_dev h) /\ in_uint64 (m_ino h) /\ in_uint32 (m_uid h) /\
  in_uint32 (m_gid h) /\ in_uint64 (m_mode h) /\ in_uint64 (m_rdev h) /\
  in_uint32 (m_pathlen h) /\ in_int32 (m_nlink h) /\ in_int32 (m_deleting h).

(** ** A stream socket

    What is waiting to be read, in the pieces the kernel hands out: [read]
    returns at most one piece, [None] is a failing read (-1) and the end of
    the list an end of file (0 bytes). *)

Abbreviation sock := (list (option bytes)).

Definition sock_read (s : sock) (n : Z) : option bytes * sock :=
  match s with
  | [] => (Some [], [])
  | None :: s' => (None, s')
  | Some c :: s' =>
      if Z.of_nat (length c) <=? n then (Some c, s')
      else (Some (take (Z.to_nat n) c), Some (drop (Z.to_nat n) c) :: s')
  end.

(** Overwrite the start of a buffer. *)
Definition memwrite (buf data : bytes) : bytes := data ++ drop (length data) buf.

(** ** Allocation

    [malloc n] is the block returned for [malloc(sizeof(pseudo_msg_t) + n)]:
    its contents are whatever was there, its path area has [4 + n] bytes. *)

Class Malloc := malloc : Z -> option pseudo_msg_t.

Class MallocLaws `{Malloc} : Prop := {
  malloc_size n m : 0 <= n -> malloc n = Some m ->
    Z.of_nat (length (m_path m)) = n + (sizeof_pseudo_msg_t - PSEUDO_HEADER_SIZE)
}.

(** An allocator that always succeeds with zeroed memory. *)
Definition zero_malloc : Malloc := fun n =>
  Some (mkMsg (mkHeader 0 OP_NONE 0 0 0 0 0 0 0 0 0 0 0 0 0)
              (replicate (Z.to_nat n + 4) NUL)).

Section Ipc.
Context `{Malloc}.

Definition pseudo_msg_new (pathlen : Z) (path : option bytes) : option pseudo_msg_t :=
  if negb (pathlen =? 0) then
    match malloc pathlen with
    | None => None
    | Some newmsg =>
        let newmsg := set_pathlen (uint32 pathlen) newmsg in
        let newmsg := match path with
          | Some p => set_path (memwrite (m_path newmsg) (take (Z.to_nat pathlen) p)) newmsg
          | None => newmsg
          end in
        Some (set_path (<[Z.to_nat (pathlen - 1) := NUL]> (m_path newmsg)) newmsg)
    end
  else
    match path with
    | None => set_pathlen 0 <$> malloc 0
    | Some p =>
        let pathlen := Z.of_nat (strlen p) + 1 in
        match malloc pathlen with
        | None => None
        | Some newmsg =>
            let newmsg := set_path (memwrite (m_path newmsg) (take (Z.to_nat pathlen) p)) newmsg in
            Some (set_pathlen (uint32 pathlen) newmsg)
        end
    end.

Definition pseudo_msg_dup (old : option pseudo_msg_t) : option pseudo_msg_t :=
  match old with
  | None => None
  | Some old =>
      match malloc (m_pathlen old) with
      | None => None
      | Some newmsg =>
          let n := Z.to_nat (sizeof_pseudo_msg_t - PSEUDO_HEADER_SIZE + m_pathlen old) in
          Some (mkMsg (hdr old) (memwrite (m_path newmsg) (take n (m_path old))))
      end
  end.

(** *** Sending

    [do_send] gathers the pieces into one [sendmsg]; what that call
    answers (the bytes it took, or -1 with [errno] EBADF or EPIPE, or -1
    with another [errno]) is up to the kernel. *)
Inductive send_result := SendBytes (r : Z) | SendDead | SendFailed.

Definition do_send (iov : list bytes) : bytes := concat iov.

(** The message as it is afterwards, the bytes handed to the kernel, and
    the return code for each answer of the kernel. *)
Definition pseudo_msg_send (fd : Z) (msg : option pseudo_msg_t) (len : option Z)
    (path : option bytes) (kernel : bytes -> send_result) : option pseudo_msg_t * bytes * Z :=
  match msg with
  | None => (None, [], 1)
  | Some m =>
      if fd <? 0 then (Some m, [], -1)
      else
        let '(m, iov) :=
          match path with
          | Some p =>
              (* [None] is [(size_t) -1] *)
              let len := default (Z.of_nat (strlen p) + 1) len in
              let m := set_pathlen (uint32 len) m in
              (m, [header_bytes m; take (Z.to_nat len) p])
          | None => (m, [header_bytes m; take (Z.to_nat (m_pathlen m)) (m_path m)])
          end in
        let wire := do_send iov in
        match kernel wire with
        | SendDead => (Some m, wire, -1)
        | SendFailed => (Some m, wire, 1)
        | SendBytes r =>
            (Some m, wire, b2z (negb (r =? PSEUDO_HEADER_SIZE + m_pathlen m)))
        end
  end.

(** *** Receiving

    [incoming] and [incoming_pathlen] are the static variables.  A write
    outside the allocated path is the outcome [RxOverflow]. *)
Record rx_state := mkRx { incoming : option pseudo_msg_t; incoming_pathlen : Z }.

Inductive rx_result := RxNull | RxMsg (m : pseudo_msg_t) | RxOverflow.

Definition rx_init : rx_state := mkRx None 0.

(** The buffer to use for a header: the old one or a larger one. *)
Definition rx_buffer (st : rx_state) (header_pathlen : Z) : option rx_state :=
  let room := uint32 (header_pathlen + 128) in
  match incoming st with
  | Some _ =>
      if incoming_pathlen st <=? header_pathlen then
        match pseudo_msg_new room None with
        | None => None
        | Some newmsg => Some (mkRx (Some newmsg) room)
        end
      else Some st
  | None =>
      match pseudo_msg_new room None with
      | None => None
      | Some newmsg => Some (mkRx (Some newmsg) room)
      end
  end.

(** The path part: [r] bytes were read into [inc]'s path. *)
Definition rx_path (st : rx_state) (inc : pseudo_msg_t) (d : option bytes) : rx_result * rx_state :=
  match d with
  | None =>
      if -1 <? int32 (m_pathlen inc) then (RxNull, mkRx (Some inc) (incoming_pathlen st))
      else (RxOverflow, st)                  (* path[-1] = '\0' *)
  | Some d =>
      let r := length d in
      if decide (length (m_path inc) < r)%nat then (RxOverflow, st)
      else
        let inc := set_path (memwrite (m_path inc) d) inc in
        if Z.of_nat r <? int32 (m_pathlen inc) then
          (RxNull, mkRx (Some inc) (incoming_pathlen st))
        else if decide (length (m_path inc) <= r)%nat then (RxOverflow, st)
        else
          let inc := set_path (<[r := NUL]> (m_path inc)) inc in
          (RxMsg inc, mkRx (Some inc) (incoming_pathlen st))
  end.

Definition pseudo_msg_receive (fd : Z) (st : rx_state) (s : sock) : rx_result * rx_state * sock :=
  if fd <? 0 then (RxNull, st, s)
  else
    let '(h, s) := sock_read s PSEUDO_HEADER_SIZE in
    match h with
    | None => (RxNull, st, s)
    | Some h =>
        if Z.of_nat (length h) <? PSEUDO_HEADER_SIZE then (RxNull, st, s)
        else
          let header := header_of_bytes h in
          match rx_buffer st (m_pathlen header) with
          | None => (RxNull, st, s)
          | Some st =>
              match incoming st with
              | None => (RxNull, st, s)      (* not reached *)
              | Some inc =>
                  let inc := mkMsg header (m_path inc) in
                  let st := mkRx (Some inc) (incoming_pathlen st) in
                  if negb (m_pathlen inc =? 0) then
                    let '(d, s) := sock_read s (m_pathlen inc) in
                    (rx_path st inc d, s)
                  else (RxMsg inc, st, s)
              end
          end
    end.
End Ipc.

(** ** [struct stat] *)

Record statbuf := mkStat {
  st_dev : Z; st_ino : Z; st_mode : Z; st_nlink : Z;
  st_uid : Z; st_gid : Z; st_rdev : Z
}.

Definition pseudo_msg_stat (msg : option pseudo_msg_t) (buf : option statbuf) : option pseudo_msg_t :=
  match msg, buf with
  | Some m, Some b =>
      Some (set_nlink (int32 (st_nlink b)) (set_rdev (st_rdev b) (set_mode (st_mode b)
        (set_ino (st_ino b) (set_dev (st_dev b) (set_gid (st_gid b) (set_uid (st_uid b) m)))))))
  | _, _ => msg
  end.

Definition pseudo_stat_msg (buf : option statbuf) (msg : option pseudo_msg_t) : option statbuf :=
  match msg, buf with
  | Some m, Some b =>
      Some (mkStat (st_dev b) (st_ino b) (uint32 (m_mode m)) (st_nlink b)
                   (m_uid m) (m_gid m) (m_rdev m))
  | _, _ => buf
  end.

(** ** Lemmas *)

Lemma length_memwrite buf d : (length d <= length buf)%nat -> length (memwrite buf d) = length buf.
Proof. intros. unfold memwrite. rewrite length_app, length_drop. lia. Qed.

Lemma take_memwrite buf d : take (length d) (memwrite buf d) = d.
Proof. unfold memwrite. by rewrite take_app_length. Qed.

Lemma length_header_bytes h : length (header_bytes h) = Z.to_nat PSEUDO_HEADER_SIZE.
Proof. reflexivity. Qed.

Lemma header_of_bytes_app h rest : header_of_bytes (header_bytes h ++ rest) = header_of_bytes (header_bytes h).
Proof. reflexivity. Qed.

Lemma int32_le_val z : in_int32 z -> int32 (le_val (le_bytes 4 z)) = z.
Proof.
  intros Hz. rewrite le_val_le_bytes. change (8 * Z.of_nat 4) with 32.
  change (z mod 2 ^ 32) with (uint32 z). rewrite (wrap_signed_unsigned 32 z). by apply wrap_signed_small.
Qed.

Lemma uint32_le_val z : in_uint32 z -> le_val (le_bytes 4 z) = z.
Proof. intros Hz. rewrite le_val_le_bytes. by apply Z.mod_small. Qed.

Lemma uint64_le_val z : in_uint64 z -> le_val (le_bytes 8 z) = z.
Proof. intros Hz. rewrite le_val_le_bytes. by apply Z.mod_small. Qed.

(** Encoding a header and decoding it is the identity on headers whose fields
    fit their C types. *)
Lemma header_bytes_inverse h : header_ok h -> header_of_bytes (header_bytes h) = h.
Proof.
  intros (?&?&Hop&?&?&?&?&?&?&?&?&?&?&?&?&?).
  transitivity (mkHeader
    (int32 (le_val (le_bytes 4 (m_type h))))
    (op_of_code (int32 (le_val (le_bytes 4 (op_code (m_op h))))))
    (int32 (le_val (le_bytes 4 (m_result h)))) (int32 (le_val (le_bytes 4 (m_access h))))
    (int32 (le_val (le_bytes 4 (m_client h)))) (int32 (le_val (le_bytes 4 (m_fd h))))
    (le_val (le_bytes 8 (m_dev h))) (le_val (le_bytes 8 (m_ino h)))
    (le_val (le_bytes 4 (m_uid h))) (le_val (le_bytes 4 (m_gid h)))
    (le_val (le_bytes 8 (m_mode h))) (le_val (le_bytes 8 (m_rdev h)))
    (le_val (le_bytes 4 (m_pathlen h))) (int32 (le_val (le_bytes 4 (m_nlink h))))
    (int32 (le_val (le_bytes 4 (m_deleting h))))); [reflexivity|].
  rewrite !int32_le_val, !uint32_le_val, !uint64_le_val by done.
  rewrite Hop. by destruct h.
Qed.

(** What is left of a piece goes back in front of the stream. *)
Definition sock_push (c : bytes) (s : sock) : sock :=
  if decide (c = []) then s else Some c :: s.

Lemma sock_read_app a b s :
  sock_read (Some (a ++ b) :: s) (Z.of_nat (length a)) = (Some a, sock_push b s).
Proof.
  unfold sock_push. simpl. rewrite length_app.
  destruct (Z.leb_spec (Z.of_nat (length a + length b)) (Z.of_nat (length a))).
  - destruct b; [|simpl in *; lia]. by rewrite app_nil_r.
  - rewrite Nat2Z.id, take_app_length, drop_app_length.
    destruct b; [simpl in *; lia|]. done.
Qed.

Lemma sock_read_push a b s :
  a <> [] -> sock_read (sock_push (a ++ b) s) (Z.of_nat (length a)) = (Some a, sock_push b s).
Proof.
  intros Ha. unfold sock_push at 1. rewrite decide_False; [apply sock_read_app|].
  by destruct a.
Qed.

Lemma sock_read_length s n d s' :
  0 <= n -> sock_read s n = (Some d, s') -> Z.of_nat (length d) <= n.
Proof.
  destruct s as [|[c|] s]; simpl; intros ?.
  - intros [= <- <-]. simpl. lia.
  - destruct (Z.leb_spec (Z.of_nat (length c)) n); intros [= <- <-]; [done|].
    rewrite length_take. lia.
  - done.
Qed.

Section IpcLemmas.
Context `{MallocLaws}.

(** The receive buffer has the size its bookkeeping says. *)
Definition rx_ok (st : rx_state) : Prop :=
  match incoming st with
  | Some m => 0 <= incoming_pathlen st /\ Z.of_nat (length (m_path m)) = incoming_pathlen st + 4
  | None => True
  end.

Lemma set_pathlen_path v m : m_path (set_pathlen v m) = m_path m.
Proof. by destruct m as [[]]. Qed.

Lemma pseudo_msg_new_None_size n m :
  0 < n -> pseudo_msg_new n None = Some m -> Z.of_nat (length (m_path m)) = n + 4.
Proof.
  intros Hn. unfold pseudo_msg_new.
  replace (n =? 0) with false by (symmetry; apply Z.eqb_neq; lia). simpl.
  destruct (malloc n) as [b|] eqn:E; [|done]. intros [= <-]. simpl.
  rewrite length_insert, set_pathlen_path.
  apply malloc_size in E; [|lia]. rewrite E. reflexivity.
Qed.

Lemma rx_buffer_spec st n st' :
  rx_ok st -> 0 <= n < 2 ^ 31 -> rx_buffer st n = Some st' ->
  rx_ok st' /\ exists m, incoming st' = Some m /\ n + 4 < Z.of_nat (length (m_path m)).
Proof.
  intros Hst Hn.
  assert (uint32 (n + 128) = n + 128) as Hroom by (apply wrap_unsigned_small; lia).
  assert (forall nm, pseudo_msg_new (n + 128) None = Some nm ->
    rx_ok (mkRx (Some nm) (n + 128)) /\
    exists m, incoming (mkRx (Some nm) (n + 128)) = Some m /\ n + 4 < Z.of_nat (length (m_path m))) as Hnew.
  { intros nm E. apply pseudo_msg_new_None_size in E; [|lia].
    split; [unfold rx_ok; simpl; lia|]. exists nm. split; [done|]. lia. }
  unfold rx_buffer. rewrite Hroom. unfold rx_ok in Hst.
  destruct (incoming st) as [m|] eqn:E.
  - destruct (Z.leb_spec (incoming_pathlen st) n).
    + destruct (pseudo_msg_new _ _) eqn:En; [|done]. intros [= <-]. by apply Hnew.
    + intros [= <-]. unfold rx_ok. rewrite E. split; [done|]. exists m. split; [done|]. lia.
  - destruct (pseudo_msg_new _ _) eqn:En; [|done]. intros [= <-]. by apply Hnew.
Qed.

Lemma rx_path_spec st inc d res st' :
  rx_ok (mkRx (Some inc) (incoming_pathlen st)) ->
  0 <= m_pathlen inc < 2 ^ 31 -> m_pathlen inc + 4 < Z.of_nat (length (m_path inc)) ->
  (forall b, d = Some b -> Z.of_nat (length b) <= m_pathlen inc) ->
  rx_path st inc d = (res, st') ->
  rx_ok st' /\
  match res with
  | RxOverflow => False
  | RxNull => forall b, d = Some b -> Z.of_nat (length b) < m_pathlen inc
  | RxMsg m => exists b, d = Some b /\ Z.of_nat (length b) = m_pathlen inc /\
      hdr m = hdr inc /\ take (length b) (m_path m) = b /\ m_path m !! length b = Some NUL /\
      incoming st' = Some m
  end.
Proof.
  intros Hok Hpl Hroom Hd Heq.
  assert (int32 (m_pathlen inc) = m_pathlen inc) as Hint by (apply wrap_signed_small; lia).
  unfold rx_path in Heq. unfold rx_ok in *. simpl in *.
  destruct d as [b|].
  - specialize (Hd b eq_refl).
    rewrite decide_False in Heq by lia.
    assert (length (memwrite (m_path inc) b) = length (m_path inc)) as Hlen
      by (apply length_memwrite; lia).
    simpl in Heq. rewrite Hint in Heq.
    destruct (Z.ltb_spec (Z.of_nat (length b)) (m_pathlen inc)).
    + replace (Z.of_nat (length b) <? m_pathlen inc) with true in Heq
        by (symmetry; by apply Z.ltb_lt).
      injection Heq as <- <-. simpl. rewrite Hlen. split; [done|]. naive_solver.
    + replace (Z.of_nat (length b) <? m_pathlen inc) with false in Heq
        by (symmetry; by apply Z.ltb_ge).
      rewrite Hlen, decide_False in Heq by lia.
      injection Heq as <- <-. simpl. rewrite length_insert, Hlen. split; [done|].
      exists b. split; [done|]. split; [lia|]. split; [done|].
      rewrite list_lookup_insert_eq by lia. split; [|done].
      rewrite take_insert_ge by lia. apply take_memwrite.
  - rewrite Hint in Heq. replace (-1 <? m_pathlen inc) with true in Heq by (symmetry; apply Z.ltb_lt; lia).
    injection Heq as <- <-. simpl. split; [done|]. done.
Qed.

Lemma rx_buffer_succeeds st n :
  (forall k, is_Some (malloc k)) -> is_Some (rx_buffer st n).
Proof.
  intros Hm.
  assert (forall k, exists b, pseudo_msg_new k None = Some b) as Hnew.
  { intros k. unfold pseudo_msg_new. destruct (Hm k) as [b ->], (Hm 0) as [b0 ->].
    destruct (negb (k =? 0)); simpl; eauto. }
  unfold rx_buffer. destruct (Hnew (uint32 (n + 128))) as [b ->].
  destruct (incoming st); [destruct (Z.leb (incoming_pathlen st) n)|]; eauto.
Qed.

(** A complete message in front of the stream is received as sent. *)
Lemma receive_message fd st h payload rest s :
  (forall k, is_Some (malloc k)) -> 0 <= fd -> rx_ok st -> header_ok h ->
  Z.of_nat (length payload) = m_pathlen h -> m_pathlen h < 2 ^ 31 ->
  exists m st',
    pseudo_msg_receive fd st (sock_push (header_bytes h ++ payload ++ rest) s)
      = (RxMsg m, st', sock_push rest s) /\
    hdr m = h /\ take (length payload) (m_path m) = payload /\ rx_ok st'.
Proof.
  intros Hm Hfd Hst Hh Hlen Hlt. unfold pseudo_msg_receive.
  replace (fd <? 0) with false by (symmetry; by apply Z.ltb_ge).
  change PSEUDO_HEADER_SIZE with (Z.of_nat (length (header_bytes h))).
  rewrite sock_read_push by done. rewrite Z.ltb_irrefl, header_bytes_inverse by done.
  destruct (rx_buffer_succeeds st (m_pathlen h) Hm) as [st1 Hb]. rewrite Hb.
  assert (0 <= m_pathlen h < 2 ^ 31) as Hpl by lia.
  destruct (rx_buffer_spec _ _ _ Hst Hpl Hb) as (Hst1 & inc & Hinc & Hroom).
  rewrite Hinc. simpl.
  assert (rx_ok (mkRx (Some (mkMsg h (m_path inc))) (incoming_pathlen st1))) as Hok.
  { unfold rx_ok in *. by rewrite Hinc in Hst1. }
  destruct (Z.eqb_spec (m_pathlen h) 0) as [Hz|Hz]; simpl.
  - destruct payload; [|simpl in Hlen; lia].
    eexists _, _. split; [done|]. split; [done|]. by split.
  - rewrite <- Hlen, sock_read_push by (intros ->; simpl in Hlen; lia).
    destruct (rx_path _ _ _) as [res st2] eqn:Hrx.
    apply rx_path_spec in Hrx as [Hst2 Hres]; simpl; [|done|lia|lia|].
    2: { intros b [= <-]. simpl. lia. }
    destruct res as [|m|]; [|exists m, st2|done].
    + specialize (Hres _ eq_refl). simpl in Hres. lia.
    + destruct Hres as (b & [= <-] & _ & Hhdr & Htake & _ & _).
      split; [done|]. by repeat split.
Qed.

(** Every message of a stream announces a path shorter than 2^31. *)
Definition short_paths (s : sock) : Prop := forall h (s1 : sock), sock_read s PSEUDO_HEADER_SIZE = (Some h, s1) ->
  m_pathlen (header_of_bytes h) < 2 ^ 31.

(** Receiving stays inside the buffer and keeps its bookkeeping; a message has
    the header that was read. *)
Lemma receive_ok fd st (s : sock) : rx_ok st -> short_paths s ->
  let '(res, st', _) := pseudo_msg_receive fd st s in
  rx_ok st' /\ match res with
    | RxOverflow => False
    | RxNull => True
    | RxMsg m => incoming st' = Some m /\
        exists h s1, sock_read s PSEUDO_HEADER_SIZE = (Some h, s1) /\ hdr m = header_of_bytes h
    end.
Proof.
  intros Hst Hs. unfold pseudo_msg_receive. destruct (fd <? 0); [done|].
  destruct (sock_read s PSEUDO_HEADER_SIZE) as [[h|] s1] eqn:Hr; [|done]. pose proof (Hs _ _ Hr) as Hlt.
  destruct (_ <? PSEUDO_HEADER_SIZE); [done|].
  destruct (rx_buffer _ _) as [st1|] eqn:Hb; [|done].
  assert (0 <= m_pathlen (header_of_bytes h)) as Hnn by apply le_val_nonneg.
  destruct (rx_buffer_spec _ _ _ Hst (conj Hnn Hlt) Hb) as (Hst1 & inc & Hinc & Hroom). rewrite Hinc.
  set (inc' := mkMsg (header_of_bytes h) (m_path inc)).
  assert (rx_ok (mkRx (Some inc') (incoming_pathlen st1))) as Hok by (unfold rx_ok in *; by rewrite Hinc in Hst1).
  change (m_pathlen inc') with (m_pathlen (header_of_bytes h)).
  destruct (negb _); [|by eauto 10].
  destruct (sock_read s1 _) as [d s2] eqn:Hd. destruct (rx_path _ _ _) as [res st2] eqn:Hrx.
  apply rx_path_spec in Hrx as [Hst2 Hres]; [|done|cbn [hdr inc']; lia|cbn [hdr inc' m_path]; lia|].
  2: { intros b ->. by eapply sock_read_length. }
  split; [done|]. destruct res as [|m|]; [done| |done].
  destruct Hres as (b & _ & _ & Hhdr & _ & _ & Hm). split; [done|]. exists h, s1. by split.
Qed.

Lemma take_c_str p : NUL ∈ p -> take (S (strlen p)) p = c_str p ++ [NUL].
Proof.
  unfold strlen. induction p as [|c p IH]; intros Hp; [by apply elem_of_nil in Hp|].
  cbn [c_str]. case_decide; [by subst|]. cbn [length take app]. f_equal. apply IH.
  apply elem_of_cons in Hp as [Hc|?]; [by rewrite Hc in *|done].
Qed.

Lemma strlen_lt p : NUL ∈ p -> (strlen p < length p)%nat.
Proof.
  intros Hp. pose proof (f_equal length (take_c_str p Hp)) as Hl. revert Hl.
  rewrite length_take, length_app. unfold strlen. cbn [length]. lia.
Qed.
End IpcLemmas.

(** ** Properties *)

(** C37: a message sent with [pseudo_msg_send], with its own path or with an
    external one, and received by [pseudo_msg_receive] from a stream that
    carries it (followed by anything) arrives with the same header and path
    bytes, whatever the receive buffer held, and leaves the rest of the stream
    for the next message; an external path sent with length -1 arrives as the
    same C string. *)
Theorem send_receive_roundtrip `{MallocLaws} fd fd' m len path kernel m' wire rc st rest s :
  (forall k, is_Some (malloc k)) ->
  pseudo_msg_send fd (Some m) len path kernel = (Some m', wire, rc) ->
  0 <= fd -> 0 <= fd' -> rx_ok st -> header_ok m' -> m_pathlen m' < 2 ^ 31 ->
  match path with
  | Some p =>
      match len with
      | None => NUL ∈ p /\ Z.of_nat (length p) < 2 ^ 31
      | Some l => 0 <= l < 2 ^ 31 /\ l <= Z.of_nat (length p)
      end
  | None => m_pathlen m <= Z.of_nat (length (m_path m))
  end ->
  exists m'' st',
    pseudo_msg_receive fd' st (sock_push (wire ++ rest) s) = (RxMsg m'', st', sock_push rest s) /\
    hdr m'' = hdr m' /\
    take (Z.to_nat (m_pathlen m')) (m_path m'') =
      take (Z.to_nat (m_pathlen m')) (default (m_path m) path) /\
    (forall p, path = Some p -> len = None -> path_str m'' = c_str p) /\
    rx_ok st'.
Proof.
  intros Hm Hsend Hfd Hfd' Hst Hok Hlt Hpath. unfold pseudo_msg_send in Hsend.
  replace (fd <? 0) with false in Hsend by (symmetry; by apply Z.ltb_ge).
  set (payload := take (Z.to_nat (m_pathlen m')) (default (m_path m) path)).
  assert (wire = header_bytes m' ++ payload ++ [] /\ Z.of_nat (length payload) = m_pathlen m' /\
    (forall p, path = Some p -> len = None -> payload = c_str p ++ [NUL])) as (-> & Hlen & Hstr).
  { subst payload. pose proof Hok as (_&_&_&_&_&_&_&_&_&_&_&_&_&Hpl&_). unfold in_uint32 in Hpl.
    destruct path as [p|]; cbn [default from_option id] in *.
    - set (l := default (Z.of_nat (strlen p) + 1) len) in *.
      assert (0 <= l < 2 ^ 31 /\ l <= Z.of_nat (length p)) as [Hl Hlp].
      { subst l. destruct len as [l|]; simpl; [lia|].
        destruct Hpath as [Hnul ?]. apply strlen_lt in Hnul. lia. }
      assert (uint32 l = l) as Hu by (apply wrap_unsigned_small; lia).
      rewrite Hu in Hsend.
      assert (m' = set_pathlen l m /\ wire = header_bytes (set_pathlen l m) ++ take (Z.to_nat l) p ++ [])
        as [-> ->] by (unfold do_send in Hsend; cbn [concat] in Hsend; destruct (kernel _); naive_solver).
      assert (m_pathlen (set_pathlen l m) = l) as -> by (by destruct m as [[]]).
      split; [done|]. split; [rewrite length_take; lia|].
      intros p' [= <-] ->. subst l. simpl. rewrite <- take_c_str by naive_solver.
      f_equal. lia.
    - assert (m' = m /\ wire = header_bytes m ++ take (Z.to_nat (m_pathlen m)) (m_path m) ++ [])
        as [-> ->] by (unfold do_send in Hsend; cbn [concat] in Hsend; destruct (kernel _); naive_solver).
      split; [done|]. split; [|done]. rewrite length_take. lia. }
  clearbody payload. rewrite <- !app_assoc. cbn [app].
  destruct (receive_message fd' st (hdr m') payload rest s Hm Hfd' Hst Hok Hlen Hlt)
    as (m'' & st' & Hrx & Hhdr & Htake & Hst').
  exists m'', st'. split; [done|]. split; [done|].
  rewrite <- Hlen, Nat2Z.id. split; [by rewrite Htake|]. split; [|done].
  intros p -> ->. specialize (Hstr p eq_refl eq_refl).
  unfold path_str. rewrite <- (take_drop (length payload) (m_path m'')), Htake, Hstr.
  rewrite <- app_assoc. apply c_str_app_nul, c_str_no_nul.
Qed.

(** From any stream and any state of the static buffer, as long as the
    announced path length stays below 2^31, [pseudo_msg_receive] never writes
    outside its buffer, keeps the buffer's size and its bookkeeping in step,
    and a message it returns has a NUL right after the [pathlen] bytes of its
    path, inside the buffer; with a short read no message is returned. *)
Theorem receive_in_bounds `{MallocLaws} fd st s res st' s' :
  rx_ok st ->
  (forall h s1, sock_read s PSEUDO_HEADER_SIZE = (Some h, s1) ->
     m_pathlen (header_of_bytes h) < 2 ^ 31) ->
  pseudo_msg_receive fd st s = (res, st', s') ->
  rx_ok st' /\
  match res with
  | RxOverflow => False
  | RxNull => True
  | RxMsg m =>
      0 <= m_pathlen m < Z.of_nat (length (m_path m)) /\
      (m_pathlen m <> 0 -> m_path m !! Z.to_nat (m_pathlen m) = Some NUL) /\
      (forall h s1 d s2, sock_read s PSEUDO_HEADER_SIZE = (Some h, s1) ->
         m_pathlen m <> 0 -> sock_read s1 (m_pathlen m) = (Some d, s2) ->
         Z.of_nat (length d) = m_pathlen m /\ take (length d) (m_path m) = d)
  end.
Proof.
  intros Hst Hlt Heq. unfold pseudo_msg_receive in Heq.
  destruct (fd <? 0); [by injection Heq as <- <- <-|].
  destruct (sock_read s PSEUDO_HEADER_SIZE) as [[h|] s1] eqn:Hs; [|by injection Heq as <- <- <-].
  specialize (Hlt _ _ eq_refl).
  destruct (_ <? PSEUDO_HEADER_SIZE); [by injection Heq as <- <- <-|].
  destruct (rx_buffer _ _) as [st1|] eqn:Hb; [|by injection Heq as <- <- <-].
  assert (0 <= m_pathlen (header_of_bytes h)) as Hnn by apply le_val_nonneg.
  destruct (rx_buffer_spec _ _ _ Hst (conj Hnn Hlt) Hb) as (Hst1 & inc & Hinc & Hroom).
  rewrite Hinc in Heq.
  set (inc' := mkMsg (header_of_bytes h) (m_path inc)) in Heq.
  assert (rx_ok (mkRx (Some inc') (incoming_pathlen st1))) as Hok
    by (unfold rx_ok in *; by rewrite Hinc in Hst1).
  change (m_pathlen inc') with (m_pathlen (header_of_bytes h)) in Heq.
  destruct (Z.eqb_spec (m_pathlen (header_of_bytes h)) 0) as [Hz|Hz]; cbn [negb] in Heq.
  - injection Heq as <- <- <-. split; [done|]. subst inc'. cbn [hdr m_path]. split; [lia|]. by split.
  - subst inc'. destruct (sock_read s1 _) as [d s2] eqn:Hd. injection Heq as Hrx <-.
    apply rx_path_spec in Hrx as [Hst2 Hres]; cbn [hdr m_path]; [|done|lia|lia|].
    2: { intros b ->. by eapply sock_read_length. }
    split; [done|]. destruct res as [|m|]; [done| |done].
    destruct Hres as (b & -> & Hb1 & Hhdr & Htake & Hnul & _).
    cbn [hdr] in Hb1, Hhdr. rewrite Hhdr. rewrite <- Hb1, Nat2Z.id.
    split; [apply lookup_lt_Some in Hnul; lia|]. split; [done|].
    intros h' s1' d' s2' [= <- <-] _. rewrite Hb1. cbn [hdr m_path] in Hd.
    rewrite Hd. by intros [= <- <-].
Qed.

(** With a path length within 128 of 2^32 the 32-bit sum [pathlen + 128]
    wraps, the buffer allocated is too small for the path that follows, and
    the path read overruns it. *)
Theorem receive_overflows_on_huge_pathlen :
  exists h d, header_ok h /\ m_pathlen h = 2 ^ 32 - 28 /\
    (@pseudo_msg_receive zero_malloc 3 rx_init [Some (header_bytes h); Some d]).1.1 = RxOverflow.
Proof.
  exists (mkHeader PSEUDO_MSG_OP OP_STAT 0 0 0 0 0 0 0 0 0 0 (2 ^ 32 - 28) 0 0), (replicate 105 "a"%char).
  split; [repeat split; vm_compute; done|]. split; [done|].
  vm_compute. done.
Qed.

(** ** Witnesses *)

#[export] Instance zero_malloc_laws : @MallocLaws zero_malloc.
Proof.
  constructor. intros n m Hn [= <-]. simpl. rewrite length_replicate.
  unfold sizeof_pseudo_msg_t, PSEUDO_HEADER_SIZE. lia.
Defined.

Definition sample_header : header :=
  mkHeader PSEUDO_MSG_OP OP_MKNOD 0 0 7 (-1) 2049 131 1000 100 0x81a4 0 0 1 0.

Lemma send_receive_roundtrip_witness :
  exists m wire m'' st',
    @pseudo_msg_send 4 (Some (mkMsg sample_header [])) None (Some ($"/tmp/x" ++ [NUL]))
      (fun w => SendBytes (Z.of_nat (length w))) = (Some m, wire, 0) /\
    @pseudo_msg_receive zero_malloc 9 rx_init (sock_push (wire ++ $"next") []) =
      (RxMsg m'', st', sock_push ($"next") []) /\
    hdr m'' = hdr m /\ path_str m'' = $"/tmp/x".
Proof.
  destruct (@send_receive_roundtrip zero_malloc zero_malloc_laws 4 9
    (mkMsg sample_header []) None (Some ($"/tmp/x" ++ [NUL]))
    (fun w => SendBytes (Z.of_nat (length w))) _ _ _ rx_init ($"next") []
    (fun k => ltac:(by eexists)) eq_refl) as (m'' & st' & Hrx & Hhdr & _ & Hstr & _);
    [done|done|done|repeat split; vm_compute; done|done|split; [|done]|].
  - vm_compute. do 6 right. left.
  - eexists _, _, m'', st'. split; [reflexivity|].
    split; [exact Hrx|]. split; [done|]. by rewrite (Hstr _ eq_refl eq_refl).
Defined.

Lemma receive_in_bounds_witness :
  exists st', @pseudo_msg_receive zero_malloc 9 rx_init [Some (header_bytes sample_header)] =
    (RxMsg (mkMsg sample_header (<[127%nat := NUL]> (replicate 132 NUL))), st', []) /\
    @rx_ok st'.
Proof.
  eexists. split; [reflexivity|].
  refine (proj1 (@receive_in_bounds zero_malloc zero_malloc_laws 9 rx_init
    [Some (header_bytes sample_header)] _ _ _ I _ eq_refl)).
  intros h s1 [= <- <-]. vm_compute. done.
Defined.
