(* ===== verification/Sql.v ===== *)
(** The database behind [pseudo_db.c]: the tables it declares, the SQL it
    uses, and what the code relies on SQLite for.

    SQLite itself is not part of the program: it is the class [SqlEngine],
    a parameter of every definition that talks to a database, with the
    documented meaning of the statements as the laws [SqlLaws] and the
    assumption of a run without database errors as [SqlReliable].  [mem_engine]
    is a concrete engine that satisfies both. *)

From stdpp Require Import base gmap list fin_maps strings sorting.
From Stdlib Require Import ZArith Lia Ascii.
From S2P Require Import Prelude.

Open Scope Z_scope.

Definition SQLITE_OK : Z := 0.
Definition SQLITE_ROW : Z := 100.
Definition SQLITE_DONE : Z := 101.

(** ** Tables ([file_tables], [log_tables]) *)

Record file_row := mkFile {
  f_path : bytes; f_dev : Z; f_ino : Z; f_uid : Z; f_gid : Z;
  f_mode : Z; f_rdev : Z; f_deleting : Z
}.

Record xattr_row := mkXattr {
  x_id : Z; x_dev : Z; x_ino : Z; x_name : bytes; x_value : bytes
}.

(** A column the INSERT does not name, or binds with [sqlite3_bind_null], is
    NULL. *)
Record log_row := mkLog {
  l_id : Z; l_stamp : Z; l_op : Z; l_client : Z; l_fd : option Z; l_dev : Z;
  l_ino : Z; l_mode : Z; l_path : option bytes; l_result : Z; l_severity : Z;
  l_text : option bytes; l_tag : option bytes; l_uid : Z; l_gid : Z;
  l_access : Z; l_program : option bytes; l_type : Z
}.

#[export] Instance file_row_eq_dec : EqDecision file_row.
Proof. solve_decision. Defined.
#[export] Instance xattr_row_eq_dec : EqDecision xattr_row.
Proof. solve_decision. Defined.
#[export] Instance log_row_eq_dec : EqDecision log_row.
Proof. solve_decision. Defined.

Record tables := mkTables {
  files : gmap Z file_row;
  xattrs : gmap Z xattr_row;
  logs : gmap Z log_row
}.

Definition no_tables : tables := mkTables ∅ ∅ ∅.

(** ** Expressions and conditions

    With the bound arguments in place of the question marks. *)

(** [replace(x, y, z)]: every occurrence of a non-empty [y] in [x], from the
    left and without overlap, becomes [z].  [skip] counts the bytes of the
    current occurrence still to be dropped. *)
Fixpoint replace_from (skip : nat) (x y z : bytes) : bytes :=
  match x with
  | [] => []
  | c :: x' =>
      match skip with
      | S k => replace_from k x' y z
      | O =>
          if prefixb y x then z ++ replace_from (length y - 1) x' y z
          else c :: replace_from 0 x' y z
      end
  end.

Definition sql_replace (x y z : bytes) : bytes :=
  if decide (y = []) then x else replace_from 0 x y z.

Inductive fcond :=
  | FPathEq (s : bytes)                    (* path = ? *)
  | FPathGt (s : bytes)                    (* path > ? *)
  | FPathLt (s : bytes)                    (* path < ? *)
  | FDevEq (z : Z)
  | FInoEq (z : Z)
  | FDeletingEq (z : Z)
  | FAnd (a b : fcond).

Fixpoint eval_fcond (c : fcond) (r : file_row) : bool :=
  match c with
  | FPathEq s => bool_decide (f_path r = s)
  | FPathGt s => str_ltb s (f_path r)
  | FPathLt s => str_ltb (f_path r) s
  | FDevEq z => f_dev r =? z
  | FInoEq z => f_ino r =? z
  | FDeletingEq z => f_deleting r =? z
  | FAnd a b => eval_fcond a r && eval_fcond b r
  end.

Inductive fset :=
  | SetPath (s : bytes)
  | SetPathReplace (old new : bytes)       (* path = replace(path, ?, ?) *)
  | SetDev (z : Z)
  | SetIno (z : Z)
  | SetUid (z : Z)
  | SetGid (z : Z)
  | SetMode (z : Z)
  | SetRdev (z : Z)
  | SetDeleting (z : Z).

Definition eval_fset (r : file_row) (s : fset) : file_row :=
  let '(mkFile p d i u g m rd de) := r in
  match s with
  | SetPath v => mkFile v d i u g m rd de
  | SetPathReplace o n => mkFile (sql_replace p o n) d i u g m rd de
  | SetDev v => mkFile p v i u g m rd de
  | SetIno v => mkFile p d v u g m rd de
  | SetUid v => mkFile p d i v g m rd de
  | SetGid v => mkFile p d i u v m rd de
  | SetMode v => mkFile p d i u g v rd de
  | SetRdev v => mkFile p d i u g m v de
  | SetDeleting v => mkFile p d i u g m rd v
  end.

Definition eval_fsets (l : list fset) (r : file_row) : file_row := foldl eval_fset r l.

Inductive xcond :=
  | XDevEq (z : Z)
  | XInoEq (z : Z)
  | XNameEq (s : bytes)
  | XNameNull                              (* name = NULL: never true *)
  | XIdEq (z : Z)
  | XNoFile                                (* no file row with xattrs.dev, xattrs.ino *)
  | XNoFileAt (dev ino : Z)                (* no file row with these *)
  | XAnd (a b : xcond).

Definition has_file (t : gmap Z file_row) (dev ino : Z) : bool :=
  bool_decide (trows (eval_fcond (FAnd (FDevEq dev) (FInoEq ino))) t <> []).

Fixpoint eval_xcond (t : gmap Z file_row) (c : xcond) (r : xattr_row) : bool :=
  match c with
  | XDevEq z => x_dev r =? z
  | XInoEq z => x_ino r =? z
  | XNameEq s => bool_decide (x_name r = s)
  | XNameNull => false
  | XIdEq z => x_id r =? z
  | XNoFile => negb (has_file t (x_dev r) (x_ino r))
  | XNoFileAt d i => negb (has_file t d i)
  | XAnd a b => eval_xcond t a r && eval_xcond t b r
  end.

Inductive xset := SetXDev (z : Z) | SetXValue (s : bytes).

Definition eval_xset (s : xset) (r : xattr_row) : xattr_row :=
  let '(mkXattr id d i n v) := r in
  match s with
  | SetXDev z => mkXattr id z i n v
  | SetXValue v' => mkXattr id d i n v'
  end.

(** The conditions and the row of a log statement are built field by field in
    [LogDb]; here they are what SQLite evaluates. *)
Inductive stmt :=
  | InsertFiles (r : file_row)
  | DeleteFiles (w : fcond)
  | UpdateFiles (sets : list fset) (w : fcond)
  | InsertXattrs (dev ino : Z) (name value : bytes)
  | InsertXattrsSelect (dev ino : Z) (w : xcond)   (* SELECT ?, ?, name, value FROM xattrs WHERE .. *)
  | DeleteXattrs (w : xcond)
  | UpdateXattrs (s : xset) (w : xcond)
  | InsertLogs (r : Z -> log_row)
  | DeleteLogs (w : log_row -> bool).

(** ** What the statements mean *)

Definition xinsert (dev ino : Z) (t : gmap Z xattr_row) (nv : bytes * bytes) : gmap Z xattr_row :=
  <[fresh_id t := mkXattr (fresh_id t) dev ino nv.1 nv.2]> t.

Definition name_value (r : xattr_row) : bytes * bytes := (x_name r, x_value r).

(** [INSERT ... SELECT] adds the rows found in an order SQLite does not
    promise; everything else is a function of the tables. *)
Inductive stmt_sem (t : tables) : stmt -> tables -> Prop :=
  | SemInsertFiles r :
      stmt_sem t (InsertFiles r) (mkTables (<[fresh_id (files t) := r]> (files t)) (xattrs t) (logs t))
  | SemDeleteFiles w :
      stmt_sem t (DeleteFiles w) (mkTables (tdelete (eval_fcond w) (files t)) (xattrs t) (logs t))
  | SemUpdateFiles l w :
      stmt_sem t (UpdateFiles l w)
        (mkTables (tupdate (eval_fcond w) (eval_fsets l) (files t)) (xattrs t) (logs t))
  | SemInsertXattrs d i n v :
      stmt_sem t (InsertXattrs d i n v) (mkTables (files t) (xinsert d i (xattrs t) (n, v)) (logs t))
  | SemInsertXattrsSelect d i w rows :
      rows ≡ₚ (trows (eval_xcond (files t) w) (xattrs t)).*2 ->
      stmt_sem t (InsertXattrsSelect d i w)
        (mkTables (files t) (foldl (xinsert d i) (xattrs t) (map name_value rows)) (logs t))
  | SemDeleteXattrs w :
      stmt_sem t (DeleteXattrs w)
        (mkTables (files t) (tdelete (eval_xcond (files t) w) (xattrs t)) (logs t))
  | SemUpdateXattrs s w :
      stmt_sem t (UpdateXattrs s w)
        (mkTables (files t) (tupdate (eval_xcond (files t) w) (eval_xset s) (xattrs t)) (logs t))
  | SemInsertLogs r :
      stmt_sem t (InsertLogs r)
        (mkTables (files t) (xattrs t) (<[fresh_id (logs t) := r (fresh_id (logs t))]> (logs t)))
  | SemDeleteLogs w :
      stmt_sem t (DeleteLogs w) (mkTables (files t) (xattrs t) (tdelete w (logs t))).

(** Rows a statement touches: what [sqlite3_changes] reports. *)
Definition affected (t : tables) (s : stmt) : Z :=
  match s with
  | InsertFiles _ | InsertXattrs _ _ _ _ | InsertLogs _ => 1
  | DeleteFiles w | UpdateFiles _ w => Z.of_nat (length (trows (eval_fcond w) (files t)))
  | InsertXattrsSelect _ _ w | DeleteXattrs w | UpdateXattrs _ w =>
      Z.of_nat (length (trows (eval_xcond (files t) w) (xattrs t)))
  | DeleteLogs w => Z.of_nat (length (trows w (logs t)))
  end.

(** ** The engine *)

(** The prepared statements of the file, one per static [sqlite3_stmt *]. *)
Inductive stmt_id :=
  | St_clear_unused_xattrs | St_clear_xattrs | St_copy_xattrs | St_check_xattrs
  | St_link_file | St_unlink_file_dev | St_update_file_path | St_may_unlink_file
  | St_cancel_unlink_file | St_did_unlink_files | St_did_unlink_file | St_unlink_file
  | St_unlink_contents | St_rename_exact | St_rename_sub | St_renumber_files
  | St_renumber_xattrs | St_update_inode | St_update_file | St_find_file_exact
  | St_find_file_path | St_get_file_path | St_find_file_dev | St_get_xattr
  | St_list_xattr | St_remove_xattr | St_set_xattr_select | St_set_xattr_update
  | St_set_xattr_insert | St_find_file_ino | St_files
  | St_log_entry | St_log_msg | St_log_query | St_log_delete.

(** [file_db_open]: [file_db] is set, or [get_dbs] could open it;
    [prepare_v2]: the statement is prepared already, or now ([SQLITE_OK]).
    A [SELECT] answers the rows its steps deliver and the code of the step
    after the last one. *)
Class SqlEngine := {
  sqlite3 : Type;
  db_tables : sqlite3 -> tables;
  file_db_open : sqlite3 -> bool;
  log_db_open : sqlite3 -> bool;
  prepare_v2 : sqlite3 -> stmt_id -> Z;
  bind_text_rc : sqlite3 -> bytes -> Z;
  step : sqlite3 -> stmt -> sqlite3 * Z;
  changes : sqlite3 -> Z;
  exec : sqlite3 -> bytes -> sqlite3 * Z;
  select_files : sqlite3 -> fcond -> list file_row * Z;
  select_all_files : sqlite3 -> list file_row * Z;
  select_xattrs : sqlite3 -> xcond -> list xattr_row * Z;
  select_xattrs_by_name : sqlite3 -> xcond -> list xattr_row * Z;
  count_files : sqlite3 -> fcond -> option Z * Z;
  select_logs : sqlite3 -> (log_row -> bool) -> list log_row * Z
}.

(** Rows of a [SELECT]: all the matching ones after [SQLITE_DONE], some of
    them when a step failed. *)
Definition rows_of {R} (l : list R) (rc : Z) (all : list R) : Prop :=
  if decide (rc = SQLITE_DONE) then l ≡ₚ all else exists rest, l ++ rest ≡ₚ all.

Definition name_le (a b : xattr_row) : Prop := str_le (x_name a) (x_name b).

(** The documented behaviour the code relies on: a statement that ends with
    [SQLITE_DONE] has done what its text says, one that ends otherwise has
    changed nothing, a [SELECT] delivers the rows that match. *)
Class SqlLaws (E : SqlEngine) : Prop := {
  step_done d s d' : step d s = (d', SQLITE_DONE) -> stmt_sem (db_tables d) s (db_tables d');
  step_changes d s d' : step d s = (d', SQLITE_DONE) -> changes d' = affected (db_tables d) s;
  step_failed d s d' rc : step d s = (d', rc) -> rc <> SQLITE_DONE -> db_tables d' = db_tables d;
  exec_tables d s : db_tables (exec d s).1 = db_tables d;
  select_files_rows d w l rc : select_files d w = (l, rc) ->
    rows_of l rc (trows (eval_fcond w) (files (db_tables d))).*2;
  select_all_files_rows d l rc : select_all_files d = (l, rc) ->
    rows_of l rc (map_to_list (files (db_tables d))).*2;
  select_xattrs_rows d w l rc : select_xattrs d w = (l, rc) ->
    rows_of l rc (trows (eval_xcond (files (db_tables d)) w) (xattrs (db_tables d))).*2;
  select_xattrs_by_name_rows d w l rc : select_xattrs_by_name d w = (l, rc) ->
    rows_of l rc (trows (eval_xcond (files (db_tables d)) w) (xattrs (db_tables d))).*2 /\
    StronglySorted name_le l;
  count_files_value d w n rc : count_files d w = (Some n, rc) ->
    n = Z.of_nat (length (trows (eval_fcond w) (files (db_tables d))));
  select_logs_rows d w l rc : select_logs d w = (l, rc) ->
    rows_of l rc (trows w (logs (db_tables d))).*2
}.

(** A run in which SQLite reports no error. *)
Class SqlReliable (E : SqlEngine) : Prop := {
  file_db_is_open d : file_db_open d = true;
  log_db_is_open d : log_db_open d = true;
  prepare_ok d s : prepare_v2 d s = SQLITE_OK;
  bind_text_ok d s : bind_text_rc d s = SQLITE_OK;
  step_ok d s : (step d s).2 = SQLITE_DONE;
  exec_ok d s : (exec d s).2 = SQLITE_OK;
  select_files_ok d w : (select_files d w).2 = SQLITE_DONE;
  select_all_files_ok d : (select_all_files d).2 = SQLITE_DONE;
  select_xattrs_ok d w : (select_xattrs d w).2 = SQLITE_DONE;
  select_xattrs_by_name_ok d w : (select_xattrs_by_name d w).2 = SQLITE_DONE;
  count_files_ok d w : is_Some (count_files d w).1 /\ (count_files d w).2 = SQLITE_DONE;
  select_logs_ok d w : (select_logs d w).2 = SQLITE_DONE
}.

(** ** A concrete engine: tables in memory, no failures *)

Definition stmt_run (t : tables) (s : stmt) : tables :=
  match s with
  | InsertFiles r => mkTables (<[fresh_id (files t) := r]> (files t)) (xattrs t) (logs t)
  | DeleteFiles w => mkTables (tdelete (eval_fcond w) (files t)) (xattrs t) (logs t)
  | UpdateFiles l w => mkTables (tupdate (eval_fcond w) (eval_fsets l) (files t)) (xattrs t) (logs t)
  | InsertXattrs d i n v => mkTables (files t) (xinsert d i (xattrs t) (n, v)) (logs t)
  | InsertXattrsSelect d i w =>
      let rows := (trows (eval_xcond (files t) w) (xattrs t)).*2 in
      mkTables (files t) (foldl (xinsert d i) (xattrs t) (map name_value rows)) (logs t)
  | DeleteXattrs w => mkTables (files t) (tdelete (eval_xcond (files t) w) (xattrs t)) (logs t)
  | UpdateXattrs s w => mkTables (files t) (tupdate (eval_xcond (files t) w) (eval_xset s) (xattrs t)) (logs t)
  | InsertLogs r =>
      mkTables (files t) (xattrs t) (<[fresh_id (logs t) := r (fresh_id (logs t))]> (logs t))
  | DeleteLogs w => mkTables (files t) (xattrs t) (tdelete w (logs t))
  end.

Lemma stmt_run_sem t s : stmt_sem t s (stmt_run t s).
Proof. by destruct s; simpl; constructor. Qed.

#[export] Instance name_le_dec : RelDecision name_le.
Proof. unfold name_le. intros a b. apply _. Defined.

#[export] Instance name_le_total : Total name_le.
Proof. intros a b. unfold name_le. apply (total str_le). Qed.

#[export] Instance name_le_trans : Transitive name_le.
Proof. intros a b c. unfold name_le. apply (transitivity (R := str_le)). Qed.

#[export] Instance mem_engine : SqlEngine := {
  sqlite3 := tables * Z;
  db_tables d := d.1;
  file_db_open _ := true;
  log_db_open _ := true;
  prepare_v2 _ _ := SQLITE_OK;
  bind_text_rc _ _ := SQLITE_OK;
  step d s := ((stmt_run d.1 s, affected d.1 s), SQLITE_DONE);
  changes d := d.2;
  exec d _ := (d, SQLITE_OK);
  select_files d w := ((trows (eval_fcond w) (files d.1)).*2, SQLITE_DONE);
  select_all_files d := ((map_to_list (files d.1)).*2, SQLITE_DONE);
  select_xattrs d w := ((trows (eval_xcond (files d.1) w) (xattrs d.1)).*2, SQLITE_DONE);
  select_xattrs_by_name d w :=
    (merge_sort name_le (trows (eval_xcond (files d.1) w) (xattrs d.1)).*2, SQLITE_DONE);
  count_files d w := (Some (Z.of_nat (length (trows (eval_fcond w) (files d.1)))), SQLITE_DONE);
  select_logs d w := ((trows w (logs d.1)).*2, SQLITE_DONE)
}.

Lemma rows_of_done {R} (l all : list R) : l ≡ₚ all -> rows_of l SQLITE_DONE all.
Proof. intros. unfold rows_of. by rewrite decide_True. Qed.

#[export] Instance mem_engine_laws : SqlLaws mem_engine.
Proof.
  constructor; simpl.
  - intros d s d' [= <-]. apply stmt_run_sem.
  - by intros d s d' [= <-].
  - by intros d s d' rc [= <- <-].
  - done.
  - intros d w l rc [= <- <-]. by apply rows_of_done.
  - intros d l rc [= <- <-]. by apply rows_of_done.
  - intros d w l rc [= <- <-]. by apply rows_of_done.
  - intros d w l rc [= <- <-]. split.
    + apply rows_of_done, merge_sort_Permutation.
    + apply (StronglySorted_merge_sort name_le).
  - by intros d w n rc [= <- <-].
  - intros d w l rc [= <- <-]. by apply rows_of_done.
Qed.

#[export] Instance mem_engine_reliable : SqlReliable mem_engine.
Proof. by constructor. Qed.

(** ** Lemmas *)

Lemma has_file_true t dev ino :
  has_file t dev ino = true <-> exists i r, t !! i = Some r /\ f_dev r = dev /\ f_ino r = ino.
Proof.
  unfold has_file. rewrite bool_decide_eq_true. split.
  - destruct (trows _ t) as [|[i r] l] eqn:E; [done|]. intros _.
    assert ((i, r) ∈ trows (eval_fcond (FAnd (FDevEq dev) (FInoEq ino))) t) as Hin
      by (rewrite E; left).
    apply elem_of_trows in Hin as [Ht Hc]. simpl in Hc. bool_facts. eauto.
  - intros (i & r & Ht & <- & <-) Hnil.
    assert ((i, r) ∈ trows (eval_fcond (FAnd (FDevEq (f_dev r)) (FInoEq (f_ino r)))) t) as Hin.
    { apply elem_of_trows. split; [done|]. simpl. by rewrite !Z.eqb_refl. }
    rewrite Hnil in Hin. by apply elem_of_nil in Hin.
Qed.

Lemma has_file_false t dev ino :
  has_file t dev ino = false <-> forall i r, t !! i = Some r -> f_dev r = dev -> f_ino r <> ino.
Proof.
  rewrite <- not_true_iff_false, has_file_true. naive_solver.
Qed.

Section Reliable.
Context {E : SqlEngine} {L : SqlLaws E} {RL : SqlReliable E}.

(** In a run without errors every statement has its effect. *)
Lemma step_sem d s :
  exists d', step d s = (d', SQLITE_DONE) /\ stmt_sem (db_tables d) s (db_tables d').
Proof.
  destruct (step d s) as [d' rc] eqn:Hs. pose proof (step_ok d s) as Hrc.
  rewrite Hs in Hrc. simpl in Hrc. subst rc. exists d'. split; [done|]. by apply step_done.
Qed.

Lemma select_files_spec d w :
  exists l, select_files d w = (l, SQLITE_DONE) /\
    l ≡ₚ (trows (eval_fcond w) (files (db_tables d))).*2.
Proof.
  destruct (select_files d w) as [l rc] eqn:Hs. pose proof (select_files_ok d w) as Hrc.
  rewrite Hs in Hrc. simpl in Hrc. subst rc. exists l. split; [done|].
  apply select_files_rows in Hs. unfold rows_of in Hs. by rewrite decide_True in Hs.
Qed.

Lemma select_xattrs_spec d w :
  exists l, select_xattrs d w = (l, SQLITE_DONE) /\
    l ≡ₚ (trows (eval_xcond (files (db_tables d)) w) (xattrs (db_tables d))).*2.
Proof.
  destruct (select_xattrs d w) as [l rc] eqn:Hs. pose proof (select_xattrs_ok d w) as Hrc.
  rewrite Hs in Hrc. simpl in Hrc. subst rc. exists l. split; [done|].
  apply select_xattrs_rows in Hs. unfold rows_of in Hs. by rewrite decide_True in Hs.
Qed.

Lemma select_xattrs_by_name_spec d w :
  exists l, select_xattrs_by_name d w = (l, SQLITE_DONE) /\
    l ≡ₚ (trows (eval_xcond (files (db_tables d)) w) (xattrs (db_tables d))).*2 /\
    StronglySorted name_le l.
Proof.
  destruct (select_xattrs_by_name d w) as [l rc] eqn:Hs.
  pose proof (select_xattrs_by_name_ok d w) as Hrc.
  rewrite Hs in Hrc. simpl in Hrc. subst rc. exists l. split; [done|].
  apply select_xattrs_by_name_rows in Hs as [Hs ?]. unfold rows_of in Hs.
  by rewrite decide_True in Hs.
Qed.

Lemma count_files_spec d w :
  count_files d w = (Some (Z.of_nat (length (trows (eval_fcond w) (files (db_tables d))))), SQLITE_DONE).
Proof.
  destruct (count_files d w) as [n rc] eqn:Hs. destruct (count_files_ok d w) as [[k Hk] Hrc].
  rewrite Hs in Hk, Hrc. simpl in *. subst. by rewrite (count_files_value _ _ _ _ Hs).
Qed.
End Reliable.

(** The rows of a SELECT: membership. *)
Lemma elem_of_rows {R} (p : R -> bool) (t : gmap Z R) l r :
  l ≡ₚ (trows p t).*2 -> r ∈ l <-> exists i, t !! i = Some r /\ p r = true.
Proof.
  intros ->. rewrite list_elem_of_fmap. split.
  - intros ([i r'] & -> & Hin). apply elem_of_trows in Hin. eauto.
  - intros (i & Hi). exists (i, r). split; [done|]. by apply elem_of_trows.
Qed.

Lemma rows_nil {R} (p : R -> bool) (t : gmap Z R) :
  [] ≡ₚ (trows p t).*2 <-> forall i r, t !! i = Some r -> p r = false.
Proof.
  split.
  - intros H i r Hi. destruct (p r) eqn:Hp; [|done].
    assert (r ∈ @nil R) as Hin by (apply (elem_of_rows p t); eauto).
    by apply elem_of_nil in Hin.
  - intros H. destruct (trows p t) as [|[i r] l] eqn:Hl; [done|].
    assert ((i, r) ∈ trows p t) as Hin by (rewrite Hl; left).
    apply elem_of_trows in Hin as [Hi Hp]. by rewrite (H _ _ Hi) in Hp.
Qed.
