(* ===== verification/FileDb.v ===== *)
(** The file table operations of [pseudo_db.c]: what [pdb_link_file],
    [pdb_unlink_file], [pdb_rename_file], the deletion protocol, the updates
    and the lookups do to the database, with every early return in the order
    of the source.

    Every function takes and returns the database state [pdb]: the connection
    and the flag [file_db_dirty].  A [pseudo_msg_t *] that no caller passes as
    NULL is a plain message. *)

From stdpp Require Import base gmap list fin_maps strings.
From Stdlib Require Import ZArith Lia Ascii.
From S2P Require Import Prelude Tables Message Sql.

Open Scope Z_scope.

(** ** Integers in the database *)

(** SQLite's integers are signed; an inode is not. *)
Definition signed_ino (ino : Z) : Z :=
  if INT64_MAX <? ino then int64 (uint64 (ino + INT64_MIN)) + INT64_MIN
  else int64 ino.

(** [sqlite3_bind_int] takes an [int]. *)
Definition bind_int (z : Z) : Z := int32 z.

Definition NAMELESS_FILE : bytes := $"NAMELESS FILE".

(** ** Memory images of messages *)

Definition msg_image (m : pseudo_msg_t) : bytes := header_bytes m ++ m_path m.

Definition msg_of_image (l : bytes) : pseudo_msg_t :=
  mkMsg (header_of_bytes l) (drop (Z.to_nat PSEUDO_HEADER_SIZE) l).

Section FileDb.
Context {E : SqlEngine} {PM : PathMax}.

(** [oldmsg] is the static buffer of [pdb_update_inode]. *)
Record pdb := mkPdb { conn : sqlite3; file_db_dirty : bool; oldmsg : option bytes }.

Definition pdb_tables (p : pdb) : tables := db_tables (conn p).

(** [sqlite3_step] of a statement that writes; the callers that set
    [file_db_dirty] do so before it. *)
Definition step_clean (p : pdb) (s : stmt) : pdb * Z :=
  let '(d, rc) := step (conn p) s in (mkPdb d (file_db_dirty p) (oldmsg p), rc).

Definition step_dirty (p : pdb) (s : stmt) : pdb * Z :=
  let '(d, rc) := step (conn p) s in (mkPdb d true (oldmsg p), rc).

Definition not_prepared (p : pdb) (s : stmt_id) : bool :=
  negb (prepare_v2 (conn p) s =? SQLITE_OK).

Definition not_done (rc : Z) : Z := b2z (negb (rc =? SQLITE_DONE)).

(** ** Attributes of inodes that are gone *)

Definition pdb_clear_unused_xattrs (p : pdb) : pdb :=
  if negb (file_db_open (conn p)) then p
  else if not_prepared p St_clear_unused_xattrs then p
  else (step_clean p (DeleteXattrs XNoFile)).1.

Definition pdb_clear_xattrs (p : pdb) (msg : pseudo_msg_t) : pdb :=
  if negb (file_db_open (conn p)) then p
  else if not_prepared p St_clear_xattrs then p
  else
    (step_clean p (DeleteXattrs (XAnd (XAnd (XDevEq (bind_int (m_dev msg)))
                                            (XInoEq (signed_ino (m_ino msg))))
                                      (XNoFileAt (bind_int (m_dev msg)) (signed_ino (m_ino msg)))))).1.

Definition pdb_copy_xattrs (p : pdb) (oldmsg msg : pseudo_msg_t) : pdb :=
  if negb (file_db_open (conn p)) then p
  else if not_prepared p St_copy_xattrs then p
  else
    (step_clean p (InsertXattrsSelect (bind_int (m_dev msg)) (signed_ino (m_ino msg))
                     (XAnd (XDevEq (bind_int (m_dev oldmsg)))
                           (XInoEq (signed_ino (m_ino oldmsg)))))).1.

Definition pdb_check_xattrs (p : pdb) (msg : pseudo_msg_t) : pdb :=
  if negb (file_db_open (conn p)) then p
  else if not_prepared p St_check_xattrs then p
  else
    let '(row, rc) := count_files (conn p)
      (FAnd (FDevEq (bind_int (m_dev msg))) (FInoEq (signed_ino (m_ino msg)))) in
    let existing := match row with Some n => int32 n | None => 0 end in
    if existing =? 0 then pdb_clear_xattrs p msg else p.

(** ** Creating and deleting rows *)

Definition pdb_link_file (p : pdb) (msg : pseudo_msg_t) : pdb * Z :=
  if negb (file_db_open (conn p)) then (p, 0)
  else if not_prepared p St_link_file then (p, 1)
  else
    let path := if negb (m_pathlen msg =? 0) then path_str msg else NAMELESS_FILE in
    let '(p, rc) := step_dirty p
      (InsertFiles (mkFile path (bind_int (m_dev msg)) (signed_ino (m_ino msg))
                      (bind_int (m_uid msg)) (bind_int (m_gid msg)) (bind_int (m_mode msg))
                      (bind_int (m_rdev msg)) 0)) in
    (p, not_done rc).

Definition pdb_unlink_file_dev (p : pdb) (msg : pseudo_msg_t) : pdb * Z :=
  if negb (file_db_open (conn p)) then (p, 0)
  else if not_prepared p St_unlink_file_dev then (p, 1)
  else
    let '(p, rc) := step_dirty p
      (DeleteFiles (FAnd (FDevEq (bind_int (m_dev msg))) (FInoEq (signed_ino (m_ino msg))))) in
    let p := pdb_clear_xattrs p msg in
    (p, not_done rc).

(** The inode is bound without [signed_ino]: the conversion to
    [sqlite3_int64] is the same wrap-around. *)
Definition pdb_update_file_path (p : pdb) (msg : pseudo_msg_t) : pdb * Z :=
  if negb (file_db_open (conn p)) then (p, 0)
  else if not_prepared p St_update_file_path then (p, 1)
  else if m_pathlen msg =? 0 then (p, 1)
  else
    let '(p, rc) := step_dirty p
      (UpdateFiles [SetPath (path_str msg)]
         (FAnd (FAnd (FPathEq NAMELESS_FILE) (FDevEq (bind_int (m_dev msg))))
               (FInoEq (int64 (m_ino msg))))) in
    (p, not_done rc).

(** ** The deletion protocol: mark, then delete or unmark *)

Definition pdb_may_unlink_file (p : pdb) (msg : pseudo_msg_t) (deleting : Z) : pdb * Z :=
  if negb (file_db_open (conn p)) then (p, 0)
  else if not_prepared p St_may_unlink_file then (p, 1)
  else if m_pathlen msg =? 0 then (p, 1)
  else
    let '(p, rc) := step_dirty p
      (UpdateFiles [SetDeleting (bind_int deleting)] (FPathEq (path_str msg))) in
    if negb (rc =? SQLITE_DONE) then (p, 1)
    else
      let exact := changes (conn p) in
      if 0 <? exact then (p, 0) else (p, 1).

Definition pdb_cancel_unlink_file (p : pdb) (msg : pseudo_msg_t) : pdb * Z :=
  if negb (file_db_open (conn p)) then (p, 0)
  else if not_prepared p St_cancel_unlink_file then (p, 1)
  else if m_pathlen msg =? 0 then (p, 1)
  else
    let '(p, rc) := step_dirty p (UpdateFiles [SetDeleting 0] (FPathEq (path_str msg))) in
    let p := pdb_check_xattrs p msg in
    (p, not_done rc).

Definition pdb_did_unlink_files (p : pdb) (deleting : Z) : pdb * Z :=
  if negb (file_db_open (conn p)) then (p, 0)
  else if not_prepared p St_did_unlink_files then (p, 1)
  else if deleting =? 0 then (p, 0)
  else
    let '(p, rc) := step_dirty p (DeleteFiles (FDeletingEq (bind_int deleting))) in
    let p := pdb_clear_unused_xattrs p in
    (p, not_done rc).

(** [path] and [msg] may be NULL. *)
Definition pdb_did_unlink_file (p : pdb) (path : option bytes) (msg : option pseudo_msg_t)
    (deleting : Z) : pdb * Z :=
  if negb (file_db_open (conn p)) then (p, 0)
  else if not_prepared p St_did_unlink_file then (p, 1)
  else
    match path with
    | None => (p, 1)
    | Some path =>
        let '(p, rc) := step_dirty p
          (DeleteFiles (FAnd (FPathEq (c_str path)) (FDeletingEq (bind_int deleting)))) in
        let p := match msg with
          | Some msg => pdb_clear_xattrs p msg
          | None => pdb_clear_unused_xattrs p
          end in
        (p, not_done rc)
    end.

Definition pdb_unlink_file (p : pdb) (msg : pseudo_msg_t) : pdb * Z :=
  if negb (file_db_open (conn p)) then (p, 0)
  else if not_prepared p St_unlink_file then (p, 1)
  else if m_pathlen msg =? 0 then (p, 1)
  else
    let '(p, rc) := step_dirty p (DeleteFiles (FPathEq (path_str msg))) in
    let p := pdb_check_xattrs p msg in
    (p, not_done rc).

(** The condition [path > (? || '/') AND path < (? || '0')]. *)
Definition below (path : bytes) : fcond :=
  FAnd (FPathGt (path ++ ["/"%char])) (FPathLt (path ++ ["0"%char])).

Definition pdb_unlink_contents (p : pdb) (msg : pseudo_msg_t) : pdb * Z :=
  if negb (file_db_open (conn p)) then (p, 0)
  else if not_prepared p St_unlink_contents then (p, 1)
  else if m_pathlen msg =? 0 then (p, 1)
  else
    let '(p, rc) := step_dirty p (DeleteFiles (below (path_str msg))) in
    let p := pdb_clear_unused_xattrs p in
    (p, not_done rc).

(** ** Renaming and renumbering *)

Definition pdb_rename_file (p : pdb) (oldpath : option bytes) (msg : pseudo_msg_t) : pdb * Z :=
  if negb (file_db_open (conn p)) then (p, 0)
  else if not_prepared p St_rename_exact then (p, 1)
  else if not_prepared p St_rename_sub then (p, 1)
  else if m_pathlen msg =? 0 then (p, 1)
  else
    match oldpath with
    | None => (p, 1)
    | Some oldpath =>
        let old := c_str oldpath in
        let new := path_str msg in
        let p := mkPdb (exec (conn p) ($"BEGIN;")).1 true (oldmsg p) in
        let '(p, rc) := step_dirty p (UpdateFiles [SetPath new; SetDeleting 0] (FPathEq old)) in
        let '(p, rc) := step_dirty p (UpdateFiles [SetPathReplace old new; SetDeleting 0] (below old)) in
        let '(d, rc) := exec (conn p) ($"END;") in
        (mkPdb d (file_db_dirty p) (oldmsg p), not_done rc)
    end.

Definition pdb_renumber_all (p : pdb) (from to : Z) : pdb * Z :=
  if negb (file_db_open (conn p)) then (p, 0)
  else if not_prepared p St_renumber_files then (p, 1)
  else if not_prepared p St_renumber_xattrs then (p, 1)
  else
    let '(p, rc) := step_dirty p (UpdateFiles [SetDev (bind_int to)] (FDevEq (bind_int from))) in
    let '(p, rc) := step_dirty p (UpdateXattrs (SetXDev (bind_int to)) (XDevEq (bind_int from))) in
    (p, not_done rc).

(** ** Lookups

    A row's integers come back as signed 64-bit values and are converted to
    the type of the message's field; with several matching rows it is the
    first one SQLite delivers. *)

Definition read_attrs (r : file_row) (msg : pseudo_msg_t) : pseudo_msg_t :=
  set_deleting (int32 (f_deleting r)) (set_rdev (uint64 (f_rdev r)) (set_mode (uint64 (f_mode r))
    (set_gid (uint32 (f_gid r)) (set_uid (uint32 (f_uid r)) msg)))).

Definition pdb_find_file_exact (p : pdb) (msg : pseudo_msg_t) : pseudo_msg_t * Z :=
  if negb (file_db_open (conn p)) then (msg, 0)
  else if not_prepared p St_find_file_exact then (msg, 1)
  else
    match select_files (conn p)
            (FAnd (FAnd (FPathEq (path_str msg)) (FDevEq (bind_int (m_dev msg))))
                  (FInoEq (signed_ino (m_ino msg)))) with
    | (r :: _, _) => (read_attrs r msg, 0)
    | ([], _) => (msg, 1)
    end.

Definition pdb_find_file_path (p : pdb) (msg : pseudo_msg_t) : pseudo_msg_t * Z :=
  if negb (file_db_open (conn p)) then (msg, 1)
  else if not_prepared p St_find_file_path then (msg, 1)
  else if m_pathlen msg =? 0 then (msg, 1)
  else
    match select_files (conn p) (FPathEq (path_str msg)) with
    | (r :: _, _) =>
        (read_attrs r (set_ino (uint64 (f_ino r)) (set_dev (uint64 (f_dev r)) msg)), 0)
    | ([], _) => (msg, 1)
    end.

Definition pdb_get_file_path (p : pdb) (msg : pseudo_msg_t) : option bytes :=
  if negb (file_db_open (conn p)) then None
  else if not_prepared p St_get_file_path then None
  else
    match select_files (conn p)
            (FAnd (FDevEq (bind_int (m_dev msg))) (FInoEq (signed_ino (m_ino msg)))) with
    | (r :: _, _) => if decide (c_str (f_path r) = NAMELESS_FILE) then None else Some (c_str (f_path r))
    | ([], _) => None
    end.

(** The last component is [*path]: it is set only when a row was found. *)
Definition pdb_find_file_dev (p : pdb) (msg : pseudo_msg_t) (path : option bytes) :
    pseudo_msg_t * option bytes * Z :=
  if negb (file_db_open (conn p)) then (msg, path, 0)
  else if not_prepared p St_find_file_dev then (msg, path, 1)
  else
    match select_files (conn p)
            (FAnd (FDevEq (bind_int (m_dev msg))) (FInoEq (signed_ino (m_ino msg)))) with
    | (r :: _, _) => (read_attrs r msg, Some (c_str (f_path r)), 0)
    | ([], _) => (msg, path, 1)
    end.

Definition pdb_find_file_ino (p : pdb) (msg : pseudo_msg_t) : pseudo_msg_t * Z :=
  if negb (file_db_open (conn p)) then (msg, 0)
  else if not_prepared p St_find_file_ino then (msg, 1)
  else
    match select_files (conn p) (FInoEq (signed_ino (m_ino msg))) with
    | (r :: _, _) => (read_attrs r (set_dev (uint64 (f_dev r)) msg), 0)
    | ([], _) => (msg, 1)
    end.

(** ** Updates *)

(** [memcpy(oldmsg, msg, sizeof(msg) + msg->pathlen)]: [msg] is a pointer,
    so that is 8 bytes and the path's length, counted from the start of the
    header. *)
Definition sizeof_pointer : Z := 8.

Definition copy_to_oldmsg (old : bytes) (msg : pseudo_msg_t) : bytes :=
  memwrite old (take (Z.to_nat (sizeof_pointer + m_pathlen msg)) (msg_image msg)).

Definition pdb_update_inode (p : pdb) (msg : pseudo_msg_t) : pdb * Z :=
  let old := default malloc_path_max (oldmsg p) in
  let p := mkPdb (conn p) (file_db_dirty p) (Some old) in
  if negb (file_db_open (conn p)) then (p, 0)
  else if not_prepared p St_update_inode then (p, 1)
  else if m_pathlen msg =? 0 then (p, 1)
  else
    let old := copy_to_oldmsg old msg in
    let '(om, nf) := pdb_find_file_path p (msg_of_image old) in
    let found_existing := nf =? 0 in
    let p := mkPdb (conn p) (file_db_dirty p) (Some (msg_image om)) in
    let p := if found_existing then pdb_copy_xattrs p om msg else p in
    let '(p, rc) := step_dirty p
      (UpdateFiles [SetDev (bind_int (m_dev msg)); SetIno (signed_ino (m_ino msg))]
                   (FPathEq (path_str msg))) in
    let p := if found_existing then pdb_check_xattrs p om else p in
    (p, not_done rc).

Definition pdb_update_file (p : pdb) (msg : pseudo_msg_t) : pdb * Z :=
  if negb (file_db_open (conn p)) then (p, 0)
  else if not_prepared p St_update_file then (p, 1)
  else
    let '(p, rc) := step_dirty p
      (UpdateFiles [SetUid (bind_int (m_uid msg)); SetGid (bind_int (m_gid msg));
                    SetMode (bind_int (m_mode msg)); SetRdev (bind_int (m_rdev msg))]
         (FAnd (FDevEq (bind_int (m_dev msg))) (FInoEq (signed_ino (m_ino msg))))) in
    (p, not_done rc).

(** ** Iterating over all files *)

Record pdb_file_list := mkFiles { l_rc : Z; l_rows : list file_row; l_end : Z }.

Definition pdb_files (p : pdb) : option pdb_file_list :=
  if negb (file_db_open (conn p)) then None
  else if not_prepared p St_files then None
  else let '(rows, rc) := select_all_files (conn p) in Some (mkFiles SQLITE_OK rows rc).

Definition pdb_file `{Malloc} (l : pdb_file_list) : option pseudo_msg_t * pdb_file_list :=
  if l_rc l =? SQLITE_DONE then (None, l)
  else
    match l_rows l with
    | [] => (None, mkFiles (l_end l) [] (l_end l))
    | r :: rows =>
        let l := mkFiles SQLITE_ROW rows (l_end l) in
        match pseudo_msg_new 0 (Some (f_path r ++ [NUL])) with
        | None => (None, l)
        | Some m =>
            (Some (set_rdev (uint64 (f_rdev r)) (set_mode (uint64 (f_mode r))
              (set_gid (uint32 (f_gid r)) (set_uid (uint32 (f_uid r))
                (set_ino (uint64 (f_ino r)) (set_dev (uint64 (f_dev r)) m)))))), l)
        end
    end.
End FileDb.
