(* ===== verification/FileDbSpec.v ===== *)
(** What the file table operations do, in a run without database errors
    ([SqlReliable]): each operation's effect on the tables and its return
    code, then the properties of deletion, renaming and updates. *)

From stdpp Require Import base gmap list fin_maps strings sets.
From Stdlib Require Import ZArith Lia Ascii.
From S2P Require Import Prelude Tables Message Sql FileDb.

Open Scope Z_scope.

(** ** Integers *)

Lemma signed_ino_range i : in_uint64 i -> - 2 ^ 63 <= signed_ino i < 2 ^ 63.
Proof.
  intros Hi. unfold signed_ino, in_uint64, INT64_MAX, INT64_MIN in *.
  destruct (Z.ltb_spec (2 ^ 63 - 1) i).
  - rewrite (wrap_unsigned_small 64) by lia. rewrite (wrap_signed_small 64) by lia. lia.
  - rewrite (wrap_signed_small 64) by lia. lia.
Qed.

Lemma signed_ino_uint64 i : in_uint64 i -> uint64 (signed_ino i) = i.
Proof.
  intros Hi. unfold signed_ino, in_uint64, INT64_MAX, INT64_MIN in *.
  destruct (Z.ltb_spec (2 ^ 63 - 1) i).
  - rewrite (wrap_unsigned_small 64 (i + _)) by lia. rewrite (wrap_signed_small 64) by lia.
    unfold wrap_unsigned. replace (i + - 2 ^ 63 + - 2 ^ 63) with (i + (-1) * 2 ^ 64) by lia.
    rewrite Z.mod_add by lia. by apply Z.mod_small.
  - rewrite (wrap_signed_small 64) by lia. by apply wrap_unsigned_small.
Qed.

Lemma signed_ino_inj i j : in_uint64 i -> in_uint64 j -> signed_ino i = signed_ino j -> i = j.
Proof. intros Hi Hj H. by rewrite <- (signed_ino_uint64 i), <- (signed_ino_uint64 j), H. Qed.

Lemma int64_signed_ino i : in_uint64 i -> int64 i = signed_ino i.
Proof.
  intros Hi. rewrite <- (signed_ino_uint64 i Hi) at 1.
  rewrite (wrap_signed_unsigned 64). apply wrap_signed_small; [done|]. by apply signed_ino_range.
Qed.

Lemma bind_int_id z : in_int32 z -> bind_int z = z.
Proof. intros. by apply wrap_signed_small. Qed.

(** ** The [replace] of SQL *)

Lemma replace_from_skip n x y z :
  (n <= length x)%nat -> replace_from n x y z = replace_from 0 (drop n x) y z.
Proof.
  revert n. induction x as [|c x IH]; intros [|n] Hn; simpl in *; try done.
  apply IH. lia.
Qed.

Lemma sql_replace_prefix y rest z :
  y <> [] -> sql_replace (y ++ rest) y z = z ++ sql_replace rest y z.
Proof.
  intros Hy. unfold sql_replace. rewrite !decide_False by done.
  destruct y as [|a y]; [done|]. cbn [app replace_from].
  change (a :: y ++ rest) with ((a :: y) ++ rest). rewrite prefixb_app. f_equal.
  rewrite replace_from_skip by (simpl; rewrite length_app; lia).
  f_equal. simpl. rewrite Nat.sub_0_r. apply drop_app_length.
Qed.

(** [y] occurs nowhere in [x]. *)
Definition no_occurrence (y x : bytes) : Prop := forall u v, x <> u ++ y ++ v.

Lemma sql_replace_none x y z : no_occurrence y x -> sql_replace x y z = x.
Proof.
  intros Hno. unfold sql_replace. case_decide; [done|].
  induction x as [|c x IH]; [done|]. cbn [replace_from].
  destruct (prefixb y (c :: x)) eqn:Hp.
  - apply prefixb_spec in Hp as [v Hv]. by destruct (Hno [] v).
  - f_equal. apply IH. intros u v ->. by apply (Hno (c :: u) v).
Qed.

(** ** Effects *)

(** The row [pdb_link_file] inserts. *)
Definition link_row (m : pseudo_msg_t) : file_row :=
  mkFile (if negb (m_pathlen m =? 0) then path_str m else NAMELESS_FILE)
    (bind_int (m_dev m)) (signed_ino (m_ino m)) (bind_int (m_uid m)) (bind_int (m_gid m))
    (bind_int (m_mode m)) (bind_int (m_rdev m)) 0.

Definition at_inode (d i : Z) (r : file_row) : bool := (f_dev r =? d) && (f_ino r =? i).

(** The attributes of an inode without files go. *)
Definition drop_xattrs (d i : Z) (t : tables) : tables :=
  mkTables (files t)
    (tdelete (fun x => (x_dev x =? d) && (x_ino x =? i) && negb (has_file (files t) d i)) (xattrs t))
    (logs t).

Definition drop_orphans (t : tables) : tables :=
  mkTables (files t) (tdelete (fun x => negb (has_file (files t) (x_dev x) (x_ino x))) (xattrs t)) (logs t).

Definition delete_files (f : file_row -> bool) (t : tables) : tables :=
  mkTables (tdelete f (files t)) (xattrs t) (logs t).

Definition update_files (f : file_row -> bool) (g : file_row -> file_row) (t : tables) : tables :=
  mkTables (tupdate f g (files t)) (xattrs t) (logs t).

Definition path_is (s : bytes) (r : file_row) : bool := bool_decide (f_path r = s).

Definition set_attrs (u g m rd : Z) (r : file_row) : file_row :=
  mkFile (f_path r) (f_dev r) (f_ino r) u g m rd (f_deleting r).

Definition set_row_path (s : bytes) (r : file_row) : file_row :=
  mkFile s (f_dev r) (f_ino r) (f_uid r) (f_gid r) (f_mode r) (f_rdev r) (f_deleting r).

Definition set_row_dev (d : Z) (r : file_row) : file_row :=
  mkFile (f_path r) d (f_ino r) (f_uid r) (f_gid r) (f_mode r) (f_rdev r) (f_deleting r).

Definition set_row_inode (d i : Z) (r : file_row) : file_row :=
  mkFile (f_path r) d i (f_uid r) (f_gid r) (f_mode r) (f_rdev r) (f_deleting r).

Definition set_row_deleting (c : Z) (r : file_row) : file_row :=
  mkFile (f_path r) (f_dev r) (f_ino r) (f_uid r) (f_gid r) (f_mode r) (f_rdev r) c.

Lemma drop_xattrs_used d i t : has_file (files t) d i = true -> drop_xattrs d i t = t.
Proof.
  intros H. unfold drop_xattrs. rewrite tdelete_none; [by destruct t|].
  intros. by rewrite H, andb_false_r.
Qed.

Section Effects.
Context {E : SqlEngine} {L : SqlLaws E} {RL : SqlReliable E} {PM : PathMax}.
Implicit Types (p : pdb) (m : pseudo_msg_t).

Lemma prepared p s : not_prepared p s = false.
Proof. unfold not_prepared. by rewrite prepare_ok. Qed.

Lemma step_dirty_sem p s : exists p',
  step_dirty p s = (p', SQLITE_DONE) /\ stmt_sem (pdb_tables p) s (pdb_tables p') /\
  oldmsg p' = oldmsg p /\ changes (conn p') = affected (pdb_tables p) s.
Proof.
  destruct (step_sem (conn p) s) as (d & Hs & Hsem). unfold step_dirty. rewrite Hs.
  eexists. split; [done|]. split; [done|]. split; [done|]. by apply step_changes.
Qed.

Lemma step_clean_sem p s : exists p',
  step_clean p s = (p', SQLITE_DONE) /\ stmt_sem (pdb_tables p) s (pdb_tables p') /\
  oldmsg p' = oldmsg p.
Proof.
  destruct (step_sem (conn p) s) as (d & Hs & Hsem). unfold step_clean. rewrite Hs. by eexists.
Qed.
End Effects.

(** Remove the failure branches that a run without errors does not take. *)
Ltac no_failure :=
  rewrite ?file_db_is_open, ?prepared; cbn [negb].

(** Run the next writing statement; [T] is what it leaves in the tables. *)
Ltac run_step T :=
  let go p' H :=
    (inversion H; subst; clear H;
     match goal with Hp : _ = pdb_tables p' |- _ => symmetry in Hp; rename Hp into T end) in
  match goal with
  | |- context [step_dirty ?p ?s] =>
      let p' := fresh "p" in let Hs := fresh "Hs" in let H := fresh in
      destruct (step_dirty_sem p s) as (p' & Hs & H & ? & ?); rewrite Hs; go p' H
  | |- context [step_clean ?p ?s] =>
      let p' := fresh "p" in let Hs := fresh "Hs" in let H := fresh in
      destruct (step_clean_sem p s) as (p' & Hs & H & ?); rewrite Hs; go p' H
  end.

Section Effects.
Context {E : SqlEngine} {L : SqlLaws E} {RL : SqlReliable E} {PM : PathMax}.
Implicit Types (p : pdb) (m : pseudo_msg_t).

Lemma clear_unused_xattrs_tables p :
  pdb_tables (pdb_clear_unused_xattrs p) = drop_orphans (pdb_tables p) /\
  oldmsg (pdb_clear_unused_xattrs p) = oldmsg p.
Proof. unfold pdb_clear_unused_xattrs. no_failure. run_step T. done. Qed.

Lemma clear_xattrs_tables p m :
  pdb_tables (pdb_clear_xattrs p m) =
    drop_xattrs (bind_int (m_dev m)) (signed_ino (m_ino m)) (pdb_tables p) /\
  oldmsg (pdb_clear_xattrs p m) = oldmsg p.
Proof. unfold pdb_clear_xattrs. no_failure. run_step T. done. Qed.

Lemma check_xattrs_tables p m :
  pdb_tables (pdb_check_xattrs p m) =
    drop_xattrs (bind_int (m_dev m)) (signed_ino (m_ino m)) (pdb_tables p) /\
  oldmsg (pdb_check_xattrs p m) = oldmsg p.
Proof.
  unfold pdb_check_xattrs. no_failure. rewrite count_files_spec.
  match goal with |- context [int32 ?n =? 0] => destruct (Z.eqb_spec (int32 n) 0) as [Hz|Hz] end;
    [apply clear_xattrs_tables|].
  split; [|done]. symmetry. apply drop_xattrs_used.
  unfold has_file. apply bool_decide_eq_true. intros Hnil. unfold pdb_tables in Hnil.
  by rewrite Hnil in Hz.
Qed.

Lemma link_file_tables p m : exists p',
  pdb_link_file p m = (p', 0) /\ oldmsg p' = oldmsg p /\
  pdb_tables p' = mkTables (<[fresh_id (files (pdb_tables p)) := link_row m]> (files (pdb_tables p)))
                    (xattrs (pdb_tables p)) (logs (pdb_tables p)).
Proof. unfold pdb_link_file. no_failure. run_step T. by eexists. Qed.

Lemma unlink_file_dev_tables p m : exists p',
  pdb_unlink_file_dev p m = (p', 0) /\ oldmsg p' = oldmsg p /\
  pdb_tables p' = drop_xattrs (bind_int (m_dev m)) (signed_ino (m_ino m))
    (delete_files (at_inode (bind_int (m_dev m)) (signed_ino (m_ino m))) (pdb_tables p)).
Proof.
  unfold pdb_unlink_file_dev. no_failure. run_step T.
  destruct (clear_xattrs_tables p0 m) as [Ht Ho]. eexists. split; [done|].
  split; [congruence|]. rewrite Ht. f_equal. by unfold delete_files.
Qed.

Lemma update_file_path_tables p m : m_pathlen m <> 0 -> in_uint64 (m_ino m) -> exists p',
  pdb_update_file_path p m = (p', 0) /\ oldmsg p' = oldmsg p /\
  pdb_tables p' = update_files
    (fun r => path_is NAMELESS_FILE r && at_inode (bind_int (m_dev m)) (signed_ino (m_ino m)) r)
    (set_row_path (path_str m)) (pdb_tables p).
Proof.
  intros Hpl%Z.eqb_neq Hi. unfold pdb_update_file_path. no_failure. rewrite Hpl.
  run_step T. eexists. split; [done|]. split; [done|]. rewrite T. unfold update_files. f_equal.
  apply tupdate_ext; intros; simpl.
  - rewrite int64_signed_ino by done. by rewrite <- andb_assoc.
  - by destruct r.
Qed.

Lemma may_unlink_tables p m c : m_pathlen m <> 0 -> exists p',
  pdb_may_unlink_file p m c =
    (p', b2z (negb (bool_decide (trows (path_is (path_str m)) (files (pdb_tables p)) <> [])))) /\
  oldmsg p' = oldmsg p /\
  pdb_tables p' = update_files (path_is (path_str m)) (set_row_deleting (bind_int c)) (pdb_tables p).
Proof.
  intros Hpl%Z.eqb_neq. unfold pdb_may_unlink_file. no_failure. rewrite Hpl.
  run_step T. eexists. split; [|split; [done|]].
  - cbn [negb]. rewrite Z.eqb_refl. cbn [negb].
    match goal with Hc : changes _ = _ |- _ => rewrite Hc end. simpl.
    fold (path_is (path_str m)). by destruct (trows (path_is (path_str m)) _).
  - rewrite T. unfold update_files. f_equal. apply tupdate_ext; [done|]. by intros [].
Qed.

Lemma cancel_unlink_tables p m : m_pathlen m <> 0 -> exists p',
  pdb_cancel_unlink_file p m = (p', 0) /\ oldmsg p' = oldmsg p /\
  pdb_tables p' = drop_xattrs (bind_int (m_dev m)) (signed_ino (m_ino m))
    (update_files (path_is (path_str m)) (set_row_deleting 0) (pdb_tables p)).
Proof.
  intros Hpl%Z.eqb_neq. unfold pdb_cancel_unlink_file. no_failure. rewrite Hpl. run_step T.
  destruct (check_xattrs_tables p0 m) as [Ht Ho]. eexists. split; [done|].
  split; [congruence|]. rewrite Ht. f_equal.
  rewrite T.
  unfold update_files. f_equal. apply tupdate_ext; [done|]. by intros [].
Qed.

Lemma did_unlink_files_tables p c : c <> 0 -> exists p',
  pdb_did_unlink_files p c = (p', 0) /\ oldmsg p' = oldmsg p /\
  pdb_tables p' = drop_orphans (delete_files (fun r => f_deleting r =? bind_int c) (pdb_tables p)).
Proof.
  intros Hc%Z.eqb_neq. unfold pdb_did_unlink_files. no_failure. rewrite Hc. run_step T.
  destruct (clear_unused_xattrs_tables p0) as [Ht Ho]. eexists. split; [done|].
  split; [congruence|]. rewrite Ht. f_equal.
  by rewrite T.
Qed.

Definition marked (s : bytes) (c : Z) (r : file_row) : bool :=
  path_is s r && (f_deleting r =? bind_int c).

Lemma did_unlink_file_tables p s (om : option pseudo_msg_t) c : exists p',
  pdb_did_unlink_file p (Some s) om c = (p', 0) /\ oldmsg p' = oldmsg p /\
  pdb_tables p' =
    match om with
    | Some m => drop_xattrs (bind_int (m_dev m)) (signed_ino (m_ino m))
    | None => drop_orphans
    end (delete_files (marked (c_str s) c) (pdb_tables p)).
Proof.
  unfold pdb_did_unlink_file. no_failure. run_step T.
  destruct om as [m|].
  - destruct (clear_xattrs_tables p0 m) as [Ht Ho]. eexists. split; [done|].
    split; [congruence|]. rewrite Ht. f_equal. by rewrite T.
  - destruct (clear_unused_xattrs_tables p0) as [Ht Ho]. eexists. split; [done|].
    split; [congruence|]. rewrite Ht. f_equal. by rewrite T.
Qed.

Lemma unlink_file_tables p m : m_pathlen m <> 0 -> exists p',
  pdb_unlink_file p m = (p', 0) /\ oldmsg p' = oldmsg p /\
  pdb_tables p' = drop_xattrs (bind_int (m_dev m)) (signed_ino (m_ino m))
    (delete_files (path_is (path_str m)) (pdb_tables p)).
Proof.
  intros Hpl%Z.eqb_neq. unfold pdb_unlink_file. no_failure. rewrite Hpl. run_step T.
  destruct (check_xattrs_tables p0 m) as [Ht Ho]. eexists. split; [done|].
  split; [congruence|]. rewrite Ht. f_equal. by rewrite T.
Qed.

Lemma unlink_contents_tables p m : m_pathlen m <> 0 -> exists p',
  pdb_unlink_contents p m = (p', 0) /\ oldmsg p' = oldmsg p /\
  pdb_tables p' = drop_orphans (delete_files (eval_fcond (below (path_str m))) (pdb_tables p)).
Proof.
  intros Hpl%Z.eqb_neq. unfold pdb_unlink_contents. no_failure. rewrite Hpl. run_step T.
  destruct (clear_unused_xattrs_tables p0) as [Ht Ho]. eexists. split; [done|].
  split; [congruence|]. rewrite Ht. f_equal. by rewrite T.
Qed.

Lemma update_file_tables p m : exists p',
  pdb_update_file p m = (p', 0) /\ oldmsg p' = oldmsg p /\
  pdb_tables p' = update_files (at_inode (bind_int (m_dev m)) (signed_ino (m_ino m)))
    (set_attrs (bind_int (m_uid m)) (bind_int (m_gid m)) (bind_int (m_mode m)) (bind_int (m_rdev m)))
    (pdb_tables p).
Proof.
  unfold pdb_update_file. no_failure. run_step T. eexists. split; [done|]. split; [done|].
  rewrite T. unfold update_files. f_equal. apply tupdate_ext; [done|]. by intros [].
Qed.

(** The two updates of a rename, one after the other. *)
Definition rename_rows (old new : bytes) (t : tables) : tables :=
  update_files (eval_fcond (below old)) (fun r => eval_fsets [SetPathReplace old new; SetDeleting 0] r)
    (update_files (path_is old) (fun r => eval_fsets [SetPath new; SetDeleting 0] r) t).

Lemma exec_pdb_tables d s b o : pdb_tables (mkPdb (exec d s).1 b o) = db_tables d.
Proof. apply exec_tables. Qed.

Lemma rename_file_tables p old m : m_pathlen m <> 0 -> exists p',
  pdb_rename_file p (Some old) m = (p', 1) /\ oldmsg p' = oldmsg p /\
  pdb_tables p' = rename_rows (c_str old) (path_str m) (pdb_tables p).
Proof.
  intros Hpl%Z.eqb_neq. unfold pdb_rename_file. no_failure. rewrite Hpl.
  run_step T1. run_step T2.
  destruct (exec (conn p1) ($"END;")) as [d rc] eqn:He.
  pose proof (exec_ok (conn p1) ($"END;")) as Hrc. rewrite He in Hrc. simpl in Hrc. subst rc.
  eexists. split; [reflexivity|]. split; [simpl in *; congruence|].
  pose proof (exec_tables (conn p1) ($"END;")) as Ht. rewrite He in Ht. simpl in Ht.
  unfold pdb_tables at 1. simpl. rewrite Ht. change (db_tables (conn p1)) with (pdb_tables p1).
  rewrite T2. unfold rename_rows, update_files. rewrite T1. simpl.
  rewrite exec_pdb_tables. done.
Qed.

Lemma renumber_all_tables p from to : exists p',
  pdb_renumber_all p from to = (p', 0) /\ oldmsg p' = oldmsg p /\
  pdb_tables p' = mkTables
    (tupdate (fun r => f_dev r =? bind_int from) (set_row_dev (bind_int to)) (files (pdb_tables p)))
    (tupdate (fun x => x_dev x =? bind_int from) (eval_xset (SetXDev (bind_int to))) (xattrs (pdb_tables p)))
    (logs (pdb_tables p)).
Proof.
  unfold pdb_renumber_all. no_failure. run_step T1. run_step T2.
  eexists. split; [done|]. split; [congruence|]. rewrite T2, T1. simpl. f_equal.
  apply tupdate_ext; [done|]. by intros [].
Qed.

(** *** Lookups *)

Lemma select_files_cases d w :
  (exists i r l, select_files d w = (r :: l, SQLITE_DONE) /\
     files (db_tables d) !! i = Some r /\ eval_fcond w r = true) \/
  (select_files d w = ([], SQLITE_DONE) /\
     forall i r, files (db_tables d) !! i = Some r -> eval_fcond w r = false).
Proof.
  destruct (select_files_spec d w) as (l & Hl & Hp). destruct l as [|r l].
  - right. split; [done|]. by apply rows_nil.
  - left. destruct (proj1 (elem_of_rows (eval_fcond w) (files (db_tables d)) (r :: l) r Hp)) as (i & ? & ?);
      [left|]. by eexists i, r, l.
Qed.

Lemma find_file_exact_cases p m :
  (exists i r, files (pdb_tables p) !! i = Some r /\ f_path r = path_str m /\
     f_dev r = bind_int (m_dev m) /\ f_ino r = signed_ino (m_ino m) /\
     pdb_find_file_exact p m = (read_attrs r m, 0)) \/
  ((forall i r, files (pdb_tables p) !! i = Some r -> f_path r = path_str m ->
      f_dev r = bind_int (m_dev m) -> f_ino r <> signed_ino (m_ino m)) /\
   pdb_find_file_exact p m = (m, 1)).
Proof.
  unfold pdb_find_file_exact. no_failure.
  match goal with |- context [select_files ?d ?w] =>
    destruct (select_files_cases d w) as [(i & r & l & -> & Hi & Hw)|[-> Hw]] end.
  - left. simpl in Hw. bool_facts. eauto 10.
  - right. split; [|done]. intros i r Hi Hp Hd Hn. specialize (Hw i r Hi). simpl in Hw.
    rewrite Hp, Hd, Hn, !Z.eqb_refl in Hw. by rewrite bool_decide_eq_true_2 in Hw.
Qed.

Lemma find_file_path_cases p m : m_pathlen m <> 0 ->
  (exists i r, files (pdb_tables p) !! i = Some r /\ f_path r = path_str m /\
     pdb_find_file_path p m =
       (read_attrs r (set_ino (uint64 (f_ino r)) (set_dev (uint64 (f_dev r)) m)), 0)) \/
  ((forall i r, files (pdb_tables p) !! i = Some r -> f_path r <> path_str m) /\
   pdb_find_file_path p m = (m, 1)).
Proof.
  intros Hpl%Z.eqb_neq. unfold pdb_find_file_path. no_failure. rewrite Hpl.
  match goal with |- context [select_files ?d ?w] =>
    destruct (select_files_cases d w) as [(i & r & l & -> & Hi & Hw)|[-> Hw]] end.
  - left. simpl in Hw. bool_facts. eauto.
  - right. split; [|done]. intros i r Hi Hp. specialize (Hw i r Hi). simpl in Hw.
    by rewrite bool_decide_eq_true_2 in Hw.
Qed.

Lemma find_file_dev_cases p m o :
  (exists i r, files (pdb_tables p) !! i = Some r /\
     at_inode (bind_int (m_dev m)) (signed_ino (m_ino m)) r = true /\
     pdb_find_file_dev p m o = (read_attrs r m, Some (c_str (f_path r)), 0)) \/
  ((forall i r, files (pdb_tables p) !! i = Some r ->
      at_inode (bind_int (m_dev m)) (signed_ino (m_ino m)) r = false) /\
   pdb_find_file_dev p m o = (m, o, 1)).
Proof.
  unfold pdb_find_file_dev. no_failure.
  match goal with |- context [select_files ?d ?w] =>
    destruct (select_files_cases d w) as [(i & r & l & -> & Hi & Hw)|[-> Hw]] end.
  - left. eauto.
  - right. split; [|done]. intros i r Hi. by specialize (Hw i r Hi).
Qed.

(** *** [pdb_update_inode]

    Whatever the lookup through the static buffer finds, only the rows with
    the path move. *)
Lemma copy_xattrs_files p om m :
  files (pdb_tables (pdb_copy_xattrs p om m)) = files (pdb_tables p) /\
  logs (pdb_tables (pdb_copy_xattrs p om m)) = logs (pdb_tables p).
Proof. unfold pdb_copy_xattrs. no_failure. run_step T. simpl. by rewrite T. Qed.

Lemma update_inode_files p m : m_pathlen m <> 0 -> exists p',
  pdb_update_inode p m = (p', 0) /\
  files (pdb_tables p') = tupdate (path_is (path_str m))
    (set_row_inode (bind_int (m_dev m)) (signed_ino (m_ino m))) (files (pdb_tables p)) /\
  logs (pdb_tables p') = logs (pdb_tables p).
Proof.
  intros Hpl%Z.eqb_neq. unfold pdb_update_inode. no_failure. cbn [conn]. rewrite Hpl.
  destruct (pdb_find_file_path _ _) as [om nf].
  set (q := mkPdb (conn p) (file_db_dirty p) (Some (msg_image om))).
  set (q' := if nf =? 0 then pdb_copy_xattrs q om m else q).
  assert (files (pdb_tables q') = files (pdb_tables p) /\ logs (pdb_tables q') = logs (pdb_tables p))
    as [Hf Hl] by (subst q'; destruct (nf =? 0); [apply (copy_xattrs_files q)|done]).
  cbn [conn file_db_dirty]. fold q. fold q'. run_step T.
  set (q'' := if nf =? 0 then pdb_check_xattrs p0 om else p0).
  assert (files (pdb_tables q'') = files (pdb_tables p0) /\ logs (pdb_tables q'') = logs (pdb_tables p0))
    as [Hf' Hl'].
  { subst q''. destruct (nf =? 0); [|done]. destruct (check_xattrs_tables p0 om) as [-> _]. done. }
  exists q''. split; [done|]. rewrite Hf', Hl', T. simpl. rewrite Hf, Hl. split; [|done].
  apply tupdate_ext; [done|]. by intros [].
Qed.

(** When the buffer holds no path yet, a path of at most 56 bytes is not
    copied into it: the old row is not found and the attributes stay. *)
Lemma update_inode_short p m :
  oldmsg p = None -> 0 < m_pathlen m <= 56 ->
  (76 <= length malloc_path_max)%nat ->
  field 64 4 malloc_path_max = 0 -> exists p',
  pdb_update_inode p m = (p', 0) /\
  pdb_tables p' = update_files (path_is (path_str m))
    (set_row_inode (bind_int (m_dev m)) (signed_ino (m_ino m))) (pdb_tables p).
Proof.
  intros Ho Hpl Hlen Hz. unfold pdb_update_inode. no_failure. cbn [conn]. rewrite Ho.
  replace (m_pathlen m =? 0) with false by (symmetry; apply Z.eqb_neq; lia).
  cbn [default from_option].
  assert (m_pathlen (msg_of_image (copy_to_oldmsg malloc_path_max m)) = 0) as Hz'.
  { change (field 64 4 (copy_to_oldmsg malloc_path_max m) = 0).
    unfold copy_to_oldmsg, memwrite, field, sizeof_pointer.
    set (n := Z.to_nat (8 + m_pathlen m)).
    assert (length (take n (msg_image m)) = n) as Hn.
    { rewrite length_take. unfold msg_image. rewrite length_app, length_header_bytes.
      unfold PSEUDO_HEADER_SIZE. lia. }
    rewrite drop_app_ge by lia. rewrite Hn, drop_drop.
    replace (n + (64 - n))%nat with 64%nat by lia. exact Hz. }
  unfold pdb_find_file_path. no_failure. cbn [conn]. rewrite Hz'. cbn [Z.eqb fst snd].
  run_step T. eexists. split; [done|]. rewrite T. unfold update_files. f_equal.
  apply tupdate_ext; [done|]. by intros [].
Qed.
End Effects.

(** ** Paths below a directory *)

Definition is_below (dir path : bytes) : Prop := exists c t, path = dir ++ slash :: c :: t.

Lemma eval_below old r : eval_fcond (below old) r = true <-> is_below old (f_path r).
Proof. apply str_between_slash. Qed.

Lemma is_below_neq dir path : is_below dir path -> path <> dir.
Proof.
  intros (c & t & ->) H. apply (f_equal length) in H. rewrite length_app in H. simpl in H. lia.
Qed.

(** ** Sets of rows *)

Definition has_row (t : tables) (r : file_row) : Prop := exists i, files t !! i = Some r.

Definition link_all (t : gmap Z file_row) (l : list pseudo_msg_t) : gmap Z file_row :=
  foldl (fun t m => <[fresh_id t := link_row m]> t) t l.

Lemma link_all_rows l t r :
  (exists i, link_all t l !! i = Some r) <-> (exists i, t !! i = Some r) \/ r ∈ map link_row l.
Proof.
  revert t. induction l as [|m l IH]; intros t; simpl.
  - rewrite elem_of_nil. naive_solver.
  - rewrite IH. rewrite elem_of_cons. split.
    + intros [[i Hi]|Hr]; [|by auto].
      apply lookup_insert_Some in Hi as [[_ <-]|[_ Hi]]; [auto|left; eauto].
    + intros [[i Hi]|[->|Hr]]; [|left; exists (fresh_id t); by rewrite lookup_insert_eq|by auto].
      left. exists i. rewrite lookup_insert_ne; [done|]. intros Heq.
      rewrite <- Heq, fresh_id_fresh in Hi. done.
Qed.

(** What a rename does to one row. *)
Lemma rename_row_cases old new r : ~ is_below old new ->
  (if eval_fcond (below old) (if path_is old r then eval_fsets [SetPath new; SetDeleting 0] r else r)
   then eval_fsets [SetPathReplace old new; SetDeleting 0]
          (if path_is old r then eval_fsets [SetPath new; SetDeleting 0] r else r)
   else if path_is old r then eval_fsets [SetPath new; SetDeleting 0] r else r)
  = if decide (f_path r = old) then set_row_deleting 0 (set_row_path new r)
    else if eval_fcond (below old) r
    then set_row_deleting 0 (set_row_path (sql_replace (f_path r) old new) r)
    else r.
Proof.
  intros Hnew. unfold path_is. case_bool_decide as Heq.
  - rewrite decide_True by done.
    destruct (eval_fcond (below old) (eval_fsets [SetPath new; SetDeleting 0] r)) eqn:Hb; [|by destruct r].
    apply eval_below in Hb. destruct r. by destruct Hnew.
  - rewrite decide_False by done. destruct (eval_fcond (below old) r); [by destruct r|done].
Qed.

(** [pdb_link_file] for a list of messages. *)
Definition link_files {E : SqlEngine} {PM : PathMax} (p : pdb) (l : list pseudo_msg_t) : pdb :=
  foldl (fun p m => (pdb_link_file p m).1) p l.

Lemma link_files_tables {E : SqlEngine} {L : SqlLaws E} {RL : SqlReliable E} {PM : PathMax} l (p : pdb) :
  pdb_tables (link_files p l) =
    mkTables (link_all (files (pdb_tables p)) l) (xattrs (pdb_tables p)) (logs (pdb_tables p)).
Proof.
  revert p. induction l as [|m l IH]; intros p; simpl; [by destruct (pdb_tables p)|].
  destruct (link_file_tables p m) as (p' & -> & _ & Ht). simpl. rewrite IH, Ht. done.
Qed.

(** ** Properties *)

(** [signed_ino] maps the unsigned 64-bit inodes into SQLite's signed
    64-bit integers, and converting back recovers the inode. *)
Theorem signed_ino_roundtrip i :
  in_uint64 i ->
  - 2 ^ 63 <= signed_ino i < 2 ^ 63 /\ uint64 (signed_ino i) = i.
Proof. intros Hi. split; [by apply signed_ino_range|by apply signed_ino_uint64]. Qed.

(** [pdb_unlink_contents] deletes exactly the rows whose path is the
    message's path, a slash and at least one more byte (the interval
    [path/ < p < path0] of its SQL is that set), and exactly the attributes
    whose inode has no row left. *)
Theorem unlink_contents_exact {E : SqlEngine} {L : SqlLaws E} {RL : SqlReliable E} {PM : PathMax}
    (p : pdb) (m : pseudo_msg_t) :
  m_pathlen m <> 0 -> exists p',
  pdb_unlink_contents p m = (p', 0) /\
  (forall i r, files (pdb_tables p') !! i = Some r <->
     files (pdb_tables p) !! i = Some r /\ ~ is_below (path_str m) (f_path r)) /\
  (forall i x, xattrs (pdb_tables p') !! i = Some x <->
     xattrs (pdb_tables p) !! i = Some x /\
     exists j r, files (pdb_tables p') !! j = Some r /\ f_dev r = x_dev x /\ f_ino r = x_ino x).
Proof.
  intros Hpl. destruct (unlink_contents_tables p m Hpl) as (p' & Hp & _ & Ht).
  exists p'. split; [done|]. rewrite Ht. split.
  - intros i r. simpl. rewrite lookup_tdelete, <- eval_below.
    rewrite not_true_iff_false. done.
  - intros i x. simpl. rewrite lookup_tdelete. rewrite negb_false_iff, has_file_true. done.
Qed.


Definition sample_path_max : PathMax := {| pseudo_path_max := 4096; malloc_path_max := replicate 256 NUL |}.

Definition sample_msg (o : pseudo_op_t) (path : bytes) (dev ino uid gid mode nlink : Z) : pseudo_msg_t :=
  mkMsg (mkHeader PSEUDO_MSG_OP o 0 0 7 (-1) dev ino uid gid mode 0 (Z.of_nat (length path)) nlink 0)
        (path ++ replicate 4 NUL).

Definition sample_row (path : bytes) (dev ino : Z) : file_row := mkFile path dev ino 0 0 0x81a4 0 0.

Definition sample_pdb (rows : list file_row) (attrs : list xattr_row) : @pdb mem_engine :=
  @mkPdb mem_engine
    (mkTables (list_to_map (zip (map Z.of_nat (seq 1 (length rows))) rows))
              (list_to_map (map (fun x => (x_id x, x)) attrs)) ∅, 0) false None.

(** Renaming [/a] to [/b] turns the row [/a/x/a/y] into [/b/x/b/y]: SQL's
    [replace] rewrites every occurrence of the old path, not only the
    leading one. *)
Theorem rename_rewrites_every_occurrence :
  let p := sample_pdb [sample_row ($"/a") 1 10; sample_row ($"/a/x/a/y") 1 11] [] in
  let p' := (@pdb_rename_file mem_engine p (Some ($"/a" ++ [NUL]))
               (sample_msg OP_RENAME ($"/b" ++ [NUL]) 1 10 0 0 0x41ed 1)).1 in
  map f_path (map_to_list (files (pdb_tables p'))).*2 = [$"/b/x/b/y"; $"/b"].
Proof. vm_compute. reflexivity. Qed.

(** C34: the deletion protocol protects a file that reuses the path: a client
    marks the rows of a path ([may_unlink]), other processes create files
    (among them, possibly, new ones at that path), the client confirms
    ([did_unlink]): gone are exactly the rows that were at the path when it
    was marked; every other row and every row created since is there. *)
Theorem unlink_protocol_race {E : SqlEngine} {L : SqlLaws E} {RL : SqlReliable E} {PM : PathMax}
    (p : pdb) (m : pseudo_msg_t) client news (dm : option pseudo_msg_t) :
  m_pathlen m <> 0 -> bind_int client <> 0 -> exists p1 rc p3,
  pdb_may_unlink_file p m client = (p1, rc) /\
  (rc = 0 <-> exists i r, files (pdb_tables p) !! i = Some r /\ f_path r = path_str m) /\
  pdb_did_unlink_file (link_files p1 news) (Some (m_path m)) dm client = (p3, 0) /\
  (forall r, has_row (pdb_tables p3) r <->
     (has_row (pdb_tables p) r /\ f_path r <> path_str m) \/ r ∈ map link_row news).
Proof.
  intros Hpl Hc.
  destruct (may_unlink_tables p m client Hpl) as (p1 & Hp1 & _ & Ht1).
  destruct (did_unlink_file_tables (link_files p1 news) (m_path m) dm client) as (p3 & Hp3 & _ & Ht3).
  eexists p1, _, p3. split; [exact Hp1|]. split; [|split; [exact Hp3|]].
  - rewrite <- (trows_nonempty (path_is (path_str m)) (files (pdb_tables p))
      (fun r => f_path r = path_str m)) by (intros; apply bool_decide_eq_true).
    case_bool_decide; simpl; naive_solver.
  - assert (files (pdb_tables p3) = tdelete (marked (path_str m) client)
      (link_all (tupdate (path_is (path_str m)) (set_row_deleting (bind_int client))
                   (files (pdb_tables p))) news)) as Hf.
    { rewrite Ht3. destruct dm; simpl; rewrite link_files_tables, Ht1; done. }
    intros r. unfold has_row. rewrite Hf.
    transitivity ((exists i, link_all (tupdate (path_is (path_str m)) (set_row_deleting (bind_int client))
      (files (pdb_tables p))) news !! i = Some r) /\ marked (path_str m) client r = false).
    { setoid_rewrite lookup_tdelete. naive_solver. }
    rewrite link_all_rows. setoid_rewrite lookup_tupdate_Some.
    assert (forall m', marked (path_str m) client (link_row m') = false) as Hnew.
    { intros m'. unfold marked. apply andb_false_iff. right. apply Z.eqb_neq.
      change (0 <> bind_int client). congruence. }
    split.
    + intros [[(i & r0 & Hi & ->)|Hr] Hm]; [|by right]. left. unfold path_is, marked in *.
      case_bool_decide as Heq; simpl in Hm; [|by eauto].
      exfalso. rewrite Z.eqb_refl, ?andb_true_r in Hm. by apply bool_decide_eq_false in Hm.
    + intros [[[i Hi] Hne]|Hr].
      * split; [left; exists i, r; split; [done|]|]; unfold marked, path_is;
          by rewrite bool_decide_eq_false_2.
      * split; [by right|]. apply list_elem_of_fmap in Hr as (m' & -> & _). apply Hnew.
Qed.

(** After a cancelled deletion the confirmation deletes nothing: the rows
    of the path are there, unmarked, as are all the others. *)
Theorem unlink_cancelled {E : SqlEngine} {L : SqlLaws E} {RL : SqlReliable E} {PM : PathMax}
    (p : pdb) (m mc : pseudo_msg_t) client :
  m_pathlen m <> 0 -> m_pathlen mc <> 0 -> path_str mc = path_str m -> bind_int client <> 0 ->
  exists p1 rc p2 p3,
  pdb_may_unlink_file p m client = (p1, rc) /\
  pdb_cancel_unlink_file p1 mc = (p2, 0) /\
  pdb_did_unlink_file p2 (Some (m_path m)) None client = (p3, 0) /\
  (forall i, files (pdb_tables p3) !! i =
     (fun r => if path_is (path_str m) r then set_row_deleting 0 r else r) <$> files (pdb_tables p) !! i).
Proof.
  intros Hpl Hplc Heq Hc.
  destruct (may_unlink_tables p m client Hpl) as (p1 & Hp1 & _ & Ht1).
  destruct (cancel_unlink_tables p1 mc Hplc) as (p2 & Hp2 & _ & Ht2).
  destruct (did_unlink_file_tables p2 (m_path m) None client) as (p3 & Hp3 & _ & Ht3).
  eexists p1, _, p2, p3. split; [exact Hp1|]. split; [done|]. split; [done|]. intros i.
  rewrite Ht3, Ht2, Ht1, Heq. unfold drop_orphans, drop_xattrs, delete_files, update_files. cbn [files].
  rewrite tdelete_none.
  - rewrite !lookup_tupdate. destruct (files (pdb_tables p) !! i) as [r|]; [|done].
    simpl. f_equal. unfold path_is. by repeat (case_bool_decide; simpl in * ).
  - intros j r. rewrite lookup_tupdate_Some. intros (r1 & _ & ->). unfold marked.
    fold (path_str m). destruct (path_is (path_str m) r1) eqn:Hr.
    + apply andb_false_iff. right. apply Z.eqb_neq. change (0 <> bind_int client). congruence.
    + by rewrite Hr.
Qed.

(** A row inserted by [pdb_link_file] is what [pdb_find_file_path] finds:
    owner, group and inode come back exactly (whatever 32-bit and 64-bit
    values they are), device, mode and device number do when they fit in 31
    bits, and the row is not marked for deletion. *)
Theorem link_then_find {E : SqlEngine} {L : SqlLaws E} {RL : SqlReliable E} {PM : PathMax}
    (p : pdb) (m q : pseudo_msg_t) :
  m_pathlen m <> 0 -> m_pathlen q <> 0 -> path_str q = path_str m ->
  (forall r, has_row (pdb_tables p) r -> f_path r <> path_str m) ->
  in_uint64 (m_ino m) -> in_uint32 (m_uid m) -> in_uint32 (m_gid m) ->
  0 <= m_dev m < 2 ^ 31 -> 0 <= m_mode m < 2 ^ 31 -> 0 <= m_rdev m < 2 ^ 31 ->
  exists p', pdb_link_file p m = (p', 0) /\
    pdb_find_file_path p' q =
      (set_deleting 0 (set_rdev (m_rdev m) (set_mode (m_mode m) (set_gid (m_gid m)
         (set_uid (m_uid m) (set_ino (m_ino m) (set_dev (m_dev m) q)))))), 0).
Proof.
  intros Hpl Hplq Hq Hfresh Hino Huid Hgid Hdev Hmode Hrdev.
  destruct (link_file_tables p m) as (p' & Hp & _ & Ht). exists p'. split; [done|].
  assert (f_path (link_row m) = path_str m) as Hpath.
  { apply Z.eqb_neq in Hpl. unfold link_row. simpl. by rewrite Hpl. }
  destruct (find_file_path_cases p' q Hplq) as [(i & r & Hi & Hr & ->)|[Hnone _]].
  - rewrite Ht in Hi. simpl in Hi. apply lookup_insert_Some in Hi as [[_ <-]|[_ Hi]].
    + unfold read_attrs, link_row. cbn [f_uid f_gid f_mode f_rdev f_deleting f_dev f_ino].
      rewrite signed_ino_uint64 by done. unfold bind_int.
      rewrite !wrap_unsigned_signed by lia.
      rewrite !(wrap_unsigned_small 32) by done.
      rewrite !(wrap_signed_small 32) by lia. rewrite !(wrap_unsigned_small 64) by lia. done.
    + exfalso. apply (Hfresh r); [by exists i|]. congruence.
  - exfalso. apply (Hnone (fresh_id (files (pdb_tables p))) (link_row m)); [|congruence].
    rewrite Ht. simpl. apply lookup_insert_eq.
Qed.

(** [pdb_update_inode] is written to carry the extended attributes of a
    renamed file over to its new inode, but copies the wrong number of bytes
    ([sizeof] of a pointer) into the message it looks the old row up with:
    for a path of up to 56 bytes and a buffer that holds no path yet, the row
    gets the new inode and every attribute stays with the old one. *)
Theorem update_inode_keeps_xattrs_behind {E : SqlEngine} {L : SqlLaws E} {RL : SqlReliable E} {PM : PathMax}
    (p : pdb) (m : pseudo_msg_t) :
  oldmsg p = None -> 0 < m_pathlen m <= 56 ->
  (76 <= length malloc_path_max)%nat -> field 64 4 malloc_path_max = 0 ->
  exists p', pdb_update_inode p m = (p', 0) /\
    xattrs (pdb_tables p') = xattrs (pdb_tables p) /\
    (forall i r, files (pdb_tables p) !! i = Some r -> f_path r = path_str m ->
       files (pdb_tables p') !! i =
         Some (set_row_inode (bind_int (m_dev m)) (signed_ino (m_ino m)) r)).
Proof.
  intros Ho Hpl Hlen Hz. destruct (update_inode_short p m Ho Hpl Hlen Hz) as (p' & Hp & Ht).
  exists p'. split; [done|]. rewrite Ht. split; [done|]. intros i r Hi Hr.
  unfold update_files. simpl. rewrite lookup_tupdate, Hi. simpl.
  unfold path_is. by rewrite bool_decide_eq_true_2.
Qed.

(** With an engine that may fail at any call: [pdb_link_file] answers 1
    exactly when it was not able to insert the row and then changed nothing,
    but it also answers 0 - success - when there is no database at all. *)
Theorem link_file_errors {E : SqlEngine} {L : SqlLaws E} {PM : PathMax} (p : pdb) (m : pseudo_msg_t) p' rc :
  pdb_link_file p m = (p', rc) ->
  (rc = 1 /\ pdb_tables p' = pdb_tables p) \/
  (rc = 0 /\ file_db_open (conn p) = false /\ p' = p) \/
  (rc = 0 /\ file_db_open (conn p) = true /\ file_db_dirty p' = true /\
   pdb_tables p' = mkTables (<[fresh_id (files (pdb_tables p)) := link_row m]> (files (pdb_tables p)))
                     (xattrs (pdb_tables p)) (logs (pdb_tables p))).
Proof.
  unfold pdb_link_file. destruct (file_db_open (conn p)) eqn:Ho; cbn [negb];
    [|intros [= <- <-]; by right; left].
  destruct (not_prepared p St_link_file); [intros [= <- <-]; by left|].
  unfold step_dirty. destruct (step (conn p) _) as [d rc0] eqn:Hs. intros [= <- <-].
  unfold not_done. destruct (Z.eqb_spec rc0 SQLITE_DONE) as [->|Hrc].
  - right; right. split; [done|]. split; [done|]. split; [done|].
    apply step_done in Hs. inversion Hs.
    match goal with Hd : _ = db_tables d |- _ => symmetry; exact Hd end.
  - left. split; [done|]. by apply (step_failed _ _ _ _ Hs).
Qed.

(** ** Witnesses *)

Definition sample_db : @pdb mem_engine :=
  sample_pdb [sample_row ($"/d") 5 10; sample_row ($"/d/f") 5 11; sample_row ($"/d2") 5 (-1)]
             [mkXattr 1 5 11 ($"user.a") ($"1"); mkXattr 2 5 10 ($"user.b") ($"2")].

Lemma signed_ino_roundtrip_witness :
  - 2 ^ 63 <= signed_ino (2 ^ 64 - 1) < 2 ^ 63 /\ uint64 (signed_ino (2 ^ 64 - 1)) = 2 ^ 64 - 1.
Proof. apply (signed_ino_roundtrip (2 ^ 64 - 1)). split; vm_compute; done. Defined.

Lemma unlink_contents_exact_witness : exists p',
  @pdb_unlink_contents mem_engine sample_db (sample_msg OP_UNLINK ($"/d" ++ [NUL]) 5 10 0 0 0x41ed 1) = (p', 0) /\
  forall i r, files (pdb_tables p') !! i = Some r <->
    files (pdb_tables sample_db) !! i = Some r /\ ~ is_below ($"/d") (f_path r).
Proof.
  destruct (@unlink_contents_exact mem_engine mem_engine_laws mem_engine_reliable sample_path_max sample_db
    (sample_msg OP_UNLINK ($"/d" ++ [NUL]) 5 10 0 0 0x41ed 1) ltac:(done)) as (p' & H1 & H2 & _).
  exists p'. split; [exact H1|exact H2].
Defined.


Lemma unlink_protocol_race_witness : exists p1 rc p3,
  @pdb_may_unlink_file mem_engine sample_db (sample_msg OP_MAY_UNLINK ($"/d/f" ++ [NUL]) 5 11 0 0 0x81a4 1) 7 = (p1, rc) /\
  @pdb_did_unlink_file mem_engine
    (@link_files mem_engine sample_path_max p1 [sample_msg OP_CREAT ($"/d/f" ++ [NUL]) 5 12 0 0 0x81a4 1])
    (Some ($"/d/f" ++ [NUL])) None 7 = (p3, 0) /\
  has_row (pdb_tables p3) (sample_row ($"/d/f") 5 12) /\
  ~ has_row (pdb_tables p3) (sample_row ($"/d/f") 5 11).
Proof.
  destruct (@unlink_protocol_race mem_engine mem_engine_laws mem_engine_reliable sample_path_max sample_db
    (sample_msg OP_MAY_UNLINK ($"/d/f" ++ [NUL]) 5 11 0 0 0x81a4 1) 7
    [sample_msg OP_CREAT ($"/d/f" ++ [NUL]) 5 12 0 0 0x81a4 1] None) as (p1 & rc & p3 & H1 & _ & H2 & H3);
    [done|done|].
  exists p1, rc, p3. split; [exact H1|]. split; [exact H2|]. rewrite !H3. split.
  - right. vm_compute. left.
  - intros [[_ Hne]|Hin]; [by apply Hne|]. vm_compute in Hin.
    apply list_elem_of_singleton in Hin. discriminate Hin.
Defined.

Lemma unlink_cancelled_witness : exists p1 rc p2 p3,
  @pdb_may_unlink_file mem_engine sample_db (sample_msg OP_MAY_UNLINK ($"/d/f" ++ [NUL]) 5 11 0 0 0x81a4 1) 7 = (p1, rc) /\
  @pdb_cancel_unlink_file mem_engine p1 (sample_msg OP_CANCEL_UNLINK ($"/d/f" ++ [NUL]) 5 11 0 0 0x81a4 1) = (p2, 0) /\
  @pdb_did_unlink_file mem_engine p2 (Some ($"/d/f" ++ [NUL])) None 7 = (p3, 0) /\
  files (pdb_tables p3) !! 2 = Some (sample_row ($"/d/f") 5 11).
Proof.
  destruct (@unlink_cancelled mem_engine mem_engine_laws mem_engine_reliable sample_path_max sample_db
    (sample_msg OP_MAY_UNLINK ($"/d/f" ++ [NUL]) 5 11 0 0 0x81a4 1)
    (sample_msg OP_CANCEL_UNLINK ($"/d/f" ++ [NUL]) 5 11 0 0 0x81a4 1) 7)
    as (p1 & rc & p2 & p3 & H1 & H2 & H3 & H4); [done|done|done|done|].
  exists p1, rc, p2, p3. split; [exact H1|]. split; [exact H2|]. split; [exact H3|].
  rewrite H4. vm_compute. done.
Defined.

Lemma link_then_find_witness : exists p',
  @pdb_link_file mem_engine sample_db (sample_msg OP_CREAT ($"/n" ++ [NUL]) 5 (2 ^ 64 - 2) 0 (2 ^ 32 - 1) 0x81a4 1) = (p', 0) /\
  @pdb_find_file_path mem_engine p' (sample_msg OP_STAT ($"/n" ++ [NUL]) 0 0 9 9 0 1) =
    (sample_msg OP_STAT ($"/n" ++ [NUL]) 5 (2 ^ 64 - 2) 0 (2 ^ 32 - 1) 0x81a4 1, 0).
Proof.
  apply (@link_then_find mem_engine mem_engine_laws mem_engine_reliable sample_path_max sample_db
    (sample_msg OP_CREAT ($"/n" ++ [NUL]) 5 (2 ^ 64 - 2) 0 (2 ^ 32 - 1) 0x81a4 1)
    (sample_msg OP_STAT ($"/n" ++ [NUL]) 0 0 9 9 0 1));
    [done|done|done| |split; vm_compute; done..].
  intros r [i Hi]. apply elem_of_map_to_list in Hi. vm_compute in Hi.
  repeat (apply elem_of_cons in Hi as [Hi|Hi]; [injection Hi as _ ->; done|]).
  by apply elem_of_nil in Hi.
Defined.

Lemma update_inode_keeps_xattrs_behind_witness : exists p',
  @pdb_update_inode mem_engine sample_path_max sample_db
    (sample_msg OP_RENAME ($"/d/f" ++ [NUL]) 5 99 0 0 0x81a4 1) = (p', 0) /\
  xattrs (pdb_tables p') = xattrs (pdb_tables sample_db) /\
  files (pdb_tables p') !! 2 = Some (sample_row ($"/d/f") 5 99).
Proof.
  destruct (@update_inode_keeps_xattrs_behind mem_engine mem_engine_laws mem_engine_reliable
    sample_path_max sample_db (sample_msg OP_RENAME ($"/d/f" ++ [NUL]) 5 99 0 0 0x81a4 1))
    as (p' & H1 & H2 & H3); [done|split; vm_compute; done|vm_compute; lia|done|].
  exists p'. split; [exact H1|]. split; [exact H2|]. by apply (H3 2 (sample_row ($"/d/f") 5 11)).
Defined.

Lemma link_file_errors_witness :
  let m := sample_msg OP_CREAT ($"/n" ++ [NUL]) 5 12 0 0 0x81a4 1 in
  let r := @pdb_link_file mem_engine sample_db m in
  (r.2 = 1 /\ pdb_tables r.1 = pdb_tables sample_db) \/
  (r.2 = 0 /\ file_db_open (conn sample_db) = false /\ r.1 = sample_db) \/
  (r.2 = 0 /\ file_db_open (conn sample_db) = true /\ file_db_dirty r.1 = true /\
   pdb_tables r.1 = mkTables (<[fresh_id (files (pdb_tables sample_db)) := link_row m]> (files (pdb_tables sample_db)))
                     (xattrs (pdb_tables sample_db)) (logs (pdb_tables sample_db))).
Proof. intros m r. apply (@link_file_errors mem_engine mem_engine_laws sample_path_max sample_db m). reflexivity. Defined.
