(* ===== verification/Xattr.v ===== *)
(** Extended attributes in [pseudo_db.c]: [pdb_get_xattr], [pdb_list_xattr],
    [pdb_remove_xattr] and [pdb_set_xattr].  An attribute belongs to a device
    and inode, and its value may hold any bytes. *)

From stdpp Require Import base gmap list fin_maps strings sorting.
From Stdlib Require Import ZArith Lia Ascii.
From S2P Require Import Prelude Tables Message Sql FileDb.

Open Scope Z_scope.

Definition XATTR_CREATE : Z := 1.
Definition XATTR_REPLACE : Z := 2.

(** [sqlite3_bind_text(stmt, i, mem, n, ..)]: [n] is an [int], and a negative
    one means up to the first NUL. *)
Definition bind_text (mem : bytes) (n : Z) : bytes :=
  let n := int32 n in
  if n <? 0 then c_str mem else take (Z.to_nat n) mem.

(** ** The growing buffer of [pdb_list_xattr] *)

Definition round_up (n block : Z) : Z := block * ((n + block / 4) / block + 1).

Record names_buf := mkNames { nb_allocated : Z; nb_data : bytes }.

(** One row: [None] is no buffer yet. *)
Definition list_xattr_row (b : option names_buf) (value : bytes) : names_buf :=
  let len := Z.of_nat (length value) in
  let '(mkNames allocated data) := default (mkNames (round_up len 256) []) b in
  let used := Z.of_nat (length data) in
  let allocated := if allocated <? used + len + 2 then round_up (used + len + 2) 256 else allocated in
  mkNames allocated (data ++ value ++ [NUL]).

Definition list_xattr_rows (names : list bytes) : option names_buf :=
  foldl (fun b n => Some (list_xattr_row b n)) None names.

Section Xattr.
Context {E : SqlEngine} {PM : PathMax}.

Definition xattr_key (msg : pseudo_msg_t) : xcond :=
  XAnd (XDevEq (bind_int (m_dev msg))) (XInoEq (signed_ino (m_ino msg))).

(** [sqlite3_bind_text]; a NULL pointer binds a NULL, which equals nothing. *)
Definition bind_fails (p : pdb) (s : option bytes) : bool :=
  match s with Some s => negb (bind_text_rc (conn p) s =? SQLITE_OK) | None => false end.

Definition name_is (name : option bytes) : xcond :=
  match name with Some s => XNameEq s | None => XNameNull end.

(** [value] and [len] are the in-out parameters: the name on the way in. *)
Definition pdb_get_xattr (p : pdb) (msg : pseudo_msg_t) (value : option bytes) (len : Z) :
    option bytes * Z * Z :=
  if negb (file_db_open (conn p)) then (value, len, 0)
  else if not_prepared p St_get_xattr then (value, len, 1)
  else
    if bind_fails p (c_str <$> value) then (value, len, 1)
    else
      match select_xattrs (conn p) (XAnd (xattr_key msg) (name_is (c_str <$> value))) with
      | (r :: _, _) =>
          let length := Z.of_nat (length (x_value r)) in
          if 1 <=? length then (Some (x_value r), length, 0) else (None, 0, 1)
      | ([], _) => (value, len, 1)
      end.

Definition pdb_list_xattr (p : pdb) (msg : pseudo_msg_t) (value : option bytes) (len : Z) :
    option bytes * Z * Z :=
  if negb (file_db_open (conn p)) then (value, len, 0)
  else if not_prepared p St_list_xattr then (value, len, 1)
  else
    let '(rows, rc) := select_xattrs_by_name (conn p) (xattr_key msg) in
    if rc =? SQLITE_DONE then
      match list_xattr_rows (map x_name rows) with
      | None => (None, 0, 0)
      | Some b => (Some (nb_data b), Z.of_nat (length (nb_data b)), 0)
      end
    else (None, 0, 1).

Definition pdb_remove_xattr (p : pdb) (msg : pseudo_msg_t) (value : option bytes) (len : Z) : pdb * Z :=
  if negb (file_db_open (conn p)) then (p, 0)
  else if not_prepared p St_remove_xattr then (p, 1)
  else
    let name := (fun v => bind_text v len) <$> value in
    if bind_fails p name then (p, 1)
    else
      let '(p, rc) := step_dirty p (DeleteXattrs (XAnd (xattr_key msg) (name_is name))) in
      (p, not_done rc).

(** The row the attribute has already, or -1. *)
Definition set_xattr_existing (p : pdb) (msg : pseudo_msg_t) (vname : bytes) : Z :=
  match select_xattrs (conn p) (XAnd (xattr_key msg) (XNameEq vname)) with
  | (r :: _, _) => x_id r
  | ([], _) => -1
  end.

Definition set_xattr_update (p : pdb) (existing_row : Z) (val : bytes) : pdb * Z :=
  if not_prepared p St_set_xattr_update then (p, 1)
  else if bind_fails p (Some val) then (p, 1)
  else
    let '(p, rc) := step_dirty p (UpdateXattrs (SetXValue val) (XIdEq (bind_int existing_row))) in
    (p, not_done rc).

(** Here the device is bound as a 64-bit integer. *)
Definition set_xattr_insert (p : pdb) (msg : pseudo_msg_t) (vname val : bytes) : pdb * Z :=
  if not_prepared p St_set_xattr_insert then (p, 1)
  else if bind_fails p (Some vname) then (p, 1)
  else if bind_fails p (Some val) then (p, 1)
  else
    let '(p, rc) := step_dirty p
      (InsertXattrs (int64 (m_dev msg)) (signed_ino (m_ino msg)) vname val) in
    (p, not_done rc).

(** [value] is the memory from the name on; [len] counts the name, its NUL
    and the value. *)
Definition pdb_set_xattr (p : pdb) (msg : pseudo_msg_t) (value : bytes) (len flags : Z) : pdb * Z :=
  if negb (file_db_open (conn p)) then (p, 0)
  else if not_prepared p St_set_xattr_select then (p, 1)
  else
    let vname := c_str value in
    if bind_fails p (Some vname) then (p, 1)
    else
      let existing_row := set_xattr_existing p msg vname in
      if (flags =? XATTR_CREATE) && negb (existing_row =? -1) then (p, 1)
      else if (flags =? XATTR_REPLACE) && (existing_row =? -1) then (p, 1)
      else
        let vlen := Z.of_nat (strlen value) in
        let len := uint64 (len - (vlen + 1)) in
        let val := bind_text (drop (strlen value + 1) value) len in
        if negb (existing_row =? -1) then set_xattr_update p existing_row val
        else set_xattr_insert p msg vname val.
End Xattr.
