(* ===== verification/XattrSpec.v ===== *)
(** What the extended attribute operations do, in a run without database
    errors: the attributes of an inode are a map from names to values. *)

From stdpp Require Import base gmap list fin_maps strings sets sorting.
From Stdlib Require Import ZArith Lia Ascii.
From S2P Require Import Prelude Tables Message Sql FileDb FileDbSpec Xattr.

Open Scope Z_scope.

(** ** The specification: attributes as a relation *)

Definition xattr_at (t : tables) (d i : Z) (n v : bytes) : Prop :=
  exists j x, xattrs t !! j = Some x /\ x_dev x = d /\ x_ino x = i /\ x_name x = n /\ x_value x = v.

(** Row ids are the keys and fit a C [int]; an inode has one row per name. *)
Definition xattr_ids (t : tables) : Prop :=
  forall j x, xattrs t !! j = Some x -> x_id x = j /\ 0 < j < 2 ^ 31.

Definition xattr_unique (t : tables) : Prop :=
  forall j k x y, xattrs t !! j = Some x -> xattrs t !! k = Some y ->
    x_dev x = x_dev y -> x_ino x = x_ino y -> x_name x = x_name y -> j = k.

(** The inode a message names, as the database stores it. *)
Definition msg_dev (m : pseudo_msg_t) : Z := bind_int (m_dev m).
Definition msg_ino (m : pseudo_msg_t) : Z := signed_ino (m_ino m).

(** The memory a client's SET_XATTR message leaves behind the path: the name,
    a NUL and the value. *)
Definition name_and_value (name val : bytes) : bytes := name ++ NUL :: val.

Lemma c_str_name_and_value name val : NUL ∉ name -> c_str (name_and_value name val) = name.
Proof. apply c_str_app_nul. Qed.

Lemma strlen_name_and_value name val : NUL ∉ name -> strlen (name_and_value name val) = length name.
Proof. apply strlen_app_nul. Qed.

Lemma bind_text_value name val rest :
  Z.of_nat (length val) < 2 ^ 31 ->
  bind_text (drop (length name + 1) (name_and_value name (val ++ rest)))
    (uint64 (Z.of_nat (length name) + 1 + Z.of_nat (length val) - (Z.of_nat (length name) + 1))) = val.
Proof.
  intros Hv. unfold bind_text, name_and_value.
  rewrite (wrap_unsigned_small 64) by lia. rewrite (wrap_signed_small 32) by lia.
  replace (_ <? 0) with false by (symmetry; apply Z.ltb_ge; lia).
  rewrite drop_app_ge by lia. replace (length name + 1 - length name)%nat with 1%nat by lia.
  cbn [drop]. rewrite drop_0.
  replace (Z.to_nat _) with (length val) by lia. apply take_app_length.
Qed.

(** ** The buffer of names *)

Lemma round_up_ge n block : 0 <= n -> 0 < block -> n < round_up n block.
Proof.
  intros. unfold round_up.
  pose proof (Z.div_pos block 4 ltac:(lia) ltac:(lia)).
  pose proof (Z.div_mod (n + block / 4) block ltac:(lia)).
  pose proof (Z.mod_pos_bound (n + block / 4) block ltac:(lia)). nia.
Qed.

Definition names_image (names : list bytes) : bytes := concat (map (fun n => n ++ [NUL]) names).

Lemma list_xattr_row_spec b n b' :
  (forall c, b = Some c -> Z.of_nat (length (nb_data c)) < nb_allocated c) ->
  list_xattr_row b n = b' ->
  nb_data b' = default [] (nb_data <$> b) ++ n ++ [NUL] /\
  Z.of_nat (length (nb_data b')) < nb_allocated b'.
Proof.
  intros Hb <-. unfold list_xattr_row.
  destruct (default _ b) as [al data] eqn:Hd. cbn [nb_data nb_allocated].
  assert (default [] (nb_data <$> b) = data) as -> by (destruct b as [[]|]; simpl in *; congruence).
  split; [done|]. rewrite !length_app. cbn [length].
  destruct (Z.ltb_spec al (Z.of_nat (length data) + Z.of_nat (length n) + 2)); [|lia].
  pose proof (round_up_ge (Z.of_nat (length data) + Z.of_nat (length n) + 2) 256). lia.
Qed.

Lemma list_xattr_rows_from names b :
  (forall c, b = Some c -> Z.of_nat (length (nb_data c)) < nb_allocated c) ->
  match foldl (fun b n => Some (list_xattr_row b n)) b names with
  | None => b = None /\ names = []
  | Some r => nb_data r = default [] (nb_data <$> b) ++ names_image names /\
      Z.of_nat (length (nb_data r)) < nb_allocated r
  end.
Proof.
  revert b. induction names as [|n names IH]; intros b Hb; simpl.
  - destruct b as [c|]; [|done]. simpl. rewrite app_nil_r. auto.
  - destruct (list_xattr_row_spec b n _ Hb eq_refl) as [Hd Hl].
    specialize (IH (Some (list_xattr_row b n)) ltac:(by intros c [= <-])).
    destruct (foldl _ _ names) as [r|]; [|naive_solver].
    destruct IH as [-> ?]. split; [|done]. simpl. rewrite Hd.
    unfold names_image. simpl. by rewrite <- !app_assoc.
Qed.

Section XattrEffects.
Context {E : SqlEngine} {L : SqlLaws E} {RL : SqlReliable E} {PM : PathMax}.
Implicit Types (p : pdb) (m : pseudo_msg_t).

Lemma bind_never_fails p s : bind_fails p s = false.
Proof. unfold bind_fails. destruct s; [by rewrite bind_text_ok|done]. Qed.

Lemma select_xattrs_cases p w :
  (exists j x l, select_xattrs (conn p) w = (x :: l, SQLITE_DONE) /\
     xattrs (pdb_tables p) !! j = Some x /\ eval_xcond (files (pdb_tables p)) w x = true) \/
  (select_xattrs (conn p) w = ([], SQLITE_DONE) /\
     forall j x, xattrs (pdb_tables p) !! j = Some x -> eval_xcond (files (pdb_tables p)) w x = false).
Proof.
  unfold pdb_tables. destruct (select_xattrs_spec (conn p) w) as (l & Hl & Hp). destruct l as [|x l].
  - right. split; [done|]. by apply rows_nil.
  - left. destruct (proj1 (elem_of_rows _ (xattrs (db_tables (conn p))) (x :: l) x Hp)) as (j & ? & ?);
      [left|]. by eexists j, x, l.
Qed.

Lemma key_cond t m n x :
  eval_xcond t (XAnd (xattr_key m) (XNameEq n)) x = true <->
  x_dev x = msg_dev m /\ x_ino x = msg_ino m /\ x_name x = n.
Proof.
  simpl. rewrite !andb_true_iff, !Z.eqb_eq, bool_decide_eq_true. unfold msg_dev, msg_ino. tauto.
Qed.

Lemma set_xattr_existing_cases p m n : xattr_ids (pdb_tables p) ->
  (exists j x, set_xattr_existing p m n = j /\ 0 < j < 2 ^ 31 /\ xattrs (pdb_tables p) !! j = Some x /\
     x_dev x = msg_dev m /\ x_ino x = msg_ino m /\ x_name x = n) \/
  (set_xattr_existing p m n = -1 /\ forall v, ~ xattr_at (pdb_tables p) (msg_dev m) (msg_ino m) n v).
Proof.
  intros Hids. unfold set_xattr_existing.
  destruct (select_xattrs_cases p (XAnd (xattr_key m) (XNameEq n)))
    as [(j & x & l & -> & Hx & Hw)|[-> Hw]].
  - left. apply key_cond in Hw. destruct (Hids _ _ Hx) as [Hid Hj]. exists j, x. naive_solver.
  - right. split; [done|]. intros v (j & x & Hx & Hd & Hi & Hn & _).
    specialize (Hw _ _ Hx). apply not_true_iff_false in Hw. apply Hw, key_cond. done.
Qed.

Lemma set_xattr_update_tables p id v : exists p',
  set_xattr_update p id v = (p', 0) /\ files (pdb_tables p') = files (pdb_tables p) /\
  xattrs (pdb_tables p') = tupdate (fun x => x_id x =? bind_int id) (eval_xset (SetXValue v)) (xattrs (pdb_tables p)).
Proof.
  unfold set_xattr_update. no_failure. rewrite bind_never_fails. run_step T.
  eexists. split; [done|]. by rewrite T.
Qed.

Lemma set_xattr_insert_tables p m n v : exists p',
  set_xattr_insert p m n v = (p', 0) /\ files (pdb_tables p') = files (pdb_tables p) /\
  xattrs (pdb_tables p') = xinsert (int64 (m_dev m)) (signed_ino (m_ino m)) (xattrs (pdb_tables p)) (n, v).
Proof.
  unfold set_xattr_insert. no_failure. rewrite !bind_never_fails. run_step T.
  eexists. split; [done|]. by rewrite T.
Qed.
End XattrEffects.

(** ** What an update and an insertion do to the relation *)

Definition xattr_key_ids (t : tables) : Prop :=
  forall j x, xattrs t !! j = Some x -> x_id x = j /\ 0 < j.

(** The attributes of [t'] are those of [t] with one value set. *)
Definition sets_xattr (t t' : tables) (d i : Z) (n v : bytes) : Prop :=
  forall d' i' n' v', xattr_at t' d' i' n' v' <->
    if decide (d' = d /\ i' = i /\ n' = n) then v' = v else xattr_at t d' i' n' v'.

Lemma update_sets_xattr t t' j x v :
  xattr_ids t -> xattr_unique t -> xattrs t !! j = Some x ->
  xattrs t' = tupdate (fun y => x_id y =? j) (eval_xset (SetXValue v)) (xattrs t) ->
  sets_xattr t t' (x_dev x) (x_ino x) (x_name x) v /\ xattr_unique t' /\ xattr_key_ids t'.
Proof.
  intros Hids Huniq Hx Ht.
  assert (forall k y, xattrs t' !! k = Some y <->
    exists z, xattrs t !! k = Some z /\ y = if k =? j then mkXattr k (x_dev z) (x_ino z) (x_name z) v else z) as Hl.
  { intros k y. rewrite Ht, lookup_tupdate_Some. split; intros (z & Hz & ->); exists z; (split; [done|]);
      destruct (Hids _ _ Hz) as [Hid _]; rewrite Hid; destruct (k =? j); [|done| |done];
      destruct z; simpl in *; by subst. }
  split; [|split].
  - intros d i n w. unfold xattr_at. setoid_rewrite Hl. case_decide as Hd.
    + destruct Hd as (-> & -> & ->). split.
      * intros (k & y & (z & Hz & ->) & Hd & Hi & Hn & Hv).
        destruct (Z.eqb_spec k j) as [->|Hne]; [done|]. simpl in *.
        exfalso. apply Hne. by apply (Huniq k j z x).
      * intros ->. exists j, (mkXattr j (x_dev x) (x_ino x) (x_name x) v).
        split; [|done]. exists x. by rewrite Z.eqb_refl.
    + split.
      * intros (k & y & (z & Hz & ->) & Hd' & Hi & Hn & Hv).
        destruct (Z.eqb_spec k j) as [->|Hne]; [|by exists k, z].
        simpl in *. exfalso. apply Hd. rewrite Hx in Hz. injection Hz as <-. done.
      * intros (k & z & Hz & Hd' & Hi & Hn & Hv). exists k, z. split; [|done].
        exists z. split; [done|]. destruct (Z.eqb_spec k j) as [->|]; [|done].
        exfalso. apply Hd. rewrite Hx in Hz. injection Hz as <-. done.
  - intros k l y z Hy Hz. apply Hl in Hy as (y0 & Hy & ->). apply Hl in Hz as (z0 & Hz & ->).
    intros. apply (Huniq k l y0 z0); try done; destruct (k =? j), (l =? j); simpl in *; done.
  - intros k y Hy. apply Hl in Hy as (y0 & Hy & ->). destruct (Hids _ _ Hy) as [? ?].
    split; [|lia]. by destruct (k =? j).
Qed.

Lemma insert_sets_xattr t t' d i n v :
  xattr_ids t -> xattr_unique t -> (forall w, ~ xattr_at t d i n w) ->
  xattrs t' = xinsert d i (xattrs t) (n, v) ->
  sets_xattr t t' d i n v /\ xattr_unique t' /\ xattr_key_ids t'.
Proof.
  intros Hids Huniq Hno Ht. unfold xinsert in Ht. simpl in Ht.
  set (id := fresh_id (xattrs t)) in *.
  assert (forall k y, xattrs t' !! k = Some y <->
    (k = id /\ y = mkXattr id d i n v) \/ (k <> id /\ xattrs t !! k = Some y)) as Hl.
  { intros k y. rewrite Ht, lookup_insert_Some. naive_solver. }
  assert (xattrs t !! id = None) as Hfresh by apply fresh_id_fresh.
  split; [|split].
  - intros d' i' n' w. unfold xattr_at. case_decide as Hd.
    + destruct Hd as (-> & -> & ->). split.
      * intros (k & y & Hy & Hd & Hi & Hn & Hv). apply Hl in Hy as [[-> ->]|[Hne Hy]]; [done|].
        exfalso. apply (Hno w). by exists k, y.
      * intros ->. exists id, (mkXattr id d i n v). split; [apply Hl; by left|done].
    + split.
      * intros (k & y & Hy & Hd' & Hi & Hn & Hv). apply Hl in Hy as [[-> ->]|[Hne Hy]]; [|by exists k, y].
        exfalso. by apply Hd.
      * intros (k & y & Hy & Hr). exists k, y. split; [|done]. apply Hl. right.
        split; [|done]. congruence.
  - intros k l y z Hy Hz Hd Hi Hn.
    apply Hl in Hy as [[-> ->]|[? Hy]]; apply Hl in Hz as [[-> ->]|[? Hz]]; simpl in *; try done.
    + exfalso. apply (Hno (x_value z)). exists l, z. by rewrite <- Hd, <- Hi, <- Hn.
    + exfalso. apply (Hno (x_value y)). by exists k, y.
    + by apply (Huniq k l y z).
  - intros k y Hy. apply Hl in Hy as [[-> ->]|[? Hy]]; [|destruct (Hids _ _ Hy); split; [done|lia]].
    split; [done|]. apply fresh_id_pos.
Qed.

Definition has_attr (t : tables) (m : pseudo_msg_t) (n : bytes) : Prop :=
  exists v, xattr_at t (msg_dev m) (msg_ino m) n v.

(** The flag forbids the call: CREATE of an attribute that is there, REPLACE
    of one that is not. *)
Definition flag_refuses (t : tables) (m : pseudo_msg_t) (n : bytes) (flags : Z) : Prop :=
  (flags = XATTR_CREATE /\ has_attr t m n) \/ (flags = XATTR_REPLACE /\ ~ has_attr t m n).

Lemma set_xattr_cases {E : SqlEngine} {L : SqlLaws E} {RL : SqlReliable E} {PM : PathMax}
    (p : pdb) (m : pseudo_msg_t) name val rest flags :
  xattr_ids (pdb_tables p) -> xattr_unique (pdb_tables p) ->
  NUL ∉ name -> Z.of_nat (length val) < 2 ^ 31 -> 0 <= m_dev m < 2 ^ 31 -> exists p' rc,
  pdb_set_xattr p m (name_and_value name (val ++ rest))
    (Z.of_nat (length name) + 1 + Z.of_nat (length val)) flags = (p', rc) /\
  ((rc = 1 /\ p' = p /\ flag_refuses (pdb_tables p) m name flags) \/
   (rc = 0 /\ ~ flag_refuses (pdb_tables p) m name flags /\
    files (pdb_tables p') = files (pdb_tables p) /\
    sets_xattr (pdb_tables p) (pdb_tables p') (msg_dev m) (msg_ino m) name val /\
    xattr_unique (pdb_tables p') /\ xattr_key_ids (pdb_tables p'))).
Proof.
  intros Hids Huniq Hname Hval Hdev. unfold pdb_set_xattr. no_failure. rewrite bind_never_fails.
  rewrite c_str_name_and_value, strlen_name_and_value, bind_text_value by done.
  unfold flag_refuses, has_attr.
  destruct (set_xattr_existing_cases p m name Hids)
    as [(j & x & -> & Hj & Hx & Hd & Hi & Hn)|[-> Hno]].
  - replace (j =? -1) with false by (symmetry; apply Z.eqb_neq; lia). cbn [negb]. rewrite andb_false_r, andb_true_r.
    assert (xattr_at (pdb_tables p) (msg_dev m) (msg_ino m) name (x_value x)) as Hat by by exists j, x.
    destruct (Z.eqb_spec flags XATTR_CREATE) as [->|Hne].
    { eexists _, _. split; [done|]. left. eauto 6. }
    destruct (set_xattr_update_tables p j val) as (p' & -> & Hf & Hxs).
    rewrite bind_int_id in Hxs by (unfold in_int32; lia).
    eexists _, _. split; [done|]. right. split; [done|]. split; [naive_solver|]. split; [done|].
    rewrite <- Hd, <- Hi, <- Hn. by apply (update_sets_xattr _ _ j x).
  - cbn [Z.eqb negb]. rewrite andb_false_r, andb_true_r.
    destruct (Z.eqb_spec flags XATTR_REPLACE) as [->|Hne].
    { eexists _, _. split; [done|]. left. split; [done|]. split; [done|]. right.
      split; [done|]. naive_solver. }
    destruct (set_xattr_insert_tables p m name val) as (p' & -> & Hf & Hxs).
    eexists _, _. split; [done|]. right. split; [done|]. split; [naive_solver|]. split; [done|].
    apply insert_sets_xattr; try done. rewrite Hxs. unfold msg_dev, msg_ino, bind_int.
    rewrite (wrap_signed_small 32), (wrap_signed_small 64) by lia. done.
Qed.

Lemma get_xattr_cases {E : SqlEngine} {L : SqlLaws E} {RL : SqlReliable E} {PM : PathMax}
    (p : pdb) (m : pseudo_msg_t) name rest len :
  xattr_unique (pdb_tables p) -> NUL ∉ name ->
  (forall v, xattr_at (pdb_tables p) (msg_dev m) (msg_ino m) name v ->
     pdb_get_xattr p m (Some (name ++ NUL :: rest)) len =
       if decide (v = []) then (None, 0, 1) else (Some v, Z.of_nat (length v), 0)) /\
  (~ has_attr (pdb_tables p) m name ->
     pdb_get_xattr p m (Some (name ++ NUL :: rest)) len = (Some (name ++ NUL :: rest), len, 1)).
Proof.
  intros Huniq Hname. unfold pdb_get_xattr. no_failure. rewrite bind_never_fails. cbn [fmap option_fmap option_map].
  rewrite c_str_app_nul by done. cbn [name_is].
  destruct (select_xattrs_cases p (XAnd (xattr_key m) (XNameEq name)))
    as [(j & x & l & -> & Hx & Hw)|[-> Hw]].
  - apply key_cond in Hw as (Hd & Hi & Hn). split.
    + intros v (k & y & Hy & Hd' & Hi' & Hn' & Hv).
      assert (j = k) as -> by (apply (Huniq j k x y); congruence).
      assert (y = x) as -> by congruence. rewrite Hv.
      cbn zeta. destruct v as [|c v]; [done|]. rewrite decide_False by done.
      replace (1 <=? Z.of_nat (length (c :: v))) with true; [done|].
      symmetry. apply Z.leb_le. simpl. lia.
    + intros Hno. exfalso. apply Hno. exists (x_value x). by exists j, x.
  - split; [|done]. intros v (k & y & Hy & Hd' & Hi' & Hn' & Hv). exfalso.
    specialize (Hw _ _ Hy). apply not_true_iff_false in Hw. by apply Hw, key_cond.
Qed.

(** ** Properties *)


(** [pdb_get_xattr] returns the value of the attribute, byte for byte; it
    reports an attribute that is not there, and also one whose value is empty,
    as missing. *)
Theorem get_xattr_exact {E : SqlEngine} {L : SqlLaws E} {RL : SqlReliable E} {PM : PathMax}
    (p : pdb) (m : pseudo_msg_t) name rest len :
  xattr_unique (pdb_tables p) -> NUL ∉ name ->
  (forall v, xattr_at (pdb_tables p) (msg_dev m) (msg_ino m) name v ->
     pdb_get_xattr p m (Some (name ++ NUL :: rest)) len =
       if decide (v = []) then (None, 0, 1) else (Some v, Z.of_nat (length v), 0)) /\
  (~ has_attr (pdb_tables p) m name ->
     pdb_get_xattr p m (Some (name ++ NUL :: rest)) len = (Some (name ++ NUL :: rest), len, 1)).
Proof. apply get_xattr_cases. Qed.

(** [pdb_list_xattr] returns the names of the inode's attributes, each
    followed by a NUL, in increasing order and each once, and writes them
    inside the buffer it allocated; an inode without attributes gives a NULL
    buffer and success. *)
Theorem list_xattr_exact {E : SqlEngine} {L : SqlLaws E} {RL : SqlReliable E} {PM : PathMax}
    (p : pdb) (m : pseudo_msg_t) value len :
  xattr_unique (pdb_tables p) -> exists names,
  (forall n, n ∈ names <-> has_attr (pdb_tables p) m n) /\
  StronglySorted str_le names /\ NoDup names /\
  pdb_list_xattr p m value len =
    (if decide (names = []) then None else Some (names_image names),
     Z.of_nat (length (names_image names)), 0) /\
  match list_xattr_rows names with
  | Some b => nb_data b = names_image names /\ Z.of_nat (length (nb_data b)) < nb_allocated b
  | None => names = []
  end.
Proof.
  intros Huniq. unfold pdb_list_xattr. no_failure.
  destruct (select_xattrs_by_name_spec (conn p) (xattr_key m)) as (l & -> & Hp & Hs).
  assert (forall x, x ∈ l <-> exists j, xattrs (pdb_tables p) !! j = Some x /\
    x_dev x = msg_dev m /\ x_ino x = msg_ino m) as Hin.
  { intros x. rewrite (elem_of_rows _ _ _ _ Hp). unfold pdb_tables. simpl.
    setoid_rewrite andb_true_iff. by setoid_rewrite Z.eqb_eq. }
  exists (map x_name l). split; [|split; [|split]].
  - intros n. rewrite list_elem_of_fmap. unfold has_attr, xattr_at. split.
    + intros (x & -> & (j & Hx & Hd & Hi)%Hin). by exists (x_value x), j, x.
    + intros (v & j & x & Hx & Hd & Hi & Hn & Hv). exists x. split; [done|]. apply Hin. eauto.
  - clear Hp Hin. induction Hs as [|x l Hs IH Hall]; simpl; constructor; [done|].
    by apply Forall_map.
  - apply NoDup_fmap_2_strong.
    + intros x y (j & Hx & Hd & Hi)%Hin (k & Hy & Hd' & Hi')%Hin Hn.
      assert (j = k) as -> by (apply (Huniq j k x y); congruence). congruence.
    + rewrite Hp. unfold trows. apply NoDup_fmap_2_strong; [|apply NoDup_map_to_list].
      intros [j x] [k y] Hx Hy Hxy. simpl in *. subst y.
      apply elem_of_map_to_list, lookup_tmatch in Hx as [Hx Hw].
      apply elem_of_map_to_list, lookup_tmatch in Hy as [Hy _].
      f_equal. by apply (Huniq j k x x).
  - rewrite Z.eqb_refl. pose proof (list_xattr_rows_from (map x_name l) None) as Hr.
    unfold list_xattr_rows in *. destruct (map x_name l) as [|n names]; [by rewrite decide_True|].
    destruct (foldl _ _ _) as [b|]; [|naive_solver].
    destruct Hr as [Hd Hl]; [done|]. simpl in Hd. rewrite Hd. split; [|by rewrite Hd in Hl].
    by rewrite decide_False.
Qed.

(** [pdb_remove_xattr] removes exactly the named attribute of the inode,
    and also succeeds when there is none. *)
Theorem remove_xattr_exact {E : SqlEngine} {L : SqlLaws E} {RL : SqlReliable E} {PM : PathMax}
    (p : pdb) (m : pseudo_msg_t) name rest :
  Z.of_nat (length name) < 2 ^ 31 -> exists p',
  pdb_remove_xattr p m (Some (name ++ rest)) (Z.of_nat (length name)) = (p', 0) /\
  files (pdb_tables p') = files (pdb_tables p) /\
  (forall d i n v, xattr_at (pdb_tables p') d i n v <->
     xattr_at (pdb_tables p) d i n v /\ ~ (d = msg_dev m /\ i = msg_ino m /\ n = name)).
Proof.
  intros Hlen. unfold pdb_remove_xattr. no_failure. rewrite bind_never_fails.
  cbn [fmap option_fmap option_map]. unfold bind_text. rewrite (wrap_signed_small 32) by lia.
  replace (_ <? 0) with false by (symmetry; apply Z.ltb_ge; lia).
  rewrite Nat2Z.id, take_app_length. cbn [name_is]. run_step T.
  eexists. split; [done|]. split; [by rewrite T|]. intros d i n v.
  unfold xattr_at. rewrite T. cbn [xattrs]. setoid_rewrite lookup_tdelete.
  assert (forall x, ((x_dev x =? bind_int (m_dev m)) && (x_ino x =? signed_ino (m_ino m)) &&
     bool_decide (x_name x = name)) = false <->
     ~ (x_dev x = msg_dev m /\ x_ino x = msg_ino m /\ x_name x = name)) as Hc.
  { intros x. rewrite <- not_true_iff_false, !andb_true_iff, !Z.eqb_eq, bool_decide_eq_true.
    unfold msg_dev, msg_ino. tauto. }
  setoid_rewrite Hc. naive_solver.
Qed.

(** A device number of 2^31 or more is cut to 32 bits when
    [pdb_set_xattr] looks for the row, but not when it inserts it: the
    attribute is stored and can never be read, and setting it again adds a
    second row. *)
Theorem set_xattr_large_device :
  let m := sample_msg OP_SET_XATTR ($"/f" ++ [NUL]) (2 ^ 31) 10 0 0 0x81a4 1 in
  let set p := @pdb_set_xattr mem_engine p m (name_and_value ($"user.a") ($"1" ++ [NUL])) 8 0 in
  let r := set (sample_pdb [] []) in
  r.2 = 0 /\
  (@pdb_get_xattr mem_engine r.1 m (Some ($"user.a" ++ [NUL])) 6).2 = 1 /\
  size (xattrs (pdb_tables (set r.1).1)) = 2%nat.
Proof. vm_compute. done. Qed.

(** ** Witnesses *)

Lemma sample_lookup (P : Z -> xattr_row -> Prop) (l : list (Z * xattr_row)) (t : gmap Z xattr_row) :
  map_to_list t = l -> Forall (fun kv => P kv.1 kv.2) l -> forall j x, t !! j = Some x -> P j x.
Proof.
  intros <- Hl j x Hx. rewrite Forall_forall in Hl.
  by apply (Hl (j, x)), elem_of_map_to_list.
Qed.

Lemma sample_db_ids : xattr_ids (pdb_tables sample_db).
Proof.
  unfold xattr_ids. apply (sample_lookup (fun j x => x_id x = j /\ 0 < j < 2 ^ 31) _ _ eq_refl).
  repeat constructor.
Qed.

Lemma sample_db_unique : xattr_unique (pdb_tables sample_db).
Proof.
  intros j k x y Hx Hy.
  revert j x Hx. apply (sample_lookup (fun j x => x_dev x = x_dev y -> x_ino x = x_ino y -> x_name x = x_name y -> j = k)
    _ _ eq_refl).
  revert k y Hy. apply (sample_lookup (fun k y => Forall (fun kv => x_dev kv.2 = x_dev y -> x_ino kv.2 = x_ino y ->
    x_name kv.2 = x_name y -> kv.1 = k) _) _ _ eq_refl).
  repeat constructor; done.
Qed.

Definition sample_file : pseudo_msg_t := sample_msg OP_SET_XATTR ($"/d/f" ++ [NUL]) 5 11 0 0 0x81a4 1.


Lemma get_xattr_exact_witness :
  @pdb_get_xattr mem_engine sample_db sample_file (Some ($"user.a" ++ [NUL])) 6 = (Some ($"1"), 1, 0).
Proof.
  destruct (@get_xattr_exact mem_engine mem_engine_laws mem_engine_reliable sample_path_max sample_db sample_file
    ($"user.a") [] 6 sample_db_unique) as [H _]; [by apply no_nul_b|].
  rewrite (H ($"1")); [done|]. by exists 1, (mkXattr 1 5 11 ($"user.a") ($"1")).
Defined.

Lemma list_xattr_exact_witness : exists names,
  (forall n, n ∈ names <-> has_attr (pdb_tables sample_db) sample_file n) /\
  @pdb_list_xattr mem_engine sample_db sample_file None 0 =
    (if decide (names = []) then None else Some (names_image names), Z.of_nat (length (names_image names)), 0).
Proof.
  destruct (@list_xattr_exact mem_engine mem_engine_laws mem_engine_reliable sample_path_max sample_db sample_file
    None 0 sample_db_unique) as (names & H1 & _ & _ & H2 & _).
  exists names. split; [exact H1|exact H2].
Defined.

Lemma remove_xattr_exact_witness : exists p',
  @pdb_remove_xattr mem_engine sample_db sample_file (Some ($"user.a" ++ [NUL])) 6 = (p', 0) /\
  ~ xattr_at (pdb_tables p') 5 11 ($"user.a") ($"1").
Proof.
  destruct (@remove_xattr_exact mem_engine mem_engine_laws mem_engine_reliable sample_path_max sample_db sample_file
    ($"user.a") [NUL]) as (p' & H1 & _ & H2); [done|].
  exists p'. split; [exact H1|]. rewrite H2. intros [_ Hn]. apply Hn. done.
Defined.
