(* ===== verification/LogDb.v ===== *)
(** Log entries in [pseudo_db.c]: [pdb_log_traits] builds an entry from a list
    of traits, [pdb_log_entry] and [pdb_log_msg] insert one row into the log
    database. *)

From stdpp Require Import base gmap list fin_maps strings.
From Stdlib Require Import ZArith Lia Ascii.
From S2P Require Import Prelude Tables Modes Message Sql FileDb.

Open Scope Z_scope.

(** ** Data ([pseudo_db.h]) *)

Record log_entry := mkEntry {
  e_stamp : Z; e_type : Z; e_op : Z; e_access : Z; e_client : Z; e_fd : Z;
  e_dev : Z; e_ino : Z; e_mode : Z; e_gid : Z; e_uid : Z;
  e_path : option bytes; e_result : Z; e_severity : Z;
  e_text : option bytes; e_tag : option bytes; e_program : option bytes
}.

(** [calloc(sizeof( *e), 1)] *)
Definition log_entry_zero : log_entry :=
  mkEntry 0 0 0 0 0 0 0 0 0 0 0 None 0 0 None None None.

(** The union [pseudo_query_data] and its use: a text field holds a string. *)
Record pseudo_query_t := mkQuery {
  q_type : Z; q_field : Z; q_ivalue : Z; q_svalue : option bytes
}.

Section LogDb.
Context {E : SqlEngine} {PM : PathMax}.

Definition log_insert (p : pdb) (row : Z -> log_row) : pdb * Z :=
  let '(p, rc) := step_clean p (InsertLogs row) in (p, not_done rc).

(** The values [pdb_log_entry] binds; [now] is [time(NULL)]. *)
Definition entry_row (now : Z) (e : option log_entry) (id : Z) : log_row :=
  match e with
  | Some e =>
      {| l_id := id;
         l_stamp := bind_int (if negb (e_stamp e =? 0) then e_stamp e else now);
         l_op := bind_int (e_op e); l_access := bind_int (e_access e);
         l_client := bind_int (e_client e); l_dev := bind_int (e_dev e);
         l_gid := bind_int (e_gid e); l_ino := signed_ino (e_ino e);
         l_mode := bind_int (e_mode e); l_path := c_str <$> e_path e;
         l_result := bind_int (e_result e); l_severity := bind_int (e_severity e);
         l_text := c_str <$> e_text e; l_program := c_str <$> e_program e;
         l_tag := c_str <$> e_tag e; l_type := bind_int (e_type e);
         l_uid := bind_int (e_uid e); l_fd := None |}
  | None =>
      {| l_id := id; l_stamp := bind_int now; l_op := 0; l_access := 0;
         l_client := 0; l_dev := 0; l_gid := 0; l_ino := 0; l_mode := 0;
         l_path := None; l_result := 0; l_severity := 0; l_text := None;
         l_program := None; l_tag := None; l_type := 0; l_uid := 0; l_fd := None |}
  end.

Definition pdb_log_entry (p : pdb) (now : Z) (e : option log_entry) : pdb * Z :=
  if negb (log_db_open (conn p)) then (p, 1)
  else if not_prepared p St_log_entry then (p, 1)
  else log_insert p (entry_row now e).

(** [text] is the formatted message; [vsnprintf] keeps 8191 bytes of it. *)
Definition log_text_max : nat := Z.to_nat 8191.

Definition pdb_log_msg (p : pdb) (now severity : Z) (msg : option pseudo_msg_t)
    (program tag text : option bytes) : pdb * Z :=
  let text := (fun t => take log_text_max (c_str t)) <$> text in
  if negb (log_db_open (conn p)) then (p, 1)
  else if not_prepared p St_log_msg then (p, 1)
  else
    log_insert p (fun id =>
      match msg with
      | Some m =>
          {| l_id := id; l_stamp := bind_int now;
             l_op := bind_int (op_code (m_op m)); l_access := bind_int (m_access m);
             l_client := bind_int (m_client m); l_dev := bind_int (m_dev m);
             l_gid := bind_int (m_gid m); l_ino := signed_ino (m_ino m);
             l_mode := bind_int (m_mode m);
             l_path := if negb (m_pathlen m =? 0) then Some (path_str m) else None;
             l_result := bind_int (m_result m); l_uid := bind_int (m_uid m);
             l_severity := bind_int severity; l_text := text;
             l_program := c_str <$> program; l_tag := c_str <$> tag;
             l_type := bind_int (m_type m); l_fd := None |}
      | None =>
          {| l_id := id; l_stamp := bind_int now; l_op := 0; l_access := 0;
             l_client := 0; l_dev := 0; l_gid := 0; l_ino := 0; l_mode := 0;
             l_path := None; l_result := 0; l_uid := 0;
             l_severity := bind_int severity; l_text := text;
             l_program := c_str <$> program; l_tag := c_str <$> tag;
             l_type := 0; l_fd := None |}
      end).
End LogDb.

(** ** Traits *)

Definition entry_int (f : Z) (v : Z) (e : log_entry) : option log_entry :=
  let '(mkEntry st ty op ac cl fd dev ino mode gid uid path res sev text tag prog) := e in
  if f =? PSQF_ACCESS then Some (mkEntry st ty op (int32 v) cl fd dev ino mode gid uid path res sev text tag prog)
  else if f =? PSQF_CLIENT then Some (mkEntry st ty op ac v fd dev ino mode gid uid path res sev text tag prog)
  else if f =? PSQF_DEV then Some (mkEntry st ty op ac cl fd v ino mode gid uid path res sev text tag prog)
  else if f =? PSQF_FD then Some (mkEntry st ty op ac cl v dev ino mode gid uid path res sev text tag prog)
  else if f =? PSQF_FTYPE then
    Some (mkEntry st ty op ac cl fd dev ino (Z.lor mode (Z.land v S_IFMT)) gid uid path res sev text tag prog)
  else if f =? PSQF_GID then Some (mkEntry st ty op ac cl fd dev ino mode v uid path res sev text tag prog)
  else if f =? PSQF_INODE then Some (mkEntry st ty op ac cl fd dev v mode gid uid path res sev text tag prog)
  else if f =? PSQF_MODE then Some (mkEntry st ty op ac cl fd dev ino v gid uid path res sev text tag prog)
  else if f =? PSQF_OP then Some (mkEntry st ty (int32 v) ac cl fd dev ino mode gid uid path res sev text tag prog)
  else if f =? PSQF_PERM then
    Some (mkEntry st ty op ac cl fd dev ino (Z.lor mode (Z.land (Z.ldiff v S_IFMT) 0xffff)) gid uid path res sev text tag prog)
  else if f =? PSQF_RESULT then Some (mkEntry st ty op ac cl fd dev ino mode gid uid path (int32 v) sev text tag prog)
  else if f =? PSQF_SEVERITY then Some (mkEntry st ty op ac cl fd dev ino mode gid uid path res (int32 v) text tag prog)
  else if f =? PSQF_STAMP then Some (mkEntry (int64 v) ty op ac cl fd dev ino mode gid uid path res sev text tag prog)
  else if f =? PSQF_TYPE then Some (mkEntry st (int32 v) op ac cl fd dev ino mode gid uid path res sev text tag prog)
  else if f =? PSQF_UID then Some (mkEntry st ty op ac cl fd dev ino mode gid v path res sev text tag prog)
  else None.

Definition entry_text (f : Z) (s : option bytes) (e : log_entry) : option log_entry :=
  let '(mkEntry st ty op ac cl fd dev ino mode gid uid path res sev text tag prog) := e in
  let s := c_str <$> s in
  if f =? PSQF_PATH then Some (mkEntry st ty op ac cl fd dev ino mode gid uid s res sev text tag prog)
  else if f =? PSQF_PROGRAM then Some (mkEntry st ty op ac cl fd dev ino mode gid uid path res sev text tag s)
  else if f =? PSQF_TAG then Some (mkEntry st ty op ac cl fd dev ino mode gid uid path res sev text s prog)
  else if f =? PSQF_TEXT then Some (mkEntry st ty op ac cl fd dev ino mode gid uid path res sev s tag prog)
  else None.

(** One trait; [None] is the default case ("invalid trait"). *)
Definition apply_trait (q : pseudo_query_t) (e : log_entry) : option log_entry :=
  match entry_text (q_field q) (q_svalue q) e with
  | Some e => Some e
  | None => entry_int (q_field q) (q_ivalue q) e
  end.

Fixpoint apply_traits (l : list pseudo_query_t) (e : log_entry) : option log_entry :=
  match l with
  | [] => Some e
  | q :: l => match apply_trait q e with None => None | Some e => apply_traits l e end
  end.

Definition pdb_log_traits `{SqlEngine} `{PathMax} (p : pdb) (now : Z) (traits : list pseudo_query_t) : pdb * Z :=
  if negb (log_db_open (conn p)) then (p, 1)
  else
    match apply_traits traits log_entry_zero with
    | None => (p, 1)
    | Some e => pdb_log_entry p now (Some e)
    end.
