(* ===== verification/ServerOp.v ===== *)
(** The server's operation handler, [pseudo_op] of [pseudo.c], and
    [pseudo_server_response].

    [op_state] holds the local variables; each stage of the C function is one
    definition and [pseudo_op] runs them in order.  [oldpath] points into the
    path of the message: it is kept as an offset. *)

From stdpp Require Import base gmap list fin_maps strings.
From Stdlib Require Import ZArith Lia Ascii.
From S2P Require Import Prelude Tables Modes Message Sql FileDb Xattr LogDb.

Open Scope Z_scope.

(** What the handler reads from its surroundings: [opt_l] (the [-l] option),
    whether the code was built with [PSEUDO_XATTRDB], and the clock. *)
Class ServerConfig := { opt_l : bool; PSEUDO_XATTRDB : bool; now : Z }.

Section ServerOp.
Context {E : SqlEngine} {PM : PathMax} {SC : ServerConfig}.

Record op_state := mkOp {
  db : pdb;
  msg : pseudo_msg_t;
  msg_header : header;
  by_path : header;
  by_ino : header;
  db_header : header;
  path_by_ino : option bytes;
  oldpath : option Z;
  oldpathlen : Z;
  found_path : bool;
  found_ino : bool;
  found_exact : bool;
  trailing_slash : bool;
  response : option (bytes * Z)          (* *response_path, *response_len *)
}.

Definition zero_header : header := mkHeader 0 OP_NONE 0 0 0 0 0 0 0 0 0 0 0 0 0.

Definition with_db d (s : op_state) : op_state :=
  match s with mkOp _ m h bp bi dh pi op ol fp fi fe ts r => mkOp d m h bp bi dh pi op ol fp fi fe ts r end.
Definition with_msg m (s : op_state) : op_state :=
  match s with mkOp d _ h bp bi dh pi op ol fp fi fe ts r => mkOp d m h bp bi dh pi op ol fp fi fe ts r end.
Definition with_found_path b (s : op_state) : op_state :=
  match s with mkOp d m h bp bi dh pi op ol _ fi fe ts r => mkOp d m h bp bi dh pi op ol b fi fe ts r end.
Definition with_found_ino b (s : op_state) : op_state :=
  match s with mkOp d m h bp bi dh pi op ol fp _ fe ts r => mkOp d m h bp bi dh pi op ol fp b fe ts r end.
Definition with_by_path h' (s : op_state) : op_state :=
  match s with mkOp d m h _ bi dh pi op ol fp fi fe ts r => mkOp d m h h' bi dh pi op ol fp fi fe ts r end.
Definition with_by_ino h' pi' (s : op_state) : op_state :=
  match s with mkOp d m h bp _ dh _ op ol fp fi fe ts r => mkOp d m h bp h' dh pi' op ol fp fi fe ts r end.
Definition with_db_header h' (s : op_state) : op_state :=
  match s with mkOp d m h bp bi _ pi op ol fp fi fe ts r => mkOp d m h bp bi h' pi op ol fp fi fe ts r end.
Definition with_exact h' pi' (s : op_state) : op_state :=
  match s with mkOp d m h _ _ dh _ op ol _ _ _ ts r => mkOp d m h h' h' dh pi' op ol true true true ts r end.
Definition with_oldpath op' ol' (s : op_state) : op_state :=
  match s with mkOp d m h bp bi dh pi _ _ fp fi fe ts r => mkOp d m h bp bi dh pi op' ol' fp fi fe ts r end.
Definition with_header h' (s : op_state) : op_state :=
  match s with mkOp d m _ bp _ dh pi op ol fp fi fe ts r => mkOp d m h' bp h' dh pi op ol fp fi fe ts r end.
Definition with_slash b (s : op_state) : op_state :=
  match s with mkOp d m h bp bi dh pi op ol fp fi fe _ r => mkOp d m h bp bi dh pi op ol fp fi fe b r end.
Definition with_response r' (s : op_state) : op_state :=
  match s with mkOp d m h bp bi dh pi op ol fp fi fe ts _ => mkOp d m h bp bi dh pi op ol fp fi fe ts r' end.

(** A header as a message of its own ([by_ino], [by_path]: no path). *)
Definition as_msg (h : header) : pseudo_msg_t := mkMsg h [].

(** [*msg = h] *)
Definition assign (m : pseudo_msg_t) (h : header) : pseudo_msg_t := assign_header m (as_msg h).

(** A call that changes the database and whose result is ignored. *)
Definition call (f : pdb -> pdb * Z) (s : op_state) : op_state := with_db (f (db s)).1 s.

Definition prefer_ino (o : pseudo_op_t) : bool :=
  match o with OP_FCHOWN | OP_FCHMOD | OP_FSTAT => true | _ => false end.

Definition op_start (d : pdb) (m : pseudo_msg_t) : op_state :=
  mkOp d (set_result RESULT_SUCCEED m) zero_header zero_header zero_header zero_header
    None None 0 false false false false None.

(** *** Two paths in one message *)

Definition has_two_paths (o : pseudo_op_t) : bool :=
  match o with
  | OP_RENAME | OP_CREATE_XATTR | OP_GET_XATTR | OP_LIST_XATTR
  | OP_REPLACE_XATTR | OP_REMOVE_XATTR | OP_SET_XATTR => true
  | _ => false
  end.

(** The byte [oldpath[i]], and the store of a NUL there; the address wraps
    around like a pointer. *)
Definition byte_at (m : pseudo_msg_t) (i : Z) : ascii :=
  if uint64 i <? Z.of_nat (length (m_path m)) then default NUL (m_path m !! Z.to_nat (uint64 i))
  else NUL.
Definition clear_at (m : pseudo_msg_t) (i : Z) : pseudo_msg_t :=
  if uint64 i <? Z.of_nat (length (m_path m))
  then set_path (<[Z.to_nat (uint64 i) := NUL]> (m_path m)) m
  else m.

Definition op_split_paths (s : op_state) : op_state :=
  let m := msg s in
  if negb (m_pathlen m =? 0) && has_two_paths (m_op m) then
    let initial_len := Z.of_nat (strlen (m_path m)) in
    let old := initial_len + 1 in
    let oldlen := uint64 (m_pathlen m - old - 1) in
    let '(m, oldlen) :=
      if (0 <? oldlen) && bool_decide (m_op m = OP_RENAME) then
        if decide (byte_at m (old + oldlen - 1) = slash)
        then (clear_at m (old + oldlen - 1), oldlen - 1)
        else (m, oldlen)
      else (m, oldlen) in
    with_oldpath (Some old) oldlen (with_msg (set_pathlen (uint32 initial_len) m) s)
  else s.

(** [oldpath] as memory, and as a C string (NULL if it was never set). *)
Definition oldpath_mem (s : op_state) : option bytes :=
  (fun off => drop (Z.to_nat off) (m_path (msg s))) <$> oldpath s.

(** *** The header as it came, and the trailing slash *)

Definition op_stash (s : op_state) : op_state := with_header (hdr (msg s)) s.

Definition op_strip_slash (s : op_state) : op_state :=
  let m := msg s in
  if negb (m_pathlen m =? 0) then
    if decide (byte_at m (m_pathlen m - 1) = slash) then
      with_slash true (with_msg (clear_at (set_pathlen (m_pathlen m - 1) m) (m_pathlen m - 1)) s)
    else s
  else s.

(** *** Looking the file up *)

Definition op_lookup_exact (s : op_state) : op_state :=
  let m := msg s in
  if negb (m_pathlen m =? 0) && negb (m_dev m =? 0) && negb (m_ino m =? 0) then
    let '(m', rc) := pdb_find_file_exact (db s) m in
    if rc =? 0 then
      let m'' := assign m' (msg_header s) in
      with_exact (hdr m') (Some (path_str m'')) (with_msg m'' s)
    else with_msg m' s
  else s.

Definition op_lookup_path (s : op_state) : op_state :=
  let m := msg s in
  if negb (m_pathlen m =? 0) then
    let '(m', rc) := pdb_find_file_path (db s) m in
    let s := with_msg m' s in
    if rc =? 0 then with_found_path true (with_by_path (hdr m') s) else s
  else s.

Definition op_lookup_dev (s : op_state) : op_state :=
  let m := msg s in
  if negb (m_dev m =? 0) && negb (m_ino m =? 0) then
    let '(m', p, rc) := pdb_find_file_dev (db s) (as_msg (by_ino s)) (path_by_ino s) in
    let s := with_by_ino (hdr m') p s in
    if rc =? 0 then with_found_ino true s else s
  else s.

Definition op_lookup (s : op_state) : op_state :=
  let s := op_lookup_exact s in
  if negb (found_path s) && negb (found_ino s) then op_lookup_dev (op_lookup_path s) else s.

(** *** Sanity checks: the row found by path *)

Definition dir_mismatch (a b : Z) : bool := xorb (S_ISDIR a) (S_ISDIR b).
Definition lnk_mismatch (a b : Z) : bool := xorb (S_ISLNK a) (S_ISLNK b).

Definition op_check_path_ino (s : op_state) : op_state :=
  if negb (m_ino (by_path s) =? m_ino (msg_header s)) && negb (m_ino (msg_header s) =? 0)
     && negb (bool_decide (m_op (msg s) = OP_EXEC)) && negb (m_deleting (by_path s) =? 0)
  then call (fun d => pdb_did_unlink_file d (Some (m_path (msg s))) None (m_deleting (by_path s))) s
  else s.

Definition op_check_path (s : op_state) : op_state :=
  if found_path s && negb (bool_decide (m_op (msg s) = OP_DID_UNLINK)) then
    let s := op_check_path_ino s in
    if dir_mismatch (m_mode (by_path s)) (m_mode (msg_header s))
       || lnk_mismatch (m_mode (by_path s)) (m_mode (msg_header s))
    then with_found_path false (call (fun d => pdb_unlink_file d (msg s)) s)
    else s
  else s.

(** *** Sanity checks: the row found by device and inode *)

(** Both paths are known: are they at odds? *)
Definition path_mismatch (s : op_state) (pbi : bytes) : bool :=
  match m_op (msg s) with
  | OP_LINK | OP_EXEC => false
  | OP_RENAME =>
      (m_nlink (msg s) =? 1)
      && negb (bool_decide (c_str (default [] (oldpath_mem s)) = pbi))
  | _ => negb (bool_decide (path_str (msg s) = pbi)) && negb (bool_decide (pbi = NAMELESS_FILE))
  end.

Definition op_check_ino_type (s : op_state) : op_state :=
  if dir_mismatch (m_mode (by_ino s)) (m_mode (msg_header s))
     || lnk_mismatch (m_mode (by_ino s)) (m_mode (msg_header s))
  then with_found_ino false (call (fun d => pdb_unlink_file_dev d (msg s)) s)
  else s.

(** [inr] is [goto op_exit]. *)
Definition op_check_ino (s : op_state) : op_state + op_state :=
  if found_ino s && negb (bool_decide (m_op (msg s) = OP_DID_UNLINK)) then
    let has_path := negb (m_pathlen (msg s) =? 0) in
    match path_by_ino s with
    | None =>
        let s := if has_path then call (fun d => pdb_update_file_path d (msg s)) s else s in
        inl (op_check_ino_type s)
    | Some pbi =>
        if has_path && path_mismatch s pbi && (m_deleting (by_ino s) =? 0) then
          inr (with_msg (set_result RESULT_ABORT (msg s)) (with_found_ino false s))
        else inl (op_check_ino_type s)
    end
  else inl s.

Definition op_pick_header (s : op_state) : op_state :=
  if found_ino s && (prefer_ino (m_op (msg s)) || negb (found_path s)) then with_db_header (by_ino s) s
  else if found_path s then with_db_header (by_path s) s
  else s.

(** *** The operations *)

Definition op_creat (s : op_state) : op_state :=
  let s := if found_ino s && negb (found_exact s)
           then call (fun d => pdb_unlink_file_dev d (as_msg (by_ino s))) s else s in
  if negb (found_path s) then call (fun d => pdb_link_file d (msg s)) s else s.

(** [(new & 07777) | (old & ~07777)] *)
Definition merge_mode (new old : Z) : Z := Z.lor (Z.land new 0xfff) (Z.ldiff old 0xfff).

Definition op_link_if_new (s : op_state) : op_state :=
  if negb (found_path s) && negb (found_ino s) then call (fun d => pdb_link_file d (msg s)) s else s.

Definition op_update_msg (m : pseudo_msg_t) (s : op_state) : op_state :=
  call (fun d => pdb_update_file d m) (with_msg m s).

Definition op_chmod (s : op_state) : op_state :=
  let s :=
    if found_ino s then
      let m := assign (msg s) (by_ino s) in
      op_update_msg (set_mode (merge_mode (m_mode (msg_header s)) (m_mode m)) m) s
    else if found_path s then
      let m := assign (msg s) (by_path s) in
      op_update_msg (set_mode (merge_mode (m_mode (msg_header s)) (m_mode (by_path s))) m) s
    else with_msg (set_mode (m_mode (msg_header s)) (msg s)) s in
  op_link_if_new s.

Definition with_owner (h : header) (m : pseudo_msg_t) : pseudo_msg_t :=
  set_gid (m_gid h) (set_uid (m_uid h) m).

Definition op_chown (s : op_state) : op_state :=
  let s :=
    if found_ino s then op_update_msg (with_owner (msg_header s) (assign (msg s) (by_ino s))) s
    else if found_path s then op_update_msg (with_owner (msg_header s) (assign (msg s) (by_path s))) s
    else with_msg (with_owner (msg_header s) (msg s)) s in
  op_link_if_new s.

Definition op_fail (s : op_state) : op_state := with_msg (set_result RESULT_FAIL (msg s)) s.

(** [(uid_t) -1] *)
Definition NO_ID : Z := 2 ^ 32 - 1.

Definition op_stat (s : op_state) : op_state :=
  if found_ino s || found_path s then
    if PSEUDO_XATTRDB && (m_uid (db_header s) =? NO_ID) && (m_gid (db_header s) =? NO_ID) then op_fail s
    else with_msg (assign (msg s) (db_header s)) s
  else op_fail s.

Definition op_link (s : op_state) : op_state :=
  let s := if found_path s then call (fun d => pdb_unlink_file d (msg s)) s else s in
  let s :=
    if found_ino s then
      if bool_decide (m_op (msg s) = OP_SYMLINK) then s
      else with_msg (assign (msg s) (by_ino s)) s
    else with_msg (assign (msg s) (msg_header s)) s in
  call (fun d => pdb_link_file d (msg s)) s.

Definition op_rename (s : op_state) : op_state :=
  let s := call (fun d => pdb_rename_file d (oldpath_mem s) (msg s)) s in
  call (fun d => pdb_update_inode d (msg s)) s.

Definition op_may_unlink (s : op_state) : op_state :=
  let '(d, rc) := pdb_may_unlink_file (db s) (msg s) (m_client (msg s)) in
  let s := with_db d s in
  if negb (rc =? 0) then op_fail s else s.

Definition op_unlink (s : op_state) : op_state :=
  let s := call (fun d => pdb_unlink_file d (msg s)) s in
  let s := call (fun d => pdb_unlink_contents d (msg s)) s in
  let s := if (m_nlink (msg_header s) =? 1) && found_ino s
           then call (fun d => pdb_unlink_file_dev d (msg s)) s else s in
  with_msg (set_result RESULT_NONE (msg s)) s.

Definition op_mknod (s : op_state) : op_state :=
  let s := if found_path s then call (fun d => pdb_unlink_file d (msg s)) s else s in
  let s := if found_ino s then call (fun d => pdb_unlink_file_dev d (as_msg (by_ino s))) s else s in
  let s := with_msg (assign (msg s) (msg_header s)) s in
  call (fun d => pdb_link_file d (msg s)) s.

Definition op_get_xattr (s : op_state) : op_state :=
  let '(value, len, rc) := pdb_get_xattr (db s) (msg s) (oldpath_mem s) (oldpathlen s) in
  if negb (rc =? 0) then op_fail s else with_response ((fun v => (v, len)) <$> value) s.

Definition op_list_xattr (s : op_state) : op_state :=
  let '(value, len, rc) := pdb_list_xattr (db s) (msg s) (oldpath_mem s) (oldpathlen s) in
  if negb (rc =? 0) then op_fail s else with_response ((fun v => (v, len)) <$> value) s.

Definition xattr_flags (o : pseudo_op_t) : Z :=
  match o with OP_CREATE_XATTR => XATTR_CREATE | OP_REPLACE_XATTR => XATTR_REPLACE | _ => 0 end.

(** A message without a path leaves [oldpath] NULL; [pdb_set_xattr] would
    dereference it, the empty string stands for that case here. *)
Definition op_set_xattr (s : op_state) : op_state :=
  let '(d, rc) := pdb_set_xattr (db s) (msg s) (default [] (oldpath_mem s)) (oldpathlen s)
                    (xattr_flags (m_op (msg s))) in
  let s := with_db d s in
  if negb (rc =? 0) then op_fail s else s.

Definition op_remove_xattr (s : op_state) : op_state :=
  call (fun d => pdb_remove_xattr d (msg s) (oldpath_mem s) (oldpathlen s)) s.

Definition op_dispatch (s : op_state) : op_state :=
  match m_op (msg s) with
  | OP_CHDIR | OP_CLOSE => s
  | OP_EXEC | OP_OPEN => s
  | OP_CREAT => op_creat s
  | OP_CHMOD | OP_FCHMOD => op_chmod s
  | OP_CHOWN | OP_FCHOWN => op_chown s
  | OP_STAT | OP_FSTAT => op_stat s
  | OP_LINK | OP_SYMLINK => op_link s
  | OP_RENAME => op_rename s
  | OP_MAY_UNLINK => op_may_unlink s
  | OP_DID_UNLINK =>
      call (fun d => pdb_did_unlink_file d (Some (m_path (msg s))) (Some (msg s)) (m_client (msg s))) s
  | OP_CANCEL_UNLINK => call (fun d => pdb_cancel_unlink_file d (msg s)) s
  | OP_UNLINK => op_unlink s
  | OP_MKDIR | OP_MKNOD => op_mknod s
  | OP_GET_XATTR => op_get_xattr s
  | OP_LIST_XATTR => op_list_xattr s
  | OP_CREATE_XATTR | OP_REPLACE_XATTR | OP_SET_XATTR => op_set_xattr s
  | OP_REMOVE_XATTR => op_remove_xattr s
  | _ => s
  end.

(** Attributes given to an unlinked file that is still open. *)
Definition op_unlinked_fd (s : op_state) : op_state :=
  match m_op (msg s) with
  | OP_FCHOWN | OP_FCHMOD | OP_FSTAT =>
      if negb (found_path s) && negb (found_ino s) && (m_nlink (msg s) =? 0)
      then call (fun d => pdb_may_unlink_file d (msg s) (m_client (msg s))) s
      else s
  | _ => s
  end.

Definition op_exit (s : op_state) (program tag : option bytes) : op_state :=
  if opt_l then call (fun d => pdb_log_msg d now SEVERITY_INFO (Some (msg s)) program tag None) s
  else s.

(** Everything before the operation itself. *)
Definition op_prepare (d : pdb) (m : pseudo_msg_t) : op_state + op_state :=
  op_check_ino (op_check_path (op_lookup (op_strip_slash (op_stash (op_split_paths (op_start d m)))))).

Definition pseudo_op (d : pdb) (m : pseudo_msg_t) (program tag : option bytes) : op_state * Z :=
  let s :=
    match op_prepare d m with
    | inr s => s
    | inl s => op_unlinked_fd (op_dispatch (op_pick_header s))
    end in
  (op_exit s program tag, 0).

(** *** [pseudo_server_response] *)

Definition response_state (d : pdb) (m : pseudo_msg_t) : op_state :=
  mkOp d m zero_header zero_header zero_header zero_header None None 0 false false false false None.

Definition pseudo_server_response (d : pdb) (m : pseudo_msg_t) (program tag : option bytes) : op_state * Z :=
  if m_type m =? PSEUDO_MSG_PING then
    let m := set_result (if opt_l then RESULT_SUCCEED else RESULT_FAIL) m in
    (op_exit (response_state d m) program tag, 0)
  else if (m_type m =? PSEUDO_MSG_OP) || (m_type m =? PSEUDO_MSG_FASTOP) then
    pseudo_op d m program tag
  else
    let '(d, _) := pdb_log_msg d now SEVERITY_WARN (Some m) program tag (Some ($"invalid message")) in
    (response_state d m, 1).

(** *** [pseudo_db_check]

    [lstat] answers [None] when the file cannot be examined; the fields of
    the message are corrected from it.  The result of a row: the errors so
    far, and whether something was marked for deletion. *)
Record check_state := mkCheck { chk_db : pdb; chk_errors : Z; chk_delete_some : bool }.

Definition EXIT_FAILURE : Z := 1.

Definition check_fixup (st : check_state) (m : pseudo_msg_t) (cookie fixup_needed : Z) (fix_ : bool) :
    check_state :=
  if fixup_needed =? 0 then st
  else if fix_ then
    let '(d, rc, del) :=
      if fixup_needed =? 1 then (pdb_update_inode (chk_db st) m, chk_delete_some st)
      else (pdb_may_unlink_file (chk_db st) m cookie, true) in
    mkCheck d (if negb (rc =? 0) then EXIT_FAILURE else chk_errors st) del
  else mkCheck (chk_db st) EXIT_FAILURE (chk_delete_some st).

Definition check_file (lstat : bytes -> option statbuf) (cookie : Z) (fix_ : bool)
    (st : check_state) (m : pseudo_msg_t) : check_state :=
  if m_pathlen m =? 0 then st
  else
    match lstat (path_str m) with
    | None =>
        if negb fix_ then mkCheck (chk_db st) EXIT_FAILURE (chk_delete_some st)
        else check_fixup st m cookie 2 fix_
    | Some buf =>
        let '(m, fixup) := if negb (st_ino buf =? m_ino m) then (set_ino (st_ino buf) m, 1) else (m, 0) in
        let '(m, fixup) := if negb (st_dev buf =? m_dev m) then (set_dev (st_dev buf) m, 1) else (m, fixup) in
        let fixup := if lnk_mismatch (st_mode buf) (m_mode m) then 2 else fixup in
        let fixup := if dir_mismatch (st_mode buf) (m_mode m) then 2 else fixup in
        check_fixup st m cookie fixup fix_
    end.

(** The [while] loop: [fuel] bounds the number of rows. *)
Fixpoint check_loop `{Malloc} (fuel : nat) (lstat : bytes -> option statbuf) (cookie : Z) (fix_ : bool)
    (l : pdb_file_list) (st : check_state) : option check_state :=
  match fuel with
  | O => None
  | S fuel =>
      match pdb_file l with
      | (None, _) => Some st
      | (Some m, l) => check_loop fuel lstat cookie fix_ l (check_file lstat cookie fix_ st m)
      end
  end.

Definition pseudo_db_check `{Malloc} (d : pdb) (lstat : bytes -> option statbuf) (pid : Z) (fix_ : bool) :
    option (pdb * Z) :=
  let cookie := int32 pid in
  match pdb_files d with
  | None => Some (d, EXIT_FAILURE)
  | Some l =>
      match check_loop (S (length (l_rows l))) lstat cookie fix_ l (mkCheck d 0 false) with
      | None => None
      | Some st =>
          if chk_delete_some st then
            let '(d, rc) := pdb_did_unlink_files (chk_db st) cookie in
            Some (d, if negb (rc =? 0) then EXIT_FAILURE else chk_errors st)
          else Some (chk_db st, chk_errors st)
      end
  end.
End ServerOp.
