(* ===== verification/OpInvariant.v ===== *)
(** The type invariant of the database and its preservation by everything the
    server does: whatever message arrives, whatever the database answers
    (errors included), the rows stay well formed. *)

From stdpp Require Import base gmap list fin_maps strings sets.
From Stdlib Require Import ZArith Lia Ascii.
From S2P Require Import Prelude Tables Modes Message Sql FileDb Xattr LogDb FileDbSpec ServerOp.

Open Scope Z_scope.

(** ** Well-formed rows *)

Definition in_int64 (z : Z) : Prop := - 2 ^ 63 <= z < 2 ^ 63.

(** Paths are C strings, integers have the width they were bound with. *)
Definition file_ok (r : file_row) : Prop :=
  NUL ∉ f_path r /\ in_int32 (f_dev r) /\ in_int64 (f_ino r) /\ in_int32 (f_uid r) /\
  in_int32 (f_gid r) /\ in_int32 (f_mode r) /\ in_int32 (f_rdev r) /\ in_int32 (f_deleting r).

(** The id column is the row's key; names are C strings, values any bytes. *)
Definition xattr_ok (id : Z) (x : xattr_row) : Prop :=
  x_id x = id /\ 0 < id /\ in_int64 (x_dev x) /\ in_int64 (x_ino x) /\ NUL ∉ x_name x.

Definition text_ok (s : option bytes) : Prop := match s with Some s => NUL ∉ s | None => True end.

Definition log_ok (id : Z) (l : log_row) : Prop :=
  l_id l = id /\ in_int32 (l_stamp l) /\ in_int32 (l_op l) /\ in_int32 (l_client l) /\
  in_int32 (l_dev l) /\ in_int64 (l_ino l) /\ in_int32 (l_mode l) /\ in_int32 (l_uid l) /\
  in_int32 (l_gid l) /\ in_int32 (l_result l) /\ in_int32 (l_severity l) /\
  in_int32 (l_access l) /\ in_int32 (l_type l) /\
  text_ok (l_path l) /\ text_ok (l_text l) /\ text_ok (l_tag l) /\ text_ok (l_program l).

Definition tables_ok (t : tables) : Prop :=
  (forall i r, files t !! i = Some r -> file_ok r) /\
  (forall j x, xattrs t !! j = Some x -> xattr_ok j x) /\
  (forall k l, logs t !! k = Some l -> log_ok k l).

(** ** Well-formed statements *)

Definition fset_ok (s : fset) : Prop :=
  match s with
  | SetPath v => NUL ∉ v
  | SetPathReplace o n => NUL ∉ n
  | SetIno z => in_int64 z
  | SetDev z | SetUid z | SetGid z | SetMode z | SetRdev z | SetDeleting z => in_int32 z
  end.

Definition stmt_ok (s : stmt) : Prop :=
  match s with
  | InsertFiles r => file_ok r
  | UpdateFiles l _ => Forall fset_ok l
  | InsertXattrs d i n _ => in_int64 d /\ in_int64 i /\ NUL ∉ n
  | InsertXattrsSelect d i _ => in_int64 d /\ in_int64 i
  | UpdateXattrs (SetXDev d) _ => in_int64 d
  | InsertLogs f => forall id, log_ok id (f id)
  | DeleteFiles _ | DeleteXattrs _ | UpdateXattrs (SetXValue _) _ | DeleteLogs _ => True
  end.

Lemma replace_from_no_nul k x y z : NUL ∉ x -> NUL ∉ z -> NUL ∉ replace_from k x y z.
Proof.
  intros Hx Hz. revert k. induction x as [|c x IH]; intros k; simpl; [done|].
  apply not_elem_of_cons in Hx as [Hc Hx]. destruct k; [|by apply IH].
  destruct (prefixb y (c :: x)).
  - rewrite elem_of_app. intros [?|H]; [done|]. by apply IH in H.
  - rewrite not_elem_of_cons. split; [done|]. by apply IH.
Qed.

Lemma sql_replace_no_nul x y z : NUL ∉ x -> NUL ∉ z -> NUL ∉ sql_replace x y z.
Proof. unfold sql_replace. case_decide; [done|]. apply replace_from_no_nul. Qed.

Lemma eval_fset_ok s r : fset_ok s -> file_ok r -> file_ok (eval_fset r s).
Proof.
  intros Hs Hr. destruct r, s; unfold file_ok in *; simpl in *; intuition.
  eapply (sql_replace_no_nul _ old new); eauto.
Qed.

Lemma eval_fsets_ok l r : Forall fset_ok l -> file_ok r -> file_ok (eval_fsets l r).
Proof.
  unfold eval_fsets. intros Hl. revert r. induction Hl; simpl; [done|].
  eauto using eval_fset_ok.
Qed.

Lemma xinsert_ok d i t nv :
  in_int64 d -> in_int64 i -> NUL ∉ nv.1 ->
  (forall j x, t !! j = Some x -> xattr_ok j x) ->
  forall j x, xinsert d i t nv !! j = Some x -> xattr_ok j x.
Proof.
  intros Hd Hi Hn Ht j x. unfold xinsert. rewrite lookup_insert_Some.
  intros [[<- <-]|[_ Hx]]; [|by apply Ht]. unfold xattr_ok. simpl. split_and!; try done. apply fresh_id_pos.
Qed.

Lemma xinserts_ok d i l t :
  in_int64 d -> in_int64 i -> Forall (fun nv => NUL ∉ nv.1) l ->
  (forall j x, t !! j = Some x -> xattr_ok j x) ->
  forall j x, foldl (xinsert d i) t l !! j = Some x -> xattr_ok j x.
Proof.
  intros Hd Hi Hl. revert t. induction Hl as [|nv l Hnv Hl IH]; intros t Ht; simpl; [done|].
  apply IH. by apply xinsert_ok.
Qed.

(** A well-formed statement keeps the tables well formed. *)
Lemma stmt_sem_ok t s t' : stmt_ok s -> stmt_sem t s t' -> tables_ok t -> tables_ok t'.
Proof.
  intros Hs Hsem (Hf & Hx & Hl). destruct Hsem; simpl in Hs; split_and!; simpl; try done.
  - intros i r0. rewrite lookup_insert_Some. intros [[_ <-]|[_ Hi]]; [done|by eapply Hf].
  - intros i r. rewrite lookup_tdelete. intros [? _]. by eapply Hf.
  - intros i r. rewrite lookup_tupdate_Some. intros (r0 & Hi & ->).
    specialize (Hf _ _ Hi). case_match; [by apply eval_fsets_ok|done].
  - destruct Hs as (? & ? & ?). by apply xinsert_ok.
  - destruct Hs as (? & ?). apply xinserts_ok; try done.
    apply Forall_map, Forall_forall. intros x Hin. simpl.
    apply (elem_of_rows _ _ _ _ H) in Hin as (j & Hj & _). by apply Hx in Hj as (_ & _ & _ & _ & ?).
  - intros j x. rewrite lookup_tdelete. intros [? _]. by apply Hx.
  - intros j x. rewrite lookup_tupdate_Some. intros (x0 & Hj & ->).
    specialize (Hx _ _ Hj). destruct (eval_xcond (files t) w x0); [|done]. destruct s, x0; unfold xattr_ok in *; simpl in *; intuition.
  - intros k l. rewrite lookup_insert_Some. intros [[<- <-]|[_ Hk]]; [done|by apply Hl].
  - intros k l. rewrite lookup_tdelete. intros [? _]. by apply Hl.
Qed.

Lemma no_tables_ok : tables_ok no_tables.
Proof. split; [|split]; intros i r Hr; unfold no_tables in Hr; simpl in Hr; by rewrite lookup_empty in Hr. Qed.

Lemma bind_int_ok z : in_int32 (bind_int z).
Proof. unfold bind_int, in_int32. apply (wrap_signed_range 32). lia. Qed.

Lemma int32_in_int64 z : in_int32 z -> in_int64 z.
Proof. unfold in_int32, in_int64. lia. Qed.

Lemma signed_ino_ok i : in_uint64 i -> in_int64 (signed_ino i).
Proof. apply signed_ino_range. Qed.

#[export] Hint Resolve bind_int_ok int32_in_int64 signed_ino_ok c_str_no_nul : pseudo.

Lemma NAMELESS_no_nul : NUL ∉ NAMELESS_FILE.
Proof. by apply no_nul_b. Qed.

Lemma path_str_no_nul m : NUL ∉ path_str m.
Proof. apply c_str_no_nul. Qed.

Lemma text_ok_c_str (s : option bytes) : text_ok (c_str <$> s).
Proof. destruct s; simpl; [apply c_str_no_nul|done]. Qed.

Lemma in_int32_0 : in_int32 0.
Proof. done. Qed.

#[export] Hint Resolve NAMELESS_no_nul path_str_no_nul text_ok_c_str in_int32_0 : pseudo.

(** Discharge [stmt_ok] of a statement the code builds. *)
Ltac stmt_is_ok :=
  repeat first [ done | lazymatch goal with |- forall _ : Z, _ => intros ? end
               | progress (simpl; unfold file_ok, log_ok; simpl) | apply Forall_cons_2
               | apply Forall_nil_2 | lazymatch goal with |- _ /\ _ => split end | case_match ]; auto with pseudo.

Section DbOk.
Context {E : SqlEngine} {L : SqlLaws E} {PM : PathMax}.
Implicit Types (p : pdb) (m : pseudo_msg_t).

Definition db_ok (p : pdb) : Prop := tables_ok (pdb_tables p).

(** Success or failure, a well-formed statement keeps the invariant. *)
Lemma step_ok_tables d s d' rc : step d s = (d', rc) -> stmt_ok s -> tables_ok (db_tables d) -> tables_ok (db_tables d').
Proof.
  intros Hstep Hs Hd. destruct (decide (rc = SQLITE_DONE)) as [->|Hrc].
  - eapply stmt_sem_ok; [done| |done]. by apply step_done.
  - by rewrite (step_failed _ _ _ _ Hstep Hrc).
Qed.

Lemma step_dirty_ok p s p' rc : step_dirty p s = (p', rc) -> stmt_ok s -> db_ok p -> db_ok p'.
Proof.
  unfold step_dirty. destruct (step (conn p) s) as [d rc'] eqn:Hs. intros [= <- <-] Hok Hp.
  by eapply step_ok_tables.
Qed.

Lemma step_clean_ok p s p' rc : step_clean p s = (p', rc) -> stmt_ok s -> db_ok p -> db_ok p'.
Proof.
  unfold step_clean. destruct (step (conn p) s) as [d rc'] eqn:Hs. intros [= <- <-] Hok Hp.
  by eapply step_ok_tables.
Qed.

Lemma db_ok_conn p q : conn q = conn p -> db_ok p -> db_ok q.
Proof. unfold db_ok, pdb_tables. by intros ->. Qed.
End DbOk.

(** Run a function of [pseudo_db.c] branch by branch; its statements keep the
    invariant. *)
Ltac db_steps :=
  repeat match goal with
    | |- context [step_dirty ?p ?s] =>
        let q := fresh "q" in let rc := fresh "rc" in let H := fresh in
        destruct (step_dirty p s) as [q rc] eqn:H;
        apply step_dirty_ok in H; [|solve [stmt_is_ok]|solve [auto with pseudo]]
    | |- context [step_clean ?p ?s] =>
        let q := fresh "q" in let rc := fresh "rc" in let H := fresh in
        destruct (step_clean p s) as [q rc] eqn:H;
        apply step_clean_ok in H; [|solve [stmt_is_ok]|solve [auto with pseudo]]
    | |- context [if ?b then _ else _] => destruct b
    end; cbn [fst snd]; auto with pseudo.

Section DbOk.
Context {E : SqlEngine} {L : SqlLaws E} {PM : PathMax}.
Implicit Types (p : pdb) (m : pseudo_msg_t).

Lemma clear_unused_xattrs_ok p : db_ok p -> db_ok (pdb_clear_unused_xattrs p).
Proof. intros Hp. unfold pdb_clear_unused_xattrs. db_steps. Qed.

Lemma clear_xattrs_ok p m : db_ok p -> db_ok (pdb_clear_xattrs p m).
Proof. intros Hp. unfold pdb_clear_xattrs. db_steps. Qed.

Lemma copy_xattrs_ok p o m : in_uint64 (m_ino m) -> db_ok p -> db_ok (pdb_copy_xattrs p o m).
Proof. intros Hm Hp. unfold pdb_copy_xattrs. db_steps. Qed.

Lemma check_xattrs_ok p m : db_ok p -> db_ok (pdb_check_xattrs p m).
Proof.
  intros Hp. unfold pdb_check_xattrs. destruct (count_files _ _) as [[n|] rc];
    db_steps; by apply clear_xattrs_ok.
Qed.
End DbOk.

#[export] Hint Resolve clear_unused_xattrs_ok clear_xattrs_ok copy_xattrs_ok check_xattrs_ok : pseudo.

Section DbOk.
Context {E : SqlEngine} {L : SqlLaws E} {PM : PathMax}.
Implicit Types (p : pdb) (m : pseudo_msg_t).

Lemma link_file_ok p m : in_uint64 (m_ino m) -> db_ok p -> db_ok (pdb_link_file p m).1.
Proof. intros Hm Hp. unfold pdb_link_file. db_steps. Qed.

Lemma unlink_file_dev_ok p m : db_ok p -> db_ok (pdb_unlink_file_dev p m).1.
Proof. intros Hp. unfold pdb_unlink_file_dev. db_steps. Qed.

Lemma update_file_path_ok p m : db_ok p -> db_ok (pdb_update_file_path p m).1.
Proof. intros Hp. unfold pdb_update_file_path. db_steps. Qed.

Lemma may_unlink_file_ok p m c : db_ok p -> db_ok (pdb_may_unlink_file p m c).1.
Proof. intros Hp. unfold pdb_may_unlink_file. db_steps. Qed.

Lemma cancel_unlink_file_ok p m : db_ok p -> db_ok (pdb_cancel_unlink_file p m).1.
Proof. intros Hp. unfold pdb_cancel_unlink_file. db_steps. Qed.

Lemma did_unlink_files_ok p c : db_ok p -> db_ok (pdb_did_unlink_files p c).1.
Proof. intros Hp. unfold pdb_did_unlink_files. db_steps. Qed.

Lemma did_unlink_file_ok p s om c : db_ok p -> db_ok (pdb_did_unlink_file p s om c).1.
Proof. intros Hp. unfold pdb_did_unlink_file. destruct s, om; db_steps. Qed.

Lemma unlink_file_ok p m : db_ok p -> db_ok (pdb_unlink_file p m).1.
Proof. intros Hp. unfold pdb_unlink_file. db_steps. Qed.

Lemma unlink_contents_ok p m : db_ok p -> db_ok (pdb_unlink_contents p m).1.
Proof. intros Hp. unfold pdb_unlink_contents. db_steps. Qed.

Lemma update_file_ok p m : db_ok p -> db_ok (pdb_update_file p m).1.
Proof. intros Hp. unfold pdb_update_file. db_steps. Qed.

Lemma renumber_all_ok p a b : db_ok p -> db_ok (pdb_renumber_all p a b).1.
Proof. intros Hp. unfold pdb_renumber_all. db_steps. Qed.
End DbOk.

Lemma text_ok_take n t : text_ok ((fun t => take n (c_str t)) <$> t).
Proof.
  destruct t as [t|]; simpl; [|done]. intros Hin.
  apply (c_str_no_nul t). eapply elem_of_subseteq; [|exact Hin]. apply subseteq_take.
Qed.

#[export] Hint Resolve text_ok_take : pseudo.

Section DbOk.
Context {E : SqlEngine} {L : SqlLaws E} {PM : PathMax}.
Implicit Types (p : pdb) (m : pseudo_msg_t).

Lemma exec_ok_tables p s b o : db_ok p -> db_ok (mkPdb (exec (conn p) s).1 b o).
Proof. unfold db_ok, pdb_tables. simpl. by rewrite exec_tables. Qed.

Lemma exec_ok_pair p s d rc b o : exec (conn p) s = (d, rc) -> db_ok p -> db_ok (mkPdb d b o).
Proof. intros He Hp. apply (exec_ok_tables p s b o) in Hp. by rewrite He in Hp. Qed.

Lemma rename_file_ok p o m : db_ok p -> db_ok (pdb_rename_file p o m).1.
Proof.
  intros Hp. unfold pdb_rename_file.
  destruct (negb (file_db_open (conn p))), (not_prepared p St_rename_exact), (not_prepared p St_rename_sub),
    (m_pathlen m =? 0), o as [old|]; simpl; try done.
  match goal with |- context [step_dirty ?a ?b] => destruct (step_dirty a b) as [q rc] eqn:Hq end.
  apply step_dirty_ok in Hq; [|by stmt_is_ok|by apply (exec_ok_tables p)].
  match goal with |- context [step_dirty ?a ?b] => destruct (step_dirty a b) as [q' rc'] eqn:Hq' end.
  apply step_dirty_ok in Hq'; [|by stmt_is_ok|done].
  match goal with |- context [exec ?a ?b] => destruct (exec a b) as [d rc''] eqn:Hd end. simpl.
  by eapply exec_ok_pair.
Qed.

Lemma update_inode_ok p m : in_uint64 (m_ino m) -> db_ok p -> db_ok (pdb_update_inode p m).1.
Proof.
  intros Hm Hp. unfold pdb_update_inode. cbn [conn].
  destruct (negb (file_db_open (conn p))); [done|].
  match goal with |- context [not_prepared ?a ?b] => destruct (not_prepared a b); [done|] end.
  destruct (m_pathlen m =? 0); [done|].
  match goal with |- context [pdb_find_file_path ?a ?b] => destruct (pdb_find_file_path a b) as [om nf] end.
  cbn [conn file_db_dirty]. set (q := mkPdb (conn p) (file_db_dirty p) (Some (msg_image om))).
  assert (db_ok q) as Hq by done. clearbody q. clear Hp.
  assert (db_ok (if nf =? 0 then pdb_copy_xattrs q om m else q)) as Hq' by db_steps.
  db_steps.
Qed.

Lemma log_msg_ok p n sev m pr tg tx : in_uint64 (m_ino m) -> db_ok p ->
  db_ok (pdb_log_msg p n sev (Some m) pr tg tx).1.
Proof. intros Hm Hp. unfold pdb_log_msg, log_insert. db_steps. Qed.

Lemma log_entry_ok p n e : db_ok p -> (forall e', e = Some e' -> in_uint64 (e_ino e')) ->
  db_ok (pdb_log_entry p n e).1.
Proof.
  intros Hp He. unfold pdb_log_entry, log_insert, entry_row. destruct e as [e|]; [specialize (He _ eq_refl)|]; db_steps.
Qed.

Lemma set_xattr_ok p m v len fl : in_uint64 (m_ino m) -> db_ok p -> db_ok (pdb_set_xattr p m v len fl).1.
Proof.
  intros Hm Hp. unfold pdb_set_xattr, set_xattr_update, set_xattr_insert.
  assert (in_int64 (int64 (m_dev m))) by (apply (wrap_signed_range 64); lia).
  db_steps.
Qed.

Lemma remove_xattr_ok p m v len : db_ok p -> db_ok (pdb_remove_xattr p m v len).1.
Proof. intros Hp. unfold pdb_remove_xattr. db_steps. Qed.
End DbOk.

#[export] Hint Resolve link_file_ok unlink_file_dev_ok update_file_path_ok may_unlink_file_ok
  cancel_unlink_file_ok did_unlink_file_ok did_unlink_files_ok unlink_file_ok unlink_contents_ok
  update_file_ok renumber_all_ok rename_file_ok update_inode_ok log_msg_ok set_xattr_ok
  remove_xattr_ok : pseudo.

(** ** The handler *)

Section OpOk.
Context {E : SqlEngine} {L : SqlLaws E} {PM : PathMax} {SC : ServerConfig}.
Implicit Types (s : op_state) (m : pseudo_msg_t).

(** The database is well formed and every header in play has a 64-bit inode. *)
Definition op_ok (s : op_state) : Prop :=
  db_ok (db s) /\ in_uint64 (m_ino (msg s)) /\ in_uint64 (m_ino (msg_header s)) /\
  in_uint64 (m_ino (by_path s)) /\ in_uint64 (m_ino (by_ino s)) /\ in_uint64 (m_ino (db_header s)).

Lemma read_attrs_ino r m : m_ino (read_attrs r m) = m_ino m.
Proof. by destruct m as [[]]. Qed.

Lemma uint64_ok z : in_uint64 (uint64 z).
Proof. apply (wrap_unsigned_range 64). lia. Qed.

Lemma find_file_exact_ino d m : m_ino (pdb_find_file_exact d m).1 = m_ino m.
Proof.
  unfold pdb_find_file_exact. repeat case_match; simpl; try done. apply read_attrs_ino.
Qed.

Lemma find_file_path_ino d m : in_uint64 (m_ino m) -> in_uint64 (m_ino (pdb_find_file_path d m).1).
Proof.
  intros Hm. unfold pdb_find_file_path. repeat case_match; simpl; try done.
  rewrite read_attrs_ino. destruct m as [[]]. apply uint64_ok.
Qed.

Lemma find_file_dev_ino d m o : m_ino (pdb_find_file_dev d m o).1.1 = m_ino m.
Proof.
  unfold pdb_find_file_dev. repeat case_match; simpl; try done. apply read_attrs_ino.
Qed.

Lemma call_ok f s : (db_ok (db s) -> db_ok (f (db s)).1) -> op_ok s -> op_ok (call f s).
Proof. intros Hf (Hd & Hr). destruct s. split; [by apply Hf|exact Hr]. Qed.

Lemma with_db_ok d s : db_ok d -> op_ok s -> op_ok (with_db d s).
Proof. intros Hd (_ & Hr). by destruct s. Qed.

Lemma with_msg_ok m s : in_uint64 (m_ino m) -> op_ok s -> op_ok (with_msg m s).
Proof. intros Hm (Hd & _ & Hr). by destruct s. Qed.

Lemma with_found_path_ok b s : op_ok s -> op_ok (with_found_path b s).
Proof. by destruct s. Qed.

Lemma with_found_ino_ok b s : op_ok s -> op_ok (with_found_ino b s).
Proof. by destruct s. Qed.

Lemma with_response_ok r s : op_ok s -> op_ok (with_response r s).
Proof. by destruct s. Qed.

Lemma clear_at_ino m i : m_ino (clear_at m i) = m_ino m.
Proof. unfold clear_at. by case_match; destruct m as [[]]. Qed.

Lemma op_split_paths_ok s : op_ok s -> op_ok (op_split_paths s).
Proof.
  intros Hs. unfold op_split_paths. destruct (_ && _); [|done].
  match goal with |- context [let '(_, _) := ?x in _] => assert (m_ino x.1 = m_ino (msg s)) as Hm;
    [|destruct x as [m' ol]] end.
  { repeat case_match; simpl; try done. apply clear_at_ino. }
  destruct Hs as (Hd & Hmsg & Hr). destruct s; simpl in *. destruct m' as [[]]; simpl in *.
  split; [exact Hd|]. split; [|exact Hr]. simpl. by rewrite Hm.
Qed.

Lemma op_stash_ok s : op_ok s -> op_ok (op_stash s).
Proof. intros (Hd & Hm & _ & Hp & _ & Hh). destruct s. by split_and!. Qed.

Lemma op_strip_slash_ok s : op_ok s -> op_ok (op_strip_slash s).
Proof.
  intros Hs. unfold op_strip_slash. repeat case_match; try done.
  destruct Hs as (Hd & Hmsg & Hr). destruct s; simpl in *.
  split; [exact Hd|]. split; [|exact Hr]. simpl. rewrite clear_at_ino.
  match goal with m : pseudo_msg_t |- _ => by destruct m as [[]] end.
Qed.

Lemma op_lookup_exact_ok s : op_ok s -> op_ok (op_lookup_exact s).
Proof.
  intros Hs. unfold op_lookup_exact. destruct (_ && _); [|done].
  pose proof (find_file_exact_ino (db s) (msg s)) as Hm.
  destruct (pdb_find_file_exact _ _) as [m' rc]. simpl in Hm.
  destruct Hs as (Hd & Hmsg & Hh & Hp & Hi & Hb). destruct s; simpl in *. rewrite <- Hm in Hmsg.
  destruct (rc =? 0); by split_and!.
Qed.

Lemma op_lookup_path_ok s : op_ok s -> op_ok (op_lookup_path s).
Proof.
  intros Hs. unfold op_lookup_path. destruct (negb _); [|done].
  destruct Hs as (Hd & Hmsg & Hh & Hp & Hi & Hb).
  pose proof (find_file_path_ino (db s) (msg s) Hmsg) as Hm.
  destruct (pdb_find_file_path _ _) as [m' rc]. destruct s; simpl in *.
  destruct (rc =? 0); by split_and!.
Qed.

Lemma op_lookup_dev_ok s : op_ok s -> op_ok (op_lookup_dev s).
Proof.
  intros Hs. unfold op_lookup_dev. destruct (_ && _); [|done].
  destruct Hs as (Hd & Hmsg & Hh & Hp & Hi & Hb).
  pose proof (find_file_dev_ino (db s) (as_msg (by_ino s)) (path_by_ino s)) as Hm.
  destruct (pdb_find_file_dev _ _ _) as [[m' q] rc]. simpl in Hm.
  destruct s; simpl in *. rewrite <- Hm in Hi. destruct (rc =? 0); by split_and!.
Qed.

Lemma op_lookup_ok s : op_ok s -> op_ok (op_lookup s).
Proof.
  intros Hs. apply op_lookup_exact_ok in Hs. unfold op_lookup.
  destruct (_ && _); [|done]. by apply op_lookup_dev_ok, op_lookup_path_ok.
Qed.

Lemma op_ok_msg s : op_ok s -> in_uint64 (m_ino (msg s)).
Proof. by intros (_ & ? & _). Qed.
Lemma op_ok_header s : op_ok s -> in_uint64 (m_ino (msg_header s)).
Proof. by intros (_ & _ & ? & _). Qed.
Lemma op_ok_by_path s : op_ok s -> in_uint64 (m_ino (by_path s)).
Proof. by intros (_ & _ & _ & ? & _). Qed.
Lemma op_ok_by_ino s : op_ok s -> in_uint64 (m_ino (by_ino s)).
Proof. by intros (_ & _ & _ & _ & ? & _). Qed.
Lemma op_ok_db_header s : op_ok s -> in_uint64 (m_ino (db_header s)).
Proof. by intros (_ & _ & _ & _ & _ & ?). Qed.
Lemma op_ok_db s : op_ok s -> db_ok (db s).
Proof. by intros (? & _). Qed.

Lemma set_result_ino v m : m_ino (set_result v m) = m_ino m.
Proof. by destruct m as [[]]. Qed.
Lemma set_mode_ino v m : m_ino (set_mode v m) = m_ino m.
Proof. by destruct m as [[]]. Qed.
Lemma with_owner_ino h m : m_ino (with_owner h m) = m_ino m.
Proof. by destruct m as [[]]. Qed.
End OpOk.

#[export] Hint Resolve op_ok_msg op_ok_header op_ok_by_path op_ok_by_ino op_ok_db_header op_ok_db
  call_ok with_msg_ok with_found_path_ok with_found_ino_ok with_response_ok with_db_ok : pseudo.

Section OpOk.
Context {E : SqlEngine} {L : SqlLaws E} {PM : PathMax} {SC : ServerConfig}.
Implicit Types (s : op_state) (m : pseudo_msg_t).

Lemma op_check_path_ok s : op_ok s -> op_ok (op_check_path s).
Proof.
  intros Hs. unfold op_check_path. destruct (_ && _); [|done].
  assert (op_ok (op_check_path_ino s)) as Hs'
    by (unfold op_check_path_ino; destruct (_ && _); auto with pseudo).
  destruct (_ || _); auto 6 with pseudo.
Qed.

Lemma op_check_ino_type_ok s : op_ok s -> op_ok (op_check_ino_type s).
Proof. intros Hs. unfold op_check_ino_type. destruct (_ || _); auto 6 with pseudo. Qed.

Lemma op_check_ino_ok s :
  op_ok s -> match op_check_ino s with inl s' => op_ok s' | inr s' => op_ok s' end.
Proof.
  intros Hs. unfold op_check_ino. destruct (_ && _); [|done]. destruct (path_by_ino s) as [pbi|].
  - destruct (_ && _); [|by apply op_check_ino_type_ok].
    apply with_msg_ok; [rewrite set_result_ino|]; auto with pseudo.
  - apply op_check_ino_type_ok. destruct (negb _); auto with pseudo.
Qed.

Lemma op_pick_header_ok s : op_ok s -> op_ok (op_pick_header s).
Proof.
  intros (Hd & Hm & Hh & Hp & Hi & Hb). unfold op_pick_header. destruct s; simpl in *.
  repeat case_match; by split_and!.
Qed.

Lemma op_creat_ok s : op_ok s -> op_ok (op_creat s).
Proof.
  intros Hs. unfold op_creat.
  set (s1 := if found_ino s && negb (found_exact s) then _ else _).
  assert (op_ok s1) as Hs1 by (subst s1; destruct (_ && _); auto with pseudo).
  clearbody s1. destruct (negb _); auto with pseudo.
Qed.

Lemma op_link_if_new_ok s : op_ok s -> op_ok (op_link_if_new s).
Proof. intros Hs. unfold op_link_if_new. destruct (_ && _); auto with pseudo. Qed.

Lemma op_update_msg_ok m s : in_uint64 (m_ino m) -> op_ok s -> op_ok (op_update_msg m s).
Proof. intros Hm Hs. unfold op_update_msg. auto with pseudo. Qed.

Lemma op_chmod_ok s : op_ok s -> op_ok (op_chmod s).
Proof.
  intros Hs. apply op_link_if_new_ok.
  destruct (found_ino s), (found_path s); first [apply op_update_msg_ok|apply with_msg_ok];
    rewrite ?set_mode_ino; simpl; auto with pseudo.
Qed.

Lemma op_chown_ok s : op_ok s -> op_ok (op_chown s).
Proof.
  intros Hs. apply op_link_if_new_ok.
  destruct (found_ino s), (found_path s); first [apply op_update_msg_ok|apply with_msg_ok];
    rewrite ?with_owner_ino; simpl; auto with pseudo.
Qed.

Lemma op_fail_ok s : op_ok s -> op_ok (op_fail s).
Proof. intros Hs. apply with_msg_ok; [rewrite set_result_ino|]; auto with pseudo. Qed.

Lemma op_stat_ok s : op_ok s -> op_ok (op_stat s).
Proof.
  intros Hs. unfold op_stat. destruct (_ || _); [|by apply op_fail_ok].
  destruct (_ && _); [by apply op_fail_ok|]. apply with_msg_ok; simpl; auto with pseudo.
Qed.

Lemma op_link_ok s : op_ok s -> op_ok (op_link s).
Proof.
  intros Hs. unfold op_link.
  set (s1 := if found_path s then _ else _).
  assert (op_ok s1) as Hs1 by (subst s1; destruct (found_path s); auto with pseudo). clearbody s1.
  set (s2 := if found_ino s1 then _ else _).
  assert (op_ok s2) as Hs2.
  { subst s2. destruct (found_ino s1); [destruct (bool_decide _); [done|]|];
      apply with_msg_ok; simpl; auto with pseudo. }
  clearbody s2. auto with pseudo.
Qed.

Lemma op_rename_ok s : op_ok s -> op_ok (op_rename s).
Proof. intros Hs. unfold op_rename. auto 8 with pseudo. Qed.

Lemma op_may_unlink_ok s : op_ok s -> op_ok (op_may_unlink s).
Proof.
  intros Hs. unfold op_may_unlink.
  pose proof (may_unlink_file_ok (db s) (msg s) (m_client (msg s)) (op_ok_db s Hs)) as Hd.
  destruct (pdb_may_unlink_file _ _ _) as [d rc]. destruct (negb _); [apply op_fail_ok|]; auto with pseudo.
Qed.

Lemma op_unlink_ok s : op_ok s -> op_ok (op_unlink s).
Proof.
  intros Hs. unfold op_unlink.
  set (s1 := call _ s). assert (op_ok s1) as Hs1 by (subst s1; auto with pseudo). clearbody s1.
  set (s2 := call _ s1). assert (op_ok s2) as Hs2 by (subst s2; auto with pseudo). clearbody s2.
  destruct (_ && _); (apply with_msg_ok; [rewrite set_result_ino|]; auto with pseudo).
Qed.

Lemma op_mknod_ok s : op_ok s -> op_ok (op_mknod s).
Proof.
  intros Hs. unfold op_mknod.
  set (s1 := if found_path s then _ else _).
  assert (op_ok s1) as Hs1 by (subst s1; destruct (found_path s); auto with pseudo). clearbody s1.
  set (s2 := if found_ino s1 then _ else _).
  assert (op_ok s2) as Hs2 by (subst s2; destruct (found_ino s1); auto with pseudo). clearbody s2.
  apply call_ok; [|apply with_msg_ok; simpl; auto with pseudo].
  intros Hd. apply link_file_ok; [|done]. destruct s2. simpl. by apply op_ok_header in Hs2.
Qed.

Lemma op_set_xattr_ok s : op_ok s -> op_ok (op_set_xattr s).
Proof.
  intros Hs. unfold op_set_xattr.
  pose proof (set_xattr_ok (db s) (msg s) (default [] (oldpath_mem s)) (oldpathlen s)
    (xattr_flags (m_op (msg s))) (op_ok_msg s Hs) (op_ok_db s Hs)) as Hd.
  destruct (pdb_set_xattr _ _ _ _ _) as [d rc]. destruct (negb _); [apply op_fail_ok|]; auto with pseudo.
Qed.

Lemma op_read_xattr_ok s (f : option bytes * Z * Z) : op_ok s ->
  op_ok (let '(value, len, rc) := f in
         if negb (rc =? 0) then op_fail s else with_response ((fun v => (v, len)) <$> value) s).
Proof. intros Hs. destruct f as [[v len] rc]. destruct (negb _); [by apply op_fail_ok|auto with pseudo]. Qed.

Lemma op_dispatch_ok s : op_ok s -> op_ok (op_dispatch s).
Proof.
  intros Hs. unfold op_dispatch.
  destruct (m_op (msg s)); try done; first
    [ by apply op_creat_ok | by apply op_chmod_ok | by apply op_chown_ok | by apply op_stat_ok
    | by apply op_link_ok | by apply op_rename_ok | by apply op_may_unlink_ok | by apply op_unlink_ok
    | by apply op_mknod_ok | by apply op_set_xattr_ok | by apply op_read_xattr_ok
    | apply call_ok; auto with pseudo ].
Qed.

Lemma op_unlinked_fd_ok s : op_ok s -> op_ok (op_unlinked_fd s).
Proof.
  intros Hs. unfold op_unlinked_fd.
  destruct (m_op (msg s)); try done; destruct (_ && _); auto with pseudo.
Qed.

Lemma op_exit_ok s pr tg : op_ok s -> op_ok (op_exit s pr tg).
Proof. intros Hs. unfold op_exit. destruct opt_l; auto with pseudo. Qed.

Lemma response_state_ok d m : in_uint64 (m_ino m) -> db_ok d -> op_ok (response_state d m).
Proof. intros. by split_and!. Qed.

Lemma pseudo_op_ok d m pr tg : in_uint64 (m_ino m) -> db_ok d -> op_ok (pseudo_op d m pr tg).1.
Proof.
  intros Hm Hd. unfold pseudo_op. cbn [fst]. apply op_exit_ok.
  assert (op_ok (op_start d m)) as H0.
  { unfold op_start. split_and!; simpl; try done. by rewrite set_result_ino. }
  apply op_split_paths_ok, op_stash_ok, op_strip_slash_ok, op_lookup_ok, op_check_path_ok,
    op_check_ino_ok in H0.
  unfold op_prepare. destruct (op_check_ino _) as [s|s]; [|done].
  by apply op_unlinked_fd_ok, op_dispatch_ok, op_pick_header_ok.
Qed.

Lemma response_tables_ok d m program tag :
  in_uint64 (m_ino m) -> tables_ok (pdb_tables d) ->
  tables_ok (pdb_tables (db (pseudo_server_response d m program tag).1)).
Proof.
  intros Hm Hd. unfold pseudo_server_response.
  destruct (_ =? PSEUDO_MSG_PING).
  - by apply op_ok_db, op_exit_ok, response_state_ok; [rewrite set_result_ino|].
  - destruct (_ || _); [by apply op_ok_db, pseudo_op_ok|].
    pose proof (log_msg_ok d now SEVERITY_WARN m program tag (Some ($"invalid message")) Hm Hd) as Hl.
    by destruct (pdb_log_msg _ _ _ _ _ _ _) as [d' rc].
Qed.
End OpOk.

(** ** Properties *)

(** Whatever request the server gets and however the database behaves
    (any call may fail), the tables stay well formed: paths, attribute names
    and log texts are C strings, every number has the width of its column's
    values, and attribute and log ids are the row keys. *)
Theorem server_keeps_tables_ok {E : SqlEngine} {L : SqlLaws E} {PM : PathMax} {SC : ServerConfig}
    (d : pdb) (m : pseudo_msg_t) program tag :
  in_uint64 (m_ino m) -> tables_ok (pdb_tables d) ->
  tables_ok (pdb_tables (db (pseudo_server_response d m program tag).1)).
Proof.
  apply response_tables_ok.
Qed.

(** ** Witnesses *)

Definition sample_config : ServerConfig := {| opt_l := true; PSEUDO_XATTRDB := false; now := 1700000000 |}.

Lemma server_keeps_tables_ok_witness :
  tables_ok (pdb_tables (db (@pseudo_server_response mem_engine sample_path_max sample_config
    (sample_pdb [] []) (sample_msg OP_CREAT ($"/f" ++ [NUL]) 5 11 1000 100 0x81a4 1) None None).1)).
Proof.
  apply (@server_keeps_tables_ok mem_engine mem_engine_laws sample_path_max sample_config).
  - split; vm_compute; done.
  - apply no_tables_ok.
Defined.
