(* ===== verification/FsSpec.v ===== *)
(** The abstract file system the server promises to keep: names that point to
    inodes, inodes that carry the owner, mode and device number the client's
    programs believe in.  [represents] says when the rows of the file table
    stand for such a file system, and the lemmas say what inserting, updating
    and deleting rows does to it. *)

From stdpp Require Import base gmap list fin_maps strings sets.
From Stdlib Require Import ZArith Lia Ascii.
From S2P Require Import Prelude Tables Message Sql FileDb FileDbSpec OpInvariant.

Open Scope Z_scope.

(** Device and inode. *)
Abbreviation key := (Z * Z)%type.

Record attrs := mkAttrs { a_uid : Z; a_gid : Z; a_mode : Z; a_rdev : Z }.

Record fs := mkFs { names : gmap bytes key; inodes : gmap key attrs }.

#[export] Instance attrs_eq_dec : EqDecision attrs.
Proof. solve_decision. Defined.

Definition empty_fs : fs := mkFs ∅ ∅.

(** ** Abstract operations *)

Definition fs_create (path : bytes) (k : key) (at_ : attrs) (a : fs) : fs :=
  mkFs (<[path := k]> (names a)) (<[k := at_]> (inodes a)).

Definition fs_link (path : bytes) (k : key) (a : fs) : fs :=
  mkFs (<[path := k]> (names a)) (inodes a).

Definition fs_set_attrs (k : key) (at_ : attrs) (a : fs) : fs :=
  mkFs (names a) (<[k := at_]> (inodes a)).

(** Remove a name; its inode stays as long as [keep] says. *)
Definition fs_unlink (path : bytes) (k : key) (keep : bool) (a : fs) : fs :=
  mkFs (delete path (names a)) (if keep then inodes a else delete k (inodes a)).

Definition fs_unlink_inode (k : key) (a : fs) : fs :=
  mkFs (filter (fun nk => nk.2 <> k) (names a)) (delete k (inodes a)).

Definition fs_rename (old new : bytes) (k : key) (a : fs) : fs :=
  mkFs (<[new := k]> (delete old (names a))) (inodes a).

(** Does another name point to the inode? *)
Definition other_name (a : fs) (path : bytes) (k : key) : Prop :=
  exists path', path' <> path /\ names a !! path' = Some k.

Definition has_other_name (a : fs) (path : bytes) (k : key) : bool :=
  bool_decide (filter (fun nk => nk.1 <> path /\ nk.2 = k) (names a) <> ∅).

Lemma has_other_name_spec a path k : has_other_name a path k = true <-> other_name a path k.
Proof.
  unfold has_other_name, other_name. rewrite bool_decide_eq_true. split.
  - intros Hne%map_choose. destruct Hne as (p & k' & Hp).
    apply map_lookup_filter_Some in Hp as [Hp [? Hk]]. simpl in *. subst k'. eauto.
  - intros (p & Hp & Hk) He.
    assert (filter (fun nk => nk.1 <> path /\ nk.2 = k) (names a) !! p = Some k) as Hf
      by (by apply map_lookup_filter_Some).
    by rewrite He in Hf.
Qed.

Definition no_names_below (a : fs) (path : bytes) : Prop :=
  forall path' k, names a !! path' = Some k -> ~ is_below path path'.

(** ** Rows *)

Definition key_of (r : file_row) : key := (f_dev r, uint64 (f_ino r)).

Definition attrs_of (r : file_row) : attrs :=
  mkAttrs (uint32 (f_uid r)) (uint32 (f_gid r)) (uint64 (f_mode r)) (uint64 (f_rdev r)).

Record represents (f : gmap Z file_row) (a : fs) : Prop := {
  rep_names path k : names a !! path = Some k <->
    exists i r, f !! i = Some r /\ f_path r = path /\ key_of r = k;
  rep_attrs i r : f !! i = Some r -> inodes a !! key_of r = Some (attrs_of r);
  rep_inodes k at_ : inodes a !! k = Some at_ -> exists i r, f !! i = Some r /\ key_of r = k
}.

(** A device and inode number as SQLite stores them without loss. *)
Definition key_ok (k : key) : Prop := 0 < k.1 < 2 ^ 31 /\ 0 < k.2 < 2 ^ 64.

Lemma uint64_inj_int64 x y : in_int64 x -> in_int64 y -> uint64 x = uint64 y -> x = y.
Proof.
  intros Hx Hy H. apply (f_equal int64) in H. rewrite !(wrap_signed_unsigned 64) in H.
  unfold in_int64 in *. by rewrite !(wrap_signed_small 64) in H by lia.
Qed.

Lemma at_inode_key r d i : file_ok r -> key_ok (d, i) ->
  at_inode (bind_int d) (signed_ino i) r = true <-> key_of r = (d, i).
Proof.
  intros (_ & _ & Hi & _) [Hd Hi']. simpl in *. unfold at_inode, key_of.
  rewrite andb_true_iff, !Z.eqb_eq. unfold bind_int. rewrite (wrap_signed_small 32) by lia.
  assert (in_uint64 i) as Hu by (unfold in_uint64; lia). split.
  - intros [-> ->]. by rewrite signed_ino_uint64.
  - intros [= -> H]. split; [done|]. apply uint64_inj_int64; [done|by apply signed_ino_ok|].
    by rewrite signed_ino_uint64.
Qed.

Definition rows_ok (f : gmap Z file_row) : Prop := forall i r, f !! i = Some r -> file_ok r.

(** ** What changing rows means *)

Section Represents.
Context (f : gmap Z file_row) (a : fs) (Hrep : represents f a) (Hok : rows_ok f).

Lemma rep_name_of i r : f !! i = Some r -> names a !! f_path r = Some (key_of r).
Proof. intros Hi. apply (rep_names _ _ Hrep). eauto. Qed.

Lemma rep_no_name path i r : names a !! path = None -> f !! i = Some r -> f_path r <> path.
Proof. intros Hn Hi <-. apply rep_name_of in Hi. congruence. Qed.

Lemma rep_no_inode k i r : inodes a !! k = None -> f !! i = Some r -> key_of r <> k.
Proof. intros Hn Hi <-. apply (rep_attrs _ _ Hrep) in Hi. congruence. Qed.

(** A new row for a path that has no name. *)
Lemma rep_insert r at_ :
  names a !! f_path r = None ->
  (inodes a !! key_of r = None \/ inodes a !! key_of r = Some (attrs_of r)) ->
  at_ = attrs_of r ->
  represents (<[fresh_id f := r]> f) (fs_create (f_path r) (key_of r) at_ a).
Proof.
  intros Hn Hk ->. pose proof (fresh_id_fresh f) as Hfresh. split.
  - intros path k. simpl. destruct (decide (path = f_path r)) as [->|Hne].
    + rewrite lookup_insert_eq. split.
      * intros [= <-]. exists (fresh_id f), r. by rewrite lookup_insert_eq.
      * intros (i & r' & Hi & Hp & Hk'). apply lookup_insert_Some in Hi as [[_ <-]|[_ Hi]]; [congruence|].
        by apply (rep_no_name _ _ _ Hn) in Hi.
    + rewrite lookup_insert_ne by done. rewrite (rep_names _ _ Hrep). split.
      * intros (i & r' & Hi & Hr). exists i, r'. rewrite lookup_insert_ne; [done|]. congruence.
      * intros (i & r' & Hi & Hp & Hk'). apply lookup_insert_Some in Hi as [[_ <-]|[_ Hi]]; [done|eauto].
  - intros i r' Hi. simpl. apply lookup_insert_Some in Hi as [[_ <-]|[_ Hi]]; [by rewrite lookup_insert_eq|].
    apply (rep_attrs _ _ Hrep) in Hi. destruct (decide (key_of r' = key_of r)) as [Heq|Hne].
    + rewrite Heq in *. rewrite lookup_insert_eq. destruct Hk; congruence.
    + by rewrite lookup_insert_ne.
  - intros k at_ Hin. simpl in Hin. apply lookup_insert_Some in Hin as [[<- _]|[_ Hin]].
    + exists (fresh_id f), r. by rewrite lookup_insert_eq.
    + apply (rep_inodes _ _ Hrep) in Hin as (i & r' & Hi & Hk'). exists i, r'.
      rewrite lookup_insert_ne; [done|]. congruence.
Qed.

(** New attributes for every row of an inode. *)
Lemma rep_update d i u g m rd at0 :
  key_ok (d, i) -> inodes a !! (d, i) = Some at0 ->
  represents (tupdate (at_inode (bind_int d) (signed_ino i)) (set_attrs u g m rd) f)
    (fs_set_attrs (d, i) (mkAttrs (uint32 u) (uint32 g) (uint64 m) (uint64 rd)) a).
Proof.
  intros Hkey Hin.
  assert (forall j r', tupdate (at_inode (bind_int d) (signed_ino i)) (set_attrs u g m rd) f !! j = Some r' <->
    exists r, f !! j = Some r /\ r' = if decide (key_of r = (d, i)) then set_attrs u g m rd r else r) as Hl.
  { intros j r'. rewrite lookup_tupdate_Some. split; intros (r & Hr & ->); exists r; (split; [done|]);
      pose proof (at_inode_key r d i (Hok _ _ Hr) Hkey) as Hk;
      destruct (at_inode _ _ r), (decide (key_of r = (d, i))); naive_solver. }
  assert (forall r, key_of (if decide (key_of r = (d, i)) then set_attrs u g m rd r else r) = key_of r /\
    f_path (if decide (key_of r = (d, i)) then set_attrs u g m rd r else r) = f_path r) as Hsame
    by (intros r; by case_decide).
  split.
  - intros path k. simpl. rewrite (rep_names _ _ Hrep). setoid_rewrite Hl. split.
    + intros (j & r & Hj & Hp & Hk). destruct (Hsame r) as [Hk' Hp'].
      eexists j, _. split; [by exists r|]. by rewrite Hk', Hp'.
    + intros (j & r' & (r & Hj & ->) & Hp & Hk). destruct (Hsame r) as [Hk' Hp'].
      exists j, r. by rewrite <- Hk', <- Hp'.
  - intros j r' Hj. apply Hl in Hj as (r & Hj & ->). simpl. case_decide as Heq.
    + change (key_of (set_attrs u g m rd r)) with (key_of r). rewrite Heq. by rewrite lookup_insert_eq.
    + rewrite lookup_insert_ne by done. by apply (rep_attrs _ _ Hrep j).
  - intros k at_ Hk. simpl in Hk. assert (is_Some (inodes a !! k)) as [at1 Hk1].
    { apply lookup_insert_Some in Hk as [[<- _]|[_ Hk]]; eauto. }
    apply (rep_inodes _ _ Hrep) in Hk1 as (j & r & Hj & Hkr). destruct (Hsame r) as [Hk' _].
    eexists j, _. split; [apply Hl; by exists r|]. by rewrite Hk'.
Qed.

(** Deleting the rows of a path. *)
Lemma rep_delete_path path k keep :
  names a !! path = Some k ->
  (keep = true <-> other_name a path k) ->
  represents (tdelete (path_is path) f) (fs_unlink path k keep a).
Proof.
  intros Hname Hkeep.
  assert (forall i r, tdelete (path_is path) f !! i = Some r <-> f !! i = Some r /\ f_path r <> path) as Hl.
  { intros i r. rewrite lookup_tdelete. unfold path_is. by rewrite bool_decide_eq_false. }
  split.
  - intros path' k'. simpl. rewrite lookup_delete_Some, (rep_names _ _ Hrep). setoid_rewrite Hl.
    split; [intros [Hne (i & r & Hi & Hp & Hk)]|intros (i & r & [Hi Hne] & Hp & Hk)].
    + exists i, r. split_and!; congruence.
    + split; [congruence|eauto].
  - intros i r Hi. apply Hl in Hi as [Hi Hp]. simpl. pose proof (rep_attrs _ _ Hrep i r Hi) as Ha.
    destruct keep; [done|]. rewrite lookup_delete_ne; [done|]. intros ->.
    enough (false = true) by done. apply Hkeep. exists (f_path r). split; [done|]. by apply (rep_name_of i).
  - intros k' at_ Hk. simpl in Hk.
    assert (inodes a !! k' = Some at_ /\ (keep = false -> k' <> k)) as [Hk' Hne].
    { destruct keep; [by split|]. apply lookup_delete_Some in Hk as [? ?]. by split. }
    destruct (decide (k' = k)) as [->|].
    + destruct keep; [|by destruct Hne]. destruct (proj1 Hkeep eq_refl) as (p' & Hp' & Hn').
      apply (rep_names _ _ Hrep) in Hn' as (i & r & Hi & Hpr & Hkr). exists i, r.
      split; [apply Hl; split; [done|congruence]|done].
    + apply (rep_inodes _ _ Hrep) in Hk' as (i & r & Hi & Hkr). exists i, r.
      split; [|done]. apply Hl. split; [done|]. intros Hp.
      pose proof (rep_name_of i r Hi) as Hn. rewrite Hp in Hn. congruence.
Qed.

(** Deleting the rows of an inode. *)
Lemma rep_delete_inode d i :
  key_ok (d, i) ->
  represents (tdelete (at_inode (bind_int d) (signed_ino i)) f) (fs_unlink_inode (d, i) a).
Proof.
  intros Hkey.
  assert (forall j r, tdelete (at_inode (bind_int d) (signed_ino i)) f !! j = Some r <->
    f !! j = Some r /\ key_of r <> (d, i)) as Hl.
  { intros j r. rewrite lookup_tdelete. split; intros [Hj Hk]; (split; [done|]).
    - intros Heq. apply (at_inode_key r d i (Hok _ _ Hj) Hkey) in Heq. congruence.
    - apply not_true_iff_false. intros Hat. by apply Hk, (at_inode_key r d i (Hok _ _ Hj) Hkey). }
  split.
  - intros path k. simpl. rewrite map_lookup_filter_Some, (rep_names _ _ Hrep). setoid_rewrite Hl.
    simpl. naive_solver.
  - intros j r Hj. apply Hl in Hj as [Hj Hk]. simpl. rewrite lookup_delete_ne by done.
    by apply (rep_attrs _ _ Hrep j).
  - intros k at_ Hk. simpl in Hk. apply lookup_delete_Some in Hk as [Hne Hk].
    apply (rep_inodes _ _ Hrep) in Hk as (j & r & Hj & <-). exists j, r. split; [by apply Hl|done].
Qed.

(** Rows that keep path, inode and attributes. *)
Lemma rep_same_rows g :
  (forall r, f_path (g r) = f_path r /\ key_of (g r) = key_of r /\ attrs_of (g r) = attrs_of r) ->
  forall p, represents (tupdate p g f) a.
Proof.
  intros Hg p.
  assert (forall i r', tupdate p g f !! i = Some r' -> exists r, f !! i = Some r /\
    f_path r' = f_path r /\ key_of r' = key_of r /\ attrs_of r' = attrs_of r) as Hl.
  { intros i r'. rewrite lookup_tupdate_Some. intros (r & Hi & ->). exists r.
    split; [done|]. by destruct (p r). }
  assert (forall i r, f !! i = Some r -> exists r', tupdate p g f !! i = Some r' /\
    f_path r' = f_path r /\ key_of r' = key_of r) as Hl'.
  { intros i r Hi. eexists. split; [rewrite lookup_tupdate, Hi; done|]. simpl.
    destruct (p r); [|done]. destruct (Hg r) as (? & ? & ?). done. }
  split.
  - intros path k. rewrite (rep_names _ _ Hrep). split.
    + intros (i & r & Hi & Hp & Hk). destruct (Hl' _ _ Hi) as (r' & Hi' & Hp' & Hk').
      exists i, r'. split_and!; congruence.
    + intros (i & r' & Hi & Hp & Hk). destruct (Hl _ _ Hi) as (r & Hi' & Hp' & Hk' & _).
      exists i, r. split_and!; congruence.
  - intros i r' Hi. destruct (Hl _ _ Hi) as (r & Hi' & _ & -> & ->). by apply (rep_attrs _ _ Hrep i).
  - intros k at_ Hk. apply (rep_inodes _ _ Hrep) in Hk as (i & r & Hi & <-).
    destruct (Hl' _ _ Hi) as (r' & Hi' & _ & Hk'). eauto.
Qed.

(** A new path for the row of a name. *)
Lemma rep_rename old new k :
  names a !! old = Some k -> names a !! new = None ->
  represents (tupdate (path_is old) (fun r => set_row_deleting 0 (set_row_path new r)) f)
    (fs_rename old new k a).
Proof.
  intros Hold Hnew.
  assert (forall i r', tupdate (path_is old) (fun r => set_row_deleting 0 (set_row_path new r)) f !! i = Some r' <->
    exists r, f !! i = Some r /\
      r' = if decide (f_path r = old) then set_row_deleting 0 (set_row_path new r) else r) as Hl.
  { intros i r'. rewrite lookup_tupdate_Some. unfold path_is.
    split; intros (r & Hi & ->); exists r; (split; [done|]); case_bool_decide; by case_decide. }
  assert (forall r, key_of (if decide (f_path r = old) then set_row_deleting 0 (set_row_path new r) else r) = key_of r /\
    attrs_of (if decide (f_path r = old) then set_row_deleting 0 (set_row_path new r) else r) = attrs_of r) as Hsame
    by (intros r; by case_decide).
  split.
  - intros path k'. simpl. setoid_rewrite Hl.
    rewrite lookup_insert_Some, lookup_delete_Some, (rep_names _ _ Hrep). split.
    + intros [[<- <-]|(Hne & Hne' & i & r & Hi & Hp & Hk)].
      * apply (rep_names _ _ Hrep) in Hold as (i & r & Hi & Hp & Hk). destruct (Hsame r) as [Hk' _].
        eexists i, _. split; [by exists r|]. split; [by rewrite decide_True|congruence].
      * eexists i, _. split; [by exists r|]. rewrite decide_False by congruence. done.
    + intros (i & r' & (r & Hi & ->) & Hp & Hk). destruct (Hsame r) as [Hk' _]. rewrite Hk' in Hk.
      pose proof (rep_name_of i r Hi) as Hn. case_decide as Heq.
      * left. simpl in Hp. split; [done|]. rewrite Heq in Hn. congruence.
      * right. split; [by intros ->; rewrite Hp in Hn; congruence|]. split; [congruence|eauto].
  - intros i r' Hi. apply Hl in Hi as (r & Hi & ->). destruct (Hsame r) as [-> ->].
    by apply (rep_attrs _ _ Hrep i).
  - intros k' at_ Hk. apply (rep_inodes _ _ Hrep) in Hk as (i & r & Hi & Hk).
    destruct (Hsame r) as [Hk' _]. eexists i, _. split; [apply Hl; by exists r|]. by rewrite Hk'.
Qed.

(** No row lies below a path without names below it. *)
Lemma rep_nothing_below path : no_names_below a path -> tdelete (eval_fcond (below path)) f = f.
Proof.
  intros Hb. apply tdelete_none. intros i r Hi. apply not_true_iff_false. rewrite eval_below.
  by apply (Hb _ (key_of r)), (rep_name_of i).
Qed.
End Represents.

Lemma unlink_inode_after_unlink path k keep a :
  names a !! path = Some k -> fs_unlink_inode k (fs_unlink path k keep a) = fs_unlink_inode k a.
Proof.
  intros Hn. unfold fs_unlink_inode, fs_unlink. simpl. f_equal.
  - apply map_eq. intros p. apply option_eq. intros k'. rewrite !map_lookup_filter_Some, lookup_delete_Some.
    simpl. naive_solver congruence.
  - destruct keep; [done|]. by rewrite delete_delete_eq.
Qed.

Lemma rows_ok_tdelete p f : rows_ok f -> rows_ok (tdelete p f).
Proof. intros Hok i r [Hi _]%lookup_tdelete. by apply (Hok i). Qed.

(** Rows that hold a path's inode already are not changed by writing it. *)
Lemma same_inode_rows f a path d i :
  represents f a -> rows_ok f -> key_ok (d, i) -> names a !! path = Some (d, i) ->
  tupdate (path_is path) (set_row_inode (bind_int d) (signed_ino i)) f = f.
Proof.
  intros Hrep Hok Hkey Hn. apply map_eq. intros j. rewrite lookup_tupdate.
  destruct (f !! j) as [r|] eqn:Hj; [|done]. cbn [fmap option_fmap option_map]. f_equal.
  unfold path_is. case_bool_decide as Hp; [|done].
  assert (key_of r = (d, i)) as Hk
    by (pose proof (rep_name_of f a Hrep j r Hj) as Hk; rewrite Hp, Hn in Hk; congruence).
  apply at_inode_key in Hk; [|by apply (Hok j)|done].
  unfold at_inode in Hk. bool_facts. destruct r. simpl in *. by subst.
Qed.

Lemma rename_rows_leaf old new t :
  ~ is_below old new -> (forall i r, files t !! i = Some r -> ~ is_below old (f_path r)) ->
  files (rename_rows old new t) =
    tupdate (path_is old) (fun r => set_row_deleting 0 (set_row_path new r)) (files t).
Proof.
  intros Hnew Hno. apply map_eq. intros i. unfold rename_rows, update_files. cbn [files].
  rewrite !lookup_tupdate. destruct (files t !! i) as [r|] eqn:Hi; [|done].
  cbn [fmap option_fmap option_map]. f_equal. rewrite rename_row_cases by done.
  unfold path_is. case_decide as Hp; [by rewrite bool_decide_eq_true_2|]. rewrite bool_decide_eq_false_2 by done.
  destruct (eval_fcond (below old) r) eqn:Hb; [|done]. apply eval_below in Hb. by apply Hno in Hi.
Qed.
