(* ===== verification/OpRefine.v ===== *)
(** The server implements the abstract file system: on requests that agree
    with what it knows, [pseudo_op] takes a database that represents a file
    system to one that represents the result of the abstract operation. *)

From stdpp Require Import base gmap list fin_maps strings sets.
From Stdlib Require Import ZArith Lia Ascii.
From S2P Require Import Prelude Tables Modes Message Sql FileDb FileDbSpec Xattr LogDb ServerOp OpInvariant FsSpec.

Open Scope Z_scope.

(** ** Requests *)

(** The attributes a message carries. *)
Definition msg_attrs (m : header) : attrs := mkAttrs (m_uid m) (m_gid m) (m_mode m) (m_rdev m).

Definition attrs_ok (at_ : attrs) : Prop :=
  in_uint32 (a_uid at_) /\ in_uint32 (a_gid at_) /\
  0 <= a_mode at_ < 2 ^ 31 /\ 0 <= a_rdev at_ < 2 ^ 31.

Definition path_ok (path : bytes) : Prop := path <> [] /\ NUL ∉ path /\ path <> NAMELESS_FILE /\ Z.of_nat (length path) < 2 ^ 31.

(** A request about a path: the path in the message, the device and inode and
    the attributes of the file on disk. *)
Record request (m : pseudo_msg_t) (o : pseudo_op_t) (path : bytes) (k : key) : Prop := {
  req_op : m_op m = o;
  req_path : path_ok path;
  req_mem : exists rest, m_path m = path ++ NUL :: rest;
  req_pathlen : 0 < m_pathlen m;
  req_key : (m_dev m, m_ino m) = k;
  req_key_ok : key_ok k;
  req_attrs : attrs_ok (msg_attrs m)
}.

(** The file types agree: directory or not, symbolic link or not. *)
Definition same_type (a b : Z) : Prop := S_ISDIR a = S_ISDIR b /\ S_ISLNK a = S_ISLNK b.

Lemma lt_pow2_land n z : 0 <= n -> 0 <= z < 2 ^ n <-> z = Z.land z (Z.ones n).
Proof.
  intros Hn. rewrite Z.land_ones by done. pose proof (Z.pow_pos_nonneg 2 n ltac:(lia) Hn). split.
  - intros Hz. by rewrite Z.mod_small.
  - intros ->. apply Z.mod_pos_bound. lia.
Qed.

Lemma merge_mode_bounds n new old : 0 <= n -> Z.land 0xfff (Z.ones n) = 0xfff -> 0 <= old < 2 ^ n ->
  0 <= merge_mode new old < 2 ^ n.
Proof.
  intros Hn Hmask Hold%lt_pow2_land; [|done]. apply lt_pow2_land; [done|]. unfold merge_mode.
  rewrite Z.land_lor_distr_l. f_equal.
  - by rewrite <- Z.land_assoc, Hmask.
  - rewrite Hold at 1. rewrite !Z.ldiff_land, <- !Z.land_assoc. f_equal. apply Z.land_comm.
Qed.

(** ** Stages on such requests *)

Section Stages.
Context {E : SqlEngine} {L : SqlLaws E} {RL : SqlReliable E} {PM : PathMax} {SC : ServerConfig}.
Implicit Types (d : pdb) (m : pseudo_msg_t).

Definition succ_msg (m : pseudo_msg_t) : pseudo_msg_t := set_result RESULT_SUCCEED m.

(** The state when the lookups begin. *)
Definition op_ready (d : pdb) (m : pseudo_msg_t) : op_state :=
  mkOp d m (hdr m) zero_header (hdr m) zero_header None None 0 false false false false None.

Lemma op_ready_eq d m o path k :
  request m o path k -> m_pathlen m = Z.of_nat (length path) + 1 -> has_two_paths o = false ->
  op_strip_slash (op_stash (op_split_paths (op_start d m))) = op_ready d (succ_msg m).
Proof.
  intros R Hlen Ho. destruct R as [Hop (Hne & Hnul & _ & Hlt) [rest Hmem] _ _ _ _].
  assert (m_op (succ_msg m) = o /\ m_pathlen (succ_msg m) = Z.of_nat (length path) + 1 /\
    m_path (succ_msg m) = path ++ NUL :: rest) as (Hop' & Hl & Hp) by (by destruct m as [[]]).
  unfold op_split_paths, op_start. fold (succ_msg m). cbn [msg]. rewrite Hop', Ho, andb_false_r.
  unfold op_stash, with_header, op_strip_slash. cbn [msg]. rewrite Hl.
  destruct (negb _); [|done]. rewrite decide_False; [done|].
  unfold byte_at. rewrite Hp. destruct (_ <? _); [|done].
  rewrite wrap_unsigned_small by lia.
  replace (Z.to_nat _) with (length path) by lia.
  by rewrite list_lookup_middle.
Qed.

Lemma succ_request m o path k : request m o path k -> request (succ_msg m) o path k.
Proof. intros []. by destruct m as [[]]; constructor. Qed.

Lemma request_path_str m o path k : request m o path k -> path_str m = path.
Proof.
  intros [_ (_ & Hnul & _) [rest Hmem] _ _ _ _]. unfold path_str. rewrite Hmem. by apply c_str_app_nul.
Qed.

Lemma request_nonzero m o path k : request m o path k ->
  negb (m_pathlen m =? 0) && negb (m_dev m =? 0) && negb (m_ino m =? 0) = true.
Proof.
  intros [_ _ _ Hlen Hk [Hd Hi] _]. rewrite <- Hk in Hd, Hi. simpl in *.
  rewrite !andb_true_iff, !negb_true_iff, !Z.eqb_neq. lia.
Qed.

Lemma request_pathlen m o path k : request m o path k -> m_pathlen m <> 0.
Proof. intros [_ _ _ Hlen _ _ _]. lia. Qed.

Lemma read_attrs_hdr r m : exists de, hdr (read_attrs r m) =
  mkHeader (m_type m) (m_op m) (m_result m) (m_access m) (m_client m) (m_fd m) (m_dev m) (m_ino m)
    (uint32 (f_uid r)) (uint32 (f_gid r)) (uint64 (f_mode r)) (uint64 (f_rdev r)) (m_pathlen m) (m_nlink m) de.
Proof. destruct m as [[]]. by eexists. Qed.

Lemma read_attrs_path r m : m_path (read_attrs r m) = m_path m.
Proof. by destruct m as [[]]. Qed.

Lemma read_attrs_attrs r m : msg_attrs (read_attrs r m) = attrs_of r.
Proof. by destruct m as [[]]. Qed.

Lemma read_attrs_as_msg r m : hdr (read_attrs r (as_msg (hdr m))) = hdr (read_attrs r m).
Proof. by destruct m as [[]]. Qed.

(** The outcomes of the lookups: both path and inode known, neither known,
    only the inode known. *)
Definition op_exact (d : pdb) (m : pseudo_msg_t) (r : file_row) (path : bytes) : op_state :=
  mkOp d m (hdr m) (hdr (read_attrs r m)) (hdr (read_attrs r m)) zero_header (Some path) None 0
    true true true false None.

Definition op_by_ino (d : pdb) (m : pseudo_msg_t) (r : file_row) : op_state :=
  mkOp d m (hdr m) zero_header (hdr (read_attrs r m)) zero_header (Some (f_path r)) None 0
    false true false false None.

Context (d : pdb) (a : fs) (m : pseudo_msg_t) (o : pseudo_op_t) (path : bytes) (k : key).
Context (Hrep : represents (files (pdb_tables d)) a) (Hok : rows_ok (files (pdb_tables d))).
Context (R : request m o path k).

Lemma row_at_key r : file_ok r -> f_dev r = bind_int (m_dev m) -> f_ino r = signed_ino (m_ino m) -> key_of r = k.
Proof.
  intros Hr Hd Hi. destruct R as [_ _ _ _ <- Hk _]. apply at_inode_key; [done|done|].
  unfold at_inode. by rewrite Hd, Hi, !Z.eqb_refl.
Qed.

Lemma key_row r : file_ok r -> key_of r = k -> f_dev r = bind_int (m_dev m) /\ f_ino r = signed_ino (m_ino m).
Proof.
  intros Hr Hk. destruct R as [_ _ _ _ HR Hk' _]. rewrite <- HR in Hk.
  apply at_inode_key in Hk; [|done|by rewrite HR]. unfold at_inode in Hk. bool_facts. done.
Qed.

Lemma lookup_exact at_ :
  names a !! path = Some k -> inodes a !! k = Some at_ ->
  exists r, attrs_of r = at_ /\ op_lookup (op_ready d m) = op_exact d m r path.
Proof.
  intros Hn Hin. unfold op_lookup, op_lookup_exact, op_ready. cbn [msg db].
  rewrite (request_nonzero m o path k R).
  destruct (find_file_exact_cases d m) as [(i & r & Hi & Hp & Hd & Hino & ->)|[Hno _]].
  - exists r. pose proof (row_at_key r (Hok _ _ Hi) Hd Hino) as Hk.
    apply (rep_attrs _ _ Hrep) in Hi. split; [congruence|].
    assert (assign (read_attrs r m) (hdr m) = m) as Hm by (by destruct m as [[]]).
    cbn [Z.eqb msg_header]. rewrite Hm. unfold with_exact, with_msg. cbn [found_path found_ino negb andb].
    by rewrite (request_path_str m o path k R).
  - exfalso. apply (rep_names _ _ Hrep) in Hn as (i & r & Hi & Hp & Hk).
    apply (key_row r (Hok _ _ Hi)) in Hk as [Hd Hino].
    apply (Hno i r Hi); [|done|done]. by rewrite (request_path_str m o path k R).
Qed.

Lemma lookup_no_path : names a !! path = None ->
  op_lookup (op_ready d m) = op_lookup_dev (op_ready d m).
Proof.
  intros Hn. unfold op_lookup, op_lookup_exact, op_ready. cbn [msg db].
  rewrite (request_nonzero m o path k R). pose proof (request_path_str m o path k R) as Hps.
  assert (forall i r, files (pdb_tables d) !! i = Some r -> f_path r <> path_str m) as Hno
    by (intros i r Hi; rewrite Hps; by apply (rep_no_name _ _ Hrep path i)).
  destruct (find_file_exact_cases d m) as [(i & r & Hi & Hp & _)|[_ ->]]; [by apply Hno in Hi|].
  cbn [Z.eqb with_msg found_path found_ino negb andb]. unfold op_lookup_path. cbn [msg db].
  assert (m_pathlen m <> 0) as Hpl by by eapply request_pathlen.
  rewrite (proj2 (Z.eqb_neq _ _) Hpl). cbn [negb].
  destruct (find_file_path_cases d m Hpl) as [(i & r & Hi & Hp & _)|[_ ->]]; [by apply Hno in Hi|].
  done.
Qed.

Lemma lookup_none : names a !! path = None -> inodes a !! k = None ->
  op_lookup (op_ready d m) = op_ready d m.
Proof.
  intros Hn Hin. rewrite lookup_no_path by done. unfold op_lookup_dev, op_ready. cbn [msg db by_ino path_by_ino].
  destruct (negb (m_dev m =? 0) && negb (m_ino m =? 0)); [|done].
  destruct (find_file_dev_cases d (as_msg (hdr m)) None) as [(i & r & Hi & Hat & _)|[_ ->]]; [|done].
  exfalso. cbn [as_msg hdr] in Hat. unfold at_inode in Hat. bool_facts.
  apply (rep_no_inode _ _ Hrep k i r Hin Hi). by apply row_at_key; [eapply Hok|..].
Qed.

Lemma lookup_by_ino at_ : names a !! path = None -> inodes a !! k = Some at_ ->
  exists r, attrs_of r = at_ /\ key_of r = k /\ names a !! f_path r = Some k /\
    op_lookup (op_ready d m) = op_by_ino d m r.
Proof.
  intros Hn Hin. rewrite lookup_no_path by done. unfold op_lookup_dev, op_ready. cbn [msg db by_ino path_by_ino].
  pose proof (request_nonzero m o path k R) as Hnz. rewrite <- andb_assoc in Hnz.
  apply andb_true_iff in Hnz as [_ ->].
  destruct (find_file_dev_cases d (as_msg (hdr m)) None) as [(i & r & Hi & Hat & ->)|[Hno _]].
  - cbn [as_msg hdr] in Hat. unfold at_inode in Hat. bool_facts.
    assert (key_of r = k) as Hk by (by apply row_at_key; [eapply Hok|..]).
    exists r. split; [apply (rep_attrs _ _ Hrep) in Hi; congruence|]. split; [done|].
    split; [apply (rep_name_of _ _ Hrep) in Hi; congruence|]. cbn [Z.eqb]. unfold with_by_ino, with_found_ino, op_by_ino. rewrite read_attrs_as_msg.
    rewrite c_str_id; [done|]. by apply Hok in Hi as [? _].
  - exfalso. apply (rep_inodes _ _ Hrep) in Hin as (i & r & Hi & Hk).
    apply (key_row r (Hok _ _ Hi)) in Hk as [Hd Hino]. specialize (Hno i r Hi).
    cbn [as_msg hdr] in Hno. unfold at_inode in Hno. by rewrite Hd, Hino, !Z.eqb_refl in Hno.
Qed.

(** *** The sanity checks pass *)

Lemma read_attrs_mode r : m_mode (read_attrs r m) = a_mode (attrs_of r).
Proof. by destruct m as [[]]. Qed.

Lemma read_attrs_ino' r : m_ino (read_attrs r m) = m_ino m.
Proof. by destruct m as [[]]. Qed.

Lemma same_type_no_mismatch x y : same_type x y -> dir_mismatch x y || lnk_mismatch x y = false.
Proof. intros [H1 H2]. unfold dir_mismatch, lnk_mismatch. by rewrite H1, H2, !xorb_nilpotent. Qed.

Lemma checks_exact r :
  o <> OP_RENAME -> same_type (a_mode (attrs_of r)) (m_mode m) ->
  op_check_ino (op_check_path (op_exact d m r path)) = inl (op_exact d m r path).
Proof.
  intros Ho Hty. pose proof (req_op _ _ _ _ R) as Hop. pose proof (request_path_str _ _ _ _ R) as Hps.
  apply same_type_no_mismatch in Hty. rewrite <- read_attrs_mode in Hty.
  assert (op_check_path (op_exact d m r path) = op_exact d m r path) as ->.
  { unfold op_check_path. destruct (_ && _); [|done].
    assert (op_check_path_ino (op_exact d m r path) = op_exact d m r path) as ->.
    { unfold op_check_path_ino. cbn [by_path msg_header op_exact]. by rewrite read_attrs_ino', Z.eqb_refl. }
    cbn [by_path msg_header op_exact]. by rewrite Hty. }
  unfold op_check_ino. destruct (_ && _); [|done]. cbn [path_by_ino op_exact].
  assert (path_mismatch (op_exact d m r path) path = false) as ->.
  { unfold path_mismatch. cbn [msg op_exact]. rewrite Hop, Hps. destruct o; try done;
      by rewrite bool_decide_eq_true_2. }
  rewrite andb_false_r. cbn [andb]. unfold op_check_ino_type. cbn [by_ino msg_header op_exact]. by rewrite Hty.
Qed.

Lemma checks_by_ino r :
  o = OP_LINK -> same_type (a_mode (attrs_of r)) (m_mode m) ->
  op_check_ino (op_check_path (op_by_ino d m r)) = inl (op_by_ino d m r).
Proof.
  intros Ho Hty. pose proof (req_op _ _ _ _ R) as Hop. rewrite Ho in Hop.
  apply same_type_no_mismatch in Hty. rewrite <- read_attrs_mode in Hty.
  unfold op_check_path. cbn [found_path op_by_ino andb].
  unfold op_check_ino. cbn [found_ino msg path_by_ino op_by_ino]. rewrite Hop.
  assert (path_mismatch (op_by_ino d m r) (f_path r) = false) as ->
    by (unfold path_mismatch; cbn [msg op_by_ino]; by rewrite Hop).
  change (bool_decide (OP_LINK = OP_DID_UNLINK)) with false. rewrite andb_false_r. cbn [andb negb].
  unfold op_check_ino_type. cbn [by_ino msg_header op_by_ino]. by rewrite Hty.
Qed.

Definition op_exact' (r : file_row) : op_state :=
  mkOp d m (hdr m) (hdr (read_attrs r m)) (hdr (read_attrs r m)) (hdr (read_attrs r m)) (Some path) None 0
    true true true false None.

Lemma pick_exact r : op_pick_header (op_exact d m r path) = op_exact' r.
Proof. unfold op_pick_header. by destruct (_ && _). Qed.
End Stages.

Section Core.
Context {E : SqlEngine} {L : SqlLaws E} {RL : SqlReliable E} {PM : PathMax} {SC : ServerConfig}.
Implicit Types (d : pdb) (m : pseudo_msg_t).

(** [pseudo_op] without the final log entry. *)
Definition op_core (d : pdb) (m : pseudo_msg_t) : op_state :=
  match op_prepare d m with
  | inr s => s
  | inl s => op_unlinked_fd (op_dispatch (op_pick_header s))
  end.

Lemma log_msg_files p n sev om pr tg tx :
  files (pdb_tables (pdb_log_msg p n sev om pr tg tx).1) = files (pdb_tables p).
Proof.
  unfold pdb_log_msg, log_insert. rewrite log_db_is_open, prepared. cbn [negb]. run_step T. cbn [fst]. by rewrite T.
Qed.

Lemma pseudo_op_core d m pr tg :
  files (pdb_tables (db (pseudo_op d m pr tg).1)) = files (pdb_tables (db (op_core d m))) /\
  msg (pseudo_op d m pr tg).1 = msg (op_core d m).
Proof.
  unfold pseudo_op, op_core. cbn [fst].
  match goal with |- context [op_exit ?x _ _] => generalize x; intros s end.
  unfold op_exit. destruct opt_l; [|done]. unfold call. split; [|by destruct s].
  rewrite <- (log_msg_files (db s) now SEVERITY_INFO (Some (msg s)) pr tg None).
  destruct (pdb_log_msg _ _ _ _ _ _ _) as [d' rc]. by destruct s.
Qed.

Context (d : pdb) (a : fs) (m : pseudo_msg_t) (o : pseudo_op_t) (path : bytes) (k : key).
Context (Hrep : represents (files (pdb_tables d)) a) (Hok : rows_ok (files (pdb_tables d))).
Context (R : request m o path k) (Ho : has_two_paths o = false).
Context (Hlen : m_pathlen m = Z.of_nat (length path) + 1).

Lemma one_path_no_rename : has_two_paths o = false -> o <> OP_RENAME.
Proof. by intros H ->. Qed.

Lemma succ_msg_mode : m_mode (succ_msg m) = m_mode m.
Proof. by destruct m as [[]]. Qed.

Lemma core_exact at_ :
  names a !! path = Some k -> inodes a !! k = Some at_ -> same_type (a_mode at_) (m_mode m) ->
  exists r, attrs_of r = at_ /\
    op_core d m = op_unlinked_fd (op_dispatch (op_exact' d (succ_msg m) path r)).
Proof.
  intros Hn Hin Hty. pose proof (succ_request _ _ _ _ R) as R'. unfold op_core, op_prepare.
  rewrite (op_ready_eq d m o path k R Hlen Ho).
  destruct (lookup_exact d a (succ_msg m) o path k Hrep Hok R' at_ Hn Hin) as (r & Hr & ->).
  exists r. split; [done|]. rewrite <- Hr, <- succ_msg_mode in Hty.
  rewrite (checks_exact d (succ_msg m) o path k R' r (one_path_no_rename Ho) Hty). by rewrite pick_exact.
Qed.

Lemma core_none :
  names a !! path = None -> inodes a !! k = None ->
  op_core d m = op_unlinked_fd (op_dispatch (op_ready d (succ_msg m))).
Proof.
  intros Hn Hin. pose proof (succ_request _ _ _ _ R) as R'. unfold op_core, op_prepare.
  rewrite (op_ready_eq d m o path k R Hlen Ho).
  by rewrite (lookup_none d a (succ_msg m) o path k Hrep Hok R' Hn Hin).
Qed.

Lemma core_by_ino at_ :
  o = OP_LINK -> names a !! path = None -> inodes a !! k = Some at_ -> same_type (a_mode at_) (m_mode m) ->
  exists r, attrs_of r = at_ /\ key_of r = k /\
    op_core d m = op_unlinked_fd (op_dispatch
      (with_db_header (hdr (read_attrs r (succ_msg m))) (op_by_ino d (succ_msg m) r))).
Proof.
  intros HL Hn Hin Hty. pose proof (succ_request _ _ _ _ R) as R'. unfold op_core, op_prepare.
  rewrite (op_ready_eq d m o path k R Hlen Ho).
  destruct (lookup_by_ino d a (succ_msg m) o path k Hrep Hok R' at_ Hn Hin) as (r & Hr & Hk & _ & ->).
  exists r. split; [done|]. split; [done|]. rewrite <- Hr, <- succ_msg_mode in Hty.
  rewrite (checks_by_ino d (succ_msg m) o path k R' r HL Hty).
  unfold op_pick_header. cbn [found_ino found_path op_by_ino by_ino negb andb]. by rewrite orb_true_r.
Qed.

(** *** Rows a request inserts and updates *)

Lemma link_row_request at_ :
  (m_dev m, m_ino m) = k -> attrs_ok at_ -> msg_attrs m = at_ ->
  f_path (link_row m) = path /\ key_of (link_row m) = k /\ attrs_of (link_row m) = at_.
Proof.
  intros Hk (Hu & Hg & Hm & Hr) Ha. pose proof (request_pathlen _ _ _ _ R) as Hpl.
  pose proof (request_path_str _ _ _ _ R) as Hps. destruct R as [_ _ _ _ _ [Hd Hi] _].
  rewrite <- Hk in Hd, Hi. simpl in Hd, Hi. rewrite <- Ha in *. simpl in *.
  unfold link_row, key_of, attrs_of. cbn [f_path f_dev f_ino f_uid f_gid f_mode f_rdev].
  rewrite (proj2 (Z.eqb_neq _ _) Hpl). cbn [negb]. split; [done|]. unfold bind_int. split.
  - rewrite signed_ino_uint64 by (unfold in_uint64; lia). by rewrite (wrap_signed_small 32) by lia.
  - unfold msg_attrs. rewrite !wrap_unsigned_signed by lia. rewrite !(wrap_unsigned_small 32) by done.
    rewrite !(wrap_signed_small 32) by lia. by rewrite !(wrap_unsigned_small 64) by lia.
Qed.

Lemma unlinked_fd_represents (s : op_state) b :
  represents (files (pdb_tables (db s))) b ->
  represents (files (pdb_tables (db (op_unlinked_fd s)))) b /\ msg (op_unlinked_fd s) = msg s.
Proof.
  intros Hs. unfold op_unlinked_fd.
  assert (represents (files (pdb_tables (db (call (fun d => pdb_may_unlink_file d (msg s) (m_client (msg s))) s)))) b /\
    msg (call (fun d => pdb_may_unlink_file d (msg s) (m_client (msg s))) s) = msg s) as Hcall.
  { unfold call. destruct (decide (m_pathlen (msg s) = 0)) as [Hz|Hnz].
    - unfold pdb_may_unlink_file. no_failure. rewrite (proj2 (Z.eqb_eq _ _) Hz). by destruct s.
    - destruct (may_unlink_tables (db s) (msg s) (m_client (msg s)) Hnz) as (p' & -> & _ & Ht).
      cbn [fst]. assert (db (with_db p' s) = p' /\ msg (with_db p' s) = msg s) as [-> ->] by (by destruct s).
      split; [|done]. rewrite Ht. by apply rep_same_rows. }
  destruct (m_op (msg s)); try done; by destruct (_ && _).
Qed.

(** *** Effects of the operations on the represented file system *)

Lemma read_attrs_msg (r : file_row) : assign (succ_msg m) (hdr (read_attrs r (succ_msg m))) = read_attrs r (succ_msg m).
Proof. by destruct m as [[]]. Qed.

Lemma update_represents (mm : pseudo_msg_t) at0 :
  (m_dev mm, m_ino mm) = k -> inodes a !! k = Some at0 ->
  represents (files (pdb_tables (pdb_update_file d mm).1))
    (fs_set_attrs k (mkAttrs (uint32 (bind_int (m_uid mm))) (uint32 (bind_int (m_gid mm)))
                             (uint64 (bind_int (m_mode mm))) (uint64 (bind_int (m_rdev mm)))) a).
Proof.
  intros Hk Hin. destruct (update_file_tables d mm) as (p' & -> & _ & Ht). cbn [fst]. rewrite Ht. cbn [update_files files].
  pose proof (req_key_ok _ _ _ _ R) as Hkey. rewrite <- Hk in Hin, Hkey |- *.
  exact (rep_update _ _ Hrep Hok _ _ _ _ _ _ at0 Hkey Hin).
Qed.

Lemma db_word_uint32 z : uint32 (bind_int (uint32 z)) = uint32 z.
Proof. unfold bind_int. rewrite wrap_unsigned_signed by lia. unfold wrap_unsigned. by rewrite Z.mod_mod. Qed.

Lemma db_word_uint64 z : in_int32 z -> uint64 (bind_int (uint64 z)) = uint64 z.
Proof.
  intros Hz. f_equal. unfold bind_int. rewrite <- (wrap_signed_small 32 z) at 2 by (done || lia).
  unfold wrap_signed, wrap_unsigned.
  f_equal. rewrite (Zplus_mod (z mod 2 ^ 64)), (Zplus_mod z). f_equal. f_equal.
  rewrite <- (Z.mod_mod_divide z (2 ^ 64) (2 ^ 32)) by (exists (2 ^ 32); done). done.
Qed.

Lemma row_ints i r : files (pdb_tables d) !! i = Some r -> in_int32 (f_mode r) /\ in_int32 (f_rdev r).
Proof. intros Hi. by apply Hok in Hi as (_ & _ & _ & _ & _ & ? & ? & _). Qed.

(** The row found for an inode is a row of the table. *)
Lemma inode_row at0 : inodes a !! k = Some at0 ->
  exists mo rd, in_int32 mo /\ in_int32 rd /\ a_mode at0 = uint64 mo /\ a_rdev at0 = uint64 rd /\
    uint32 (a_uid at0) = a_uid at0 /\ uint32 (a_gid at0) = a_gid at0.
Proof.
  intros Hin. pose proof Hin as Hin'. apply (rep_inodes _ _ Hrep) in Hin' as (i & r & Hi & Hk).
  pose proof (rep_attrs _ _ Hrep i r Hi) as Ha. rewrite Hk, Hin in Ha. injection Ha as ->.
  destruct (row_ints i r Hi) as [? ?]. exists (f_mode r), (f_rdev r). split_and!; try done; simpl;
    unfold wrap_unsigned; by rewrite Z.mod_mod.
Qed.

Lemma db_word_of_uint32 z : uint32 z = z -> uint32 (bind_int z) = z.
Proof. intros H. rewrite <- H at 1. rewrite db_word_uint32. done. Qed.

Lemma succ_key : (m_dev (succ_msg m), m_ino (succ_msg m)) = k.
Proof. destruct R. by destruct m as [[]]. Qed.

Lemma core_chown at0 :
  (o = OP_CHOWN \/ o = OP_FCHOWN) -> names a !! path = Some k -> inodes a !! k = Some at0 ->
  same_type (a_mode at0) (m_mode m) ->
  represents (files (pdb_tables (db (op_core d m))))
    (fs_set_attrs k (mkAttrs (m_uid m) (m_gid m) (a_mode at0) (a_rdev at0)) a) /\
  m_result (msg (op_core d m)) = RESULT_SUCCEED.
Proof.
  intros Hop Hn Hin Hty. destruct (core_exact at0 Hn Hin Hty) as (r & Hr & ->).
  assert (op_dispatch (op_exact' d (succ_msg m) path r) = op_chown (op_exact' d (succ_msg m) path r)) as ->.
  { unfold op_dispatch. cbn [msg op_exact']. destruct R as [HR _ _ _ _ _ _].
    assert (m_op (succ_msg m) = o) as -> by (by destruct m as [[]]). by destruct Hop as [-> | ->]. }
  set (mm := with_owner (succ_msg m) (read_attrs r (succ_msg m))).
  assert (db (op_chown (op_exact' d (succ_msg m) path r)) = (pdb_update_file d mm).1 /\
          msg (op_chown (op_exact' d (succ_msg m) path r)) = mm) as [Hdb Hmsg].
  { unfold op_chown, op_exact'. cbn [found_ino msg by_ino msg_header]. rewrite read_attrs_msg. done. }
  pose proof (inode_row at0 Hin) as (mo & rd & Hmo & Hrd & Hm & Hd & Hu & Hg).
  assert (a_mode (attrs_of r) = uint64 mo /\ a_rdev (attrs_of r) = uint64 rd) as [Hrm Hrrd] by (rewrite Hr; done).
  destruct (unlinked_fd_represents (op_chown (op_exact' d (succ_msg m) path r))
    (fs_set_attrs k (mkAttrs (m_uid m) (m_gid m) (a_mode at0) (a_rdev at0)) a)) as [Hrep' Hmsg'].
  - rewrite Hdb.
    assert ((m_dev mm, m_ino mm) = k) as Hk by (rewrite <- succ_key; subst mm; by destruct m as [[]]).
    pose proof (update_represents mm at0 Hk Hin) as H.
    assert (m_uid mm = m_uid m /\ m_gid mm = m_gid m /\ m_mode mm = uint64 mo /\ m_rdev mm = uint64 rd)
      as (Hmu & Hmg & Hmm & Hmr).
    { subst mm. rewrite <- Hrm, <- Hrrd. by destruct m as [[]]. }
    rewrite Hmu, Hmg, Hmm, Hmr in H. destruct R as [_ _ _ _ _ _ ((?&?)&(?&?)&_)].
    rewrite !db_word_uint64 in H by done. rewrite !db_word_of_uint32 in H by (by apply wrap_unsigned_small).
    by rewrite Hm, Hd.
  - split; [done|]. rewrite Hmsg', Hmsg. subst mm. by destruct m as [[]].
Qed.

(** The two ways a request reaches its operation. *)

Lemma succ_op : m_op (succ_msg m) = o.
Proof. destruct R as [<- _ _ _ _ _ _]. by destruct m as [[]]. Qed.

Lemma succ_attrs : msg_attrs (succ_msg m) = msg_attrs m.
Proof. by destruct m as [[]]. Qed.

Definition creates (o : pseudo_op_t) : bool :=
  match o with
  | OP_CREAT | OP_MKDIR | OP_MKNOD | OP_SYMLINK | OP_LINK
  | OP_CHMOD | OP_FCHMOD | OP_CHOWN | OP_FCHOWN => true
  | _ => false
  end.

Lemma dispatch_create : creates o = true ->
  db (op_dispatch (op_ready d (succ_msg m))) = (pdb_link_file d (succ_msg m)).1 /\
  msg (op_dispatch (op_ready d (succ_msg m))) = succ_msg m.
Proof.
  intros Hc. unfold op_dispatch, op_ready. cbn [msg]. rewrite succ_op.
  destruct m as [[]]. by destruct o.
Qed.

Lemma core_create : creates o = true -> names a !! path = None -> inodes a !! k = None ->
  represents (files (pdb_tables (db (op_core d m)))) (fs_create path k (msg_attrs m) a) /\
  m_result (msg (op_core d m)) = RESULT_SUCCEED.
Proof.
  intros Hc Hn Hin. rewrite core_none by done. destruct (dispatch_create Hc) as [Hdb Hmsg].
  destruct (unlinked_fd_represents (op_dispatch (op_ready d (succ_msg m)))
    (fs_create path k (msg_attrs m) a)) as [H1 H2].
  - rewrite Hdb. destruct (link_file_tables d (succ_msg m)) as (p' & -> & _ & Ht). cbn [fst].
    rewrite Ht. cbn [files].
    destruct (link_row_request (msg_attrs m) (req_key _ _ _ _ R) (req_attrs _ _ _ _ R) eq_refl) as (Hp & Hk & Ha).
    assert (link_row (succ_msg m) = link_row m) as -> by (by destruct m as [[]]).
    rewrite <- Hp in Hn |- *. rewrite <- Hk in Hin |- *.
    apply (rep_insert _ _ Hrep); [done|by left|done].
  - split; [done|]. rewrite H2, Hmsg. by destruct m as [[]].
Qed.

(** A second name for a known inode keeps the attributes the inode has. *)
Lemma core_link at0 :
  o = OP_LINK -> names a !! path = None -> inodes a !! k = Some at0 -> same_type (a_mode at0) (m_mode m) ->
  represents (files (pdb_tables (db (op_core d m)))) (fs_link path k a) /\
  m_result (msg (op_core d m)) = RESULT_SUCCEED.
Proof.
  intros Hop Hn Hin Hty. pose proof (inode_row at0 Hin) as (mo & rd & Hmo & Hrd & Hm & Hd & Hu & Hg).
  destruct (core_by_ino at0 Hop Hn Hin Hty) as (r & Hr & Hk & ->).
  set (mm := read_attrs r (succ_msg m)).
  set (s := with_db_header _ _).
  assert (db (op_dispatch s) = (pdb_link_file d mm).1 /\ msg (op_dispatch s) = mm) as [Hdb Hmsg].
  { pose proof succ_op as HR. rewrite Hop in HR. unfold s, op_dispatch, op_link.
    cbn [with_db_header op_by_ino msg found_path found_ino by_ino]. rewrite HR.
    rewrite bool_decide_eq_false_2 by done. rewrite read_attrs_msg. done. }
  destruct (unlinked_fd_represents (op_dispatch s) (fs_link path k a)) as [H1 H2].
  - rewrite Hdb. destruct (link_file_tables d mm) as (p' & -> & _ & Ht). cbn [fst]. rewrite Ht. cbn [files].
    assert (f_path (link_row mm) = path /\ key_of (link_row mm) = k) as [Hp Hkk].
    { destruct (link_row_request (msg_attrs m) (req_key _ _ _ _ R) (req_attrs _ _ _ _ R) eq_refl) as (Hp & Hk' & _).
      rewrite <- Hp, <- Hk'. unfold mm. by destruct m as [[]]. }
    assert (attrs_of (link_row mm) = at0) as Ha.
    { assert (attrs_of (link_row mm) = mkAttrs (uint32 (bind_int (a_uid (attrs_of r))))
        (uint32 (bind_int (a_gid (attrs_of r)))) (uint64 (bind_int (a_mode (attrs_of r))))
        (uint64 (bind_int (a_rdev (attrs_of r))))) as -> by (unfold mm; by destruct m as [[]]).
      rewrite Hr, Hm, Hd, !db_word_of_uint32, !db_word_uint64 by done. destruct at0; simpl in *; congruence. }
    assert (fs_link path k a = fs_create (f_path (link_row mm)) (key_of (link_row mm)) at0 a) as ->.
    { unfold fs_create, fs_link. rewrite Hp, Hkk. by rewrite (insert_id (inodes a)). }
    apply (rep_insert _ _ Hrep); [by rewrite Hp|right; by rewrite Hkk, Ha|done].
  - split; [done|]. rewrite H2, Hmsg. unfold mm. by destruct m as [[]].
Qed.

Lemma core_chmod at0 :
  (o = OP_CHMOD \/ o = OP_FCHMOD) -> names a !! path = Some k -> inodes a !! k = Some at0 ->
  same_type (a_mode at0) (m_mode m) -> 0 <= a_mode at0 < 2 ^ 31 ->
  represents (files (pdb_tables (db (op_core d m))))
    (fs_set_attrs k (mkAttrs (a_uid at0) (a_gid at0) (merge_mode (m_mode m) (a_mode at0)) (a_rdev at0)) a) /\
  m_result (msg (op_core d m)) = RESULT_SUCCEED.
Proof.
  intros Hop Hn Hin Hty Hmode. destruct (core_exact at0 Hn Hin Hty) as (r & Hr & ->).
  pose proof (inode_row at0 Hin) as (mo & rd & Hmo & Hrd & Hm & Hd & Hu & Hg).
  set (s := op_exact' d (succ_msg m) path r).
  set (mm := set_mode (merge_mode (m_mode m) (a_mode at0)) (read_attrs r (succ_msg m))).
  assert (op_dispatch s = op_chmod s) as ->
    by (unfold s, op_dispatch; cbn [msg op_exact']; rewrite succ_op; by destruct Hop as [-> | ->]).
  assert (db (op_chmod s) = (pdb_update_file d mm).1 /\ msg (op_chmod s) = mm) as [Hdb Hmsg].
  { unfold mm. rewrite <- Hr. unfold s, op_chmod, op_exact'. cbn [found_ino msg by_ino msg_header].
    rewrite read_attrs_msg, succ_msg_mode. by destruct m as [[]]. }
  destruct (unlinked_fd_represents (op_chmod s) (fs_set_attrs k (mkAttrs (a_uid at0) (a_gid at0)
    (merge_mode (m_mode m) (a_mode at0)) (a_rdev at0)) a)) as [Hrep' Hmsg'].
  - rewrite Hdb.
    assert ((m_dev mm, m_ino mm) = k) as Hk by (rewrite <- succ_key; subst mm; by destruct m as [[]]).
    pose proof (update_represents mm at0 Hk Hin) as H.
    assert (m_uid mm = a_uid at0 /\ m_gid mm = a_gid at0 /\ m_rdev mm = uint64 rd /\
      m_mode mm = merge_mode (m_mode m) (a_mode at0)) as (Hmu & Hmg & Hmr & Hmm).
    { unfold mm. rewrite <- Hd, <- Hr. by destruct m as [[]]. }
    rewrite Hmu, Hmg, Hmm, Hmr in H. rewrite (db_word_uint64 rd) in H by done.
    rewrite !db_word_of_uint32 in H by done.
    apply (merge_mode_bounds 31 (m_mode m)) in Hmode; [|done|done]. revert Hmode H.
    generalize (merge_mode (m_mode m) (a_mode at0)). intros z Hz H. unfold bind_int in H.
    rewrite (wrap_signed_small 32 z), (wrap_unsigned_small 64 z) in H by lia. by rewrite Hd.
  - split; [done|]. rewrite Hmsg', Hmsg. subst mm. by destruct m as [[]].
Qed.

(** Looking a file up: the attributes of the reply are those of the inode. *)
Lemma core_stat_known at0 :
  (o = OP_STAT \/ o = OP_FSTAT) -> names a !! path = Some k -> inodes a !! k = Some at0 ->
  same_type (a_mode at0) (m_mode m) -> (PSEUDO_XATTRDB = false \/ a_uid at0 <> NO_ID \/ a_gid at0 <> NO_ID) ->
  represents (files (pdb_tables (db (op_core d m)))) a /\
  m_result (msg (op_core d m)) = RESULT_SUCCEED /\ msg_attrs (msg (op_core d m)) = at0.
Proof.
  intros Hop Hn Hin Hty Hid. destruct (core_exact at0 Hn Hin Hty) as (r & Hr & ->).
  set (s := op_exact' d (succ_msg m) path r).
  assert (op_dispatch s = op_stat s) as ->
    by (unfold s, op_dispatch; cbn [msg op_exact']; rewrite succ_op; by destruct Hop as [-> | ->]).
  assert (db (op_stat s) = d /\ msg (op_stat s) = read_attrs r (succ_msg m)) as [Hdb Hmsg].
  { unfold s, op_stat, op_exact'. cbn [found_ino found_path db_header orb msg].
    assert (PSEUDO_XATTRDB && (m_uid (hdr (read_attrs r (succ_msg m))) =? NO_ID) &&
      (m_gid (hdr (read_attrs r (succ_msg m))) =? NO_ID) = false) as ->.
    { assert (m_uid (hdr (read_attrs r (succ_msg m))) = a_uid at0 /\
              m_gid (hdr (read_attrs r (succ_msg m))) = a_gid at0) as [-> ->]
        by (rewrite <- Hr; by destruct m as [[]]).
      destruct Hid as [-> | [? | ?]]; [done|..]; rewrite !andb_false_iff, !Z.eqb_neq; tauto. }
    rewrite read_attrs_msg. done. }
  destruct (unlinked_fd_represents (op_stat s) a) as [H1 H2]; [by rewrite Hdb|].
  split; [done|]. rewrite H2, Hmsg, read_attrs_attrs. split; [by destruct m as [[]]|done].
Qed.

Lemma core_stat_unknown :
  (o = OP_STAT \/ o = OP_FSTAT) -> names a !! path = None -> inodes a !! k = None ->
  represents (files (pdb_tables (db (op_core d m)))) a /\ m_result (msg (op_core d m)) = RESULT_FAIL.
Proof.
  intros Hop Hn Hin. rewrite core_none by done. set (s := op_ready d (succ_msg m)).
  assert (op_dispatch s = op_fail s) as ->
    by (unfold s, op_dispatch, op_ready; cbn [msg]; rewrite succ_op; by destruct Hop as [-> | ->]).
  destruct (unlinked_fd_represents (op_fail s) a) as [H1 H2]; [done|].
  split; [done|]. rewrite H2. by destruct m as [[]].
Qed.

(** Removing a file: the name goes, and with it the inode when it was the
    last link. *)
Lemma core_unlink :
  o = OP_UNLINK -> names a !! path = Some k -> no_names_below a path ->
  (exists at0, inodes a !! k = Some at0 /\ same_type (a_mode at0) (m_mode m)) ->
  represents (files (pdb_tables (db (op_core d m))))
    (if m_nlink m =? 1 then fs_unlink_inode k a else fs_unlink path k (has_other_name a path k) a) /\
  m_result (msg (op_core d m)) = RESULT_NONE.
Proof.
  intros Hop Hn Hbelow (at0 & Hin & Hty). destruct (core_exact at0 Hn Hin Hty) as (r & Hr & ->).
  set (s := op_exact' d (succ_msg m) path r).
  assert (op_dispatch s = op_unlink s) as ->
    by (unfold s, op_dispatch; cbn [msg op_exact']; by rewrite succ_op, Hop).
  pose proof (succ_request _ _ _ _ R) as R'.
  pose proof (request_pathlen _ _ _ _ R') as Hpl. pose proof (request_path_str _ _ _ _ R') as Hps.
  set (a1 := fs_unlink path k (has_other_name a path k) a).
  set (a2 := if m_nlink m =? 1 then fs_unlink_inode k a else a1).
  destruct (unlink_file_tables d (succ_msg m) Hpl) as (p1 & E1 & _ & T1).
  destruct (unlink_contents_tables p1 (succ_msg m) Hpl) as (p2 & E2 & _ & T2).
  destruct (unlink_file_dev_tables p2 (succ_msg m)) as (p3 & E3 & _ & T3).
  rewrite Hps in T1, T2.
  assert (files (pdb_tables p1) = tdelete (path_is path) (files (pdb_tables d))) as F1 by (by rewrite T1).
  assert (represents (files (pdb_tables p1)) a1) as R1
    by (rewrite F1; apply rep_delete_path; [done|done|by apply has_other_name_spec]).
  assert (no_names_below a1 path) as Hb1.
  { intros p' k'. unfold a1, fs_unlink. cbn [names]. intros [_ Hk']%lookup_delete_Some. by apply (Hbelow _ k'). }
  assert (files (pdb_tables p2) = files (pdb_tables p1)) as F2
    by (rewrite T2; by apply (rep_nothing_below _ a1)).
  assert (msg (op_unlink s) = set_result RESULT_NONE (succ_msg m)) as Hmsg.
  { unfold s, op_unlink, call. cbn [with_db op_exact' msg db msg_header found_ino]. by destruct (_ && _). }
  assert (represents (files (pdb_tables (db (op_unlink s)))) a2) as Ha2.
  { unfold s, op_unlink, call. cbn [with_db op_exact' msg db msg_header found_ino].
    rewrite E1. cbn [fst]. rewrite E2. cbn [fst]. rewrite andb_true_r.
    assert (m_nlink (hdr (succ_msg m)) = m_nlink m) as -> by (by destruct m as [[]]).
    unfold a2. destruct (m_nlink m =? 1); cbn [with_msg db]; [|by rewrite F2].
    rewrite E3. cbn [fst with_db db with_msg]. rewrite T3. cbn [drop_xattrs delete_files files].
    rewrite F2. rewrite <- (unlink_inode_after_unlink path k (has_other_name a path k) a Hn).
    pose proof (req_key_ok _ _ _ _ R) as Hkey. rewrite <- succ_key in Hkey.
    pose proof (rep_delete_inode _ _ R1) as Hdel. specialize (Hdel ltac:(rewrite F1; by apply rows_ok_tdelete)).
    specialize (Hdel _ _ Hkey). unfold a1 in Hdel. by rewrite succ_key in Hdel. }
  destruct (unlinked_fd_represents (op_unlink s) a2 Ha2) as [H1 H2]. split; [done|].
  rewrite H2, Hmsg. by destruct m as [[]].
Qed.

(** Announcing and cancelling a deletion leaves the file system as it is. *)
Lemma core_may_unlink_known :
  o = OP_MAY_UNLINK -> names a !! path = Some k ->
  (exists at0, inodes a !! k = Some at0 /\ same_type (a_mode at0) (m_mode m)) ->
  represents (files (pdb_tables (db (op_core d m)))) a /\ m_result (msg (op_core d m)) = RESULT_SUCCEED.
Proof.
  intros Hop Hn (at0 & Hin & Hty). destruct (core_exact at0 Hn Hin Hty) as (r & Hr & ->).
  set (s := op_exact' d (succ_msg m) path r).
  assert (op_dispatch s = op_may_unlink s) as ->
    by (unfold s, op_dispatch; cbn [msg op_exact']; by rewrite succ_op, Hop).
  pose proof (succ_request _ _ _ _ R) as R'. pose proof (request_path_str _ _ _ _ R') as Hps.
  destruct (may_unlink_tables d (succ_msg m) (m_client (succ_msg m)) (request_pathlen _ _ _ _ R')) as (p & He & _ & Ht).
  rewrite bool_decide_eq_true_2 in He.
  - assert (op_may_unlink s = with_db p s) as ->
      by (unfold s, op_may_unlink; cbn [op_exact' db msg]; by rewrite He).
    destruct (unlinked_fd_represents (with_db p s) a) as [H1 H2].
    + cbn [s op_exact' with_db db]. rewrite Ht. by apply rep_same_rows.
    + split; [done|]. rewrite H2. by destruct m as [[]].
  - intros Hnil. apply (rep_names _ _ Hrep) in Hn as (i & r' & Hi & Hp & _).
    assert ((i, r') ∈ trows (path_is (path_str (succ_msg m))) (files (pdb_tables d))) as Hel.
    { apply elem_of_trows. split; [done|]. unfold path_is. rewrite Hps. by rewrite bool_decide_eq_true_2. }
    rewrite Hnil in Hel. by apply elem_of_nil in Hel.
Qed.

Lemma core_may_unlink_unknown :
  o = OP_MAY_UNLINK -> names a !! path = None -> inodes a !! k = None ->
  represents (files (pdb_tables (db (op_core d m)))) a /\ m_result (msg (op_core d m)) = RESULT_FAIL.
Proof.
  intros Hop Hn Hin. rewrite core_none by done. set (s := op_ready d (succ_msg m)).
  assert (op_dispatch s = op_may_unlink s) as ->
    by (unfold s, op_dispatch, op_ready; cbn [msg]; by rewrite succ_op, Hop).
  pose proof (succ_request _ _ _ _ R) as R'. pose proof (request_path_str _ _ _ _ R') as Hps.
  destruct (may_unlink_tables d (succ_msg m) (m_client (succ_msg m)) (request_pathlen _ _ _ _ R')) as (p & He & _ & Ht).
  rewrite bool_decide_eq_false_2 in He.
  - assert (op_may_unlink s = op_fail (with_db p s)) as ->
      by (unfold s, op_may_unlink; cbn [op_ready db msg]; by rewrite He).
    destruct (unlinked_fd_represents (op_fail (with_db p s)) a) as [H1 H2].
    + change (db (op_fail (with_db p s))) with p. rewrite Ht. by apply rep_same_rows.
    + split; [done|]. rewrite H2. by destruct m as [[]].
  - intros Hne. destruct (trows (path_is (path_str (succ_msg m))) (files (pdb_tables d))) as [|[i r] l] eqn:Hl; [done|].
    assert ((i, r) ∈ trows (path_is (path_str (succ_msg m))) (files (pdb_tables d))) as Hel
      by (rewrite Hl; by left).
    apply elem_of_trows in Hel as [Hi Hp]. unfold path_is in Hp. apply bool_decide_eq_true in Hp.
    rewrite Hps in Hp. by apply (rep_no_name _ _ Hrep path i r).
Qed.

Lemma core_cancel at0 :
  o = OP_CANCEL_UNLINK -> names a !! path = Some k -> inodes a !! k = Some at0 ->
  same_type (a_mode at0) (m_mode m) ->
  represents (files (pdb_tables (db (op_core d m)))) a /\ m_result (msg (op_core d m)) = RESULT_SUCCEED.
Proof.
  intros Hop Hn Hin Hty. destruct (core_exact at0 Hn Hin Hty) as (r & Hr & ->).
  set (s := op_exact' d (succ_msg m) path r). pose proof (succ_request _ _ _ _ R) as R'.
  destruct (cancel_unlink_tables d (succ_msg m) (request_pathlen _ _ _ _ R')) as (p & He & _ & Ht).
  assert (op_dispatch s = with_db p s) as ->
    by (unfold s, op_dispatch, op_exact', call; cbn [msg db]; by rewrite succ_op, Hop, He).
  destruct (unlinked_fd_represents (with_db p s) a) as [H1 H2].
  - change (db (with_db p s)) with p. rewrite Ht. by apply rep_same_rows.
  - split; [done|]. rewrite H2. by destruct m as [[]].
Qed.

(** Notices: the file system stays as it is. *)
Definition notice (o : pseudo_op_t) : bool :=
  match o with OP_CHDIR | OP_CLOSE | OP_EXEC | OP_OPEN => true | _ => false end.

Lemma core_notice :
  notice o = true ->
  (names a !! path = None /\ inodes a !! k = None) \/
  (names a !! path = Some k /\ exists at0, inodes a !! k = Some at0 /\ same_type (a_mode at0) (m_mode m)) ->
  represents (files (pdb_tables (db (op_core d m)))) a /\ m_result (msg (op_core d m)) = RESULT_SUCCEED.
Proof.
  assert (forall s, m_op (msg s) = o -> notice o = true -> op_unlinked_fd (op_dispatch s) = s) as Hid.
  { intros s Hs Hno. unfold op_dispatch. rewrite Hs. unfold op_unlinked_fd. destruct o; try done; by rewrite Hs. }
  intros Hno [[Hn Hin]|(Hn & at0 & Hin & Hty)].
  - rewrite core_none by done. rewrite Hid; [|by apply succ_op|done]. split; [done|]. by destruct m as [[]].
  - destruct (core_exact at0 Hn Hin Hty) as (r & _ & ->). rewrite Hid; [|by apply succ_op|done].
    split; [done|]. by destruct m as [[]].
Qed.

(** Opening a known file again with [O_CREAT] changes nothing. *)
Lemma core_creat_known at0 :
  o = OP_CREAT -> names a !! path = Some k -> inodes a !! k = Some at0 -> same_type (a_mode at0) (m_mode m) ->
  represents (files (pdb_tables (db (op_core d m)))) a /\ m_result (msg (op_core d m)) = RESULT_SUCCEED.
Proof.
  intros Hop Hn Hin Hty. destruct (core_exact at0 Hn Hin Hty) as (r & Hr & ->).
  set (s := op_exact' d (succ_msg m) path r).
  assert (op_dispatch s = s) as ->
    by (unfold s, op_dispatch, op_exact'; cbn [msg]; by rewrite succ_op, Hop).
  destruct (unlinked_fd_represents s a) as [H1 H2]; [done|].
  split; [done|]. rewrite H2. by destruct m as [[]].
Qed.

(** Making a node where the database still knows one replaces the inode. *)
Lemma core_remake at0 :
  (o = OP_MKDIR \/ o = OP_MKNOD) -> names a !! path = Some k -> inodes a !! k = Some at0 ->
  same_type (a_mode at0) (m_mode m) ->
  represents (files (pdb_tables (db (op_core d m)))) (fs_create path k (msg_attrs m) (fs_unlink_inode k a)) /\
  m_result (msg (op_core d m)) = RESULT_SUCCEED.
Proof.
  intros Hop Hn Hin Hty. destruct (core_exact at0 Hn Hin Hty) as (r & Hr & ->).
  set (s := op_exact' d (succ_msg m) path r).
  assert (op_dispatch s = op_mknod s) as ->
    by (unfold s, op_dispatch; cbn [msg op_exact']; rewrite succ_op; by destruct Hop as [-> | ->]).
  pose proof (succ_request _ _ _ _ R) as R'.
  pose proof (request_pathlen _ _ _ _ R') as Hpl. pose proof (request_path_str _ _ _ _ R') as Hps.
  set (mi := as_msg (hdr (read_attrs r (succ_msg m)))).
  destruct (unlink_file_tables d (succ_msg m) Hpl) as (p1 & E1 & _ & T1). rewrite Hps in T1.
  destruct (unlink_file_dev_tables p1 mi) as (p2 & E2 & _ & T2).
  destruct (link_file_tables p2 (succ_msg m)) as (p3 & E3 & _ & T3).
  assert (db (op_mknod s) = p3 /\ msg (op_mknod s) = succ_msg m) as [Hdb Hmsg].
  { unfold s, op_mknod, op_exact', call. cbn [found_path msg db]. rewrite E1. cbn [fst with_db found_ino by_ino db].
    fold mi. rewrite E2. cbn [fst with_db with_msg msg msg_header db].
    assert (assign (succ_msg m) (hdr (succ_msg m)) = succ_msg m) as -> by (by destruct m as [[]]).
    by rewrite E3. }
  set (a1 := fs_unlink path k (has_other_name a path k) a).
  assert (files (pdb_tables p1) = tdelete (path_is path) (files (pdb_tables d))) as F1 by (by rewrite T1).
  assert (represents (files (pdb_tables p1)) a1) as R1
    by (rewrite F1; apply rep_delete_path; [done|done|by apply has_other_name_spec]).
  assert ((m_dev mi, m_ino mi) = k) as Hmi by (rewrite <- succ_key; unfold mi; by destruct m as [[]]).
  assert (represents (files (pdb_tables p2)) (fs_unlink_inode k a)) as R2.
  { rewrite T2. cbn [drop_xattrs delete_files files].
    rewrite <- (unlink_inode_after_unlink path k (has_other_name a path k) a Hn). fold a1.
    pose proof (req_key_ok _ _ _ _ R) as Hkey. rewrite <- Hmi in Hkey |- *.
    apply rep_delete_inode; [done| |done]. rewrite F1. by apply rows_ok_tdelete. }
  destruct (unlinked_fd_represents (op_mknod s) (fs_create path k (msg_attrs m) (fs_unlink_inode k a))) as [H1 H2].
  - rewrite Hdb, T3. cbn [files].
    destruct (link_row_request (msg_attrs m) (req_key _ _ _ _ R) (req_attrs _ _ _ _ R) eq_refl) as (Hp & Hk & Ha).
    assert (link_row (succ_msg m) = link_row m) as -> by (by destruct m as [[]]).
    replace (fs_create path k) with (fs_create (f_path (link_row m)) (key_of (link_row m))) by congruence.
    apply (rep_insert _ _ R2); [| |done].
    + rewrite Hp. unfold fs_unlink_inode. cbn [names]. apply map_lookup_filter_None. right. intros k' Hk'.
      simpl. naive_solver congruence.
    + left. rewrite Hk. unfold fs_unlink_inode. cbn [inodes]. by rewrite lookup_delete_eq.
  - split; [done|]. rewrite H2, Hmsg. by destruct m as [[]].
Qed.
End Core.

(** ** Renaming

    The message carries both paths, the new one first. *)
Record rename_request (m : pseudo_msg_t) (old new : bytes) (k : key) : Prop := {
  ren_op : m_op m = OP_RENAME;
  ren_old : path_ok old /\ last old <> Some slash;
  ren_new : path_ok new /\ last new <> Some slash;
  ren_mem : exists rest, m_path m = new ++ NUL :: old ++ NUL :: rest;
  ren_pathlen : m_pathlen m = Z.of_nat (length new) + Z.of_nat (length old) + 2 /\ m_pathlen m < 2 ^ 31;
  ren_key : (m_dev m, m_ino m) = k;
  ren_key_ok : key_ok k;
  ren_attrs : attrs_ok (msg_attrs m)
}.

Section Rename.
Context {E : SqlEngine} {L : SqlLaws E} {RL : SqlReliable E} {PM : PathMax} {SC : ServerConfig}.
Context (d : pdb) (a : fs) (m : pseudo_msg_t) (old new : bytes) (k : key).
Context (Hrep : represents (files (pdb_tables d)) a) (Hok : rows_ok (files (pdb_tables d))).
Context (R : rename_request m old new k).

Definition renamed_msg : pseudo_msg_t := set_pathlen (Z.of_nat (length new)) (succ_msg m).

Lemma last_byte (l : bytes) : l <> [] -> last l <> Some slash ->
  exists c, l !! (length l - 1)%nat = Some c /\ c <> slash.
Proof.
  intros Hne Hs. rewrite last_lookup in Hs. destruct (lookup_lt_is_Some_2 l (length l - 1)) as [c Hc].
  - destruct l; [done|simpl; lia].
  - exists c. split; [done|]. intros ->. apply Hs. by replace (pred (length l)) with (length l - 1)%nat by lia.
Qed.

Lemma byte_at_lookup mm i c : m_path mm !! i = Some c -> Z.of_nat i < 2 ^ 31 -> byte_at mm (Z.of_nat i) = c.
Proof.
  intros Hl Hi. unfold byte_at. rewrite wrap_unsigned_small by lia.
  pose proof (lookup_lt_Some _ _ _ Hl). rewrite (proj2 (Z.ltb_lt _ _)) by lia. by rewrite Nat2Z.id, Hl.
Qed.

Lemma rename_ready :
  op_strip_slash (op_stash (op_split_paths (op_start d m))) =
  with_oldpath (Some (Z.of_nat (length new) + 1)) (Z.of_nat (length old)) (op_ready d renamed_msg).
Proof.
  destruct R as [Hop [(Ho & Hon & _ & _) Hos] [(Hn & Hnn & _ & Hnl) Hns] [rest Hmem] [Hlen Hlt] _ _ _].
  assert (m_op (succ_msg m) = OP_RENAME /\ m_pathlen (succ_msg m) = m_pathlen m /\
    m_path (succ_msg m) = m_path m) as (Hop' & Hl & Hp) by (by destruct m as [[]]).
  assert (strlen (m_path m) = length new) as Hstr by (rewrite Hmem; unfold strlen; by rewrite c_str_app_nul).
  unfold op_split_paths, op_start. fold (succ_msg m). cbn [msg]. rewrite Hop', Hl, Hp, Hstr.
  assert (negb (m_pathlen m =? 0) && has_two_paths OP_RENAME = true) as ->
    by (simpl; rewrite andb_true_r; apply negb_true_iff, Z.eqb_neq; lia).
  destruct (last_byte old Ho Hos) as (c & Hc & Hcs). destruct (last_byte new Hn Hns) as (c' & Hc' & Hcs').
  assert (0 < length old /\ 0 < length new)%nat as [? ?] by (split; [destruct old|destruct new]; simpl; done || lia).
  replace (uint64 (m_pathlen m - (Z.of_nat (length new) + 1) - 1)) with (Z.of_nat (length old))
    by (rewrite wrap_unsigned_small; lia).
  rewrite (proj2 (Z.ltb_lt 0 (Z.of_nat (length old)))) by lia.
  rewrite bool_decide_eq_true_2 by done. cbn [andb].
  replace (Z.of_nat (length new) + 1 + Z.of_nat (length old) - 1)
    with (Z.of_nat (length new + 1 + (length old - 1))) by lia.
  rewrite decide_False.
  2:{ rewrite (byte_at_lookup _ _ c); [done| |lia]. rewrite Hp, Hmem.
      rewrite lookup_app_r by lia. replace (_ - _)%nat with (S (length old - 1)) by lia. simpl.
      rewrite lookup_app_l by (apply lookup_lt_is_Some; eauto). done. }
  rewrite wrap_unsigned_small by lia. fold renamed_msg.
  assert (m_path renamed_msg = m_path m /\ m_pathlen renamed_msg = Z.of_nat (length new)) as [Hp2 Hl2]
    by (unfold renamed_msg; by destruct m as [[]]).
  unfold op_stash, with_oldpath, with_msg, with_header, op_strip_slash. cbn [msg]. rewrite Hl2.
  destruct (negb _); [|done].
  rewrite decide_False; [done|]. replace (_ - 1) with (Z.of_nat (length new - 1)) by lia.
  rewrite (byte_at_lookup _ _ c'); [done| |lia]. rewrite Hp2, Hmem.
  by rewrite lookup_app_l by (apply lookup_lt_is_Some; eauto).
Qed.

Lemma renamed_request : request renamed_msg OP_RENAME new k.
Proof.
  destruct R as [Hop _ [Hn _] [rest Hmem] _ Hk Hkey Ha]. unfold renamed_msg.
  assert (0 < Z.of_nat (length new)) by (destruct Hn; destruct new; simpl; done || lia).
  destruct m as [[]]; simpl in *. constructor; try done. by eexists.
Qed.

Lemma lookup_oldpath o l s : op_lookup (with_oldpath o l s) = with_oldpath o l (op_lookup s).
Proof.
  unfold op_lookup.
  assert (op_lookup_exact (with_oldpath o l s) = with_oldpath o l (op_lookup_exact s)) as ->.
  { destruct s as [d0 m0 h0 bp0 bi0 dh0 pi0 op0 ol0 fp0 fi0 fe0 ts0 r0].
    unfold op_lookup_exact. cbn [with_oldpath msg db]. destruct (_ && _); [|done].
    cbn [db]. destruct (pdb_find_file_exact _ _) as [m' rc]. by destruct (rc =? 0). }
  generalize (op_lookup_exact s). clear s. intros s.
  assert (found_path (with_oldpath o l s) = found_path s /\ found_ino (with_oldpath o l s) = found_ino s)
    as [-> ->] by (by destruct s).
  destruct (_ && _); [|done].
  assert (op_lookup_path (with_oldpath o l s) = with_oldpath o l (op_lookup_path s)) as ->.
  { destruct s as [d0 m0 h0 bp0 bi0 dh0 pi0 op0 ol0 fp0 fi0 fe0 ts0 r0].
    unfold op_lookup_path. cbn [with_oldpath msg]. destruct (negb _); [|done].
    cbn [db]. destruct (pdb_find_file_path _ _) as [m' rc]. by destruct (rc =? 0). }
  generalize (op_lookup_path s). clear s. intros s.
  destruct s as [d0 m0 h0 bp0 bi0 dh0 pi0 op0 ol0 fp0 fi0 fe0 ts0 r0].
    unfold op_lookup_dev. cbn [with_oldpath msg]. destruct (_ && _); [|done].
  cbn [db by_ino path_by_ino]. destruct (pdb_find_file_dev _ _ _) as [[m' p] rc]. by destruct (rc =? 0).
Qed.

Lemma renamed_checks o l r :
  same_type (a_mode (attrs_of r)) (m_mode m) ->
  (m_nlink m = 1 -> f_path r = c_str (drop (Z.to_nat (Z.of_nat (length new) + 1)) (m_path m))) ->
  o = Some (Z.of_nat (length new) + 1) ->
  op_check_ino (op_check_path (with_oldpath o l (op_by_ino d renamed_msg r))) =
  inl (with_oldpath o l (op_by_ino d renamed_msg r)).
Proof.
  intros Hty Hnl ->. destruct R as [Hop _ _ _ _ _ _ _].
  apply same_type_no_mismatch in Hty.
  assert (m_op renamed_msg = OP_RENAME /\ m_nlink renamed_msg = m_nlink m /\ m_path renamed_msg = m_path m /\
    m_mode (read_attrs r renamed_msg) = a_mode (attrs_of r) /\ m_mode renamed_msg = m_mode m)
    as (Hop' & Hnl' & Hp' & Hm' & Hmm') by (unfold renamed_msg; by destruct m as [[]]).
  set (s := with_oldpath _ _ _).
  assert (op_check_path s = s) as -> by done.
  assert (path_mismatch s (f_path r) = false) as Hmis.
  { unfold path_mismatch, s, op_by_ino. cbn [with_oldpath msg]. rewrite Hop', Hnl'.
    destruct (Z.eqb_spec (m_nlink m) 1) as [H1|]; [|done]. cbn [andb]. apply negb_false_iff, bool_decide_eq_true.
    unfold oldpath_mem. cbn [oldpath msg fmap option_fmap option_map default from_option]. rewrite Hp'. symmetry. by apply Hnl. }
  unfold op_check_ino. rewrite (eq_refl : path_by_ino s = Some (f_path r)), (eq_refl : msg s = renamed_msg).
  rewrite Hmis, Hop'. rewrite bool_decide_eq_false_2 by done. rewrite andb_false_r. cbn [andb].
  assert (op_check_ino_type s = s) as ->.
  { unfold op_check_ino_type, s, op_by_ino. cbn [with_oldpath by_ino msg_header].
    change (m_mode (hdr (read_attrs r renamed_msg))) with (m_mode (read_attrs r renamed_msg)).
    change (m_mode (hdr renamed_msg)) with (m_mode renamed_msg). by rewrite Hm', Hmm', Hty. }
  by destruct (_ && _).
Qed.

(** A renamed file that has nothing below it. *)
Lemma core_rename at0 :
  names a !! old = Some k -> names a !! new = None -> inodes a !! k = Some at0 ->
  same_type (a_mode at0) (m_mode m) -> no_names_below a old -> ~ is_below old new ->
  (m_nlink m = 1 -> forall p, names a !! p = Some k -> p = old) ->
  represents (files (pdb_tables (db (op_core d m)))) (fs_rename old new k a) /\
  m_result (msg (op_core d m)) = RESULT_SUCCEED.
Proof.
  intros Hold Hnew Hin Hty Hbelow Hnb Hnl. pose proof renamed_request as R'.
  pose proof (request_path_str _ _ _ _ R') as Hps. pose proof (request_pathlen _ _ _ _ R') as Hpl.
  destruct (lookup_by_ino d a renamed_msg OP_RENAME new k Hrep Hok R' at0 Hnew Hin) as (r & Hr & _ & Hrn & Hlk).
  assert (c_str (drop (Z.to_nat (Z.of_nat (length new) + 1)) (m_path m)) = old) as Hoff.
  { destruct R as [_ [(_ & Hon & _) _] _ [rest ->] _ _ _ _].
    replace (Z.to_nat _) with (length new + 1)%nat by lia. rewrite <- drop_drop, drop_app_length.
    simpl. by apply c_str_app_nul. }
  unfold op_core, op_prepare. rewrite rename_ready, lookup_oldpath, Hlk.
  rewrite (renamed_checks _ _ r); [|by rewrite Hr|intros H1; rewrite Hoff; by apply Hnl|done].
  set (s := op_pick_header _).
  assert (db s = d /\ msg s = renamed_msg /\ oldpath s = Some (Z.of_nat (length new) + 1)) as (Hd & Hmsg & Hop).
  { unfold s, op_pick_header, op_by_ino. cbn [with_oldpath found_ino found_path msg negb andb].
    by rewrite orb_true_r. }
  assert (op_dispatch s = op_rename s) as ->.
  { unfold op_dispatch. rewrite Hmsg. assert (m_op renamed_msg = OP_RENAME) as -> by (by destruct R'). done. }
  clearbody s.
  assert (m_path renamed_msg = m_path m) as Hmp by (unfold renamed_msg; by destruct m as [[]]).
  destruct (rename_file_tables d (drop (Z.to_nat (Z.of_nat (length new) + 1)) (m_path m)) renamed_msg Hpl)
    as (p1 & E1 & _ & T1).
  destruct (update_inode_files p1 renamed_msg Hpl) as (p2 & E2 & T2 & _).
  assert (db (op_rename s) = p2 /\ msg (op_rename s) = renamed_msg) as [Hdb Hmsg'].
  { unfold op_rename, call. destruct s. simpl in *. subst. unfold oldpath_mem. simpl. rewrite Hmp, E1. simpl.
    by rewrite E2. }
  destruct (unlinked_fd_represents (op_rename s) (fs_rename old new k a)) as [H1 H2].
  - rewrite Hdb, T2, T1, Hps, Hoff.
    assert (files (rename_rows old new (pdb_tables d)) =
      tupdate (path_is old) (fun r => set_row_deleting 0 (set_row_path new r)) (files (pdb_tables d))) as HF.
    { apply rename_rows_leaf; [done|]. intros i r' Hi. apply (Hbelow _ (key_of r')).
      by apply (rep_name_of _ _ Hrep i). }
    assert (represents (files (rename_rows old new (pdb_tables d))) (fs_rename old new k a)) as HR
      by (rewrite HF; by apply rep_rename).
    destruct R as [_ _ _ _ _ Hkey Hkok _].
    assert (m_dev renamed_msg = m_dev m /\ m_ino renamed_msg = m_ino m) as [-> ->]
      by (unfold renamed_msg; by destruct m as [[]]).
    rewrite (same_inode_rows _ _ new (m_dev m) (m_ino m) HR); [done| |by rewrite Hkey|].
    + intros i r' Hi. rewrite HF in Hi. apply lookup_tupdate_Some in Hi as (r0 & Hi & ->).
      pose proof (Hok _ _ Hi) as Hr0. destruct (path_is old r0); [|done].
      destruct R' as [_ (_ & Hnn & _) _ _ _ _ _]. unfold file_ok in *. simpl. naive_solver eauto using in_int32_0.
    + rewrite Hkey. simpl. by rewrite lookup_insert_eq.
  - split; [done|]. rewrite H2, Hmsg'. unfold renamed_msg. by destruct m as [[]].
Qed.
End Rename.
