(* ===== verification/XattrRefine.v ===== *)
(** Extended attributes through the whole handler: what [pseudo_op] does with
    the messages that set an attribute and read one, for a file it knows. *)

From stdpp Require Import base gmap list fin_maps strings sets.
From Stdlib Require Import ZArith Lia Ascii.
From S2P Require Import Prelude Tables Modes Message Sql FileDb FileDbSpec Xattr XattrSpec LogDb ServerOp OpInvariant FsSpec OpRefine.

Open Scope Z_scope.

(** The path, a NUL, the name of the attribute, a NUL and whatever follows;
    [size] bytes of it, not counting the path, its NUL and the last NUL, belong
    to the message. *)
Record xattr_request (m : pseudo_msg_t) (o : pseudo_op_t) (path : bytes) (k : key) (name rest : bytes) (size : Z) : Prop := {
  xr_op : m_op m = o;
  xr_two : has_two_paths o = true /\ o <> OP_RENAME;
  xr_path : path_ok path /\ last path <> Some slash;
  xr_name : NUL ∉ name;
  xr_mem : m_path m = path ++ NUL :: name_and_value name rest;
  xr_pathlen : m_pathlen m = Z.of_nat (length path) + 2 + size /\ 0 <= size /\ m_pathlen m < 2 ^ 31;
  xr_key : (m_dev m, m_ino m) = k;
  xr_key_ok : key_ok k;
  xr_attrs : attrs_ok (msg_attrs m)
}.

Section XattrOp.
Context {E : SqlEngine} {L : SqlLaws E} {RL : SqlReliable E} {PM : PathMax} {SC : ServerConfig}.
Implicit Types (d : pdb).

(** The message after the name was split off. *)
Definition split_msg (m : pseudo_msg_t) (path : bytes) : pseudo_msg_t := set_pathlen (Z.of_nat (length path)) (succ_msg m).

Lemma split_request m o path k name rest size : xattr_request m o path k name rest size ->
  request (split_msg m path) o path k.
Proof.
  intros [Hop _ [Hp _] _ Hmem _ Hk Hkey Ha]. unfold split_msg.
  assert (0 < Z.of_nat (length path)) by (destruct Hp; destruct path; simpl; done || lia).
  destruct m as [[]]; simpl in *. constructor; try done. by eexists.
Qed.

Lemma xattr_ready d m o path k name rest size : xattr_request m o path k name rest size ->
  op_strip_slash (op_stash (op_split_paths (op_start d m))) =
  with_oldpath (Some (Z.of_nat (length path) + 1)) size (op_ready d (split_msg m path)).
Proof.
  intros [Hop [Htwo Hren] [(Hne & Hnul & _ & Hlt) Hsl] _ Hmem (Hlen & Hsz & Hmax) _ _ _].
  assert (m_op (succ_msg m) = o /\ m_pathlen (succ_msg m) = m_pathlen m /\ m_path (succ_msg m) = m_path m)
    as (Hop' & Hl & Hp) by (by destruct m as [[]]).
  assert (strlen (m_path m) = length path) as Hstr by (rewrite Hmem; unfold strlen; by rewrite c_str_app_nul).
  unfold op_split_paths, op_start. fold (succ_msg m). cbn [msg]. rewrite Hop', Hl, Hp, Hstr, Htwo.
  rewrite (proj2 (Z.eqb_neq (m_pathlen m) 0)) by lia. cbn [negb andb].
  replace (uint64 (m_pathlen m - (Z.of_nat (length path) + 1) - 1)) with size by (rewrite wrap_unsigned_small; lia).
  rewrite bool_decide_eq_false_2 by done. rewrite andb_false_r, wrap_unsigned_small by lia. fold (split_msg m path).
  assert (m_path (split_msg m path) = m_path m /\ m_pathlen (split_msg m path) = Z.of_nat (length path)) as [Hp2 Hl2]
    by (unfold split_msg; by destruct m as [[]]).
  unfold op_stash, with_oldpath, with_msg, with_header, op_strip_slash. cbn [msg]. rewrite Hl2.
  destruct (negb _); [|done]. destruct (last_byte path Hne Hsl) as (c & Hc & Hcs).
  assert (0 < length path)%nat by (destruct path; simpl; done || lia).
  rewrite decide_False; [done|]. replace (_ - 1) with (Z.of_nat (length path - 1)) by lia.
  rewrite (byte_at_lookup _ _ c); [done| |lia]. rewrite Hp2, Hmem.
  by rewrite lookup_app_l by (apply lookup_lt_is_Some; eauto).
Qed.

Section Known.
Context (d : pdb) (a : fs) (m : pseudo_msg_t) (o : pseudo_op_t) (path : bytes) (k : key) (name rest : bytes) (size : Z).
Context (Hrep : represents (files (pdb_tables d)) a) (Hok : rows_ok (files (pdb_tables d))).
Context (R : xattr_request m o path k name rest size).
Context (at0 : attrs) (Hn : names a !! path = Some k) (Hin : inodes a !! k = Some at0).
Context (Hty : same_type (a_mode at0) (m_mode m)).

(** A known file is found and passes the checks. *)
Lemma core_xattr : exists s,
  op_core d m = op_dispatch s /\ db s = d /\ msg s = split_msg m path /\ response s = None /\
  oldpath_mem s = Some (name_and_value name rest) /\ oldpathlen s = size.
Proof.
  pose proof (split_request _ _ _ _ _ _ _ R) as R'. unfold op_core, op_prepare.
  rewrite (xattr_ready d m o path k name rest size R), lookup_oldpath.
  destruct (lookup_exact d a (split_msg m path) o path k Hrep Hok R' at0 Hn Hin) as (r & Hr & ->).
  assert (m_mode (split_msg m path) = m_mode m) as Hmm by (unfold split_msg; by destruct m as [[]]).
  rewrite <- Hr, <- Hmm in Hty.
  set (s0 := op_exact d (split_msg m path) r path) in *.
  assert (op_check_ino (op_check_path (with_oldpath (Some (Z.of_nat (length path) + 1)) size s0)) =
    inl (with_oldpath (Some (Z.of_nat (length path) + 1)) size s0)) as ->.
  { assert (m_op (split_msg m path) = o) as Hop by (by destruct R').
    pose proof (request_path_str _ _ _ _ R') as Hps.
    apply same_type_no_mismatch in Hty.
    assert (m_mode (read_attrs r (split_msg m path)) = a_mode (attrs_of r) /\ m_ino (read_attrs r (split_msg m path)) = m_ino (split_msg m path))
      as [Hrm Hri] by (by destruct (split_msg m path) as [[]]). rewrite <- Hrm in Hty.
    set (s1 := with_oldpath _ _ s0).
    assert (op_check_path s1 = s1) as ->.
    { unfold op_check_path. destruct (_ && _); [|done].
      assert (op_check_path_ino s1 = s1) as ->.
      { unfold op_check_path_ino, s1, s0. cbn [with_oldpath by_path msg_header op_exact]. by rewrite Hri, Z.eqb_refl. }
      unfold s1, s0. cbn [with_oldpath by_path msg_header op_exact]. by rewrite Hty. }
    unfold op_check_ino. destruct (_ && _); [|done].
    assert (path_mismatch s1 path = false) as Hmis.
    { unfold path_mismatch. change (msg s1) with (split_msg m path). rewrite Hop, Hps.
      destruct (xr_two _ _ _ _ _ _ _ R) as [_ Hr']. destruct o; try done; by rewrite bool_decide_eq_true_2. }
    change (path_by_ino s1) with (Some path). cbn [path_by_ino]. rewrite Hmis, andb_false_r. cbn [andb].
    unfold op_check_ino_type, s1, s0. cbn [with_oldpath by_ino msg_header op_exact]. by rewrite Hty. }
  exists (op_pick_header (with_oldpath (Some (Z.of_nat (length path) + 1)) size s0)).
  assert (forall s, m_op (msg s) = o -> op_unlinked_fd s = s) as Hun.
  { intros s Hs. unfold op_unlinked_fd. rewrite Hs. destruct (xr_two _ _ _ _ _ _ _ R) as [H2 _]. by destruct o. }
  set (s2 := op_pick_header _).
  assert (db s2 = d /\ msg s2 = split_msg m path /\ response s2 = None /\
    oldpath s2 = Some (Z.of_nat (length path) + 1) /\ oldpathlen s2 = size) as (H1 & H2 & H3 & H4 & H5)
    by (unfold s2, op_pick_header; destruct (_ && _); done).
  split.
  - apply Hun. assert (m_op (msg s2) = o) as Hs2 by (rewrite H2; by destruct R').
    unfold op_dispatch. rewrite Hs2. destruct (xr_two _ _ _ _ _ _ _ R) as [Htwo Hr'].
    destruct o; try done; unfold op_get_xattr, op_list_xattr, op_set_xattr, op_remove_xattr, call, op_fail.
    all: repeat match goal with |- context [let '(_, _) := ?x in _] => destruct x as [? ?] end.
    all: try match goal with |- context [negb ?b] => destruct (negb b) end.
    all: rewrite <- Hs2; by destruct s2 as [? [[]] ? ? ? ? ? ? ? ? ? ? ? ?].
  - split; [done|]. split; [done|]. split; [done|]. split; [|done]. unfold oldpath_mem. rewrite H4, H2.
    cbn [fmap option_fmap option_map]. f_equal. assert (m_path (split_msg m path) = m_path m) as -> by (unfold split_msg; by destruct m as [[]]).
    rewrite (xr_mem _ _ _ _ _ _ _ R). replace (Z.to_nat _) with (length path + 1)%nat by lia.
    by rewrite <- drop_drop, drop_app_length.
Qed.

Lemma split_key : msg_dev (split_msg m path) = bind_int k.1 /\ msg_ino (split_msg m path) = signed_ino k.2.
Proof. destruct R as [_ _ _ _ _ _ <- _ _]. unfold split_msg. by destruct m as [[]]. Qed.

(** Setting: [rest] is the value and the final NUL. *)
Lemma core_setxattr val tail : o <> OP_GET_XATTR -> o <> OP_LIST_XATTR -> o <> OP_REMOVE_XATTR ->
  xattr_ids (pdb_tables d) -> xattr_unique (pdb_tables d) -> rest = val ++ tail ->
  size = Z.of_nat (length name) + 1 + Z.of_nat (length val) ->
  let s := op_core d m in
  files (pdb_tables (db s)) = files (pdb_tables d) /\ response s = None /\
  ((m_result (msg s) = RESULT_FAIL /\ db s = d /\ flag_refuses (pdb_tables d) (split_msg m path) name (xattr_flags o)) \/
   (m_result (msg s) = RESULT_SUCCEED /\ ~ flag_refuses (pdb_tables d) (split_msg m path) name (xattr_flags o) /\
    sets_xattr (pdb_tables d) (pdb_tables (db s)) (bind_int k.1) (signed_ino k.2) name val /\ xattr_unique (pdb_tables (db s)))).
Proof.
  intros Hg Hl Hrm Hids Huniq Hrest Hsize. cbv zeta. destruct core_xattr as (s & -> & Hdb & Hmsg & Hres & Hold & Holdlen).
  assert (m_op (msg s) = o) as Hop by (rewrite Hmsg; by destruct (split_request _ _ _ _ _ _ _ R)).
  assert (op_dispatch s = op_set_xattr s) as ->.
  { unfold op_dispatch. rewrite Hop. destruct (xr_two _ _ _ _ _ _ _ R) as [Htwo Hr']. by destruct o. }
  destruct split_key as [Hkd Hki]. pose proof (xr_key_ok _ _ _ _ _ _ _ R) as [Hd _].
  assert (m_dev (split_msg m path) = k.1) as Hdev by (destruct R as [_ _ _ _ _ _ <- _ _]; unfold split_msg; by destruct m as [[]]).
  pose proof (set_xattr_cases d (split_msg m path) name val tail (xattr_flags o) Hids Huniq (xr_name _ _ _ _ _ _ _ R)) as Hc.
  destruct Hc as (p' & rc & Heq & Hcase); [|rewrite Hdev; lia|].
  { pose proof (xr_pathlen _ _ _ _ _ _ _ R). lia. }
  unfold op_set_xattr. rewrite Hdb, Hmsg, Hold, Holdlen, Hsize. cbn [default from_option id].
  assert (m_op (split_msg m path) = o) as -> by (by rewrite <- Hmsg). rewrite Hrest, Heq.
  assert (m_result (split_msg m path) = RESULT_SUCCEED) as Hsr by (unfold split_msg; by destruct m as [[]]).
  destruct Hcase as [(-> & -> & Href)|(-> & Href & Hf & Hsets & Hu & _)]; cbn [Z.eqb negb].
  - unfold op_fail. destruct s as [? [[]] ? ? ? ? ? ? ? ? ? ? ? ?]. cbn in *. split; [done|]. split; [done|]. by left.
  - destruct s as [? ? ? ? ? ? ? ? ? ? ? ? ? ?]. cbn in *. subst. split; [done|]. split; [done|]. right.
    split; [done|]. split; [done|]. rewrite <- Hkd, <- Hki. by split.
Qed.

Lemma core_getxattr : o = OP_GET_XATTR -> xattr_unique (pdb_tables d) ->
  let s := op_core d m in db s = d /\
  (forall v, xattr_at (pdb_tables d) (bind_int k.1) (signed_ino k.2) name v -> v <> [] ->
     m_result (msg s) = RESULT_SUCCEED /\ response s = Some (v, Z.of_nat (length v))) /\
  (xattr_at (pdb_tables d) (bind_int k.1) (signed_ino k.2) name [] \/
   (forall v, ~ xattr_at (pdb_tables d) (bind_int k.1) (signed_ino k.2) name v) ->
     m_result (msg s) = RESULT_FAIL /\ response s = None).
Proof.
  intros Ho Huniq. cbv zeta. destruct core_xattr as (s & -> & Hdb & Hmsg & Hres & Hold & Holdlen).
  assert (m_op (msg s) = o) as Hop by (rewrite Hmsg; by destruct (split_request _ _ _ _ _ _ _ R)).
  assert (op_dispatch s = op_get_xattr s) as -> by (unfold op_dispatch; by rewrite Hop, Ho).
  destruct split_key as [Hkd Hki].
  destruct (get_xattr_cases d (split_msg m path) name rest size Huniq (xr_name _ _ _ _ _ _ _ R)) as [Hyes Hno].
  assert (m_result (split_msg m path) = RESULT_SUCCEED) as Hsr by (unfold split_msg; by destruct m as [[]]).
  rewrite Hkd, Hki in Hyes. unfold has_attr in Hno. rewrite Hkd, Hki in Hno.
  unfold op_get_xattr. rewrite Hdb, Hmsg, Hold, Holdlen. unfold name_and_value in *.
  destruct s as [d0 m0 ? ? ? ? ? ? ? ? ? ? ? r0]. cbn in Hdb, Hmsg, Hres. subst d0 m0 r0.
  split; [|split].
  - destruct (pdb_get_xattr _ _ _ _) as [[v l] rc]. by destruct (negb _).
  - intros v Hv Hne. rewrite (Hyes v Hv), decide_False by done. done.
  - intros Hall. assert (exists v l, pdb_get_xattr d (split_msg m path) (Some (name ++ NUL :: rest)) size = (v, l, 1)) as (v & l & ->).
    { destruct Hall as [Hv|Hnone]; [rewrite (Hyes [] Hv); eauto|rewrite Hno; [eauto|]]. intros [v Hv]. by apply (Hnone v). }
    cbn [Z.eqb negb]. unfold op_fail. cbn. split; [by destruct (split_msg m path) as [[]]|done].
Qed.
End Known.

Lemma op_exit_keeps s pr tg : let t := op_exit s pr tg in
  files (pdb_tables (db t)) = files (pdb_tables (db s)) /\ xattrs (pdb_tables (db t)) = xattrs (pdb_tables (db s)) /\
  msg t = msg s /\ response t = response s.
Proof.
  cbv zeta. unfold op_exit. destruct opt_l; [|done]. unfold call.
  assert (files (pdb_tables (pdb_log_msg (db s) now SEVERITY_INFO (Some (msg s)) pr tg None).1) = files (pdb_tables (db s)) /\
    xattrs (pdb_tables (pdb_log_msg (db s) now SEVERITY_INFO (Some (msg s)) pr tg None).1) = xattrs (pdb_tables (db s))) as [H1 H2].
  { unfold pdb_log_msg, log_insert. rewrite log_db_is_open, prepared. cbn [negb]. run_step T. cbn [fst]. by rewrite T. }
  destruct (pdb_log_msg _ _ _ _ _ _ _) as [d' rc]. by destruct s.
Qed.
End XattrOp.
