(* ===== verification/Refine.v ===== *)
(** The contract of the server and its proof: [fs_step] says what each request
    does to the abstract file system and what the reply is; [pseudo_op] on a
    database that represents the file system does the same. *)

From stdpp Require Import base gmap list fin_maps strings sets.
From Stdlib Require Import ZArith Lia Ascii.
From S2P Require Import Prelude Tables Modes Message Sql FileDb FileDbSpec Xattr LogDb ServerOp OpInvariant FsSpec OpRefine.

Open Scope Z_scope.

(** ** The abstract server *)

Inductive fs_request :=
| Req (o : pseudo_op_t) (path : bytes) (k : key) (at_ : attrs) (nlink : Z)
| RenameReq (old new : bytes) (k : key) (at_ : attrs) (nlink : Z).

(** How a message carries a request. *)
Definition carries (m : pseudo_msg_t) (q : fs_request) : Prop :=
  match q with
  | Req o path k at_ nlink =>
      request m o path k /\ m_pathlen m = Z.of_nat (length path) + 1 /\ has_two_paths o = false /\
      msg_attrs m = at_ /\ m_nlink m = nlink
  | RenameReq old new k at_ nlink =>
      rename_request m old new k /\ msg_attrs m = at_ /\ m_nlink m = nlink
  end.

(** The file is known under this name and inode, and the type it has on disk
    is the one on record. *)
Definition known (a : fs) (path : bytes) (k : key) (disk at0 : attrs) : Prop :=
  names a !! path = Some k /\ inodes a !! k = Some at0 /\ same_type (a_mode at0) (a_mode disk).

Definition unknown (a : fs) (path : bytes) (k : key) : Prop :=
  names a !! path = None /\ inodes a !! k = None.

Definition is_chmod (o : pseudo_op_t) : bool := match o with OP_CHMOD | OP_FCHMOD => true | _ => false end.
Definition is_chown (o : pseudo_op_t) : bool := match o with OP_CHOWN | OP_FCHOWN => true | _ => false end.
Definition is_stat (o : pseudo_op_t) : bool := match o with OP_STAT | OP_FSTAT => true | _ => false end.
Definition is_make (o : pseudo_op_t) : bool := match o with OP_MKDIR | OP_MKNOD => true | _ => false end.

(** One request: the new file system, the result, the attributes of the reply
    where the reply reports them. *)
Inductive fs_step {SC : ServerConfig} (a : fs) : fs_request -> fs -> Z -> option attrs -> Prop :=
| step_create o path k at_ n : creates o = true -> unknown a path k ->
    fs_step a (Req o path k at_ n) (fs_create path k at_ a) RESULT_SUCCEED None
| step_creat_known path k at_ n at0 : known a path k at_ at0 ->
    fs_step a (Req OP_CREAT path k at_ n) a RESULT_SUCCEED None
| step_remake o path k at_ n at0 : is_make o = true -> known a path k at_ at0 ->
    fs_step a (Req o path k at_ n) (fs_create path k at_ (fs_unlink_inode k a)) RESULT_SUCCEED None
| step_link path k at_ n at0 :
    names a !! path = None -> inodes a !! k = Some at0 -> same_type (a_mode at0) (a_mode at_) ->
    fs_step a (Req OP_LINK path k at_ n) (fs_link path k a) RESULT_SUCCEED None
| step_chmod o path k at_ n at0 : is_chmod o = true -> known a path k at_ at0 ->
    fs_step a (Req o path k at_ n)
      (fs_set_attrs k (mkAttrs (a_uid at0) (a_gid at0) (merge_mode (a_mode at_) (a_mode at0)) (a_rdev at0)) a)
      RESULT_SUCCEED None
| step_chown o path k at_ n at0 : is_chown o = true -> known a path k at_ at0 ->
    fs_step a (Req o path k at_ n)
      (fs_set_attrs k (mkAttrs (a_uid at_) (a_gid at_) (a_mode at0) (a_rdev at0)) a)
      RESULT_SUCCEED None
| step_stat o path k at_ n at0 : is_stat o = true -> known a path k at_ at0 ->
    PSEUDO_XATTRDB = false \/ a_uid at0 <> NO_ID \/ a_gid at0 <> NO_ID ->
    fs_step a (Req o path k at_ n) a RESULT_SUCCEED (Some at0)
| step_stat_unknown o path k at_ n : is_stat o = true -> unknown a path k ->
    fs_step a (Req o path k at_ n) a RESULT_FAIL None
| step_unlink path k at_ n at0 : known a path k at_ at0 -> no_names_below a path ->
    fs_step a (Req OP_UNLINK path k at_ n)
      (if n =? 1 then fs_unlink_inode k a else fs_unlink path k (has_other_name a path k) a)
      RESULT_NONE None
| step_may_unlink path k at_ n at0 : known a path k at_ at0 ->
    fs_step a (Req OP_MAY_UNLINK path k at_ n) a RESULT_SUCCEED None
| step_may_unlink_unknown path k at_ n : unknown a path k ->
    fs_step a (Req OP_MAY_UNLINK path k at_ n) a RESULT_FAIL None
| step_cancel path k at_ n at0 : known a path k at_ at0 ->
    fs_step a (Req OP_CANCEL_UNLINK path k at_ n) a RESULT_SUCCEED None
| step_notice_known o path k at_ n at0 : notice o = true -> known a path k at_ at0 ->
    fs_step a (Req o path k at_ n) a RESULT_SUCCEED None
| step_notice_unknown o path k at_ n : notice o = true -> unknown a path k ->
    fs_step a (Req o path k at_ n) a RESULT_SUCCEED None
| step_rename old new k at_ n at0 : known a old k at_ at0 ->
    names a !! new = None -> no_names_below a old -> ~ is_below old new ->
    (n = 1 -> forall p, names a !! p = Some k -> p = old) ->
    fs_step a (RenameReq old new k at_ n) (fs_rename old new k a) RESULT_SUCCEED None.

(** Attributes within the widths the columns keep. *)
Definition fs_ok (a : fs) : Prop := forall k at_, inodes a !! k = Some at_ -> attrs_ok at_.

Lemma carries_attrs_ok m q : carries m q ->
  match q with Req _ _ _ at_ _ | RenameReq _ _ _ at_ _ => attrs_ok at_ end.
Proof.
  destruct q; simpl; [intros (R & _ & _ & <- & _)|intros (R & <- & _)]; by destruct R.
Qed.

Lemma fs_ok_insert k at_ a b : attrs_ok at_ -> fs_ok a -> inodes b = <[k := at_]> (inodes a) -> fs_ok b.
Proof. intros Hat Ha Hb k' at' Hk. rewrite Hb in Hk. apply lookup_insert_Some in Hk as [[_ <-]|[_ Hk]]; eauto. Qed.

Lemma fs_ok_delete k a b : fs_ok a -> inodes b = delete k (inodes a) -> fs_ok b.
Proof. intros Ha Hb k' at' Hk. rewrite Hb in Hk. apply lookup_delete_Some in Hk as [_ Hk]. eauto. Qed.

Lemma fs_step_ok `{ServerConfig} a q a' res oat m :
  carries m q -> fs_step a q a' res oat -> fs_ok a -> fs_ok a'.
Proof.
  intros Hc%carries_attrs_ok Hst Ha. destruct Hst; try done.
  all: try (destruct H1 as (? & Hin & ?) || destruct H0 as (? & Hin & ?)).
  - by eapply fs_ok_insert.
  - eapply fs_ok_insert; [done| |done]. by eapply fs_ok_delete.
  - apply Ha in Hin as (? & ? & ? & ?). eapply fs_ok_insert; [|done|done].
    split; [done|]. split; [done|]. split; [by apply (merge_mode_bounds 31)|done].
  - apply Ha in Hin as (? & ? & ? & ?). eapply fs_ok_insert; [|done|done].
    destruct Hc as (? & ? & ? & ?). split; [done|]. split; [done|]. by split.
  - destruct (n =? 1); [by eapply fs_ok_delete|].
    destruct (has_other_name a path k) eqn:Hh; [|eapply fs_ok_delete; [done|]; unfold fs_unlink; done].
    done.
Qed.

(** ** Simulation *)

Section Simulation.
Context {E : SqlEngine} {L : SqlLaws E} {RL : SqlReliable E} {PM : PathMax} {SC : ServerConfig}.

Definition server_represents (d : pdb) (a : fs) : Prop :=
  tables_ok (pdb_tables d) /\ represents (files (pdb_tables d)) a /\ fs_ok a.

(** The reply shows the result, and the attributes where there are some. *)
Definition replies (m : pseudo_msg_t) (res : Z) (oat : option attrs) : Prop :=
  m_result m = res /\ forall at_, oat = Some at_ -> msg_attrs m = at_.

Ltac which o := destruct o; first [done | by left | by right].

Lemma core_simulates d a m q a' res oat :
  represents (files (pdb_tables d)) a -> rows_ok (files (pdb_tables d)) -> fs_ok a ->
  carries m q -> fs_step a q a' res oat ->
  represents (files (pdb_tables (db (op_core d m)))) a' /\ replies (msg (op_core d m)) res oat.
Proof.
  intros Hrep Hok Hfs Hc Hst. unfold replies.
  destruct Hst; cbn [carries] in Hc;
    try (destruct Hc as (R & Hl & Ho & <- & <-)); try (destruct Hc as (R & <- & <-));
    try match goal with Hk : known _ _ _ _ _ |- _ => destruct Hk as (Hn & Hin & Hty) end;
    try match goal with Hk : unknown _ _ _ |- _ => destruct Hk as [Hn Hin] end;
    cbn [msg_attrs a_mode a_uid a_gid] in *.
  - destruct (core_create d a m o path k Hrep Hok R Ho Hl) as [? ?]; done.
  - destruct (core_creat_known d a m _ path k Hrep Hok R Ho Hl at0) as [? ?]; done.
  - destruct (core_remake d a m o path k Hrep Hok R Ho Hl at0) as [? ?]; try done.
    which o.
  - destruct (core_link d a m _ path k Hrep Hok R Ho Hl at0) as [? ?]; done.
  - destruct (core_chmod d a m o path k Hrep Hok R Ho Hl at0) as [? ?]; try done.
    + which o.
    + by apply (Hfs _ _ Hin).
  - destruct (core_chown d a m o path k Hrep Hok R Ho Hl at0) as [? ?]; try done.
    which o.
  - destruct (core_stat_known d a m o path k Hrep Hok R Ho Hl at0) as (? & ? & ?); try done.
    + which o.
    + split; [done|]. split; [done|]. by intros at_ [= <-].
  - destruct (core_stat_unknown d a m o path k Hrep Hok R Ho Hl) as [? ?]; try done.
    which o.
  - destruct (core_unlink d a m _ path k Hrep Hok R Ho Hl) as [? ?]; try done. by exists at0.
  - destruct (core_may_unlink_known d a m _ path k Hrep Hok R Ho Hl) as [? ?]; try done. by exists at0.
  - destruct (core_may_unlink_unknown d a m _ path k Hrep Hok R Ho Hl) as [? ?]; done.
  - destruct (core_cancel d a m _ path k Hrep Hok R Ho Hl at0) as [? ?]; done.
  - destruct (core_notice d a m o path k Hrep Hok R Ho Hl) as [? ?]; try done. right. split; [done|]. by exists at0.
  - destruct (core_notice d a m o path k Hrep Hok R Ho Hl) as [? ?]; try done. by left.
  - destruct (core_rename d a m old new k Hrep Hok R at0) as [? ?]; try done.
Qed.

(** One request on a server that represents [a]. *)
Lemma op_simulates d a m q a' res oat pr tg :
  server_represents d a -> carries m q -> fs_step a q a' res oat ->
  server_represents (db (pseudo_op d m pr tg).1) a' /\ replies (msg (pseudo_op d m pr tg).1) res oat.
Proof.
  intros (Ht & Hrep & Hfs) Hc Hst.
  assert (rows_ok (files (pdb_tables d))) as Hok by (intros i r Hi; by apply (proj1 Ht i)).
  destruct (core_simulates d a m q a' res oat Hrep Hok Hfs Hc Hst) as [Hrep' Hrpl].
  destruct (pseudo_op_core d m pr tg) as [Hf ->]. split; [|done]. split; [|split].
  - apply pseudo_op_ok; [|done].
    destruct q as [o p k at_ n|o p k at_ n]; destruct Hc as (R & _);
      destruct R; subst k; match goal with H : key_ok _ |- _ => destruct H as [_ Hi] end;
      simpl in Hi; unfold in_uint64; lia.
  - by rewrite Hf.
  - by eapply fs_step_ok.
Qed.

(** A session: messages served one after the other. *)
Fixpoint serve (d : pdb) (ms : list pseudo_msg_t) : pdb * list pseudo_msg_t :=
  match ms with
  | [] => (d, [])
  | m :: ms =>
      let s := (pseudo_op d m None None).1 in
      let '(d', rs) := serve (db s) ms in (d', msg s :: rs)
  end.
End Simulation.

Inductive fs_steps {SC : ServerConfig} (a : fs) : list fs_request -> fs -> list (Z * option attrs) -> Prop :=
| steps_nil : fs_steps a [] a []
| steps_cons q a1 res oat qs a2 out :
    fs_step a q a1 res oat -> fs_steps a1 qs a2 out -> fs_steps a (q :: qs) a2 ((res, oat) :: out).

(** ** Properties *)

(** C1: the server implements the abstract file system.  Start from a
    database that represents [a]; send any sequence of messages that carry
    requests the abstract file system can perform.  The database then
    represents the file system after these steps, and every reply carries the
    result and the attributes the abstract step prescribes: names are created,
    linked, renamed and removed, owner and mode changes hit the inode under
    all its names, and nothing else changes. *)
Theorem server_refines_fs {E : SqlEngine} {L : SqlLaws E} {RL : SqlReliable E} {PM : PathMax} {SC : ServerConfig}
    (qs : list fs_request) (ms : list pseudo_msg_t) d a a' out :
  server_represents d a -> Forall2 carries ms qs -> fs_steps a qs a' out ->
  server_represents (serve d ms).1 a' /\
  Forall2 (fun m ro => replies m ro.1 ro.2) (serve d ms).2 out.
Proof.
  revert ms d a out. induction qs as [|q qs IH]; intros ms d a out Hd Hm Hst; inversion Hst; subst; clear Hst.
  - inversion Hm; subst. by split.
  - inversion Hm as [|m q0 ms' qs0 Hc Hm' Heq1 Heq2]; subst. cbn [serve].
    match goal with H : fs_step _ _ _ _ _ |- _ =>
      destruct (op_simulates d a m _ _ _ _ None None Hd Hc H) as [Hd1 Hr] end.
    match goal with H : fs_steps _ _ _ _ |- _ => specialize (IH _ _ _ _ Hd1 Hm' H) end.
    destruct (serve _ _) as [d' rs]. destruct IH as [IH1 IH2]. split; [done|]. by constructor.
Qed.

(** What the emulation is for: after [chown] of a file under one of its
    names, [stat] under any of its names reports the new owner and group with
    the mode and device number it had, whatever the file's owner on disk. *)
Theorem chown_seen_by_stat {E : SqlEngine} {L : SqlLaws E} {RL : SqlReliable E} {PM : PathMax} {SC : ServerConfig}
    d a p1 p2 k at0 o1 at1 n1 m1 o2 at2 n2 m2 pr tg :
  server_represents d a -> names a !! p1 = Some k -> names a !! p2 = Some k -> inodes a !! k = Some at0 ->
  is_chown o1 = true -> is_stat o2 = true ->
  carries m1 (Req o1 p1 k at1 n1) -> carries m2 (Req o2 p2 k at2 n2) ->
  same_type (a_mode at0) (a_mode at1) -> same_type (a_mode at0) (a_mode at2) ->
  PSEUDO_XATTRDB = false \/ m_uid m1 <> NO_ID \/ m_gid m1 <> NO_ID ->
  let d1 := db (pseudo_op d m1 pr tg).1 in
  let reply := msg (pseudo_op d1 m2 pr tg).1 in
  m_result reply = RESULT_SUCCEED /\
  m_uid reply = m_uid m1 /\ m_gid reply = m_gid m1 /\ m_mode reply = a_mode at0 /\ m_rdev reply = a_rdev at0.
Proof.
  intros Hd H1 H2 Hin Ho1 Ho2 Hm1 Hm2 Ht1 Ht2 Hid d1 reply.
  assert (known a p1 k at1 at0) as Hk by done.
  destruct (op_simulates d a m1 _ _ _ _ pr tg Hd Hm1 (step_chown a o1 p1 k at1 n1 at0 Ho1 Hk)) as [Hd1 _].
  destruct Hm1 as (_ & _ & _ & <- & _). cbn [msg_attrs a_uid a_gid] in Hd1. fold d1 in Hd1.
  set (a1 := fs_set_attrs _ _ _) in Hd1. set (at3 := mkAttrs (m_uid m1) (m_gid m1) (a_mode at0) (a_rdev at0)) in *.
  assert (known a1 p2 k at2 at3) as Hk2 by (split; [done|]; split; [simpl; by rewrite lookup_insert_eq|done]).
  destruct (op_simulates d1 a1 m2 _ _ _ _ pr tg Hd1 Hm2 (step_stat a1 o2 p2 k at2 n2 at3 Ho2 Hk2 Hid)) as [_ [Hr Ha]].
  fold reply in Hr, Ha. split; [done|]. specialize (Ha at3 eq_refl). unfold msg_attrs, at3 in Ha.
  by injection Ha as -> -> -> ->.
Qed.

(** ** Witnesses *)

(** A session: make a directory and a file in it, give the file away, link
    it, and look at the link. *)
Definition session_key : key := (5, 11).
Definition session_disk : attrs := mkAttrs 1000 100 0x81a4 0.
Definition session_dir : attrs := mkAttrs 1000 100 0x41ed 0.
Definition session_root : attrs := mkAttrs 0 0 0x81a4 0.

Definition session : list fs_request :=
  [Req OP_MKDIR ($"/d") (5, 10) session_dir 2;
   Req OP_CREAT ($"/d/f") session_key session_disk 1;
   Req OP_CHOWN ($"/d/f") session_key session_root 1;
   Req OP_LINK ($"/d/g") session_key session_disk 2;
   Req OP_STAT ($"/d/g") session_key session_disk 2].

Definition session_msgs : list pseudo_msg_t :=
  [sample_msg OP_MKDIR ($"/d" ++ [NUL]) 5 10 1000 100 0x41ed 2;
   sample_msg OP_CREAT ($"/d/f" ++ [NUL]) 5 11 1000 100 0x81a4 1;
   sample_msg OP_CHOWN ($"/d/f" ++ [NUL]) 5 11 0 0 0x81a4 1;
   sample_msg OP_LINK ($"/d/g" ++ [NUL]) 5 11 1000 100 0x81a4 2;
   sample_msg OP_STAT ($"/d/g" ++ [NUL]) 5 11 1000 100 0x81a4 2].

Definition session_fs : fs :=
  mkFs (list_to_map [($"/d/g", session_key); ($"/d/f", session_key); ($"/d", (5, 10))])
       (list_to_map [(session_key, session_root); ((5, 10), session_dir)]).

Lemma sample_carries o path k at_ n :
  path <> [] -> bool_decide (NUL ∈ path) = false -> path <> NAMELESS_FILE ->
  Z.of_nat (length path) <? 2 ^ 31 = true -> key_ok k -> attrs_ok at_ -> a_rdev at_ = 0 -> has_two_paths o = false ->
  carries (sample_msg o (path ++ [NUL]) k.1 k.2 (a_uid at_) (a_gid at_) (a_mode at_) n) (Req o path k at_ n).
Proof.
  intros Hne Hnul%bool_decide_eq_false Hnl Hlt%Z.ltb_lt Hk Ha Hrd Ho. destruct k as [dv i], at_ as [u g md rd].
  simpl in *. subst rd. split; [|split; [|by split]].
  - constructor; try done.
    + exists (replicate 4 NUL). simpl. by rewrite <- app_assoc.
    + simpl. rewrite length_app. simpl. lia.
  - simpl. rewrite length_app. simpl. lia.
Qed.

Lemma session_carries : Forall2 carries session_msgs session.
Proof.
  unfold session, session_msgs.
  constructor; [apply (sample_carries OP_MKDIR ($"/d") (5, 10) session_dir 2); done|].
  constructor; [apply (sample_carries OP_CREAT ($"/d/f") session_key session_disk 1); done|].
  constructor; [apply (sample_carries OP_CHOWN ($"/d/f") session_key session_root 1); done|].
  constructor; [apply (sample_carries OP_LINK ($"/d/g") session_key session_disk 2); done|].
  constructor; [apply (sample_carries OP_STAT ($"/d/g") session_key session_disk 2); done|constructor].
Qed.

Lemma empty_represented : server_represents (E := mem_engine) (sample_pdb [] []) empty_fs.
Proof. split; [apply no_tables_ok|]. split; [|by intros k at_]. split; naive_solver. Qed.

Lemma session_steps : fs_steps (SC := sample_config) empty_fs session session_fs
  [(RESULT_SUCCEED, None); (RESULT_SUCCEED, None); (RESULT_SUCCEED, None); (RESULT_SUCCEED, None);
   (RESULT_SUCCEED, Some session_root)].
Proof.
  unfold session. econstructor; [by apply step_create|].
  econstructor; [by apply step_create|].
  econstructor; [by apply (step_chown _ _ _ _ _ _ session_disk)|].
  econstructor; [by apply (step_link _ _ _ _ _ session_root)|].
  econstructor; [apply (step_stat _ _ _ _ _ _ session_root); [done| |by left]|]; [done|].
  constructor.
Qed.

Lemma server_refines_fs_witness :
  server_represents (E := mem_engine)
    (@serve mem_engine sample_path_max sample_config (sample_pdb [] []) session_msgs).1 session_fs.
Proof.
  exact (proj1 (@server_refines_fs mem_engine mem_engine_laws mem_engine_reliable sample_path_max sample_config
    session session_msgs (sample_pdb [] []) empty_fs session_fs _ empty_represented session_carries session_steps)).
Defined.

(** A file with two names. *)
Definition linked_fs : fs :=
  mkFs (list_to_map [($"/d/g", session_key); ($"/d/f", session_key)]) (list_to_map [(session_key, session_disk)]).

Definition linked_pdb : @pdb mem_engine :=
  sample_pdb [mkFile ($"/d/f") 5 11 1000 100 0x81a4 0 0; mkFile ($"/d/g") 5 11 1000 100 0x81a4 0 0] [].

Lemma linked_rows i r : files (pdb_tables linked_pdb) !! i = Some r ->
  (i = 1 /\ r = mkFile ($"/d/f") 5 11 1000 100 0x81a4 0 0) \/
  (i = 2 /\ r = mkFile ($"/d/g") 5 11 1000 100 0x81a4 0 0).
Proof.
  change (files (pdb_tables linked_pdb)) with
    (<[1 := mkFile ($"/d/f") 5 11 1000 100 0x81a4 0 0]>
      (<[2 := mkFile ($"/d/g") 5 11 1000 100 0x81a4 0 0]> (∅ : gmap Z file_row))).
  intros Hi. apply lookup_insert_Some in Hi as [[<- <-]|[_ Hi]]; [by left|].
  apply lookup_insert_Some in Hi as [[<- <-]|[_ Hi]]; [by right|]. by rewrite lookup_empty in Hi.
Qed.

Lemma linked_represented : server_represents linked_pdb linked_fs.
Proof.
  assert (forall p k, names linked_fs !! p = Some k -> (p = $"/d/g" \/ p = $"/d/f") /\ k = session_key) as Hn.
  { intros p k Hp. unfold linked_fs in Hp. cbn [names list_to_map foldr] in Hp. simpl in Hp.
    apply lookup_insert_Some in Hp as [[<- <-]|[_ Hp]]; [tauto|].
    apply lookup_insert_Some in Hp as [[<- <-]|[_ Hp]]; [tauto|]. by rewrite lookup_empty in Hp. }
  split; [|split].
  - split; [|by split].
    intros i r [[_ ->]|[_ ->]]%linked_rows;
      (split; [by apply (bool_decide_eq_true_1 _); vm_compute|unfold in_int32, in_int64; simpl; lia]).
  - split.
    + intros p k. split.
      * intros [[-> | ->] ->]%Hn; [exists 2|exists 1]; eexists; by split.
      * intros (i & r & [[_ ->]|[_ ->]]%linked_rows & <- & <-); done.
    + intros i r [[_ ->]|[_ ->]]%linked_rows; done.
    + intros k at_ Hk. unfold linked_fs in Hk. simpl in Hk.
      apply lookup_insert_Some in Hk as [[<- <-]|[_ Hk]]; [|by rewrite lookup_empty in Hk].
      exists 1. eexists. by split.
  - intros k at_ Hk. unfold linked_fs in Hk. simpl in Hk.
    apply lookup_insert_Some in Hk as [[<- <-]|[_ Hk]]; [by vm_compute|by rewrite lookup_empty in Hk].
Qed.

Definition chown_msg : pseudo_msg_t := sample_msg OP_CHOWN ($"/d/f" ++ [NUL]) 5 11 0 0 0x81a4 2.
Definition stat_msg : pseudo_msg_t := sample_msg OP_STAT ($"/d/g" ++ [NUL]) 5 11 1000 100 0x81a4 2.

Lemma chown_msg_carries : carries chown_msg (Req OP_CHOWN ($"/d/f") session_key session_root 2).
Proof. apply (sample_carries OP_CHOWN ($"/d/f") session_key session_root 2); done. Qed.

Lemma stat_msg_carries : carries stat_msg (Req OP_STAT ($"/d/g") session_key session_disk 2).
Proof. apply (sample_carries OP_STAT ($"/d/g") session_key session_disk 2); done. Qed.

Lemma chown_seen_by_stat_witness :
  let d1 := db (@pseudo_op mem_engine sample_path_max sample_config linked_pdb chown_msg None None).1 in
  let reply := msg (@pseudo_op mem_engine sample_path_max sample_config d1 stat_msg None None).1 in
  m_result reply = RESULT_SUCCEED /\
  m_uid reply = m_uid chown_msg /\ m_gid reply = m_gid chown_msg /\
  m_mode reply = a_mode session_disk /\ m_rdev reply = a_rdev session_disk.
Proof.
  refine (@chown_seen_by_stat mem_engine mem_engine_laws mem_engine_reliable sample_path_max sample_config
    linked_pdb linked_fs ($"/d/f") ($"/d/g") session_key session_disk OP_CHOWN session_root 2 chown_msg
    OP_STAT session_disk 2 stat_msg None None
    linked_represented _ _ _ _ _ chown_msg_carries stat_msg_carries _ _ _).
  - reflexivity.
  - reflexivity.
  - reflexivity.
  - reflexivity.
  - reflexivity.
  - done.
  - done.
  - by left.
Defined.
