(* ===== verification/Paths.v ===== *)
(** Canonical paths: [pseudo_append_element], [pseudo_append_elements] and
    [pseudo_fix_path] of [pseudo_util.c], with the lemmas about copies into
    memory the proofs share.

    The buffer is modelled as memory, the C pointers into it as offsets; an
    access outside it, and a loop that runs out of fuel, give [None]. *)

From stdpp Require Import base gmap list strings.
From Stdlib Require Import ZArith Lia Ascii.
From S2P Require Import Prelude Modes.

Open Scope Z_scope.

(** What the path code asks the system: the mode of a file ([None] when
    [lstat] fails or cannot be called), the contents of a symbolic link, and
    the block a [malloc] of [pseudo_path_max()] bytes returns. *)
Class PathEnv := {
  real_lstat : bytes -> option Z;
  readlink : bytes -> option bytes;
  malloc_pathbuf : option bytes
}.

Definition PSEUDO_MAX_LINK_RECURSION : nat := 16.
Definition PATHBUFS : nat := 16.

(** [newpath], [*pcurrent] and [buf->st_mode] *)
Record path_state := mkPath { newpath : bytes; current : nat; st_mode : Z }.

Definition char_at (mem : bytes) (i : nat) : ascii := default NUL (mem !! i).

Definition poke (i : nat) (c : ascii) (mem : bytes) : option bytes :=
  if (i <? length mem)%nat then Some (<[i := c]> mem) else None.

Definition memcpy_at (i : nat) (data mem : bytes) : option bytes :=
  if (i + length data <=? length mem)%nat
  then Some (take i mem ++ data ++ drop (i + length data) mem) else None.

(** [while (current > root && *current != '/') --current;] *)
Fixpoint back_to_slash (mem : bytes) (root cur : nat) : nat :=
  match cur with
  | O => O
  | S c => if (root <? cur)%nat && negb (bool_decide (char_at mem cur = slash))
           then back_to_slash mem root c else cur
  end.

(** The bytes up to the next slash, and whether there is one ([strchr]). *)
Fixpoint next_element (path : bytes) : bytes * bool :=
  match path with
  | [] => ([], false)
  | c :: path' =>
      if decide (c = slash) then ([], true)
      else let '(e, found) := next_element path' in (c :: e, found)
  end.

Section Paths.
Context {PM : PathMax} {PE : PathEnv}.

(** What [append_elements] does with the target of a link. *)
Definition follower : Type := path_state -> bytes -> option (Z * path_state).

Definition lstat_mode (mem : bytes) : Z := default 0 (real_lstat (c_str mem)).

(** [follow] is [None] when the recursion is too deep to follow links. *)
Definition pseudo_append_element (follow : option follower) (root allocated : nat)
    (element : bytes) (leave_this : bool) (st : path_state) : option (Z * path_state) :=
  let is_dir := S_ISDIR (st_mode st) in
  if is_dir && (bool_decide (element = []) || bool_decide (element = $".")) then Some (0, st)
  else if is_dir && bool_decide (element = $"..") then
    if (current st <=? root)%nat then Some (0, st)
    else
      let cur := back_to_slash (newpath st) root (current st) in
      mem ← poke cur NUL (newpath st);
      Some (1, mkPath mem cur (st_mode st))
  else if (allocated <? current st + length element + 3)%nat then Some (-1, st)
  else
    mem ← poke (current st) slash (newpath st);
    mem ← memcpy_at (current st + 1) element mem;
    let cur := (current st + 1 + length element)%nat in
    mem ← poke cur NUL mem;
    let mode := lstat_mode mem in
    if negb leave_this && is_dir && S_ISLNK mode then
      match follow with
      | None => Some (1, mkPath mem cur mode)
      | Some f =>
          match readlink (c_str mem) with
          | None => Some (0, mkPath mem cur mode)
          | Some link =>
              let linkbuf := take (Z.to_nat pseudo_path_max) link in
              let cur := if decide (char_at linkbuf 0 = slash) then root
                         else (cur - (length element + 1))%nat in
              mem ← poke cur NUL mem;
              f (mkPath mem cur S_IFDIR) linkbuf
          end
      end
    else Some (1, mkPath mem cur mode).

(** [path] is the C string, [elen] the length to use of it. *)
Fixpoint append_loop (fuel : nat) (follow : option follower) (root allocated : nat)
    (path : bytes) (elen : nat) (leave_last : bool) (pos : nat) (st : path_state) :
    option (Z * path_state) :=
  match fuel with
  | O => None
  | S fuel =>
      if (pos <? elen)%nat && (pos <? length path)%nat then
        let '(element, found) := next_element (drop pos path) in
        let leave_this := if found then false else leave_last in
        '(rc, st) ← pseudo_append_element follow root allocated element leave_this st;
        if rc =? -1 then Some (-1, st)
        else append_loop fuel follow root allocated path elen leave_last (pos + length element + 1) st
      else Some (1, st)
  end.

(** With a status buffer given. *)
Definition append_elements (follow : option follower) (root allocated : nat) (path : bytes)
    (elen : nat) (leave_last : bool) (st : path_state) : option (Z * path_state) :=
  append_loop (S elen) follow root allocated (c_str path) elen leave_last 0 st.

(** [n] more levels of links may be followed. *)
Fixpoint follow_links (n : nat) (root allocated : nat) : option follower :=
  match n with
  | O => None
  | S n => Some (fun st link =>
      append_elements (follow_links n root allocated) root allocated link (length link) false st)
  end.

(** Without one: the state of what is in the buffer already. *)
Definition pseudo_append_elements (root allocated : nat) (path : bytes) (elen : nat)
    (leave_last : bool) (mem : bytes) (cur : nat) : option (Z * path_state) :=
  let mode := if (root <? cur)%nat then lstat_mode mem else S_IFDIR in
  append_elements (follow_links PSEUDO_MAX_LINK_RECURSION root allocated) root allocated path elen
    leave_last (mkPath mem cur mode).

(** *** [pseudo_fix_path] *)

(** [pathbufs] and [pathbuf] *)
Record path_bufs := mkBufs { pathbufs : list (option bytes); pathbuf : nat }.

Definition no_bufs : path_bufs := mkBufs (replicate PATHBUFS None) 0.

(** NULL, the argument itself, or a buffer with the length of its path. *)
Inductive fixed_path :=
| FixFailed
| FixSame
| FixBuf (i len : nat).

(** The C string a result points to. *)
Definition fixed_str (b : path_bufs) (path : bytes) (r : fixed_path) : option bytes :=
  match r with
  | FixFailed => None
  | FixSame => Some path
  | FixBuf i _ => c_str <$> mjoin (pathbufs b !! i)
  end.

(** [pathlen] without the slashes at the end. *)
Fixpoint strip_slashes (path : bytes) (pathlen : nat) : nat :=
  match pathlen with
  | O => O
  | S n => if decide (char_at path n = slash) then strip_slashes path n else pathlen
  end.

Definition fix_path_in (mem : bytes) (base path : bytes) (rootlen baselen pathlen : nat)
    (leave_last : bool) : option (bytes * option nat) :=
  let newpathlen := Z.to_nat pseudo_path_max in
  let stripped := strip_slashes path pathlen in
  let trailing_slash := negb (stripped =? pathlen)%nat in
  mem ← poke 0 NUL mem;
  let use_base := negb (baselen =? 0)%nat
                  && (negb (bool_decide (char_at path 0 = slash)) || negb (rootlen =? 0)%nat) in
  mem ← (if use_base then memcpy_at 0 (take baselen base) mem else Some mem);
  let cur := if use_base then baselen else 0%nat in
  mem ← poke cur NUL mem;
  '(rc, st) ← pseudo_append_elements rootlen newpathlen path stripped leave_last mem cur;
  if rc =? -1 then Some (newpath st, None)
  else if ((current st =? rootlen)%nat || trailing_slash) && (current st <? newpathlen)%nat then
    mem ← poke (current st) slash (newpath st);
    mem ← poke (current st + 1) NUL mem;
    Some (mem, Some (current st + 1)%nat)
  else Some (newpath st, Some (current st)).

(** [base] holds at least [baselen] bytes; [path] is a C string. *)
Definition pseudo_fix_path (b : path_bufs) (base : bytes) (path : option bytes) (rootlen baselen : nat)
    (leave_last : bool) : option (path_bufs * fixed_path) :=
  match path with
  | None => Some (b, FixFailed)
  | Some path =>
      let baselen := if (baselen =? 1)%nat then 0%nat else baselen in
      let rootlen := if (rootlen =? 1)%nat then 0%nat else rootlen in
      let pathlen := length path in
      if (Z.to_nat pseudo_path_max <=? pathlen + baselen)%nat then Some (b, FixSame)
      else
        let i := pathbuf b in
        let mem := match mjoin (pathbufs b !! i) with Some m => Some m | None => malloc_pathbuf end in
        let b := mkBufs (<[i := mem]> (pathbufs b)) ((i + 1) mod PATHBUFS) in
        match mem with
        | None => Some (b, FixFailed)
        | Some mem =>
            '(mem, len) ← fix_path_in mem base path rootlen baselen pathlen leave_last;
            Some (mkBufs (<[i := Some mem]> (pathbufs b)) (pathbuf b),
                  match len with None => FixFailed | Some len => FixBuf i len end)
        end
  end.
End Paths.

(** ** Writing in a block *)

Lemma memcpy_at_ok i data mem :
  (i + length data <= length mem)%nat ->
  memcpy_at i data mem = Some (take i mem ++ data ++ drop (i + length data) mem).
Proof. intros. unfold memcpy_at. by rewrite (proj2 (Nat.leb_le _ _)). Qed.

Lemma memcpy_at_length i data mem mem' : memcpy_at i data mem = Some mem' -> length mem' = length mem.
Proof.
  unfold memcpy_at. destruct (Nat.leb_spec (i + length data) (length mem)); [|done]. intros [= <-].
  rewrite !length_app, length_take, length_drop. lia.
Qed.
