(* ===== verification/PathsSpec.v ===== *)
(** What [pseudo_fix_path] computes: a resolver on lists of path components,
    the proof that the pointer code computes the same, and what follows:
    no access outside the buffers, confinement to the root, canonical
    results. *)

From stdpp Require Import base gmap list strings.
From Stdlib Require Import ZArith Lia Ascii.
From S2P Require Import Prelude Modes Paths.

Open Scope Z_scope.

(** ** Components *)

Definition render (stack : list bytes) : bytes := concat (map (cons slash) stack).

(** The pieces of a path between slashes; nothing follows a final slash. *)
Fixpoint pieces (s : bytes) : list bytes :=
  match s with
  | [] => []
  | c :: s' =>
      if decide (c = slash) then [] :: pieces s'
      else match pieces s' with [] => [[c]] | e :: es => (c :: e) :: es end
  end.

(** Only the last piece may be left alone when it is a link. *)
Fixpoint mark_last (leave : bool) (es : list bytes) : list (bytes * bool) :=
  match es with
  | [] => []
  | [e] => [(e, leave)]
  | e :: es => (e, false) :: mark_last leave es
  end.

(** ** The resolver *)

Section Resolver.
Context {PM : PathMax} {PE : PathEnv} (root : bytes).

Definition path_text (stack : list bytes) : bytes := root ++ render stack.

Definition mode_of (stack : list bytes) : Z := default 0 (real_lstat (path_text stack)).

Definition resolver : Type := list bytes -> bytes -> option (list bytes * Z).

(** One component; [None] when the path gets too long. *)
Definition visit (follow : option resolver) (e : bytes) (leave : bool) (s : list bytes * Z) :
    option (list bytes * Z) :=
  let '(stack, mode) := s in
  if S_ISDIR mode && (bool_decide (e = []) || bool_decide (e = $".")) then Some s
  else if S_ISDIR mode && bool_decide (e = $"..") then Some (removelast stack, mode)
  else if (Z.to_nat pseudo_path_max <? length (path_text stack) + length e + 3)%nat then None
  else
    let stack' := stack ++ [e] in
    let mode' := mode_of stack' in
    if negb leave && S_ISDIR mode && S_ISLNK mode' then
      match follow, readlink (path_text stack') with
      | Some f, Some link =>
          let link := take (Z.to_nat pseudo_path_max) link in
          f (if decide (char_at link 0 = slash) then [] else stack) link
      | _, _ => Some (stack', mode')
      end
    else Some (stack', mode').

Fixpoint visit_all (follow : option resolver) (es : list (bytes * bool)) (s : list bytes * Z) :
    option (list bytes * Z) :=
  match es with
  | [] => Some s
  | (e, leave) :: es => s ← visit follow e leave s; visit_all follow es s
  end.

Fixpoint resolve_links (n : nat) : option resolver :=
  match n with
  | O => None
  | S n => Some (fun stack link =>
      visit_all (resolve_links n) (mark_last false (pieces (c_str link))) (stack, S_IFDIR))
  end.

Definition resolve (es : list (bytes * bool)) (stack : list bytes) : option (list bytes * Z) :=
  visit_all (resolve_links PSEUDO_MAX_LINK_RECURSION) es
    (stack, if decide (stack = []) then S_IFDIR else mode_of stack).
End Resolver.

(** ** The buffer *)

Section Buffer.
Implicit Types (t e junk mem : bytes).

Lemma poke_app t c junk c' : poke (length t) c' (t ++ c :: junk) = Some (t ++ c' :: junk).
Proof.
  unfold poke. rewrite length_app. simpl. rewrite (proj2 (Nat.ltb_lt _ _)) by lia.
  f_equal. rewrite insert_app_r_alt by lia. by rewrite Nat.sub_diag.
Qed.

Lemma poke_at i t c junk c' : i = length t -> poke i c' (t ++ c :: junk) = Some (t ++ c' :: junk).
Proof. intros ->. apply poke_app. Qed.

Lemma memcpy_app t e junk : (length e <= length junk)%nat ->
  memcpy_at (length t) e (t ++ junk) = Some (t ++ e ++ drop (length e) junk).
Proof.
  intros. unfold memcpy_at. rewrite length_app. rewrite (proj2 (Nat.leb_le _ _)) by lia.
  by rewrite take_app_length, drop_app_add'.
Qed.

Lemma char_at_app_r t c junk : char_at (t ++ c :: junk) (length t) = c.
Proof. unfold char_at. by rewrite list_lookup_middle. Qed.

(** A slash, the element and a NUL written at the end of the string. *)
Lemma push_element t e junk : (length e + 2 <= S (length junk))%nat ->
  exists junk',
    (mem ← poke (length t) slash (t ++ NUL :: junk);
     mem ← memcpy_at (length t + 1) e mem;
     poke (length t + 1 + length e) NUL mem) = Some ((t ++ slash :: e) ++ NUL :: junk') /\
    length ((t ++ slash :: e) ++ NUL :: junk') = length (t ++ NUL :: junk).
Proof.
  intros Hl. rewrite poke_app. cbn [mbind option_bind].
  replace (t ++ slash :: junk) with ((t ++ [slash]) ++ junk) by (by rewrite <- app_assoc).
  replace (length t + 1)%nat with (length (t ++ [slash])) by (rewrite length_app; done).
  rewrite memcpy_app by lia. cbn [mbind option_bind].
  destruct (drop (length e) junk) as [|c junk'] eqn:Hd.
  { apply (f_equal length) in Hd. rewrite length_drop in Hd. simpl in Hd. lia. }
  exists junk'.
  replace ((t ++ [slash]) ++ e ++ c :: junk') with ((t ++ slash :: e) ++ c :: junk') by (by rewrite <- !app_assoc).
  rewrite poke_at by (rewrite !length_app; simpl; lia). split; [done|].
  apply (f_equal length) in Hd. rewrite length_drop in Hd. simpl in Hd. rewrite !length_app. simpl. lia.
Qed.

(** Going back to the slash before the last element. *)
Lemma back_to_slash_stops mem root p n :
  (root <= p)%nat -> (p = root \/ char_at mem p = slash) ->
  (forall i, (p < i <= p + n)%nat -> char_at mem i <> slash) ->
  back_to_slash mem root (p + n) = p.
Proof.
  intros Hr Hp. induction n as [|n IH]; intros Hi.
  - rewrite Nat.add_0_r. destruct p as [|p]; [done|]. simpl.
    destruct Hp as [<- | ->]; [by rewrite Nat.ltb_irrefl|]. by rewrite bool_decide_eq_true_2, andb_false_r.
  - replace (p + S n)%nat with (S (p + n)) by lia. simpl.
    rewrite (proj2 (Nat.ltb_lt _ _)) by lia. rewrite bool_decide_eq_false_2 by (apply Hi; lia).
    simpl. apply IH. intros i ?. apply Hi. lia.
Qed.
End Buffer.

Lemma render_app a b : render (a ++ b) = render a ++ render b.
Proof. unfold render. by rewrite map_app, concat_app. Qed.

Lemma render_snoc a e : render (a ++ [e]) = render a ++ slash :: e.
Proof. rewrite render_app. unfold render at 2. simpl. by rewrite app_nil_r. Qed.

Lemma render_nil a : render a = [] <-> a = [].
Proof. split; [|by intros ->]. by destruct a. Qed.

Lemma pieces_no_slash s : Forall (fun e => slash ∉ e) (pieces s).
Proof.
  induction s as [|c s IH]; simpl; [constructor|]. case_decide as Hc.
  - constructor; [by apply not_elem_of_nil|done].
  - destruct (pieces s) as [|e es]; constructor; try done.
    + apply not_elem_of_cons. split; [done|by apply not_elem_of_nil].
    + inversion IH. by apply not_elem_of_cons.
    + by inversion IH.
Qed.

Lemma pieces_no_nul s : NUL ∉ s -> Forall (fun e => NUL ∉ e) (pieces s).
Proof.
  induction s as [|c s IH]; simpl; [constructor|]. rewrite not_elem_of_cons. intros [Hc Hs].
  specialize (IH Hs). case_decide.
  - constructor; [by apply not_elem_of_nil|done].
  - destruct (pieces s) as [|e es]; constructor; try done.
    + apply not_elem_of_cons. split; [done|by apply not_elem_of_nil].
    + inversion IH. by apply not_elem_of_cons.
    + by inversion IH.
Qed.

Lemma pieces_nil s : pieces s = [] -> s = [].
Proof. destruct s as [|c s]; [done|]. simpl. case_decide; [done|]. by destruct (pieces s). Qed.

Lemma mark_last_false es : mark_last false es = map (fun e => (e, false)) es.
Proof. induction es as [|e [|e' es] IH]; simpl in *; congruence. Qed.

Lemma mark_last_cons leave e es : es <> [] -> mark_last leave (e :: es) = (e, false) :: mark_last leave es.
Proof. by destruct es. Qed.

Lemma next_element_pieces r n e found :
  next_element r = (e, found) -> (0 < n <= length r)%nat -> (n = length r \/ r !! n = Some slash) ->
  pieces (take n r) = e :: pieces (take (n - (length e + 1)) (drop (length e + 1) r)) /\
  (length e <= n)%nat /\ (found = false -> length e = length r) /\
  (found = true -> r !! length e = Some slash).
Proof.
  revert n e found. induction r as [|c r IH]; intros n e found; simpl; [lia|]. intros He Hn Hend.
  destruct n as [|n]; [lia|]. simpl. destruct (decide (c = slash)) as [->|Hc].
  - injection He as <- <-. simpl. rewrite Nat.sub_0_r. rewrite drop_0. split; [done|]. split; [lia|]. done.
  - destruct (next_element r) as [e' f] eqn:Hne. injection He as <- <-. simpl in Hend.
    destruct n as [|n].
    + assert (r = [] \/ exists r', r = slash :: r') as Hr.
      { destruct Hend as [Hl|Hl]; [left; destruct r; simpl in *; [done|lia]|].
        right. destruct r as [|c' r']; [done|]. injection Hl as ->. eauto. }
      destruct Hr as [-> | [r' ->]]; simpl in Hne.
      * injection Hne as <- <-. simpl. split; [done|]. split; [lia|]. done.
      * rewrite ?decide_True in Hne by done. injection Hne as <- <-. simpl.
        split; [done|]. split; [lia|]. done.
    + destruct (IH (S n) e' f eq_refl) as (Hp & Hle & Hf & Ht); [lia|destruct Hend as [?|?]; [left; lia|by right]|].
      rewrite Hp. split; [done|]. simpl. split; [lia|]. split; [intros ?; by rewrite Hf|done].
Qed.


(** ** The pointer code follows the resolver *)

Section Agree.
Context {PM : PathMax} {PE : PathEnv} (root : bytes).

Let allocated := Z.to_nat pseudo_path_max.

(** The buffer holds the path of the stack. *)
Record holds (s : list bytes * Z) (st : path_state) : Prop := {
  holds_text : exists junk, newpath st = path_text root s.1 ++ NUL :: junk;
  holds_size : length (newpath st) = allocated;
  holds_cur : current st = length (path_text root s.1);
  holds_room : (current st + 2 <= allocated)%nat;
  holds_nul : NUL ∉ path_text root s.1;
  holds_slash : Forall (fun e => slash ∉ e) s.1;
  holds_mode : st_mode st = s.2
}.

Definition agrees (r : option (list bytes * Z)) (c : option (Z * path_state)) : Prop :=
  match r with
  | None => exists st, c = Some (-1, st) /\ length (newpath st) = allocated
  | Some s => exists rc st, c = Some (rc, st) /\ rc <> -1 /\ holds s st
  end.

(** The two ways to follow links agree. *)
Definition follows (f : option resolver) (g : option follower) : Prop :=
  match f, g with
  | None, None => True
  | Some f, Some g => forall stack link st, holds (stack, S_IFDIR) st -> agrees (f stack link) (g st link)
  | _, _ => False
  end.

Lemma holds_c_str s st : holds s st -> c_str (newpath st) = path_text root s.1.
Proof. intros [[junk ->] _ _ _ Hn _ _]. by apply c_str_app_nul. Qed.

Lemma path_text_snoc stack e : path_text root (stack ++ [e]) = path_text root stack ++ slash :: e.
Proof. unfold path_text. by rewrite render_snoc, app_assoc. Qed.

Lemma removelast_cases (stack : list bytes) : stack = [] \/ exists s e, stack = s ++ [e] /\ removelast stack = s.
Proof.
  destruct stack as [|x l] using rev_ind; [by left|]. right. exists l, x. split; [done|]. by rewrite removelast_last.
Qed.

(** Cutting the buffer back to an earlier end. *)
Lemma cut_back t t' junk mem : mem = (t ++ t') ++ NUL :: junk ->
  exists junk', poke (length t) NUL mem = Some (t ++ NUL :: junk') /\ length (t ++ NUL :: junk') = length mem.
Proof.
  intros ->. destruct t' as [|c t'].
  - rewrite app_nil_r. exists junk. by rewrite poke_app.
  - rewrite <- app_assoc. simpl. rewrite poke_app. eexists. split; [done|]. rewrite !length_app. simpl. done.
Qed.

Lemma dotdot_holds stack mode st : holds (stack, mode) st -> stack <> [] ->
  exists mem,
    poke (back_to_slash (newpath st) (length root) (current st)) NUL (newpath st) = Some mem /\
    holds (removelast stack, mode)
      (mkPath mem (back_to_slash (newpath st) (length root) (current st)) (st_mode st)).
Proof.
  intros [[junk Hm] Hsz Hc Hroom Hn Hs Hmode] Hne. simpl in *.
  destruct (removelast_cases stack) as [->|(s & e & -> & Hr)]; [done|]. rewrite Hr.
  rewrite path_text_snoc in Hm, Hc, Hn. apply Forall_app in Hs as [Hs He].
  inversion He as [|? ? Hes _]; subst.
  assert (back_to_slash (newpath st) (length root) (current st) = length (path_text root s)) as ->.
  { rewrite Hc, length_app. apply back_to_slash_stops.
    - unfold path_text. rewrite length_app. lia.
    - right. rewrite Hm, <- app_assoc. apply char_at_app_r.
    - intros i Hi. unfold char_at. rewrite Hm, <- app_assoc. simpl in *. rewrite lookup_app_r by lia.
      destruct (i - length (path_text root s))%nat as [|j] eqn:Hj; [lia|]. simpl.
      destruct (decide (j < length e)%nat).
      + rewrite lookup_app_l by lia. destruct (e !! j) as [c|] eqn:Hcj; [|done]. simpl.
        intros ->. by apply list_elem_of_lookup_2 in Hcj.
      + rewrite lookup_app_r by lia. replace (j - length e)%nat with O by lia. done. }
  destruct (cut_back (path_text root s) (slash :: e) junk (newpath st) Hm) as (junk' & Hp & Hl).
  rewrite Hp. eexists. split; [done|]. rewrite length_app in Hc. simpl in Hc.
  constructor; simpl; try done; [by eexists|congruence|lia|].
  intros Hin. apply Hn. apply elem_of_app. by left.
Qed.

(** Appending an element to the buffer. *)
Lemma push_holds stack mode st e : holds (stack, mode) st -> slash ∉ e -> NUL ∉ e ->
  (current st + length e + 3 <= allocated)%nat ->
  exists mem,
    (mem ← poke (current st) slash (newpath st);
     mem ← memcpy_at (current st + 1) e mem;
     poke (current st + 1 + length e) NUL mem) = Some mem /\
    holds (stack ++ [e], mode_of root (stack ++ [e]))
      (mkPath mem (current st + 1 + length e) (lstat_mode mem)).
Proof.
  intros [[junk Hm] Hsz Hc Hroom Hn Hs Hmode] Hse Hne Hl. simpl in *. rewrite Hm, Hc.
  rewrite Hm in Hsz.
  destruct (push_element (path_text root stack) e junk) as (junk' & Hp & Hlen).
  { rewrite length_app in Hsz. simpl in Hsz. lia. }
  rewrite Hp. eexists. split; [done|].
  assert (NUL ∉ path_text root stack ++ slash :: e) as Hnul.
  { rewrite elem_of_app, elem_of_cons. naive_solver. }
  constructor; simpl; rewrite ?path_text_snoc; try done.
  - by eexists.
  - congruence.
  - rewrite length_app. simpl. lia.
  - lia.
  - apply Forall_app. split; [done|]. by constructor.
  - unfold lstat_mode, mode_of. by rewrite c_str_app_nul, path_text_snoc.
Qed.

(** What the link's target is appended to. *)
Lemma link_base_holds stack mode e mode' st link :
  holds (stack ++ [e], mode') st -> Forall (fun e => slash ∉ e) stack -> current st = length (path_text root (stack ++ [e])) ->
  let cur := if decide (char_at link 0 = slash) then length root else (current st - (length e + 1))%nat in
  exists mem, poke cur NUL (newpath st) = Some mem /\
    holds (if decide (char_at link 0 = slash) then [] else stack, mode) (mkPath mem cur mode).
Proof.
  intros [[junk Hm] Hsz Hc Hroom Hn Hs Hmode] Hss _. simpl in *.
  rewrite path_text_snoc in *. destruct (decide _) as [_|_].
  - unfold path_text in Hm. rewrite <- app_assoc in Hm.
    destruct (cut_back root (render stack ++ slash :: e) junk (newpath st)) as (junk' & Hp & Hl);
      [by rewrite Hm, <- !app_assoc|].
    rewrite Hp. eexists. split; [done|]. unfold path_text in *. rewrite !length_app in Hc.
    constructor; simpl; unfold path_text; simpl; rewrite ?app_nil_r; try done; [by eexists|congruence|lia|].
    intros Hin. apply Hn. rewrite !elem_of_app. tauto.
  - assert (current st - (length e + 1) = length (path_text root stack))%nat as ->
      by (rewrite Hc, length_app; simpl; lia).
    destruct (cut_back (path_text root stack) (slash :: e) junk (newpath st) Hm) as (junk' & Hp & Hl).
    rewrite Hp. eexists. split; [done|]. rewrite length_app in Hc.
    constructor; simpl; try done; [by eexists|congruence|lia|].
    intros Hin. apply Hn. rewrite elem_of_app. tauto.
Qed.

Lemma element_agrees f g stack mode st e leave :
  follows f g -> holds (stack, mode) st -> slash ∉ e -> NUL ∉ e ->
  agrees (visit root f e leave (stack, mode))
         (pseudo_append_element g (length root) allocated e leave st).
Proof.
  intros Hfg Hst Hse Hne. pose proof (holds_mode _ _ Hst) as Hmode. simpl in Hmode.
  pose proof (holds_cur _ _ Hst) as Hc. simpl in Hc.
  unfold visit, pseudo_append_element. rewrite Hmode.
  destruct (S_ISDIR mode && (_ || _)); [by exists 0, st|].
  destruct (S_ISDIR mode && bool_decide (e = $"..")).
  { destruct (removelast_cases stack) as [->|(s & e' & Hs & Hr)].
    - rewrite Hc. unfold path_text. simpl. rewrite app_nil_r, Nat.leb_refl. by exists 0, st.
    - assert (stack <> []) as Hnil by (rewrite Hs; by destruct s).
      destruct (dotdot_holds stack mode st Hst Hnil) as (mem & Hp & Hh).
      rewrite (proj2 (Nat.leb_gt _ _)).
      + cbv zeta. rewrite Hp. cbn [mbind option_bind]. rewrite Hmode in *. by eexists 1, _.
      + rewrite Hc. unfold path_text. rewrite length_app. enough (0 < length (render stack))%nat by lia.
        rewrite Hs, render_snoc, length_app. simpl. lia. }
  rewrite Hc. fold allocated. destruct (allocated <? _)%nat eqn:Hlong.
  { exists st. split; [done|]. by apply (holds_size _ _ Hst). }
  apply Nat.ltb_ge in Hlong. rewrite <- Hc.
  destruct (push_holds stack mode st e Hst Hse Hne) as (mem & Hp & Hh); [lia|].
  destruct (poke (current st) slash (newpath st)) as [mem1|]; [|done]. cbn [mbind option_bind] in Hp |- *.
  destruct (memcpy_at (current st + 1) e mem1) as [mem2|]; [|done]. cbn [mbind option_bind] in Hp |- *.
  cbv zeta. rewrite Hp. cbn [mbind option_bind].
  pose proof (holds_mode _ _ Hh) as Hm'. pose proof (holds_c_str _ _ Hh) as Ht. simpl in Hm', Ht.
  rewrite Hm', Ht. destruct (negb leave && S_ISDIR mode && S_ISLNK (mode_of root (stack ++ [e]))).
  - destruct f as [f|], g as [g|]; try done; [|rewrite Hm' in Hh; by eexists 1, _].
    destruct (readlink _) as [link|]; [|rewrite Hm' in Hh; by eexists 0, _].
    destruct (link_base_holds stack S_IFDIR e _ _ (take (Z.to_nat pseudo_path_max) link) Hh
      (holds_slash _ _ Hst) (holds_cur _ _ Hh)) as (mem3 & Hp3 & Hh3). cbv zeta in Hp3. cbn [current newpath] in Hp3. fold allocated in Hp3, Hh3.
    rewrite Hp3. cbn [mbind option_bind]. by apply Hfg.
  - rewrite Hm' in Hh. by eexists 1, _.
Qed.

Lemma agrees_bind r c (k : list bytes * Z -> option (list bytes * Z)) (h : Z * path_state -> option (Z * path_state)) :
  agrees r c -> (forall s rc st, rc <> -1 -> holds s st -> agrees (k s) (h (rc, st))) ->
  (forall st, length (newpath st) = allocated -> h (-1, st) = Some (-1, st)) ->
  agrees (r ≫= k) (c ≫= h).
Proof.
  intros Hrc Hk Hh. destruct r as [s|]; simpl in Hrc.
  - destruct Hrc as (rc & st & -> & Hne & Hs). simpl. by apply Hk.
  - destruct Hrc as (st & -> & Hl). simpl. rewrite Hh by done. by exists st.
Qed.

Lemma append_loop_agrees f g path elen leave_last :
  follows f g -> NUL ∉ path -> (elen <= length path)%nat ->
  (elen = length path \/ path !! elen = Some slash) ->
  (leave_last = true -> (elen = 0)%nat \/ path !! (elen - 1)%nat <> Some slash) ->
  forall fuel pos s st, holds s st -> (elen - pos < fuel)%nat ->
  agrees (visit_all root f (mark_last (leave_last && (elen =? length path)%nat)
            (pieces (take (elen - pos) (drop pos path)))) s)
         (append_loop fuel g (length root) allocated path elen leave_last pos st).
Proof.
  intros Hfg Hnul Hle Hend Hlast. induction fuel as [|fuel IH]; intros pos s st Hst Hfuel; [lia|].
  cbn [append_loop]. destruct (Nat.ltb_spec pos elen) as [Hpos|Hpos].
  2:{ replace (elen - pos)%nat with O by lia. simpl. by exists 1, st. }
  rewrite (proj2 (Nat.ltb_lt pos (length path))) by lia. cbn [andb].
  destruct (next_element (drop pos path)) as [e found] eqn:Hne.
  destruct (next_element_pieces (drop pos path) (elen - pos) e found Hne) as (Hp & Hel & Hf & Ht).
  { rewrite length_drop. lia. }
  { rewrite length_drop, lookup_drop. replace (pos + (elen - pos))%nat with elen by lia.
    destruct Hend; [left; lia|by right]. }
  rewrite length_drop in Hf. rewrite lookup_drop in Ht.
  rewrite drop_drop in Hp. replace (elen - pos - (length e + 1))%nat with (elen - (pos + length e + 1))%nat in Hp by lia.
  replace (pos + (length e + 1))%nat with (pos + length e + 1)%nat in Hp by lia.
  rewrite Hp.
  set (rest := pieces (take (elen - (pos + length e + 1)) (drop (pos + length e + 1) path))) in *.
  set (leave := leave_last && (elen =? length path)%nat) in *.
  assert (Forall (fun e => slash ∉ e) (e :: rest)) as Hs by (rewrite <- Hp; apply pieces_no_slash).
  assert (Forall (fun e => NUL ∉ e) (e :: rest)) as Hn.
  { rewrite <- Hp. apply pieces_no_nul. intros Hin. apply Hnul.
    apply elem_of_take in Hin as (i & Hi & _). rewrite lookup_drop in Hi. by eapply list_elem_of_lookup_2. }
  inversion Hs as [|? ? Hse _]; subst. inversion Hn as [|? ? Hnule _]; subst.
  assert (mark_last leave (e :: rest) = (e, if found then false else leave_last) :: mark_last leave rest) as ->.
  { destruct found.
    - destruct leave eqn:Hlv; [|by rewrite !mark_last_false]. apply mark_last_cons.
      unfold leave in Hlv. apply andb_true_iff in Hlv as [Hll Hlen%Nat.eqb_eq].
      assert (pos + length e < elen)%nat by (rewrite Hlen; by eapply lookup_lt_Some, Ht).
      intros Hnil%pieces_nil. apply (f_equal length) in Hnil.
      rewrite length_take, length_drop in Hnil. simpl in Hnil.
      destruct (Hlast Hll) as [?|Hl]; [lia|]. apply Hl. rewrite <- Ht by done. f_equal. lia.
    - specialize (Hf eq_refl). assert (rest = []) as ->
        by (unfold rest; replace (elen - (pos + length e + 1))%nat with O by lia; done).
      simpl. unfold leave. rewrite (proj2 (Nat.eqb_eq elen (length path))) by lia. by rewrite andb_true_r. }
  cbn [visit_all].
  apply agrees_bind.
  - destruct s as [stack mode]. by apply element_agrees.
  - intros s' rc st' Hrc Hs'. destruct (Z.eqb_spec rc (-1)); [done|]. apply IH; [done|lia].
  - intros st' _. done.
Qed.

(** The length given may exceed the string. *)
Lemma append_loop_elen g path elen fuel pos st : (length path <= elen)%nat ->
  append_loop fuel g (length root) allocated path elen false pos st =
  append_loop fuel g (length root) allocated path (length path) false pos st.
Proof.
  intros Hle. revert pos st. induction fuel as [|fuel IH]; intros pos st; [done|]. cbn [append_loop].
  destruct (Nat.ltb_spec pos (length path)) as [Hpos|Hpos]; [|by rewrite !andb_false_r].
  rewrite (proj2 (Nat.ltb_lt pos elen)) by lia. cbn [andb].
  destruct (next_element _) as [e found]. destruct (pseudo_append_element _ _ _ _ _ _) as [[rc st']|]; [|done].
  cbn [mbind option_bind]. destruct (rc =? -1); [done|]. apply IH.
Qed.

Lemma follow_links_agree n : follows (resolve_links root n) (follow_links n (length root) allocated).
Proof.
  induction n as [|n IH]; [done|]. cbn [resolve_links follow_links follows].
  intros stack link st Hst. unfold append_elements.
  rewrite append_loop_elen by apply c_str_length.
  replace (pieces (c_str link))
    with (pieces (take (length (c_str link) - 0) (drop 0 (c_str link))))
    by (by rewrite drop_0, Nat.sub_0_r, firstn_all).
  apply (append_loop_agrees _ _ _ _ false IH (c_str_no_nul link)); try done; [by left|].
  pose proof (c_str_length link). lia.
Qed.
End Agree.

(** ** [pseudo_fix_path] *)

Section FixPath.
Context {PM : PathMax} {PE : PathEnv}.

Let allocated := Z.to_nat pseudo_path_max.

(** Every buffer has the size it was allocated with. *)
Definition bufs_ok (b : path_bufs) : Prop :=
  length (pathbufs b) = PATHBUFS /\ (pathbuf b < PATHBUFS)%nat /\
  forall i mem, pathbufs b !! i = Some (Some mem) -> length mem = Z.to_nat pseudo_path_max.

(** [malloc] returns blocks of the size asked for. *)
Definition malloc_ok : Prop := exists mem, malloc_pathbuf = Some mem /\ length mem = Z.to_nat pseudo_path_max.

(** Lengths of 1 stand for the root directory. *)
Definition len_or_root (n : nat) : nat := if (n =? 1)%nat then 0%nat else n.

(** The base is a path below the root. *)
Record base_ok (base : bytes) (rootlen baselen : nat) (root : bytes) (stack : list bytes) : Prop := {
  base_root : length root = len_or_root rootlen;
  base_text : take (len_or_root baselen) base = path_text root stack;
  base_len : length (path_text root stack) = len_or_root baselen;
  base_nul : NUL ∉ path_text root stack;
  base_slash : Forall (fun e => slash ∉ e) stack
}.

Definition is_absolute (path : bytes) : bool := bool_decide (char_at path 0 = slash).

Definition trailing_slash (path : bytes) : bool := negb (strip_slashes path (length path) =? length path)%nat.

Definition path_pieces (path : bytes) : list bytes := pieces (take (strip_slashes path (length path)) path).

(** Absolute paths start at the root unless there is a changed root, which is
    the base then. *)
Definition start_stack (root path : bytes) (stack : list bytes) : list bytes :=
  if is_absolute path && bool_decide (root = []) then [] else stack.

Definition finish (root : bytes) (trailing : bool) (stack : list bytes) : bytes :=
  path_text root stack ++ (if trailing || bool_decide (stack = []) then [slash] else []).

Lemma strip_slashes_spec path n : (n <= length path)%nat ->
  (strip_slashes path n <= n)%nat /\
  (strip_slashes path n = O \/ path !! (strip_slashes path n - 1)%nat <> Some slash) /\
  (strip_slashes path n = n \/ path !! strip_slashes path n = Some slash).
Proof.
  induction n as [|n IH]; intros Hn; cbn [strip_slashes]; [split; [done|]; split; by left|].
  destruct (lookup_lt_is_Some_2 path n) as [c Hc]; [lia|].
  unfold char_at. rewrite Hc. simpl. destruct (decide (c = slash)) as [->|Hne].
  - destruct IH as (H1 & H2 & H3); [lia|]. split; [lia|]. split; [done|]. right.
    destruct H3 as [->|H3]; done.
  - split; [lia|]. split; [|by left]. right.
    replace (S n - 1)%nat with n by lia. congruence.
Qed.

Lemma start_holds mem base path rootlen baselen root stack :
  base_ok base rootlen baselen root stack -> (len_or_root baselen + 2 <= allocated)%nat ->
  length mem = allocated ->
  let use_base := negb (len_or_root baselen =? 0)%nat
                  && (negb (bool_decide (char_at path 0 = slash)) || negb (len_or_root rootlen =? 0)%nat) in
  let cur := if use_base then len_or_root baselen else 0%nat in
  exists mem',
    (mem ← poke 0 NUL mem;
     mem ← (if use_base then memcpy_at 0 (take (len_or_root baselen) base) mem else Some mem);
     poke cur NUL mem) = Some mem' /\
    forall mode, holds root (start_stack root path stack, mode) (mkPath mem' cur mode).
Proof.
  intros [Hr Ht Hl Hn Hs] Hroom Hmem use_base cur.
  destruct mem as [|c junk]; [simpl in Hmem; lia|]. change (c :: junk) with ([] ++ c :: junk).
  rewrite (poke_at 0 [] c junk NUL eq_refl). cbn [mbind option_bind app].
  assert (path_text root (start_stack root path stack) =
    if use_base then path_text root stack else []) as Hstart.
  { unfold start_stack, is_absolute, use_base. rewrite <- Hr.
    destruct (Nat.eqb_spec (len_or_root baselen) 0) as [H0|H0].
    - rewrite H0 in Hl. apply length_zero_iff_nil in Hl. cbn [negb andb].
      unfold path_text in *. apply app_eq_nil in Hl as [-> Hl]. apply render_nil in Hl as ->. by destruct (bool_decide (char_at path 0 = slash)).
    - destruct (bool_decide (char_at path 0 = slash)); [|done]. cbn [negb andb orb].
      destruct (Nat.eqb_spec (length root) 0) as [Hz|Hz].
      + apply length_zero_iff_nil in Hz as ->. done.
      + rewrite bool_decide_eq_false_2; [done|]. by intros ->. }
  assert (cur = length (if use_base then path_text root stack else [])) as Hcur
    by (unfold cur; destruct use_base; simpl; lia).
  destruct use_base eqn:Hub.
  - rewrite Ht. pose proof (memcpy_app [] (path_text root stack) (NUL :: junk)) as Hcp.
    simpl in Hcp, Hmem. rewrite Hcp by lia. cbn [mbind option_bind].
    destruct (drop (length (path_text root stack)) (NUL :: junk)) as [|c' junk'] eqn:Hd.
    { apply (f_equal length) in Hd. rewrite length_drop in Hd. cbn [length] in Hd. lia. }
    rewrite (poke_at cur) by done. eexists. split; [done|]. intros mode.
    apply (f_equal length) in Hd. rewrite length_drop in Hd. cbn [length] in Hd.
    assert (Forall (fun e => slash ∉ e) (start_stack root path stack)) by (unfold start_stack; destruct (is_absolute path && _); [constructor|done]).
    assert (length (path_text root stack ++ NUL :: junk') = allocated) by (rewrite length_app; cbn [length]; lia).
    assert (cur + 2 <= allocated)%nat by (unfold cur; lia).
    constructor; simpl; rewrite ?Hstart; try done. by eexists.
  - cbn [mbind option_bind]. unfold cur. pose proof (poke_at 0 [] NUL junk NUL eq_refl) as Hp.
    cbn [app] in Hp. rewrite Hp. eexists. split; [done|]. intros mode.
    assert (Forall (fun e => slash ∉ e) (start_stack root path stack)) by (unfold start_stack; destruct (is_absolute path && _); [constructor|done]).
    assert (0 + 2 <= allocated)%nat by lia.
    constructor; simpl; rewrite ?Hstart; try done; [by eexists|by apply not_elem_of_nil].
Qed.

(** The components to add, and what the resolver makes of them. *)
Definition path_steps (path : bytes) (leave_last : bool) : list (bytes * bool) :=
  mark_last (leave_last && negb (trailing_slash path)) (path_pieces path).

Definition resolved (root path : bytes) (stack : list bytes) (leave_last : bool) : option bytes :=
  match resolve root (path_steps path leave_last) (start_stack root path stack) with
  | None => None
  | Some (s, _) => Some (finish root (trailing_slash path) s)
  end.

Lemma holds_fresh_mode root stack mem cur : holds root (stack, lstat_mode mem) (mkPath mem cur (lstat_mode mem)) ->
  (if (length root <? cur)%nat then lstat_mode mem else S_IFDIR) =
  if decide (stack = []) then S_IFDIR else mode_of root stack.
Proof.
  intros Hh. pose proof (holds_cur _ _ _ Hh) as Hc. pose proof (holds_c_str _ _ _ Hh) as Ht. simpl in *.
  rewrite Hc. unfold path_text at 1. rewrite length_app. unfold lstat_mode, mode_of. rewrite Ht.
  case_decide as Hs.
  - rewrite Hs. simpl. by rewrite Nat.add_0_r, Nat.ltb_irrefl.
  - assert (length (render stack) <> 0)%nat by (intros Hz%length_zero_iff_nil%render_nil; done).
    by rewrite (proj2 (Nat.ltb_lt _ _)) by lia.
Qed.

Lemma fix_path_in_resolves mem base path rootlen baselen root stack leave_last :
  base_ok base rootlen baselen root stack -> (len_or_root baselen + 2 <= allocated)%nat ->
  length mem = allocated -> NUL ∉ path ->
  exists mem' len,
    fix_path_in mem base path (len_or_root rootlen) (len_or_root baselen) (length path) leave_last = Some (mem', len) /\
    length mem' = allocated /\
    match resolved root path stack leave_last with
    | None => len = None
    | Some s => len = Some (length s) /\ c_str mem' = s
    end.
Proof.
  intros Hb Hroom0 Hmem Hnul. unfold fix_path_in.
  destruct (start_holds mem base path rootlen baselen root stack Hb Hroom0 Hmem) as (m2 & Hm2 & Hh).
  cbv zeta in Hm2, Hh |- *.
  destruct (poke 0 NUL mem) as [m0|]; [|done]. cbn [mbind option_bind] in Hm2 |- *.
  match goal with |- context [if ?b then memcpy_at _ _ _ else _] =>
    destruct (if b then memcpy_at 0 (take (len_or_root baselen) base) m0 else Some m0) as [m1|]; [|done] end.
  cbn [mbind option_bind] in Hm2 |- *. rewrite Hm2. cbn [mbind option_bind].
  match type of Hm2 with poke ?c _ _ = _ => set (cur := c) in * end. clear Hm2.
  unfold pseudo_append_elements. rewrite <- (base_root _ _ _ _ _ Hb).
  rewrite (holds_fresh_mode root _ m2 cur (Hh _)).
  match goal with |- context [mkPath m2 cur ?x] => set (mode := x) end. specialize (Hh mode).
  destruct (strip_slashes_spec path (length path) (le_n _)) as (Hle & Hlast & Hend).
  pose proof (append_loop_agrees root _ _ path (strip_slashes path (length path)) leave_last
    (follow_links_agree root PSEUDO_MAX_LINK_RECURSION) Hnul Hle Hend (fun _ => Hlast)
    (S (strip_slashes path (length path))) 0 _ _ Hh) as Ha.
  specialize (Ha ltac:(lia)). unfold append_elements. rewrite c_str_id by done.
  rewrite drop_0, Nat.sub_0_r in Ha.
  fold (path_pieces path) in Ha.
  replace (mark_last (leave_last && _) (path_pieces path)) with (path_steps path leave_last) in Ha
    by (unfold path_steps, trailing_slash; by rewrite negb_involutive).
  unfold resolved, resolve. fold mode. fold allocated in Ha |- *. fold (trailing_slash path).
  destruct (visit_all root _ _ _) as [[s md]|]; cbn [agrees] in Ha.
  2:{ destruct Ha as (st & -> & Hl). cbn [mbind option_bind]. by eexists _, _. }
  destruct Ha as (rc & st & -> & Hrc & [[junk Hj] Hsz Hc Hroom Hn _ _]). cbn [mbind option_bind fst] in *.
  rewrite (proj2 (Z.eqb_neq _ _) Hrc). rewrite (proj2 (Nat.ltb_lt _ _)) by (fold allocated; lia).
  rewrite andb_true_r.
  assert ((current st =? length root)%nat = bool_decide (s = [])) as ->.
  { apply Bool.eq_iff_eq_true. rewrite Nat.eqb_eq, bool_decide_eq_true, Hc. unfold path_text.
    rewrite length_app, <- render_nil, <- length_zero_iff_nil. lia. }
  unfold finish. rewrite orb_comm. destruct (trailing_slash path || bool_decide (s = [])).
  - destruct junk as [|c junk].
    { rewrite Hj, length_app in Hsz. simpl in Hsz. fold allocated in Hsz, Hroom. lia. }
    rewrite Hj, Hc, poke_app. cbn [mbind option_bind].
    replace (path_text root s ++ slash :: c :: junk) with ((path_text root s ++ [slash]) ++ c :: junk)
      by (by rewrite <- app_assoc).
    rewrite poke_at by (rewrite length_app; simpl; lia). cbn [mbind option_bind].
    eexists _, _. split; [done|]. split.
    + rewrite Hj in Hsz. rewrite !length_app in *. simpl in *. fold allocated in Hsz. lia.
    + split; [f_equal; rewrite length_app; simpl; lia|]. apply c_str_app_nul.
      rewrite elem_of_app, list_elem_of_singleton. naive_solver.
  - rewrite app_nil_r. eexists _, _. split; [done|]. split; [done|]. split; [by rewrite Hc|].
    rewrite Hj. by apply c_str_app_nul.
Qed.

Definition too_long (path : bytes) (baselen : nat) : bool :=
  (Z.to_nat pseudo_path_max <=? length path + len_or_root baselen)%nat.

Lemma fix_path_resolves b base path rootlen baselen root stack leave_last :
  bufs_ok b -> malloc_ok -> base_ok base rootlen baselen root stack -> NUL ∉ path -> path <> [] ->
  exists b' r,
    pseudo_fix_path b base (Some path) rootlen baselen leave_last = Some (b', r) /\ bufs_ok b' /\
    if too_long path baselen then b' = b /\ r = FixSame
    else
      pathbuf b' = ((pathbuf b + 1) mod PATHBUFS)%nat /\
      (forall j, j <> pathbuf b -> pathbufs b' !! j = pathbufs b !! j) /\
      match resolved root path stack leave_last with
      | None => r = FixFailed
      | Some s => r = FixBuf (pathbuf b) (length s) /\ fixed_str b' path r = Some s
      end.
Proof.
  intros (Hlen & Hidx & Hbufs) (fresh & Hfresh & Hfl) Hb Hnul Hne.
  unfold pseudo_fix_path, too_long. fold (len_or_root baselen). fold (len_or_root rootlen).
  destruct (Nat.leb_spec (Z.to_nat pseudo_path_max) (length path + len_or_root baselen)) as [Hl|Hl].
  { exists b, FixSame. by split_and!. }
  destruct (pathbufs b !! pathbuf b) as [slot|] eqn:Hslot.
  2:{ apply lookup_ge_None in Hslot. lia. }
  assert (exists mem, match mjoin (Some slot) with Some m => Some m | None => malloc_pathbuf end = Some mem /\
    length mem = allocated) as (mem & -> & Hmem).
  { destruct slot as [m|]; [|by eexists]. exists m. split; [done|]. by apply (Hbufs (pathbuf b)). }
  assert (len_or_root baselen + 2 <= allocated)%nat as Hroom
    by (assert (length path <> 0)%nat by (by intros ?%length_zero_iff_nil); unfold allocated; lia).
  destruct (fix_path_in_resolves mem base path rootlen baselen root stack leave_last Hb Hroom Hmem Hnul)
    as (mem' & len & -> & Hmem' & Hres).
  cbn [mbind option_bind pathbufs pathbuf]. eexists _, _. split; [done|].
  rewrite list_insert_insert_eq. cbn [pathbufs pathbuf]. split.
  - unfold bufs_ok. cbn [pathbufs pathbuf]. rewrite length_insert. split; [done|].
    split; [by apply Nat.mod_upper_bound|]. intros i m' Hi. apply list_lookup_insert_Some in Hi as [(_ & [= <-] & _)|[_ Hi]]; [done|by apply (Hbufs i)].
  - split; [done|]. split; [intros j Hj; by rewrite list_lookup_insert_ne|].
    destruct (resolved _ _ _ _) as [s|]; [|by rewrite Hres]. destruct Hres as [-> Hs]. split; [done|].
    simpl. rewrite list_lookup_insert_eq by lia. simpl. by rewrite Hs.
Qed.
End FixPath.
(** ** Lexical normal form *)

Definition lexical (stack : list bytes) (e : bytes) : list bytes :=
  if bool_decide (e = []) || bool_decide (e = $".") then stack
  else if bool_decide (e = $"..") then removelast stack
  else stack ++ [e].

Definition normalize (stack : list bytes) (es : list bytes) : list bytes := foldl lexical stack es.

Definition canonical (e : bytes) : Prop := e <> [] /\ e <> $"." /\ e <> $".." /\ slash ∉ e.

Lemma removelast_Forall (P : bytes -> Prop) l : Forall P l -> Forall P (removelast l).
Proof.
  intros H. destruct (removelast_cases l) as [->|(s & e & -> & ->)]; [done|]. by apply Forall_app in H as [? _].
Qed.

Lemma normalize_canonical es stack : Forall canonical stack -> Forall (fun e => slash ∉ e) es ->
  Forall canonical (normalize stack es).
Proof.
  intros Hs Hes. revert stack Hs. induction Hes as [|e es He Hes IH]; intros stack Hs; [done|].
  unfold normalize. simpl. apply IH. unfold lexical.
  destruct (bool_decide (e = [])) eqn:H1; [done|]. destruct (bool_decide (e = $".")) eqn:H2; [done|].
  destruct (bool_decide (e = $"..")) eqn:H3; [by apply removelast_Forall|]. bool_facts.
  apply Forall_app. split; [done|]. by constructor.
Qed.

Lemma normalize_id es stack : Forall canonical es -> normalize stack es = stack ++ es.
Proof.
  intros H. revert stack. induction H as [|e es (H1 & H2 & H3 & _) H IH]; intros stack; [by rewrite app_nil_r|].
  unfold normalize. simpl. unfold lexical at 2.
  rewrite !bool_decide_eq_false_2 by done. cbn [orb]. change (foldl lexical (stack ++ [e]) es) with (normalize (stack ++ [e]) es).
  by rewrite IH, <- app_assoc.
Qed.

Lemma render_pieces stack : Forall canonical stack -> stack <> [] -> pieces (render stack) = [] :: stack.
Proof.
  intros H Hne.
  assert (forall e s, slash ∉ e -> pieces (e ++ slash :: s) = e :: pieces s /\ (e <> [] -> pieces e = [e])) as Happ.
  { intros e s. induction e as [|c e IH]; [done|]. intros Hc%not_elem_of_cons. destruct Hc as [Hc He].
    simpl. rewrite !decide_False by done. destruct (IH He) as [-> H2]. split; [done|]. intros _.
    destruct e as [|c' e']; [done|]. by rewrite H2. }
  destruct stack as [|e stack]; [done|]. unfold render. simpl. rewrite ?decide_True by done. f_equal.
  clear Hne. revert e H. induction stack as [|e' stack IH]; intros e [He Hs]%Forall_cons.
  - simpl. rewrite app_nil_r. apply (Happ e []); by destruct He as (? & _ & _ & ?).
  - simpl. destruct (Happ e (e' ++ concat (map (cons slash) stack))) as [-> _]; [by destruct He as (_ & _ & _ & ?)|].
    f_equal. by apply IH.
Qed.

Lemma pieces_size s : (sum_list (map (fun e => S (length e)) (pieces s)) <= S (length s))%nat.
Proof.
  induction s as [|c s IH]; simpl; [lia|]. case_decide; simpl; [lia|].
  destruct (pieces s); simpl in *; lia.
Qed.

Section Lexical.
Context {PM : PathMax} {PE : PathEnv} (root : bytes).

(** Everything is a directory. *)
Definition all_directories : Prop := forall p, S_ISDIR (default 0 (real_lstat p)) = true.

Lemma dir_not_link mode : S_ISDIR mode = true -> S_ISLNK mode = false.
Proof. unfold S_ISDIR, S_ISLNK. rewrite Z.eqb_eq. by intros ->. Qed.

Lemma render_removelast stack : (length (render (removelast stack)) <= length (render stack))%nat.
Proof.
  destruct (removelast_cases stack) as [->|(s & e & -> & ->)]; [done|]. rewrite render_snoc, length_app. lia.
Qed.

Lemma visit_all_normalizes follow es stack mode :
  all_directories -> S_ISDIR mode = true ->
  (length (path_text root stack) + sum_list (map (fun e => S (length e.1)) es) + 2 <= Z.to_nat pseudo_path_max)%nat ->
  exists mode', visit_all root follow es (stack, mode) = Some (normalize stack (map fst es), mode') /\ S_ISDIR mode' = true.
Proof.
  intros Hall. revert stack mode. induction es as [|[e leave] es IH]; intros stack mode Hd Hlen; [by exists mode|].
  cbn [visit_all]. simpl in Hlen.
  assert (exists mode', visit root follow e leave (stack, mode) = Some (lexical stack e, mode') /\ S_ISDIR mode' = true)
    as (mode' & -> & Hd').
  { unfold visit, lexical. rewrite Hd. cbn [andb].
    destruct (bool_decide (e = []) || bool_decide (e = $".")); [by exists mode|].
    destruct (bool_decide (e = $"..")); [by exists mode|].
    rewrite (proj2 (Nat.ltb_ge _ _)) by lia.
    rewrite (dir_not_link (mode_of root (stack ++ [e]))) by apply Hall. rewrite andb_false_r. eexists. split; [done|]. apply Hall. }
  cbn [mbind option_bind map]. apply IH; [done|].
  assert (length (path_text root (lexical stack e)) <= length (path_text root stack) + S (length e))%nat; [|lia].
  unfold path_text, lexical. rewrite !length_app. pose proof (render_removelast stack).
  destruct (_ || _); [lia|]. destruct (bool_decide _); [lia|]. rewrite render_snoc, length_app. simpl. lia.
Qed.

Lemma mark_last_fst leave es : map fst (mark_last leave es) = es.
Proof. induction es as [|e [|e' es] IH]; simpl in *; congruence. Qed.

Lemma mark_last_size leave es :
  map (fun e => S (length e.1)) (mark_last leave es) = map (fun e => S (length e)) es.
Proof. induction es as [|e [|e' es] IH]; simpl in *; congruence. Qed.

Lemma resolved_normalizes path stack leave_last :
  all_directories -> (length (path_text root stack) + length path + 3 <= Z.to_nat pseudo_path_max)%nat ->
  resolved root path stack leave_last =
    Some (finish root (trailing_slash path) (normalize (start_stack root path stack) (path_pieces path))).
Proof.
  intros Hall Hlen. unfold resolved, resolve.
  destruct (visit_all_normalizes (resolve_links root PSEUDO_MAX_LINK_RECURSION) (path_steps path leave_last)
    (start_stack root path stack) (if decide (start_stack root path stack = []) then S_IFDIR else mode_of root (start_stack root path stack)))
    as (mode' & -> & _).
  - done.
  - case_decide; [done|]. apply Hall.
  - unfold path_steps. rewrite mark_last_size.
    pose proof (pieces_size (take (strip_slashes path (length path)) path)) as Hp. fold (path_pieces path) in Hp.
    rewrite length_take in Hp.
    assert (length (path_text root (start_stack root path stack)) <= length (path_text root stack))%nat; [|lia].
    unfold path_text, start_stack. rewrite !length_app. destruct (_ && _); simpl; lia.
  - unfold path_steps. by rewrite mark_last_fst.
Qed.
End Lexical.

(** ** Properties *)

(** C14: [pseudo_fix_path] on any file system, with links of any shape: no
    access leaves the path buffer, the loops end, and the string returned is
    the one the resolver on lists of components gives: [.], [..] and links
    are resolved, links at most 16 deep, relative to the base and never above
    the root; NULL is returned exactly when the path gets too long.  An
    argument too long for the buffer is returned as it is. *)
Theorem pseudo_fix_path_resolves {PM : PathMax} {PE : PathEnv} b base path rootlen baselen root stack leave_last :
  bufs_ok b -> malloc_ok -> base_ok base rootlen baselen root stack -> NUL ∉ path -> path <> [] ->
  exists b' r,
    pseudo_fix_path b base (Some path) rootlen baselen leave_last = Some (b', r) /\ bufs_ok b' /\
    fixed_str b' path r =
      if too_long path baselen then Some path else resolved root path stack leave_last.
Proof.
  intros Hb Hm Hbase Hn Hne.
  destruct (fix_path_resolves b base path rootlen baselen root stack leave_last Hb Hm Hbase Hn Hne)
    as (b' & r & Hr & Hb' & H). exists b', r. split; [done|]. split; [done|].
  destruct (too_long _ _); [by destruct H as [-> ->]|]. destruct H as (_ & _ & H).
  destruct (resolved _ _ _ _); [by destruct H|]. by rewrite H.
Qed.

(** Confinement: whatever the file system holds, a path that was resolved
    under a root starts with that root, followed by a slash. *)
Theorem fix_path_confined {PM : PathMax} {PE : PathEnv} b base path rootlen baselen root stack leave_last b' i len :
  bufs_ok b -> malloc_ok -> base_ok base rootlen baselen root stack -> NUL ∉ path -> path <> [] ->
  pseudo_fix_path b base (Some path) rootlen baselen leave_last = Some (b', FixBuf i len) ->
  exists rest, fixed_str b' path (FixBuf i len) = Some (root ++ slash :: rest) /\
    len = length (root ++ slash :: rest).
Proof.
  intros Hb Hm Hbase Hn Hne Heq.
  destruct (fix_path_resolves b base path rootlen baselen root stack leave_last Hb Hm Hbase Hn Hne)
    as (b2 & r & Hr & _ & H). rewrite Heq in Hr. injection Hr as <- <-.
  destruct (too_long _ _); [by destruct H|]. destruct H as (_ & _ & H). unfold resolved in H.
  destruct (resolve _ _ _) as [[s md]|]; [|done]. destruct H as [[= -> ->] ->].
  unfold finish, path_text. destruct s as [|e s].
  - exists []. rewrite bool_decide_eq_true_2, orb_true_r by done. simpl. by rewrite app_nil_r.
  - exists (e ++ concat (map (cons slash) s) ++ (if trailing_slash path || bool_decide (e :: s = []) then [slash] else [])).
    unfold render. simpl. rewrite <- app_assoc. simpl. by rewrite <- !app_assoc.
Qed.

(** In a tree of directories the result is the lexical normal form of the
    path: no empty component, no [.] and no [..] is left, and normalising a
    path that is normal already gives the same path. *)
Theorem fix_path_normalizes {PM : PathMax} {PE : PathEnv} b base path rootlen baselen root stack leave_last :
  bufs_ok b -> malloc_ok -> base_ok base rootlen baselen root stack -> NUL ∉ path -> path <> [] ->
  all_directories -> Forall canonical stack ->
  (len_or_root baselen + length path + 3 <= Z.to_nat pseudo_path_max)%nat ->
  exists b' i len s,
    pseudo_fix_path b base (Some path) rootlen baselen leave_last = Some (b', FixBuf i len) /\
    fixed_str b' path (FixBuf i len) = Some (finish root (trailing_slash path) s) /\
    s = normalize (start_stack root path stack) (path_pieces path) /\ Forall canonical s /\
    (forall l, Forall canonical l -> l <> [] -> root = [] -> path = render l -> s = l).
Proof.
  intros Hb Hm Hbase Hn Hne Hall Hcan Hlen.
  destruct (fix_path_resolves b base path rootlen baselen root stack leave_last Hb Hm Hbase Hn Hne)
    as (b' & r & Hr & _ & H). unfold too_long in H. rewrite (proj2 (Nat.leb_gt _ _)) in H by lia.
  destruct H as (_ & _ & H). rewrite resolved_normalizes in H; [|done|rewrite (base_len _ _ _ _ _ Hbase); lia].
  destruct H as [-> Hs]. eexists b', _, _, _. split; [done|]. split; [done|]. split; [done|]. split.
  - apply normalize_canonical; [unfold start_stack; by destruct (_ && _)|apply pieces_no_slash].
  - intros l Hl Hlne -> ->. pose proof (render_pieces l Hl Hlne) as Hp.
    assert (is_absolute (render l) = true) as Habs by (by destruct l).
    assert (strip_slashes (render l) (length (render l)) = length (render l)) as Hstrip.
    { destruct (strip_slashes_spec (render l) (length (render l)) (le_n _)) as (_ & _ & [?|Hl2]); [done|].
      exfalso. apply lookup_lt_Some in Hl2 as Hlt.
      destruct (length (render l)) as [|n] eqn:Hn'; [lia|]. cbn [strip_slashes] in *.
      destruct (exists_last Hlne) as (l' & e & ->). apply Forall_app in Hl as [_ [(He & _ & _ & Hes) _]%Forall_cons].
      assert (exists c, render (l' ++ [e]) !! n = Some c /\ c ≠ slash) as (c & Hc & Hcs).
      { rewrite render_snoc in Hn' |- *. rewrite length_app in Hn'. simpl in Hn'.
        destruct (lookup_lt_is_Some_2 e (length e - 1)) as [c Hc]; [destruct e; simpl; [done|lia]|].
        exists c. rewrite lookup_app_r by lia. replace (n - _)%nat with (length e) by lia.
        destruct e as [|c0 e]; [done|]. simpl in *. rewrite Nat.sub_0_r in Hc. split; [done|].
        intros ->. apply Hes. by eapply list_elem_of_lookup_2. }
      rewrite decide_False in Hlt; [lia|]. unfold char_at. by rewrite Hc. }
    unfold path_pieces. rewrite Hstrip, firstn_all, Hp. unfold start_stack. rewrite Habs. cbn [andb].
    rewrite bool_decide_eq_true_2 by done. unfold normalize. simpl. unfold lexical at 2. simpl.
    by apply (normalize_id l []).
Qed.

(** A number of calls, one after the other. *)
Inductive fix_calls `{PathMax} `{PathEnv} : nat -> path_bufs -> path_bufs -> Prop :=
| calls_none b : fix_calls 0 b b
| calls_more n b b1 b2 base path rootlen baselen root stack leave_last r :
    base_ok base rootlen baselen root stack -> NUL ∉ path -> path <> [] ->
    pseudo_fix_path b base (Some path) rootlen baselen leave_last = Some (b1, r) ->
    fix_calls n b1 b2 -> fix_calls (S n) b b2.

Lemma fix_calls_keep {PM : PathMax} {PE : PathEnv} n b b' i : malloc_ok -> bufs_ok b -> fix_calls n b b' ->
  (forall m, (m < n)%nat -> ((pathbuf b + m) mod PATHBUFS)%nat <> i) ->
  pathbufs b' !! i = pathbufs b !! i.
Proof.
  intros Hm Hb Hc. revert i Hb. induction Hc as [b|n b b1 b2 base path rootlen baselen root stack ll r Hbase Hn Hne Heq Hc IH];
    intros i Hb Hi; [done|].
  destruct (fix_path_resolves b base path rootlen baselen root stack ll Hb Hm Hbase Hn Hne) as (b1' & r' & Hr & Hb1 & H).
  rewrite Heq in Hr. injection Hr as <- <-. pose proof (proj1 (proj2 Hb)) as Hidx.
  destruct (too_long _ _).
  - destruct H as [-> _]. apply IH; [done|]. intros m Hlt. apply Hi. lia.
  - destruct H as (Hnext & Hsame & _). rewrite IH; [|done|].
    + apply Hsame. intros ->. apply (Hi 0%nat); [lia|]. rewrite Nat.add_0_r. by apply Nat.mod_small.
    + intros m Hlt. rewrite Hnext, Nat.Div0.add_mod_idemp_l.
      replace (pathbuf b + 1 + m)%nat with (pathbuf b + S m)%nat by lia. apply Hi. lia.
Qed.

(** The buffers rotate: the path a call returns is still there after up to
    15 further calls. *)
Theorem fix_path_result_survives {PM : PathMax} {PE : PathEnv} b base path rootlen baselen root stack leave_last
    b1 i len n b2 :
  bufs_ok b -> malloc_ok -> base_ok base rootlen baselen root stack -> NUL ∉ path -> path <> [] ->
  pseudo_fix_path b base (Some path) rootlen baselen leave_last = Some (b1, FixBuf i len) ->
  fix_calls n b1 b2 -> (n < PATHBUFS)%nat ->
  fixed_str b2 path (FixBuf i len) = fixed_str b1 path (FixBuf i len).
Proof.
  intros Hb Hm Hbase Hn Hne Heq Hc Hlt.
  destruct (fix_path_resolves b base path rootlen baselen root stack leave_last Hb Hm Hbase Hn Hne) as (b1' & r' & Hr & Hb1 & H).
  rewrite Heq in Hr. injection Hr as <- <-. pose proof (proj1 (proj2 Hb)) as Hidx.
  destruct (too_long _ _); [by destruct H|]. destruct H as (Hnext & _ & H).
  assert (i = pathbuf b) as -> by (destruct (resolved _ _ _ _); [by destruct H as [[= ->] _]|done]).
  simpl. f_equal. f_equal. apply (fix_calls_keep n b1 b2 _ Hm Hb1 Hc).
  intros m Hm'. rewrite Hnext, Nat.Div0.add_mod_idemp_l. unfold PATHBUFS in *.
  intros Hmod. assert ((pathbuf b + 1 + m) mod 16 = pathbuf b)%nat as Hmod' by done.
  destruct (decide (pathbuf b + 1 + m < 16)%nat) as [Hs|Hs].
  - rewrite Nat.mod_small in Hmod' by done. lia.
  - rewrite <- (Nat.Div0.mod_add _ 0 16) in Hmod'. replace (pathbuf b + 1 + m)%nat with (pathbuf b + 1 + m - 16 + 1 * 16)%nat in Hmod' by lia.
    rewrite !Nat.Div0.mod_add, Nat.mod_small in Hmod' by lia. lia.
Qed.

(** ** Witnesses *)

Definition small_path_max : PathMax := {| pseudo_path_max := 64; malloc_path_max := replicate 64 NUL |}.

(** A tree where [/a/l] is a link to [../b/./c]. *)
Definition linked_tree : PathEnv := {|
  real_lstat p := Some (if bool_decide (p = $"/a/l") then S_IFLNK else S_IFDIR);
  readlink p := if bool_decide (p = $"/a/l") then Some ($"../b/./c") else None;
  malloc_pathbuf := Some (replicate 64 NUL)
|}.

Definition plain_tree : PathEnv := {|
  real_lstat p := Some S_IFDIR; readlink p := None; malloc_pathbuf := Some (replicate 64 NUL) |}.

Lemma no_bufs_ok {PM : PathMax} : bufs_ok no_bufs.
Proof.
  split; [done|]. split; [unfold no_bufs, PATHBUFS; simpl; lia|].
  intros i mem Hi. apply lookup_replicate in Hi as [? _]. done.
Qed.

Lemma linked_malloc_ok : @malloc_ok small_path_max linked_tree.
Proof. by eexists. Qed.

Lemma plain_malloc_ok : @malloc_ok small_path_max plain_tree.
Proof. by eexists. Qed.

Lemma sample_base_ok : base_ok ($"/a/d") 0 4 [] [$"a"; $"d"].
Proof. constructor; try done; [by apply no_nul_b|]. repeat constructor; by apply (bool_decide_eq_true_1 _); vm_compute. Qed.

Lemma jail_base_ok : base_ok ($"/a") 2 2 ($"/a") [].
Proof. constructor; first [done | by apply no_nul_b | constructor]. Qed.

Lemma pseudo_fix_path_resolves_witness : exists b' r,
  @pseudo_fix_path small_path_max linked_tree no_bufs ($"/a/d") (Some ($"../l/x/")) 0 4 false = Some (b', r) /\
  fixed_str b' ($"../l/x/") r = Some ($"/b/c/x/").
Proof.
  destruct (@pseudo_fix_path_resolves small_path_max linked_tree no_bufs ($"/a/d") ($"../l/x/") 0 4 []
    [$"a"; $"d"] false no_bufs_ok linked_malloc_ok sample_base_ok) as (b' & r & H1 & _ & H2);
    [by apply no_nul_b|done|].
  exists b', r. split; [exact H1|]. rewrite H2. vm_compute. reflexivity.
Defined.

Definition jail_path : bytes := $"/../l/../../x".
Definition jail_bufs : path_bufs :=
  match @pseudo_fix_path small_path_max linked_tree no_bufs ($"/a") (Some jail_path) 2 2 false with
  | Some (b, _) => b
  | None => no_bufs
  end.

Lemma fix_path_confined_witness : exists rest, fixed_str jail_bufs jail_path (FixBuf 0 4) = Some ($"/a" ++ slash :: rest).
Proof.
  destruct (@fix_path_confined small_path_max linked_tree no_bufs ($"/a") jail_path 2 2 ($"/a") [] false jail_bufs 0 4
    no_bufs_ok linked_malloc_ok jail_base_ok) as (rest & H & _);
    [by apply no_nul_b|done|vm_compute; reflexivity|].
  exists rest. exact H.
Defined.

Lemma fix_path_normalizes_witness : exists b' i len,
  @pseudo_fix_path small_path_max plain_tree no_bufs ($"/a/d") (Some ($"./x//../y")) 0 4 true = Some (b', FixBuf i len) /\
  fixed_str b' ($"./x//../y") (FixBuf i len) = Some ($"/a/d/y").
Proof.
  destruct (@fix_path_normalizes small_path_max plain_tree no_bufs ($"/a/d") ($"./x//../y") 0 4 [] [$"a"; $"d"] true
    no_bufs_ok plain_malloc_ok sample_base_ok) as (b' & i & len & s & H1 & H2 & Hs & _).
  - by apply no_nul_b.
  - done.
  - intros p. reflexivity.
  - repeat constructor; try done; by apply (bool_decide_eq_true_1 _); vm_compute.
  - vm_compute. lia.
  - exists b', i, len. split; [exact H1|]. rewrite H2, Hs. vm_compute. reflexivity.
Defined.

Definition jail_bufs2 : path_bufs :=
  match @pseudo_fix_path small_path_max linked_tree jail_bufs ($"/a/d") (Some ($"x")) 0 4 false with
  | Some (b, _) => b
  | None => no_bufs
  end.

Lemma fix_path_result_survives_witness :
  fixed_str jail_bufs2 jail_path (FixBuf 0 4) = fixed_str jail_bufs jail_path (FixBuf 0 4).
Proof.
  apply (@fix_path_result_survives small_path_max linked_tree no_bufs ($"/a") jail_path 2 2 ($"/a") [] false
    jail_bufs 0 4 1 jail_bufs2 no_bufs_ok linked_malloc_ok jail_base_ok).
  - by apply no_nul_b.
  - done.
  - vm_compute. reflexivity.
  - apply (@calls_more small_path_max linked_tree 0 jail_bufs jail_bufs2 jail_bufs2 ($"/a/d") ($"x") 0 4 []
      [$"a"; $"d"] false (FixBuf 1 6) sample_base_ok); [by apply no_nul_b|done|vm_compute; reflexivity|constructor].
  - vm_compute. lia.
Defined.
