(* ===== verification/ClientPath.v ===== *)
(** What the client keeps about paths: the paths of its file descriptors, the
    current directory and the changed root ([pseudo_client.c]), and how a path
    argument is made absolute ([base_path]).

    [nfds] and [linked_nfds] are the lengths of the two tables. *)

From stdpp Require Import base gmap list strings.
From Stdlib Require Import ZArith Lia Ascii.
From S2P Require Import Prelude Modes Paths.

Open Scope Z_scope.

Definition AT_FDCWD : Z := -100.

Record client := mkClient {
  fd_paths : list (option bytes);
  linked_fd_paths : list (option bytes);
  pseudo_cwd : option bytes;
  pseudo_cwd_rel : option bytes;
  pseudo_chroot : option bytes          (* NULL when [pseudo_chroot_len] is 0 *)
}.

Definition set_fd_paths l (c : client) := mkClient l (linked_fd_paths c) (pseudo_cwd c) (pseudo_cwd_rel c) (pseudo_chroot c).
Definition set_linked_fd_paths l (c : client) := mkClient (fd_paths c) l (pseudo_cwd c) (pseudo_cwd_rel c) (pseudo_chroot c).

Definition pseudo_chroot_len (c : client) : nat := length (default [] (pseudo_chroot c)).

(** [array[fd]], NULL included *)
Definition entry (l : list (option bytes)) (fd : Z) : option bytes :=
  if (0 <=? fd) && (fd <? Z.of_nat (length l)) then mjoin (l !! Z.to_nat fd) else None.

Definition fd_path (c : client) (fd : Z) : option bytes :=
  if (0 <=? fd) && (fd <? Z.of_nat (length (fd_paths c))) then entry (fd_paths c) fd
  else if fd =? AT_FDCWD then pseudo_cwd c
  else None.

(** The table grows to [fd + 1] entries. *)
Definition pseudo_client_path_set (fd : Z) (path : option bytes) (l : list (option bytes)) : list (option bytes) :=
  if fd <? 0 then l
  else
    let n := Z.to_nat fd in
    let l := if (length l <=? n)%nat then l ++ replicate (n + 1 - length l) None else <[n := None]> l in
    match path with
    | Some p => <[n := Some p]> l
    | None => l
    end.

Definition pseudo_client_path (fd : Z) (path : option bytes) (c : client) : client :=
  set_fd_paths (pseudo_client_path_set fd path (fd_paths c)) c.

(** The loops go over the descriptors from [first] up. *)
Fixpoint for_fds (n : nat) (first : Z) (body : Z -> client -> client) (c : client) : client :=
  match n with
  | O => c
  | S n => for_fds n (first + 1) body (body first c)
  end.

Definition is_at (l : list (option bytes)) (fd : Z) (path : bytes) : bool := bool_decide (entry l fd = Some path).

Definition pseudo_client_linked_paths (old new : bytes) (c : client) : client :=
  for_fds (length (fd_paths c) - 3) 3
    (fun fd c => if is_at (fd_paths c) fd old
                 then set_linked_fd_paths (pseudo_client_path_set fd (Some new) (linked_fd_paths c)) c else c) c.

Definition pseudo_client_rename_path (old new : bytes) (c : client) : client :=
  let c := for_fds (length (fd_paths c) - 3) 3
    (fun fd c => if is_at (fd_paths c) fd old then pseudo_client_path fd (Some new) c else c) c in
  for_fds (length (linked_fd_paths c)) 0
    (fun fd c => if is_at (linked_fd_paths c) fd old && bool_decide (entry (fd_paths c) fd <> None)
                 then set_linked_fd_paths (pseudo_client_path_set fd (Some new) (linked_fd_paths c)) c else c) c.

Definition pseudo_client_unlinked_path (path : bytes) (c : client) : client :=
  for_fds (length (linked_fd_paths c)) 0
    (fun fd c => match entry (linked_fd_paths c) fd with
                 | Some linked => if is_at (fd_paths c) fd path then pseudo_client_path fd (Some linked) c else c
                 | None => c
                 end) c.

Definition clear_entry (fd : Z) (l : list (option bytes)) : list (option bytes) := <[Z.to_nat fd := None]> l.

Definition pseudo_client_close (fd : Z) (c : client) : client :=
  if (fd <? 0) || (Z.of_nat (length (fd_paths c)) <=? fd) then c
  else
    let c := set_fd_paths (clear_entry fd (fd_paths c)) c in
    if fd <? Z.of_nat (length (linked_fd_paths c))
    then set_linked_fd_paths (clear_entry fd (linked_fd_paths c)) c else c.

Definition pseudo_client_closefrom (fd : Z) (c : client) : client :=
  if (fd <? 0) || (Z.of_nat (length (fd_paths c)) <=? fd) then c
  else for_fds (length (fd_paths c) - Z.to_nat fd) fd pseudo_client_close c.

(** *** Root and current directory *)

(** The copy of the path ([malloc] succeeds); the environment variable and
    the password files follow it elsewhere. *)
Definition pseudo_client_chroot (path : bytes) (c : client) : client :=
  mkClient (fd_paths c) (linked_fd_paths c) (pseudo_cwd c) (pseudo_cwd_rel c)
    (if bool_decide (path = $"/") then None else Some path).

(** Is [path] the root or below it? *)
Definition in_root (root path : bytes) : bool :=
  (length root <=? length path)%nat && prefixb root path
  && (bool_decide (char_at path (length root) = NUL) || bool_decide (char_at path (length root) = slash)).

(** [cwd] is what [getcwd] delivered. *)
Definition pseudo_client_getcwd (cwd : option bytes) (c : client) : client * Z :=
  match cwd with
  | None => (c, -1)
  | Some cwd =>
      let rel := match pseudo_chroot c with
                 | Some root => if negb (pseudo_chroot_len c =? 0)%nat && in_root root cwd
                                then drop (length root) cwd else cwd
                 | None => cwd
                 end in
      (mkClient (fd_paths c) (linked_fd_paths c) (Some cwd) (Some rel) (pseudo_chroot c), 0)
  end.

(** *** [base_path] *)

(** NULL, a string kept elsewhere, or what [pseudo_fix_path] returned. *)
Inductive base_result :=
| BaseNull
| BaseStr (s : bytes)
| BaseFixed (r : fixed_path).

Section BasePath.
Context {PM : PathMax} {PE : PathEnv}.

Definition of_fixed (r : option (path_bufs * fixed_path)) : option (path_bufs * base_result) :=
  '(b, r) ← r; Some (b, match r with FixFailed => BaseNull | r => BaseFixed r end).

Definition base_path (c : client) (b : path_bufs) (dirfd : Z) (path : option bytes) (leave_last : bool) :
    option (path_bufs * base_result) :=
  match path with
  | None => Some (b, BaseNull)
  | Some [] =>
      if negb (dirfd =? -1) && negb (dirfd =? AT_FDCWD)
      then Some (b, match fd_path c dirfd with Some p => BaseStr p | None => BaseNull end)
      else Some (b, BaseStr [])
  | Some path =>
      if negb (bool_decide (char_at path 0 = slash)) then
        let basepath :=
          if negb (dirfd =? -1) && negb (dirfd =? AT_FDCWD)
          then (if 0 <=? dirfd then fd_path c dirfd else None)
          else pseudo_cwd c in
        match basepath with
        | None => Some (b, BaseNull)
        | Some basepath =>
            let minlen :=
              match pseudo_chroot c with
              | Some root => if negb (pseudo_chroot_len c =? 0)%nat && in_root root basepath
                             then pseudo_chroot_len c else 0%nat
              | None => 0%nat
              end in
            of_fixed (pseudo_fix_path b basepath (Some path) minlen (length basepath) leave_last)
        end
      else
        match pseudo_chroot c with
        | Some root =>
            if negb (pseudo_chroot_len c =? 0)%nat
            then of_fixed (pseudo_fix_path b root (Some path) (length root) (length root) leave_last)
            else of_fixed (pseudo_fix_path b [] (Some path) 0 0 leave_last)
        | None => of_fixed (pseudo_fix_path b [] (Some path) 0 0 leave_last)
        end
  end.

(** The messages apart, [pseudo_root_path] is [base_path]. *)
Definition pseudo_root_path (c : client) (b : path_bufs) (dirfd : Z) (path : option bytes) (leave_last : bool) :
    option (path_bufs * base_result) := base_path c b dirfd path leave_last.
End BasePath.

(** *** Ignored paths

    [env] is the value of [PSEUDO_IGNORE_PATHS]. *)

(** The strings between commas. *)
Fixpoint split_commas (s : bytes) : list bytes :=
  match s with
  | [] => [[]]
  | c :: s' =>
      if decide (c = ","%char) then [] :: split_commas s'
      else match split_commas s' with [] => [[c]] | e :: es => (c :: e) :: es end
  end.

Definition pseudo_client_ignore_path_chroot (c : client) (env : option bytes) (path : option bytes)
    (ignore_chroot : bool) : bool :=
  match path with
  | None => false
  | Some path =>
      if ignore_chroot && match pseudo_chroot c with Some root => prefixb root path | None => false end then false
      else
        match env with
        | None => false
        | Some env => existsb (fun p => negb (bool_decide (p = [])) && prefixb p path) (split_commas env)
        end
  end.

Definition pseudo_client_ignore_path (c : client) (env : option bytes) (path : option bytes) : bool :=
  pseudo_client_ignore_path_chroot c env path true.

Definition pseudo_client_ignore_fd (c : client) (env : option bytes) (fd : Z) : bool :=
  if (0 <=? fd) && (fd <=? Z.of_nat (length (fd_paths c)))
  then pseudo_client_ignore_path c env (fd_path c fd) else false.

(** *** Duplicated descriptors

    [OP_CLOSE] and [OP_DUP] of [pseudo_client_op], and the two of them in
    [dup2], which makes both whatever its arguments are. *)

Definition client_op_close (fd : Z) (c : client) : client := pseudo_client_close fd c.
Definition client_op_dup (fd dirfd : Z) (c : client) : client := pseudo_client_path dirfd (fd_path c fd) c.

Definition wrap_dup2 (oldfd newfd : Z) (c : client) : client :=
  client_op_dup oldfd newfd (client_op_close newfd c).
