(* ===== verification/ClientPathSpec.v ===== *)
(** The client's path tables and [base_path]: what each operation does to the
    path of every descriptor, and that nothing leaves a changed root. *)

From stdpp Require Import base gmap list strings.
From Stdlib Require Import ZArith Lia Ascii.
From S2P Require Import Prelude Modes Paths PathsSpec ClientPath.

Open Scope Z_scope.

(** ** Tables *)

Lemma lookup_clear (l : list (option bytes)) (n m : nat) :
  mjoin (<[n := None]> l !! m) = if decide (n = m) then None else mjoin (l !! m).
Proof.
  case_decide as Hn; [subst|by rewrite list_lookup_insert_ne].
  destruct (decide (m < length l)%nat); [by rewrite list_lookup_insert_eq|].
  rewrite lookup_ge_None_2; [done|]. rewrite length_insert. lia.
Qed.

Lemma entry_nat l fd : 0 <= fd -> entry l fd = mjoin (l !! Z.to_nat fd).
Proof.
  intros Hfd. unfold entry. rewrite (proj2 (Z.leb_le _ _)) by done. cbn [andb].
  destruct (Z.ltb_spec fd (Z.of_nat (length l))); [done|]. rewrite lookup_ge_None_2; [done|]. lia.
Qed.

Lemma entry_neg l fd : fd < 0 -> entry l fd = None.
Proof. intros. unfold entry. by rewrite (proj2 (Z.leb_gt _ _)). Qed.

Lemma entry_Some l fd p : entry l fd = Some p -> 0 <= fd < Z.of_nat (length l).
Proof.
  unfold entry. destruct (Z.leb_spec 0 fd), (Z.ltb_spec fd (Z.of_nat (length l))); by try lia.
Qed.

Lemma path_set_length fd p l :
  length (pseudo_client_path_set fd p l) = if 0 <=? fd then Nat.max (length l) (Z.to_nat fd + 1) else length l.
Proof.
  unfold pseudo_client_path_set. rewrite (Z.leb_antisym fd 0). destruct (Z.ltb_spec fd 0); [done|]. cbn [negb].
  set (l' := if (_ <=? _)%nat then _ else _).
  assert (length l' = Nat.max (length l) (Z.to_nat fd + 1)).
  { unfold l'. destruct (Nat.leb_spec (length l) (Z.to_nat fd)).
    - rewrite length_app, length_replicate. lia.
    - rewrite length_insert. lia. }
  destruct p; [by rewrite length_insert|done].
Qed.

(** Setting a path sets that one. *)
Lemma entry_path_set fd p l fd' :
  entry (pseudo_client_path_set fd p l) fd' = if decide (fd' = fd /\ 0 <= fd) then p else entry l fd'.
Proof.
  destruct (decide (0 <= fd')) as [Hfd'|Hneg].
  2:{ rewrite !entry_neg by lia. case_decide; [lia|done]. }
  pose proof (path_set_length fd p l) as Hlen.
  unfold pseudo_client_path_set in *. destruct (Z.ltb_spec fd 0); [by rewrite decide_False by lia|].
  rewrite (proj2 (Z.leb_le 0 fd)) in Hlen by lia.
  rewrite !entry_nat by done.
  set (l' := if (_ <=? _)%nat then _ else _) in *.
  assert (forall m, mjoin (l' !! m) = if decide (Z.to_nat fd = m) then None else mjoin (l !! m)) as Hl'.
  { intros m. unfold l'. destruct (Nat.leb_spec (length l) (Z.to_nat fd)); [|apply lookup_clear].
    destruct (decide (m < length l)%nat).
    - rewrite lookup_app_l, decide_False by lia. done.
    - rewrite lookup_app_r, (lookup_ge_None_2 l) by lia. destruct (replicate _ _ !! _) as [o|] eqn:Ho.
      + apply lookup_replicate in Ho as [-> _]. by case_decide.
      + by case_decide. }
  destruct p as [p|].
  - rewrite length_insert in Hlen. destruct (decide (fd' = fd)) as [->|Hne].
    + rewrite decide_True by done. rewrite list_lookup_insert_eq by lia. done.
    + rewrite decide_False by naive_solver. rewrite list_lookup_insert_ne by lia.
      rewrite Hl', decide_False by lia. done.
  - rewrite Hl'. destruct (decide (fd' = fd)) as [->|Hne]; [by rewrite !decide_True|].
    by rewrite !decide_False by (naive_solver || lia).
Qed.

Lemma for_fds_ind (P : Z -> client -> Prop) n first body c :
  P first c -> (forall fd c', first <= fd < first + Z.of_nat n -> P fd c' -> P (fd + 1) (body fd c')) ->
  P (first + Z.of_nat n) (for_fds n first body c).
Proof.
  revert first c. induction n as [|n IH]; intros first c H0 Hstep; simpl for_fds.
  - by rewrite Z.add_0_r.
  - replace (first + Z.of_nat (S n)) with (first + 1 + Z.of_nat n) by lia. apply IH.
    + apply Hstep; [lia|done].
    + intros fd c' Hfd. apply Hstep. lia.
Qed.

(** The second table is never the longer one: the loops over it read the
    first one inside its bounds. *)
Definition client_ok (c : client) : Prop := (length (linked_fd_paths c) <= length (fd_paths c))%nat.

Lemma path_set_in_table fd p l : 0 <= fd < Z.of_nat (length l) ->
  length (pseudo_client_path_set fd p l) = length l.
Proof. intros H. rewrite path_set_length, (proj2 (Z.leb_le _ _)) by lia. lia. Qed.

Lemma is_at_spec l fd p : is_at l fd p = true <-> entry l fd = Some p.
Proof. apply bool_decide_eq_true. Qed.

(** *** The loops *)

Lemma linked_paths_loop old new c :
  fd_paths (pseudo_client_linked_paths old new c) = fd_paths c /\
  (forall fd, entry (linked_fd_paths (pseudo_client_linked_paths old new c)) fd =
     if decide (3 <= fd /\ entry (fd_paths c) fd = Some old) then Some new else entry (linked_fd_paths c) fd) /\
  (client_ok c -> client_ok (pseudo_client_linked_paths old new c)).
Proof.
  unfold pseudo_client_linked_paths.
  set (body := fun fd c => if is_at _ _ _ then _ else _).
  assert (forall n, let c' := for_fds n 3 body c in
    fd_paths c' = fd_paths c /\
    (forall fd, entry (linked_fd_paths c') fd =
      if decide (3 <= fd < 3 + Z.of_nat n /\ entry (fd_paths c) fd = Some old) then Some new
      else entry (linked_fd_paths c) fd) /\ (client_ok c -> client_ok c')) as H.
  { intros n. refine (for_fds_ind (fun up c' => fd_paths c' = fd_paths c /\
      (forall fd, entry (linked_fd_paths c') fd =
        if decide (3 <= fd < up /\ entry (fd_paths c) fd = Some old) then Some new
        else entry (linked_fd_paths c) fd) /\ (client_ok c -> client_ok c')) n 3 body c _ _).
    - split; [done|]. split; [|done]. intros fd. by rewrite decide_False by lia.
    - intros fd c' Hfd (Hp & Hl & Hc). unfold body. rewrite Hp.
      destruct (is_at (fd_paths c) fd old) eqn:Hat.
      + apply is_at_spec in Hat. cbn [set_linked_fd_paths fd_paths linked_fd_paths]. split; [done|]. split.
        * intros fd'. rewrite entry_path_set, Hl. repeat case_decide; try done; exfalso; naive_solver lia.
        * intros Hok. specialize (Hc Hok). unfold client_ok in *. cbn [set_linked_fd_paths fd_paths linked_fd_paths].
          rewrite path_set_length, (proj2 (Z.leb_le 0 fd)) by lia. rewrite Hp in *. apply entry_Some in Hat. lia.
      + apply not_true_iff_false in Hat. rewrite is_at_spec in Hat. split; [done|]. split; [|done].
        intros fd'. rewrite Hl. destruct (decide (fd' = fd)) as [->|].
        * by rewrite !decide_False by naive_solver.
        * apply decide_ext. naive_solver lia. }
  destruct (H (length (fd_paths c) - 3)%nat) as (H1 & H2 & H3). split; [done|]. split; [|done].
  intros fd. rewrite H2. apply decide_ext. split; [naive_solver|]. intros [Hfd Ha]. split; [|done].
  apply entry_Some in Ha. lia.
Qed.

Lemma rename_first_loop old new c :
  let c' := for_fds (length (fd_paths c) - 3) 3
    (fun fd c => if is_at (fd_paths c) fd old then pseudo_client_path fd (Some new) c else c) c in
  linked_fd_paths c' = linked_fd_paths c /\ length (fd_paths c') = length (fd_paths c) /\
  forall fd, entry (fd_paths c') fd =
     if decide (3 <= fd /\ entry (fd_paths c) fd = Some old) then Some new else entry (fd_paths c) fd.
Proof.
  set (body := fun fd c => if is_at _ _ _ then _ else _).
  assert (forall n, let c' := for_fds n 3 body c in
    linked_fd_paths c' = linked_fd_paths c /\ length (fd_paths c') = length (fd_paths c) /\
    (forall fd, entry (fd_paths c') fd =
      if decide (3 <= fd < 3 + Z.of_nat n /\ entry (fd_paths c) fd = Some old) then Some new
      else entry (fd_paths c) fd)) as H.
  { intros n. refine (for_fds_ind (fun up c' => linked_fd_paths c' = linked_fd_paths c /\
      length (fd_paths c') = length (fd_paths c) /\
      (forall fd, entry (fd_paths c') fd =
        if decide (3 <= fd < up /\ entry (fd_paths c) fd = Some old) then Some new
        else entry (fd_paths c) fd)) n 3 body c _ _).
    - split; [done|]. split; [done|]. intros fd. by rewrite decide_False by lia.
    - intros fd c' Hfd (Hp & Hl & He). unfold body.
      destruct (is_at (fd_paths c') fd old) eqn:Hat.
      + apply is_at_spec in Hat. unfold pseudo_client_path. cbn [set_fd_paths fd_paths linked_fd_paths].
        split; [done|]. split; [rewrite path_set_in_table; [done|by apply entry_Some in Hat]|].
        intros fd'. rewrite entry_path_set, He. rewrite He, decide_False in Hat by lia.
        repeat case_decide; try done; exfalso; naive_solver lia.
      + apply not_true_iff_false in Hat. rewrite is_at_spec in Hat. split; [done|]. split; [done|].
        intros fd'. rewrite He in Hat. rewrite decide_False in Hat by lia. rewrite He.
        destruct (decide (fd' = fd)) as [->|].
        * by rewrite !decide_False by naive_solver.
        * apply decide_ext. naive_solver lia. }
  destruct (H (length (fd_paths c) - 3)%nat) as (H1 & H2 & H3). split; [done|]. split; [done|].
  intros fd. rewrite H3. apply decide_ext. split; [naive_solver|]. intros [Hfd Ha]. split; [|done].
  apply entry_Some in Ha. lia.
Qed.

Lemma rename_second_loop old new c :
  let c' := for_fds (length (linked_fd_paths c)) 0
    (fun fd c => if is_at (linked_fd_paths c) fd old && bool_decide (entry (fd_paths c) fd <> None)
                 then set_linked_fd_paths (pseudo_client_path_set fd (Some new) (linked_fd_paths c)) c else c) c in
  fd_paths c' = fd_paths c /\ length (linked_fd_paths c') = length (linked_fd_paths c) /\
  forall fd, entry (linked_fd_paths c') fd =
     if decide (entry (linked_fd_paths c) fd = Some old /\ entry (fd_paths c) fd <> None) then Some new
     else entry (linked_fd_paths c) fd.
Proof.
  set (body := fun fd c => if _ && _ then _ else _).
  assert (forall n, let c' := for_fds n 0 body c in
    fd_paths c' = fd_paths c /\ length (linked_fd_paths c') = length (linked_fd_paths c) /\
    (forall fd, entry (linked_fd_paths c') fd =
      if decide (0 <= fd < 0 + Z.of_nat n /\ entry (linked_fd_paths c) fd = Some old /\ entry (fd_paths c) fd <> None)
      then Some new else entry (linked_fd_paths c) fd)) as H.
  { intros n. refine (for_fds_ind (fun up c' => fd_paths c' = fd_paths c /\
      length (linked_fd_paths c') = length (linked_fd_paths c) /\
      (forall fd, entry (linked_fd_paths c') fd =
        if decide (0 <= fd < up /\ entry (linked_fd_paths c) fd = Some old /\ entry (fd_paths c) fd <> None)
        then Some new else entry (linked_fd_paths c) fd)) n 0 body c _ _).
    - split; [done|]. split; [done|]. intros fd. by rewrite decide_False by lia.
    - intros fd c' Hfd (Hp & Hl & He). unfold body. rewrite Hp.
      destruct (is_at (linked_fd_paths c') fd old && bool_decide (entry (fd_paths c) fd <> None)) eqn:Hat.
      + apply andb_true_iff in Hat as [Hat%is_at_spec Hn%bool_decide_eq_true].
        cbn [set_linked_fd_paths fd_paths linked_fd_paths].
        split; [done|]. split; [rewrite path_set_in_table; [done|by apply entry_Some in Hat]|].
        intros fd'. rewrite entry_path_set, He. rewrite He, decide_False in Hat by lia.
        repeat case_decide; try done; exfalso; naive_solver lia.
      + apply andb_false_iff in Hat. split; [done|]. split; [done|]. intros fd'. rewrite He.
        destruct (decide (fd' = fd)) as [->|]; [|apply decide_ext; naive_solver lia].
        assert (~ (entry (linked_fd_paths c) fd = Some old /\ entry (fd_paths c) fd <> None)) as Hno.
        { intros [Ha Hb]. destruct Hat as [Hat%not_true_iff_false|Hat%bool_decide_eq_false]; [|done].
          apply Hat, is_at_spec. rewrite He, decide_False by lia. done. }
        by rewrite !decide_False by naive_solver. }
  destruct (H (length (linked_fd_paths c))) as (H1 & H2 & H3). split; [done|]. split; [done|].
  intros fd. rewrite H3. apply decide_ext. split; [naive_solver|]. intros [Ha Hb]. split; [|done].
  apply entry_Some in Ha. lia.
Qed.

Lemma unlinked_loop path c :
  let c' := pseudo_client_unlinked_path path c in
  linked_fd_paths c' = linked_fd_paths c /\
  (client_ok c -> length (fd_paths c') = length (fd_paths c)) /\
  forall fd, entry (fd_paths c') fd =
     match entry (linked_fd_paths c) fd with
     | Some linked => if decide (entry (fd_paths c) fd = Some path) then Some linked else entry (fd_paths c) fd
     | None => entry (fd_paths c) fd
     end.
Proof.
  unfold pseudo_client_unlinked_path.
  set (body := fun fd c => match entry (linked_fd_paths c) fd with Some _ => _ | None => _ end).
  assert (forall n, let c' := for_fds n 0 body c in
    linked_fd_paths c' = linked_fd_paths c /\ (client_ok c -> length (fd_paths c') = length (fd_paths c)) /\
    (forall fd, entry (fd_paths c') fd =
      match entry (linked_fd_paths c) fd with
      | Some linked => if decide (fd < 0 + Z.of_nat n /\ entry (fd_paths c) fd = Some path) then Some linked
                       else entry (fd_paths c) fd
      | None => entry (fd_paths c) fd
      end)) as H.
  { intros n. refine (for_fds_ind (fun up c' => linked_fd_paths c' = linked_fd_paths c /\
      (client_ok c -> length (fd_paths c') = length (fd_paths c)) /\
      (forall fd, entry (fd_paths c') fd =
        match entry (linked_fd_paths c) fd with
        | Some linked => if decide (fd < up /\ entry (fd_paths c) fd = Some path) then Some linked
                         else entry (fd_paths c) fd
        | None => entry (fd_paths c) fd
        end)) n 0 body c _ _).
    - split; [done|]. split; [done|]. intros fd. destruct (entry (linked_fd_paths c) fd) eqn:Hl; [|done].
      apply entry_Some in Hl. by rewrite decide_False by lia.
    - intros fd c' Hfd (Hp & Hl & He). unfold body. rewrite Hp.
      destruct (entry (linked_fd_paths c) fd) as [linked|] eqn:Hlk.
      + destruct (is_at (fd_paths c') fd path) eqn:Hat.
        * apply is_at_spec in Hat. unfold pseudo_client_path. cbn [set_fd_paths fd_paths linked_fd_paths].
          split; [done|]. split; [intros Hok; rewrite path_set_in_table; [by apply Hl|by apply entry_Some in Hat]|].
          intros fd'. rewrite entry_path_set, He. rewrite He, Hlk, decide_False in Hat by lia.
          destruct (decide (fd' = fd)) as [->|].
          -- rewrite Hlk, decide_True by lia. by rewrite decide_True by (split; [lia|done]).
          -- rewrite decide_False by naive_solver. destruct (entry (linked_fd_paths c) fd'); [|done].
             apply decide_ext. naive_solver lia.
        * apply not_true_iff_false in Hat. rewrite is_at_spec, He, Hlk, decide_False in Hat by lia.
          split; [done|]. split; [done|]. intros fd'. rewrite He.
          destruct (decide (fd' = fd)) as [->|].
          -- rewrite Hlk. by rewrite !decide_False by naive_solver.
          -- destruct (entry (linked_fd_paths c) fd'); [|done]. apply decide_ext. naive_solver lia.
      + split; [done|]. split; [done|]. intros fd'. rewrite He. destruct (decide (fd' = fd)) as [->|].
        * by rewrite Hlk.
        * destruct (entry (linked_fd_paths c) fd'); [|done]. apply decide_ext. naive_solver lia. }
  destruct (H (length (linked_fd_paths c))) as (H1 & H2 & H3). split; [done|]. split; [done|].
  intros fd. rewrite H3. destruct (entry (linked_fd_paths c) fd) eqn:Hl; [|done].
  apply decide_ext. apply entry_Some in Hl. naive_solver lia.
Qed.

Lemma closed_entries fd c : 0 <= fd ->
  (forall fd', entry (fd_paths (pseudo_client_close fd c)) fd' = if decide (fd' = fd) then None else entry (fd_paths c) fd').
Proof.
  intros Hfd fd'. unfold pseudo_client_close. rewrite (proj2 (Z.ltb_ge _ _)) by done. cbn [orb].
  destruct (Z.leb_spec (Z.of_nat (length (fd_paths c))) fd).
  - destruct (decide (fd' = fd)) as [->|]; [|done]. unfold entry. rewrite (proj2 (Z.ltb_ge _ _)) by lia. by rewrite andb_false_r.
  - assert (forall c', fd_paths (if fd <? Z.of_nat (length (linked_fd_paths c')) then
      set_linked_fd_paths (clear_entry fd (linked_fd_paths c')) c' else c') = fd_paths c') as ->
      by (intros c'; by destruct (_ <? _)).
    cbn [set_fd_paths fd_paths]. destruct (decide (0 <= fd')) as [Hn|Hn].
    + rewrite !entry_nat by done. unfold clear_entry. rewrite lookup_clear. apply decide_ext. lia.
    + rewrite !entry_neg by lia. by case_decide.
Qed.

(** ** The changed root *)

(** A path that starts with a slash is a stack of components. *)
Lemma slash_render s : exists stack, render stack = slash :: s /\ Forall (fun e => slash ∉ e) stack.
Proof.
  induction s as [|c s (stack & Hr & Hs)].
  - exists [[]]. split; [done|]. constructor; [by apply not_elem_of_nil|constructor].
  - destruct (decide (c = slash)) as [->|Hc].
    + exists ([] :: stack). split; [unfold render in *; simpl; by rewrite Hr|].
      constructor; [by apply not_elem_of_nil|done].
    + destruct stack as [|e stack]; [done|]. exists ((c :: e) :: stack).
      unfold render in *. simpl in *. injection Hr as Hr. split; [by rewrite Hr|].
      inversion Hs. constructor; [by apply not_elem_of_cons|done].
Qed.

Lemma in_root_split root path : NUL ∉ path -> in_root root path = true ->
  exists stack, path = root ++ render stack /\ Forall (fun e => slash ∉ e) stack.
Proof.
  unfold in_root. rewrite !andb_true_iff, orb_true_iff, !bool_decide_eq_true.
  intros Hnul [[_ Hp] Hc]. apply prefixb_spec in Hp as [rest ->]. destruct rest as [|c rest].
  - exists []. split; [done|constructor].
  - rewrite char_at_app_r in Hc. destruct Hc as [-> | ->].
    + exfalso. apply Hnul. apply elem_of_app. right. by left.
    + destruct (slash_render rest) as (stack & <- & Hs). by exists stack.
Qed.

(** The root is absolute and not [/] itself ([pseudo_client_chroot] never
    keeps [/]). *)
Definition root_ok (root : bytes) : Prop := char_at root 0 = slash /\ (2 <= length root)%nat /\ NUL ∉ root.

Lemma jail_base root base : root_ok root -> NUL ∉ base -> in_root root base = true ->
  exists stack, base_ok base (length root) (length base) root stack.
Proof.
  intros (_ & Hlen & _) Hn Hin. destruct (in_root_split _ _ Hn Hin) as (stack & -> & Hs). exists stack.
  assert (forall n, (2 <= n)%nat -> len_or_root n = n) as Hl
    by (intros n Hn'; unfold len_or_root; by rewrite (proj2 (Nat.eqb_neq _ _)) by lia).
  assert (2 <= length (root ++ render stack))%nat by (rewrite length_app; lia).
  constructor; rewrite ?Hl by done; try done. by rewrite firstn_all.
Qed.

Lemma in_root_refl root : in_root root root = true.
Proof.
  unfold in_root. rewrite Nat.leb_refl. rewrite <- (app_nil_r root) at 2. rewrite prefixb_app.
  unfold char_at. rewrite lookup_ge_None_2 by done. done.
Qed.

(** ** Properties *)

(** C15: in a changed root no path leads out: an absolute path, and a relative
    path whose directory (current or given by descriptor) is the root or below
    it, give a path below the root, whatever links the file system holds;
    the only other outcomes are NULL, and the argument itself when it is too
    long for the path buffer. *)
Theorem base_path_confined {PM : PathMax} {PE : PathEnv} (c : client) b dirfd path leave_last root base :
  bufs_ok b -> malloc_ok -> pseudo_chroot c = Some root -> root_ok root -> NUL ∉ path -> path <> [] ->
  (char_at path 0 = slash \/
   (if negb (dirfd =? -1) && negb (dirfd =? AT_FDCWD) then 0 <= dirfd /\ fd_path c dirfd = Some base
    else pseudo_cwd c = Some base) /\ NUL ∉ base /\ in_root root base = true) ->
  exists b' r, base_path c b dirfd (Some path) leave_last = Some (b', r) /\
    match r with
    | BaseNull => True
    | BaseStr _ => False
    | BaseFixed r => r = FixSame \/ exists rest, fixed_str b' path r = Some (root ++ slash :: rest)
    end.
Proof.
  intros Hb Hm Hroot Hrok Hn Hne Hcase.
  assert (negb (pseudo_chroot_len c =? 0)%nat = true /\ pseudo_chroot_len c = length root) as [Hlen Hlen'].
  { unfold pseudo_chroot_len. rewrite Hroot. simpl. destruct Hrok as (_ & ? & _).
    split; [|done]. apply negb_true_iff, Nat.eqb_neq. lia. }
  assert (exists dir, NUL ∉ dir /\ in_root root dir = true /\
    base_path c b dirfd (Some path) leave_last =
      of_fixed (pseudo_fix_path b dir (Some path) (length root) (length dir) leave_last)) as (dir & Hdn & Hdin & ->).
  { destruct path as [|x path]; [done|]. unfold base_path. rewrite Hroot, Hlen, Hlen'.
    destruct (decide (char_at (x :: path) 0 = slash)) as [Habs|Hrel].
    - exists root. rewrite bool_decide_eq_true_2 by done. cbn [negb].
      split; [by destruct Hrok as (_ & _ & ?)|]. split; [apply in_root_refl|done].
    - destruct Hcase as [?|(Hdir & Hbn & Hin)]; [done|]. exists base. split; [done|]. split; [done|].
      rewrite bool_decide_eq_false_2 by done. cbn [negb].
      assert ((if negb (dirfd =? -1) && negb (dirfd =? AT_FDCWD) then if 0 <=? dirfd then fd_path c dirfd else None
               else pseudo_cwd c) = Some base) as ->.
      { destruct (_ && _); [|done]. destruct Hdir as [Hpos ->]. by rewrite (proj2 (Z.leb_le _ _)). }
      cbv zeta. by rewrite Hin. }
  destruct (jail_base root dir Hrok Hdn Hdin) as [stack Hbase].
  destruct (fix_path_resolves b dir path _ _ root stack leave_last Hb Hm Hbase Hn Hne) as (b' & r & Hr & _ & H).
  rewrite Hr. unfold of_fixed. cbn [mbind option_bind]. eexists b', _. split; [done|].
  destruct (too_long path (length dir)); [destruct H as [_ ->]; by left|]. destruct H as (_ & _ & H).
  unfold resolved in H. destruct (resolve _ _ _) as [[s md]|]; [|by rewrite H].
  destruct H as [-> H]. right. exists (match s with
    | [] => []
    | e :: s' => e ++ render s' ++ (if trailing_slash path then [slash] else [])
    end). rewrite H. f_equal. unfold finish, path_text. destruct s as [|e s'].
  - rewrite bool_decide_eq_true_2, orb_true_r by done. simpl. by rewrite app_nil_r.
  - rewrite bool_decide_eq_false_2, orb_false_r by done. unfold render. simpl. by rewrite <- !app_assoc; simpl; rewrite <- !app_assoc.
Qed.

(** Renaming a path renames it for every descriptor from 3 up that is open
    at it, and in the alternative names of open descriptors; every other entry
    stays, the tables keep their sizes. *)
Theorem rename_path_exact old new c :
  let c' := pseudo_client_rename_path old new c in
  (forall fd, entry (fd_paths c') fd =
     if decide (3 <= fd /\ entry (fd_paths c) fd = Some old) then Some new else entry (fd_paths c) fd) /\
  (forall fd, entry (linked_fd_paths c') fd =
     if decide (entry (linked_fd_paths c) fd = Some old /\ entry (fd_paths c) fd <> None) then Some new
     else entry (linked_fd_paths c) fd) /\
  length (fd_paths c') = length (fd_paths c) /\ length (linked_fd_paths c') = length (linked_fd_paths c).
Proof.
  intros c'. unfold c', pseudo_client_rename_path. clear c'.
  destruct (rename_first_loop old new c) as (L1 & N1 & E1).
  match goal with |- context [for_fds (length (linked_fd_paths ?x)) 0 _ ?x] => set (c1 := x) in * end.
  destruct (rename_second_loop old new c1) as (F2 & N2 & E2). cbv zeta in *.
  rewrite F2. split; [done|]. split; [|by rewrite N2, L1].
  intros fd. rewrite E2, L1. apply decide_ext. rewrite E1. case_decide; naive_solver.
Qed.

(** A file that gets a second name and loses the first one stays known: a
    descriptor from 3 up open at the old name is afterwards at the new one.  A
    descriptor open elsewhere, with no second name of its own, keeps its
    path. *)
Theorem link_then_unlink_follows old new c fd :
  client_ok c ->
  let c' := pseudo_client_unlinked_path old (pseudo_client_linked_paths old new c) in
  (3 <= fd -> entry (fd_paths c) fd = Some old -> entry (fd_paths c') fd = Some new) /\
  (entry (fd_paths c) fd <> Some old -> entry (fd_paths c') fd = entry (fd_paths c) fd) /\
  client_ok c'.
Proof.
  intros Hok c'. unfold c'.
  destruct (linked_paths_loop old new c) as (F1 & E1 & O1).
  destruct (unlinked_loop old (pseudo_client_linked_paths old new c)) as (L2 & N2 & E2).
  split; [|split].
  - intros Hfd Hat. rewrite E2, E1, decide_True by done. by rewrite F1, decide_True.
  - intros Hne. rewrite E2, F1. destruct (entry (linked_fd_paths _) fd); [|done]. by rewrite decide_False.
  - specialize (O1 Hok). unfold client_ok in *. by rewrite L2, (N2 O1).
Qed.

(** [dup2] copies the path to the new descriptor and leaves the others;
    but for equal descriptors, where [dup2] does nothing and the file stays
    open, its path is forgotten. *)
Theorem dup2_paths oldfd newfd c :
  0 <= oldfd < Z.of_nat (length (fd_paths c)) -> 0 <= newfd ->
  (forall fd, fd <> newfd -> entry (fd_paths (wrap_dup2 oldfd newfd c)) fd = entry (fd_paths c) fd) /\
  entry (fd_paths (wrap_dup2 oldfd newfd c)) newfd =
    if decide (oldfd = newfd) then None else entry (fd_paths c) oldfd.
Proof.
  intros Hold Hnew. unfold wrap_dup2, client_op_dup, client_op_close, pseudo_client_path. cbn [set_fd_paths fd_paths].
  assert (fd_path (pseudo_client_close newfd c) oldfd = entry (fd_paths (pseudo_client_close newfd c)) oldfd) as ->.
  { unfold fd_path. assert (length (fd_paths (pseudo_client_close newfd c)) = length (fd_paths c)) as ->.
    { unfold pseudo_client_close. destruct (_ || _); [done|]. destruct (_ <? _);
        cbn [set_fd_paths set_linked_fd_paths fd_paths clear_entry]; unfold clear_entry; by rewrite length_insert. }
    by rewrite (proj2 (Z.leb_le 0 oldfd)), (proj2 (Z.ltb_lt oldfd _)) by lia. }
  split.
  - intros fd Hfd. rewrite entry_path_set, decide_False by naive_solver. by rewrite closed_entries, decide_False.
  - rewrite entry_path_set, decide_True by done. by rewrite closed_entries.
Qed.

(** ** Witnesses *)

(** A client in the root [/a] whose descriptor 4 is open at [/a/d]. *)
Definition jailed_client : client :=
  mkClient [None; None; None; None; Some ($"/a/d")] [] (Some ($"/a")) (Some []) (Some ($"/a")).

Definition climbing_path : bytes := $"../../l/../../x".

Definition climbing_bufs : path_bufs :=
  match @base_path small_path_max linked_tree jailed_client no_bufs 4 (Some climbing_path) false with
  | Some (b, _) => b
  | None => no_bufs
  end.

Lemma climbing_result :
  @base_path small_path_max linked_tree jailed_client no_bufs 4 (Some climbing_path) false =
    Some (climbing_bufs, BaseFixed (FixBuf 0 4)).
Proof. vm_compute. reflexivity. Qed.

Lemma base_path_confined_witness : exists rest,
  fixed_str climbing_bufs climbing_path (FixBuf 0 4) = Some ($"/a" ++ slash :: rest).
Proof.
  destruct (@base_path_confined small_path_max linked_tree jailed_client no_bufs 4 climbing_path false
    ($"/a") ($"/a/d") no_bufs_ok linked_malloc_ok) as (b' & r & H1 & H2).
  - reflexivity.
  - split; [reflexivity|]. split; [simpl; lia|by apply no_nul_b].
  - by apply no_nul_b.
  - done.
  - right. split; [by split|]. split; [by apply no_nul_b|reflexivity].
  - rewrite climbing_result in H1. assert (b' = climbing_bufs /\ r = BaseFixed (FixBuf 0 4)) as [-> ->] by (by split; congruence).
    destruct H2 as [H2|H2]; [discriminate|exact H2].
Defined.

Lemma link_then_unlink_follows_witness :
  entry (fd_paths (pseudo_client_unlinked_path ($"/a/d") (pseudo_client_linked_paths ($"/a/d") ($"/a/e") jailed_client))) 4 =
    Some ($"/a/e").
Proof.
  destruct (link_then_unlink_follows ($"/a/d") ($"/a/e") jailed_client 4) as (H & _ & _); [unfold client_ok; simpl; lia|].
  apply H; [lia|reflexivity].
Defined.

Lemma dup2_paths_witness :
  entry (fd_paths (wrap_dup2 4 6 jailed_client)) 6 = Some ($"/a/d") /\
  entry (fd_paths (wrap_dup2 4 4 jailed_client)) 4 = None.
Proof.
  split.
  - destruct (dup2_paths 4 6 jailed_client) as [_ H]; [simpl; lia|lia|]. rewrite H. reflexivity.
  - destruct (dup2_paths 4 4 jailed_client) as [_ H]; [simpl; lia|lia|]. rewrite H. reflexivity.
Defined.
