(* ===== verification/ServerLoop.v ===== *)
(** The server around the operation handler ([pseudo_server.c]): the table of
    clients, one message of one client, and the event loop.

    What the server does to the outside is collected in [outputs].  Memory the
    C code would write outside its blocks gives [None].  The loop is the one
    with [epoll]; [ServerSelect] has the other.  Counting and timing of messages, the diagnostics and the two
    log lines at start and exit are not modelled. *)

From stdpp Require Import base gmap list strings.
From Stdlib Require Import ZArith Lia Ascii.
From S2P Require Import Prelude Format Tables Modes Message Sql FileDb Xattr LogDb ServerOp.

Open Scope Z_scope.

Record client_slot := mkSlot {
  c_fd : Z;
  c_pid : Z;
  c_tag : option bytes;
  c_program : option bytes
}.

Definition free_slot : client_slot := mkSlot (-1) 0 None None.

(** Things others see: bytes sent on a socket, a socket closed. *)
Inductive output := Sent (fd : Z) (wire : bytes) | Closed (fd : Z).

Definition LOOP_DELAY : Z := 2.
Definition DEFAULT_PSEUDO_SERVER_TIMEOUT : Z := 30.

Section ServerLoop.
Context {E : SqlEngine} {PM : PathMax} {SC : ServerConfig} {M : Malloc}.

Record server := mkServer {
  clients : list client_slot;            (* its length is max_clients *)
  active_clients : Z;
  highest_client : Z;
  die_peacefully : bool;
  die_forcefully : bool;
  server_timeout : Z;                    (* pseudo_server_timeout *)
  loop_timeout : Z;
  sdb : pdb;
  occasional : Z;                        (* static of pdb_maybe_backup *)
  rx : rx_state;                         (* statics of pseudo_msg_receive *)
  outputs : list output                  (* latest first *)
}.

Definition max_clients (s : server) : Z := Z.of_nat (length (clients s)).

Definition with_clients l a h (s : server) : server :=
  mkServer l a h (die_peacefully s) (die_forcefully s) (server_timeout s) (loop_timeout s) (sdb s) (occasional s) (rx s) (outputs s).
Definition with_peace b (s : server) : server :=
  mkServer (clients s) (active_clients s) (highest_client s) b (die_forcefully s) (server_timeout s) (loop_timeout s) (sdb s) (occasional s) (rx s) (outputs s).
Definition with_force b (s : server) : server :=
  mkServer (clients s) (active_clients s) (highest_client s) (die_peacefully s) b (server_timeout s) (loop_timeout s) (sdb s) (occasional s) (rx s) (outputs s).
Definition with_timeouts t l (s : server) : server :=
  mkServer (clients s) (active_clients s) (highest_client s) (die_peacefully s) (die_forcefully s) t l (sdb s) (occasional s) (rx s) (outputs s).
Definition with_sdb d (s : server) : server :=
  mkServer (clients s) (active_clients s) (highest_client s) (die_peacefully s) (die_forcefully s) (server_timeout s) (loop_timeout s) d (occasional s) (rx s) (outputs s).
Definition with_occasional o (s : server) : server :=
  mkServer (clients s) (active_clients s) (highest_client s) (die_peacefully s) (die_forcefully s) (server_timeout s) (loop_timeout s) (sdb s) o (rx s) (outputs s).
Definition with_rx r (s : server) : server :=
  mkServer (clients s) (active_clients s) (highest_client s) (die_peacefully s) (die_forcefully s) (server_timeout s) (loop_timeout s) (sdb s) (occasional s) r (outputs s).
Definition emit o (s : server) : server :=
  mkServer (clients s) (active_clients s) (highest_client s) (die_peacefully s) (die_forcefully s) (server_timeout s) (loop_timeout s) (sdb s) (occasional s) (rx s) (o :: outputs s).

Definition slot (s : server) (i : Z) : client_slot := default free_slot (clients s !! Z.to_nat i).

(** *** The table of clients *)

(** The first free slot. *)
Fixpoint first_free (l : list client_slot) (i : nat) : option nat :=
  match l with
  | [] => None
  | c :: l => if c_fd c =? -1 then Some i else first_free l (S i)
  end.

(** [malloc_ok]: whether there is memory for a larger table. *)
Definition open_client (fd : Z) (malloc_ok : bool) (s : server) : server * Z :=
  let new := mkSlot fd 0 None None in
  match first_free (clients s) 0 with
  | Some i =>
      (with_clients (<[i := new]> (clients s)) (active_clients s + 1)
         (if highest_client s <? Z.of_nat i then Z.of_nat i else highest_client s) s, Z.of_nat i)
  | None =>
      if malloc_ok then
        let max := length (clients s) in
        (with_clients (<[max := new]> (clients s ++ replicate 16 free_slot)) (active_clients s + 1)
           (Z.of_nat max + 1) s, Z.of_nat max)
      else (emit (Closed fd) s, 0)
  end.

(** [while (clients[highest_client].fd != -1 && highest_client > 0)] *)
Fixpoint lower_highest (fuel : nat) (l : list client_slot) (h : Z) : Z :=
  match fuel with
  | O => h
  | S fuel =>
      if negb (c_fd (default free_slot (l !! Z.to_nat h)) =? -1) && (0 <? h)
      then lower_highest fuel l (h - 1) else h
  end.

Definition close_client (client : Z) (s : server) : server :=
  if (highest_client s <? client) || (client <=? 0) then s
  else
    let s := emit (Closed (c_fd (slot s client))) s in
    let l := <[Z.to_nat client := free_slot]> (clients s) in
    let h := highest_client s in
    with_clients l (active_clients s - 1)
      (if client =? h then lower_highest (Z.to_nat h) l h else h) s.

(** *** One message *)

Definition set_slot (i : Z) (c : client_slot) (s : server) : server :=
  with_clients (<[Z.to_nat i := c]> (clients s)) (active_clients s) (highest_client s) s.

(** The first ping of a client names its process, program and tag. *)
Definition register_client (i : Z) (m : pseudo_msg_t) (s : server) : server :=
  let c := slot s i in
  if (m_type m =? PSEUDO_MSG_PING) && (c_pid c =? 0) then
    if negb (m_pathlen m =? 0) then
      let program := path_str m in
      let proglen := Z.of_nat (length program) in
      let tag := if proglen <? m_pathlen m
                 then Some (take (Z.to_nat (m_pathlen m - proglen - 1)) (c_str (drop (Z.to_nat (proglen + 1)) (m_path m))))
                 else c_tag c in
      set_slot i (mkSlot (c_fd c) (m_client m) tag (Some program)) s
    else set_slot i (mkSlot (c_fd c) (m_client m) (c_tag c) (c_program c)) s
  else s.

(** [s += snprintf(s, 8, "%d ", pid)]: at most 7 characters and a NUL are
    stored, the pointer moves by the full length. *)
Definition list_pid (buf : bytes) (off : nat) (pid : Z) : option (bytes * nat) :=
  let text := decimal pid ++ [" "%char] in
  let stored := take 7 text ++ [NUL] in
  if (off + length stored <=? length buf)%nat
  then Some (take off buf ++ stored ++ drop (off + length stored) buf, (off + length text)%nat)
  else None.

(** The other active clients, [j] from 1 to [highest_client]. *)
Fixpoint list_clients (fuel : nat) (s : server) (i j : Z) (buf : bytes) (off : nat) : option (bytes * nat) :=
  match fuel with
  | O => Some (buf, off)
  | S fuel =>
      if negb (c_fd (slot s j) =? -1) && negb (j =? i) then
        '(buf, off) ← list_pid buf off (c_pid (slot s j));
        list_clients fuel s i (j + 1) buf off
      else list_clients fuel s i (j + 1) buf off
  end.

(** [pdb_backup] writes the tables to the file they were loaded from.  It only
    exists in builds with [USE_MEMORY_DB], where [real_file_db] is opened
    together with [file_db]; what it writes to the disk is not modelled. *)
Definition pdb_backup (p : pdb) : pdb :=
  if file_db_open (conn p) && file_db_dirty p then mkPdb (conn p) false (oldmsg p) else p.

(** Every tenth call makes a backup. *)
Definition pdb_maybe_backup (s : server) : server :=
  if file_db_open (conn (sdb s)) then
    let o := (occasional s + 1) mod 10 in
    let s := with_occasional o s in
    if o =? 0 then with_sdb (pdb_backup (sdb s)) s else s
  else s.

(** A shutdown request; [scratch n] is what [malloc n] returned for the list. *)
Definition serve_shutdown (i : Z) (m : pseudo_msg_t) (scratch : Z -> bytes) (s : server) :
    option (server * pseudo_msg_t * option bytes) :=
  if 2 <? active_clients s then
    '(buf, off) ← list_clients (Z.to_nat (highest_client s)) s i 1 (scratch (8 * active_clients s)) 0;
    let m := set_fd (active_clients s - 2) (set_type PSEUDO_MSG_NAK m) in
    let m := set_pathlen (uint32 (Z.of_nat off + 1)) m in
    Some (with_timeouts 3 (loop_timeout s) (with_sdb (pdb_backup (sdb s)) s), m, Some buf)
  else
    Some (with_peace true s, set_client i (set_pathlen 0 (set_type PSEUDO_MSG_ACK m)), None).

(** Every other request: the message is answered in place. *)
Definition serve_request (i : Z) (m : pseudo_msg_t) (s : server) :
    server * pseudo_msg_t * option bytes :=
  let c := slot s i in
  let '(o, rc) := pseudo_server_response (sdb s) m (c_program c) (c_tag c) in
  let m := set_type (if negb (rc =? 0) then PSEUDO_MSG_NAK else PSEUDO_MSG_ACK) (msg o) in
  let m := set_client i m in
  match response o with
  | Some (path, len) => (with_sdb (db o) s, set_pathlen (uint32 len) m, Some path)
  | None => (with_sdb (db o) s, set_pathlen 0 m, None)
  end.

Definition send_reply (i : Z) (m : pseudo_msg_t) (path : option bytes) (kernel : bytes -> send_result)
    (s : server) : server :=
  match pseudo_msg_send (c_fd (slot s i)) (Some m) (Some (m_pathlen m)) path kernel with
  | (_, wire, _) => emit (Sent (c_fd (slot s i)) wire) s
  end.

(** [stream] is what the client's socket delivers, [kernel] answers the
    sends. *)
Definition serve_client (i : Z) (stream : sock) (kernel : bytes -> send_result) (scratch : Z -> bytes)
    (s : server) : option server :=
  match pseudo_msg_receive (c_fd (slot s i)) (rx s) stream with
  | (RxOverflow, _, _) => None
  | (RxNull, r, _) => Some (close_client i (with_rx r s))
  | (RxMsg m, r, _) =>
      let s := register_client i m (with_rx r s) in
      if m_type m =? PSEUDO_MSG_SHUTDOWN then
        let m := if c_pid (slot s i) =? 0 then set_client (c_pid (slot s i)) m else m in
        '(s, m, path) ← serve_shutdown i m scratch s;
        Some (send_reply i m path kernel (with_rx (mkRx (Some m) (incoming_pathlen r)) s))
      else
        let '(s, m, path) := serve_request i m s in
        let s := with_rx (mkRx (Some m) (incoming_pathlen r)) s in
        if m_type m =? PSEUDO_MSG_FASTOP then
          Some (send_reply i (set_pathlen 0 (set_type PSEUDO_MSG_ACK m)) path kernel s)
        else Some (send_reply i m path kernel s)
  end.

(** *** The event loop

    One ready descriptor of [epoll_wait]: the listening socket, with what
    [accept] returned and whether [epoll_ctl] takes the new descriptor, or a
    client, with the bytes waiting ([None]: none). *)
Inductive ready :=
| Listening (accepted : option Z) (malloc_ok ctl_ok : bool)
| Client (i : Z) (stream : option sock) (kernel : bytes -> send_result) (scratch : Z -> bytes).

(** [WaitTimeout] is also a wait that a signal interrupted. *)
Inductive wait_result := WaitTimeout | WaitReady (events : list ready) | WaitFailed.

(** The descriptor after [fcntl(fd, F_DUPFD, 3)] for descriptor 2. *)
Definition not_stderr (dupfd : Z -> Z) (fd : Z) : Z := if fd =? 2 then dupfd fd else fd.

(** The [bool]: the server exits with [PSEUDO_EXIT_EPOLL_CTL]. *)
Definition loop_event (dupfd : Z -> Z) (e : ready) (s : server) : option (server * bool) :=
  match e with
  | Listening accepted malloc_ok ctl_ok =>
      if negb (die_forcefully s) then
        match accepted with
        | Some fd =>
            let s := with_peace false (with_timeouts DEFAULT_PSEUDO_SERVER_TIMEOUT (loop_timeout s) s) in
            let s := if fd =? 2 then emit (Closed fd) s else s in
            let '(s, i) := open_client (not_stderr dupfd fd) malloc_ok s in
            Some (s, negb (i =? 0) && negb ctl_ok)
        | None => Some (s, false)
        end
      else Some (s, false)
  | Client i stream kernel scratch =>
      match stream with
      | None => Some (close_client i s, false)
      | Some stream => s ← serve_client i stream kernel scratch s; Some (s, false)
      end
  end.

(** The events of one round, until one of them sets [die_forcefully]. *)
Fixpoint loop_events (dupfd : Z -> Z) (es : list ready) (s : server) : option (server * bool) :=
  match es with
  | [] => Some (s, false)
  | e :: es =>
      '(s, failed) ← loop_event dupfd e s;
      if (failed : bool) then Some (s, true)
      else if die_forcefully s then Some (s, false) else loop_events dupfd es s
  end.

(** What follows a round: the next one, [exit(0)], [exit] because [epoll_ctl]
    failed for a new client, or the end of the loop because [epoll_wait] did. *)
Inductive round_end := NextRound | Quits | CtlFailed | LoopBroken.

(** One round of the loop. *)
Definition loop_round (dupfd : Z -> Z) (r : wait_result) (s : server) : option (server * round_end) :=
  '(s, e) ←
    match r with
    | WaitTimeout =>
        if active_clients s =? 1 then
          let s := with_timeouts (server_timeout s) (loop_timeout s - LOOP_DELAY) s in
          let s := pdb_maybe_backup s in
          Some (if loop_timeout s <=? 0 then with_peace true s else s, NextRound)
        else Some (s, NextRound)
    | WaitReady es =>
        '(s, failed) ← loop_events dupfd es (with_timeouts (server_timeout s) (server_timeout s) s);
        Some (s, if (failed : bool) then CtlFailed else NextRound)
    | WaitFailed => Some (s, LoopBroken)
    end;
  match e with
  | NextRound =>
      if die_peacefully s || die_forcefully s then Some (emit (Closed (c_fd (slot s 0))) s, Quits)
      else Some (s, NextRound)
  | _ => Some (s, e)
  end.

(** The state when the loop begins. *)
Definition server_start (listen_fd pid : Z) (d : pdb) : server :=
  mkServer (mkSlot listen_fd pid None None :: replicate 15 free_slot) 1 0 false false
    DEFAULT_PSEUDO_SERVER_TIMEOUT DEFAULT_PSEUDO_SERVER_TIMEOUT d 0 rx_init [].

(** A signal handler sets [die_forcefully]. *)
Definition quit_now (s : server) : server := with_force true s.
End ServerLoop.
