(* ===== verification/ServerLoopSpec.v ===== *)
(** The server loop keeps its tables in order: the counts and bounds of the
    client table, the receive buffer and the database, over any sequence of
    events; what a request is answered, when the server exits. *)

From stdpp Require Import base gmap list strings.
From Stdlib Require Import ZArith Lia Ascii.
From S2P Require Import Prelude Format Tables Modes Message Sql FileDb FileDbSpec Xattr LogDb ServerOp OpInvariant ServerLoop.

Open Scope Z_scope.

(** ** The handler keeps the message's block *)

Section PathLength.
Context {E : SqlEngine} {PM : PathMax} {SC : ServerConfig}.

Definition plen (s : op_state) : nat := length (m_path (msg s)).

Lemma assign_path m h : m_path (assign m h) = m_path m.
Proof. by destruct m as [[]]. Qed.

Lemma set_result_path v m : m_path (set_result v m) = m_path m.
Proof. by destruct m as [[]]. Qed.

Lemma set_mode_path v m : m_path (set_mode v m) = m_path m.
Proof. by destruct m as [[]]. Qed.

Lemma with_owner_path h m : m_path (with_owner h m) = m_path m.
Proof. by destruct m as [[]]. Qed.

Lemma clear_at_path m i : length (m_path (clear_at m i)) = length (m_path m).
Proof.
  unfold clear_at. destruct (_ <? _); [|done]. destruct m as [[]]. simpl. by rewrite length_insert.
Qed.

Lemma find_exact_path d m : m_path (pdb_find_file_exact d m).1 = m_path m.
Proof.
  unfold pdb_find_file_exact. destruct (negb _); [done|]. destruct (not_prepared _ _); [done|].
  destruct (select_files _ _) as [[|r l] rc]; [done|]. by destruct m as [[]].
Qed.

Lemma find_path_path d m : m_path (pdb_find_file_path d m).1 = m_path m.
Proof.
  unfold pdb_find_file_path. destruct (negb _); [done|]. destruct (not_prepared _ _); [done|].
  destruct (_ =? 0); [done|]. destruct (select_files _ _) as [[|r l] rc]; [done|]. by destruct m as [[]].
Qed.

Lemma call_plen f s : plen (call f s) = plen s.
Proof. by destruct s. Qed.
Lemma with_db_plen d s : plen (with_db d s) = plen s.
Proof. by destruct s. Qed.
Lemma with_msg_plen m s : plen (with_msg m s) = length (m_path m).
Proof. by destruct s. Qed.
Lemma with_found_path_plen b s : plen (with_found_path b s) = plen s.
Proof. by destruct s. Qed.
Lemma with_found_ino_plen b s : plen (with_found_ino b s) = plen s.
Proof. by destruct s. Qed.
Lemma with_db_header_plen h s : plen (with_db_header h s) = plen s.
Proof. by destruct s. Qed.
Lemma with_by_path_plen h s : plen (with_by_path h s) = plen s.
Proof. by destruct s. Qed.
Lemma with_by_ino_plen h p s : plen (with_by_ino h p s) = plen s.
Proof. by destruct s. Qed.
Lemma with_exact_plen h p s : plen (with_exact h p s) = plen s.
Proof. by destruct s. Qed.
Lemma with_oldpath_plen o l s : plen (with_oldpath o l s) = plen s.
Proof. by destruct s. Qed.
Lemma with_header_plen h s : plen (with_header h s) = plen s.
Proof. by destruct s. Qed.
Lemma with_slash_plen b s : plen (with_slash b s) = plen s.
Proof. by destruct s. Qed.
Lemma with_response_plen r s : plen (with_response r s) = plen s.
Proof. by destruct s. Qed.

#[local] Hint Rewrite call_plen with_db_plen with_msg_plen with_found_path_plen with_found_ino_plen
  with_db_header_plen with_by_path_plen with_by_ino_plen with_exact_plen with_oldpath_plen with_header_plen
  with_slash_plen with_response_plen assign_path set_result_path set_mode_path with_owner_path clear_at_path
  : pseudo.

(** Split the conditions of a stage and compute the length on each branch. *)
Ltac keep_plen :=
  repeat first
    [ reflexivity
    | progress autorewrite with pseudo
    | match goal with |- context [length (m_path (msg ?x))] => change (length (m_path (msg x))) with (plen x) end
    | match goal with
      | |- context [match ?x with _ => _ end] =>
          lazymatch x with context [match _ with _ => _ end] => fail | _ => destruct x end
      end ].

Lemma set_pathlen_keeps v m : m_path (set_pathlen v m) = m_path m.
Proof. by destruct m as [[]]. Qed.

Lemma split_paths_plen s : plen (op_split_paths s) = plen s.
Proof.
  unfold op_split_paths. destruct (_ && _); [|done].
  destruct ((0 <? _) && _); [destruct (decide _)|];
    rewrite with_oldpath_plen, with_msg_plen, set_pathlen_keeps; [by rewrite clear_at_path|done|done].
Qed.

Lemma strip_slash_plen s : plen (op_strip_slash s) = plen s.
Proof.
  unfold op_strip_slash. destruct (negb _); [|done]. destruct (decide _); [|done].
  by rewrite with_slash_plen, with_msg_plen, clear_at_path, set_pathlen_keeps.
Qed.

Lemma lookup_plen s : plen (op_lookup s) = plen s.
Proof.
  assert (forall s, plen (op_lookup_exact s) = plen s) as H1.
  { intros s'. unfold op_lookup_exact. destruct (_ && _); [|done].
    pose proof (find_exact_path (db s') (msg s')) as H. destruct (pdb_find_file_exact _ _) as [m' rc]. simpl in H.
    destruct (rc =? 0); autorewrite with pseudo; by rewrite H. }
  assert (forall s, plen (op_lookup_path s) = plen s) as H2.
  { intros s'. unfold op_lookup_path. destruct (negb _); [|done].
    pose proof (find_path_path (db s') (msg s')) as H. destruct (pdb_find_file_path _ _) as [m' rc]. simpl in H.
    cbv zeta. destruct (rc =? 0); autorewrite with pseudo; by rewrite H. }
  assert (forall s, plen (op_lookup_dev s) = plen s) as H3.
  { intros s'. unfold op_lookup_dev. destruct (_ && _); [|done]. destruct (pdb_find_file_dev _ _ _) as [[m' p] rc].
    cbv zeta. by destruct (rc =? 0); autorewrite with pseudo. }
  unfold op_lookup. cbv zeta. destruct (_ && _); by rewrite ?H3, ?H2, H1.
Qed.

Lemma check_path_plen s : plen (op_check_path s) = plen s.
Proof.
  unfold op_check_path, op_check_path_ino. cbv zeta. keep_plen.
Qed.

Lemma check_ino_plen s :
  match op_check_ino s with inl s' => plen s' = plen s | inr s' => plen s' = plen s end.
Proof.
  assert (forall s, plen (op_check_ino_type s) = plen s) as Ht by (intros s'; unfold op_check_ino_type; keep_plen).
  unfold op_check_ino. cbv zeta. destruct (_ && _); [|done]. destruct (path_by_ino s) as [pbi|].
  - destruct (_ && _); [|apply Ht]. by rewrite with_msg_plen, set_result_path.
  - rewrite Ht. destruct (negb _); [apply call_plen|done].
Qed.

Lemma dispatch_plen s : plen (op_dispatch s) = plen s.
Proof.
  unfold op_dispatch. destruct (m_op (msg s)); try done;
    unfold op_creat, op_chmod, op_chown, op_stat, op_link, op_rename, op_may_unlink, op_unlink, op_mknod,
      op_get_xattr, op_list_xattr, op_set_xattr, op_remove_xattr, op_link_if_new, op_update_msg, op_fail; cbv zeta; keep_plen.
Qed.

Lemma unlinked_fd_plen s : plen (op_unlinked_fd s) = plen s.
Proof. unfold op_unlinked_fd. keep_plen. Qed.

Lemma response_plen d m pr tg :
  length (m_path (msg (pseudo_server_response d m pr tg).1)) = length (m_path m).
Proof.
  unfold pseudo_server_response. destruct (_ =? PSEUDO_MSG_PING).
  - cbn [fst]. unfold op_exit. change (length (m_path (msg ?x))) with (plen x).
    destruct opt_l; rewrite ?call_plen; unfold plen, response_state; cbn [msg]; by rewrite set_result_path.
  - destruct (_ || _).
    + unfold pseudo_op. cbn [fst]. change (length (m_path (msg ?x))) with (plen x). unfold op_exit.
      assert (forall s, plen (if opt_l then call (fun d => pdb_log_msg d now SEVERITY_INFO (Some (msg s)) pr tg None) s else s) = plen s)
        as -> by (intros s; destruct opt_l; by rewrite ?call_plen).
      unfold op_prepare.
      pose proof (check_ino_plen (op_check_path (op_lookup (op_strip_slash (op_stash (op_split_paths (op_start d m))))))) as H.
      assert (plen (op_check_path (op_lookup (op_strip_slash (op_stash (op_split_paths (op_start d m)))))) = length (m_path m)) as H0.
      { rewrite check_path_plen, lookup_plen, strip_slash_plen. unfold op_stash. rewrite with_header_plen, split_paths_plen.
        unfold plen, op_start. cbn [msg]. by rewrite set_result_path. }
      destruct (op_check_ino _) as [s|s]; rewrite ?unlinked_fd_plen, ?dispatch_plen; [|congruence].
      unfold op_pick_header. keep_plen; congruence.
    + by destruct (pdb_log_msg _ _ _ _ _ _ _) as [d' rc].
Qed.
End PathLength.

(** ** The client table *)

Definition is_open (c : client_slot) : bool := negb (c_fd c =? -1).

Definition open_count (l : list client_slot) : Z := Z.of_nat (length (List.filter is_open l)).

Lemma open_count_insert l i c c' : l !! i = Some c ->
  open_count (<[i := c']> l) = open_count l - b2z (is_open c) + b2z (is_open c').
Proof.
  unfold open_count. revert i. induction l as [|x l IH]; intros [|i] Hi; [done|done| |].
  - injection Hi as ->. simpl. destruct (is_open c), (is_open c'); simpl; lia.
  - simpl. specialize (IH i Hi). destruct (is_open x); simpl length; lia.
Qed.

Lemma open_count_app l l' : open_count (l ++ l') = open_count l + open_count l'.
Proof. unfold open_count. rewrite List.filter_app, length_app. lia. Qed.

Lemma open_count_free n : open_count (replicate n free_slot) = 0.
Proof. induction n; [done|]. apply IHn. Qed.

Definition open_at (l : list client_slot) (k : nat) : bool := is_open (default free_slot (l !! k)).

Lemma length_filter_map {A B} (g : A -> B) (p : B -> bool) (l : list A) :
  length (List.filter p (map g l)) = length (List.filter (fun x => p (g x)) l).
Proof. induction l as [|x l IH]; [done|]. simpl. destruct (p (g x)); simpl; by rewrite IH. Qed.

Lemma slots_by_index (l : list client_slot) : l = map (fun k => default free_slot (l !! k)) (seq 0 (length l)).
Proof.
  apply list_eq. intros k. change (map ?f ?s) with (f <$> s). rewrite list_lookup_fmap.
  destruct (decide (k < length l)%nat) as [Hk|Hk].
  - rewrite lookup_seq_lt by done. simpl. by destruct (lookup_lt_is_Some_2 l k Hk) as [c ->].
  - rewrite lookup_ge_None_2 by lia. rewrite lookup_ge_None_2; [done|]. rewrite length_seq. lia.
Qed.

Lemma open_count_indices l : open_count l = Z.of_nat (length (List.filter (open_at l) (seq 0 (length l)))).
Proof. unfold open_count. f_equal. rewrite (slots_by_index l) at 1.
  exact (length_filter_map (fun k => default free_slot (l !! k)) is_open (seq 0 (length l))).
Qed.

(** The slots a shutdown request lists: all open ones but the first and the
    requester. *)
Lemma others_count l i h : (0 < i)%nat -> open_at l 0 = true -> open_at l i = true -> (h < length l)%nat ->
  Z.of_nat (length (List.filter (fun k => open_at l k && negb (k =? i)%nat) (seq 1 h))) + 2 <= open_count l.
Proof.
  intros Hi H0 Hio Hh. rewrite open_count_indices.
  set (others := List.filter _ (seq 1 h)).
  assert (i < length l)%nat as Hil.
  { destruct (decide (i < length l)%nat); [done|]. unfold open_at in Hio. by rewrite lookup_ge_None_2 in Hio by lia. }
  assert (NoDup (0%nat :: i :: others)) as Hnd.
  { constructor; [|constructor].
    - rewrite not_elem_of_cons. split; [lia|]. intros Hin%list_elem_of_In. apply List.filter_In in Hin as [Hin _].
      apply in_seq in Hin. lia.
    - intros Hin%list_elem_of_In. apply List.filter_In in Hin as [_ Hin].
      apply andb_true_iff in Hin as [_ Hin]. by rewrite Nat.eqb_refl in Hin.
    - apply NoDup_ListNoDup, List.NoDup_filter, seq_NoDup. }
  apply NoDup_ListNoDup in Hnd.
  pose proof (List.NoDup_incl_length (l' := List.filter (open_at l) (seq 0 (length l))) Hnd) as Hlen. simpl in Hlen.
  specialize (Hlen ltac:(intros x Hx; apply List.filter_In; destruct Hx as [<-|[<-|Hx]];
    [split; [apply in_seq; lia|done]|split; [apply in_seq; lia|done]|
     apply List.filter_In in Hx as [Hx Hp]; apply in_seq in Hx; apply andb_true_iff in Hp as [Hp _];
     split; [apply in_seq; lia|done]])). lia.
Qed.

(** *** Decimal numbers *)

Lemma digits_length fuel k n acc : (1 <= k <= fuel)%nat -> 0 <= n < 10 ^ Z.of_nat k ->
  (length (digits fuel n acc) <= k + length acc)%nat.
Proof.
  revert k n acc. induction fuel as [|fuel IH]; intros k n acc Hk Hn; [lia|]. cbn [digits].
  destruct (Z.eqb_spec (n / 10) 0) as [Hz|Hz]; [simpl; lia|].
  destruct (decide (k = 1)%nat) as [->|Hk1].
  - exfalso. apply Hz. apply Z.div_small. change (10 ^ Z.of_nat 1) with 10 in Hn. lia.
  - replace k with (S (k - 1)) in Hn by lia. rewrite Nat2Z.inj_succ, Z.pow_succ_r in Hn by lia.
    specialize (IH (k - 1)%nat (n / 10) (ascii_of_N (Z.to_N (48 + n mod 10)) :: acc)). simpl length in IH.
    enough (length (digits fuel (n / 10) (ascii_of_N (Z.to_N (48 + n mod 10)) :: acc)) <= (k - 1) + S (length acc))%nat by lia.
    apply IH; [lia|]. split; [apply Z.div_pos; lia|]. apply Z.div_lt_upper_bound; lia.
Qed.

(** Process ids of at most seven digits. *)
Definition pid_ok (pid : Z) : Prop := 0 <= pid < 10 ^ 7.

Lemma list_pid_fits buf off pid : pid_ok pid -> (off + 8 <= length buf)%nat ->
  exists buf' off', list_pid buf off pid = Some (buf', off') /\ length buf' = length buf /\ (off' <= off + 8)%nat.
Proof.
  intros Hp Hl. unfold list_pid.
  assert (length (decimal pid) <= 7)%nat as Hd.
  { unfold decimal. unfold pid_ok in Hp. destruct (Z.ltb_spec pid 0); [lia|].
    apply (digits_length 10 7 pid []); [lia|done]. }
  set (text := decimal pid ++ [" "%char]).
  assert (length text = length (decimal pid) + 1)%nat as Ht by (unfold text; by rewrite length_app).
  assert (length (take 7 text ++ [NUL]) <= 8)%nat as Hs by (rewrite length_app, length_take; cbn [length]; lia).
  rewrite (proj2 (Nat.leb_le _ _)) by lia. eexists _, _. split; [done|]. split; [|lia].
  repeat (rewrite length_app || rewrite length_take || rewrite length_drop).
  rewrite length_app, length_take in Hs. cbn [length] in *. lia.
Qed.

Lemma field_range o n l : 0 <= field o n l < 2 ^ (8 * Z.of_nat n).
Proof.
  unfold field. split; [apply le_val_nonneg|].
  assert (forall k, le_val k < 2 ^ (8 * Z.of_nat (length k))) as Hle.
  { induction k as [|b k IH]; [done|]. cbn [le_val length]. pose proof (Z_of_byte_range b).
    replace (8 * Z.of_nat (S (length k))) with (8 + 8 * Z.of_nat (length k)) by lia.
    rewrite Z.pow_add_r by lia. change (2 ^ 8) with 256. lia. }
  eapply Z.lt_le_trans; [apply Hle|]. apply Z.pow_le_mono_r; [lia|]. rewrite length_take. lia.
Qed.

Section LoopInvariant.
Context {E : SqlEngine} {L : SqlLaws E} {PM : PathMax} {SC : ServerConfig} {M : Malloc} {ML : MallocLaws}.
Implicit Types (s : server).

Record table_ok (l : list client_slot) (a h : Z) : Prop := {
  table_listen : open_at l 0 = true;
  table_count : a = open_count l;
  table_highest : 0 <= h < Z.of_nat (length l);
  table_open : forall i, open_at l i = true -> Z.of_nat i <= h;
  table_pids : forall i c, l !! i = Some c -> i <> O -> pid_ok (c_pid c)
}.

Record server_ok (s : server) : Prop := {
  ok_table : table_ok (clients s) (active_clients s) (highest_client s);
  ok_peace : die_peacefully s = true -> active_clients s <= 2;
  ok_rx : rx_ok (rx s);
  ok_db : tables_ok (pdb_tables (sdb s))
}.

Lemma open_at_Some l i : open_at l i = true -> exists c, l !! i = Some c /\ is_open c = true.
Proof. unfold open_at. destruct (l !! i) as [c|]; [by exists c|done]. Qed.

Lemma open_at_insert l i c j : (i < length l)%nat ->
  open_at (<[i := c]> l) j = if decide (i = j) then is_open c else open_at l j.
Proof.
  intros Hi. unfold open_at. case_decide as Hj; [subst; by rewrite list_lookup_insert_eq|].
  by rewrite list_lookup_insert_ne.
Qed.

(** A new descriptor in a free slot. *)
Lemma table_fill l a h i fd : table_ok l a h -> (i < length l)%nat -> open_at l i = false -> fd <> -1 ->
  table_ok (<[i := mkSlot fd 0 None None]> l) (a + 1) (if h <? Z.of_nat i then Z.of_nat i else h).
Proof.
  intros [H0 Hc Hh Ho Hp] Hi Hfree Hfd.
  destruct (lookup_lt_is_Some_2 l i Hi) as [c Hic].
  assert (is_open c = false) as Hco by (unfold open_at in Hfree; by rewrite Hic in Hfree).
  assert (is_open (mkSlot fd 0 None None) = true) as Hno by (unfold is_open; simpl; by apply negb_true_iff, Z.eqb_neq).
  constructor.
  - rewrite open_at_insert by done. case_decide; [done|done].
  - rewrite (open_count_insert _ _ _ _ Hic), Hco, Hno. simpl. lia.
  - rewrite length_insert. destruct (Z.ltb_spec h (Z.of_nat i)); lia.
  - intros j. rewrite open_at_insert by done. case_decide as Hj.
    + subst. intros _. destruct (Z.ltb_spec h (Z.of_nat j)); lia.
    + intros Hjo. apply Ho in Hjo. destruct (Z.ltb_spec h (Z.of_nat i)); lia.
  - intros j c' Hj Hj0. apply list_lookup_insert_Some in Hj as [(_ & <- & _)|[_ Hj]]; [unfold pid_ok; simpl; lia|by apply (Hp j)].
Qed.

Lemma table_grow l a h : table_ok l a h -> table_ok (l ++ replicate 16 free_slot) a h.
Proof.
  intros [H0 Hc Hh Ho Hp].
  assert (forall i, open_at (l ++ replicate 16 free_slot) i = open_at l i) as Hsame.
  { intros i. unfold open_at. destruct (decide (i < length l)%nat).
    - by rewrite lookup_app_l.
    - rewrite lookup_app_r by lia. rewrite (lookup_ge_None_2 l) by lia.
      destruct (replicate 16 free_slot !! _) eqn:Hr; [|done]. apply lookup_replicate in Hr as [-> _]. done. }
  constructor.
  - by rewrite Hsame.
  - rewrite open_count_app, open_count_free. lia.
  - rewrite length_app. lia.
  - intros i. rewrite Hsame. apply Ho.
  - intros i c Hi Hi0. apply lookup_app_Some in Hi as [Hi|[_ Hi]]; [by apply (Hp i)|].
    apply lookup_replicate in Hi as [-> _]. unfold pid_ok. simpl. lia.
Qed.

Lemma table_raise l a h h' : table_ok l a h -> h <= h' < Z.of_nat (length l) -> table_ok l a h'.
Proof. intros [] Hh. constructor; try done; [lia|]. intros i Hi. specialize (table_open0 i Hi). lia. Qed.

Lemma first_free_spec l n : match first_free l n with
  | Some i => (n <= i < n + length l)%nat /\ open_at l (i - n) = false
  | None => True
  end.
Proof.
  revert n. induction l as [|c l IH]; intros n; simpl; [done|].
  destruct (Z.eqb_spec (c_fd c) (-1)) as [Hc|Hc].
  - split; [lia|]. rewrite Nat.sub_diag. unfold open_at, is_open. simpl. by rewrite Hc.
  - specialize (IH (S n)). destruct (first_free l (S n)) as [i|]; [|done]. destruct IH as [Hi Ho]. split; [lia|].
    replace (i - n)%nat with (S (i - S n)) by lia. done.
Qed.

Lemma open_client_table fd malloc_ok s : table_ok (clients s) (active_clients s) (highest_client s) -> fd <> -1 ->
  let s' := (open_client fd malloc_ok s).1 in
  table_ok (clients s') (active_clients s') (highest_client s') /\
  (forall i, open_at (clients s) i = true -> open_at (clients s') i = true) /\
  highest_client s <= highest_client s' /\
  die_peacefully s' = die_peacefully s /\ die_forcefully s' = die_forcefully s /\ rx s' = rx s /\ sdb s' = sdb s.
Proof.
  intros Ht Hfd. unfold open_client. pose proof (first_free_spec (clients s) 0) as Hf.
  destruct (first_free (clients s) 0) as [i|].
  - destruct Hf as [Hi Ho]. rewrite Nat.sub_0_r in Ho. simpl in Hi. cbn [fst with_clients clients active_clients highest_client].
    split; [apply table_fill; [done|lia|done|done]|]. split; [|split; [destruct (Z.ltb_spec (highest_client s) (Z.of_nat i)); lia|done]].
    intros j Hj. rewrite open_at_insert by lia. case_decide; [subst; congruence|done].
  - destruct malloc_ok; cbn [fst emit with_clients clients active_clients highest_client]; [|done].
    pose proof (table_highest _ _ _ Ht). set (max := length (clients s)).
    set (l := clients s ++ replicate 16 free_slot). assert (length l = max + 16)%nat as Hl by (unfold l; by rewrite length_app).
    assert (open_at l max = false) as Hfree.
    { unfold open_at, l. rewrite lookup_app_r by (unfold max; lia). unfold max. by rewrite Nat.sub_diag. }
    split; [|split; [|split; [lia|done]]].
    + pose proof (table_fill l (active_clients s) (highest_client s) max fd (table_grow _ _ _ Ht) ltac:(lia) Hfree Hfd) as Hok.
      apply (table_raise _ _ _ (Z.of_nat max + 1)) in Hok; [done|].
      rewrite length_insert. destruct (Z.ltb_spec (highest_client s) (Z.of_nat max)); lia.
    + intros j Hj. rewrite open_at_insert by lia. case_decide; [|].
      * unfold is_open. simpl. by apply negb_true_iff, Z.eqb_neq.
      * unfold open_at, l. rewrite lookup_app_l; [done|]. apply open_at_Some in Hj as (c & Hj & _). by eapply lookup_lt_Some.
Qed.

(** The loop that should look for a lower highest client stops at once: the
    slot has just been closed. *)
Lemma lower_highest_closed fuel l h : 0 <= h -> open_at l (Z.to_nat h) = false -> lower_highest fuel l h = h.
Proof.
  intros Hh Ho. destruct fuel; [done|]. simpl. unfold open_at, is_open in Ho. by rewrite Ho.
Qed.

Lemma close_client_table i s : table_ok (clients s) (active_clients s) (highest_client s) ->
  0 < i -> open_at (clients s) (Z.to_nat i) = true ->
  let s' := close_client i s in
  table_ok (clients s') (active_clients s') (highest_client s') /\
  active_clients s' = active_clients s - 1 /\ highest_client s' = highest_client s /\
  (forall j, j <> Z.to_nat i -> open_at (clients s') j = open_at (clients s) j) /\
  die_peacefully s' = die_peacefully s /\ die_forcefully s' = die_forcefully s /\ rx s' = rx s /\ sdb s' = sdb s.
Proof.
  intros [H0 Hc Hh Ho Hp] Hi Hio s'. destruct (open_at_Some _ _ Hio) as (c & Hl & Hco).
  pose proof (Ho _ Hio) as Hih. pose proof (lookup_lt_Some _ _ _ Hl) as Hlt.
  unfold s', close_client. rewrite (proj2 (Z.ltb_ge _ _)), (proj2 (Z.leb_gt _ _)) by lia. cbn [orb].
  cbn [emit with_clients clients active_clients highest_client die_peacefully die_forcefully rx sdb].
  set (l' := <[Z.to_nat i := free_slot]> (clients s)).
  assert ((if i =? highest_client s then lower_highest (Z.to_nat (highest_client s)) l' (highest_client s) else highest_client s)
    = highest_client s) as ->.
  { destruct (Z.eqb_spec i (highest_client s)) as [Heq|]; [|done]. apply lower_highest_closed; [lia|].
    unfold l'. rewrite open_at_insert by done. rewrite decide_True by (by rewrite Heq). done. }
  assert (forall j, j <> Z.to_nat i -> open_at l' j = open_at (clients s) j) as Hsame
    by (intros j Hj; unfold l'; rewrite open_at_insert, decide_False by done; done).
  split; [|done]. constructor.
  - rewrite Hsame by lia. done.
  - unfold l'. rewrite (open_count_insert _ _ _ _ Hl), Hco. simpl. lia.
  - unfold l'. rewrite length_insert. done.
  - intros j Hj. apply Ho. unfold l' in Hj. rewrite open_at_insert in Hj by done. by case_decide.
  - intros j c' Hj Hj0. unfold l' in Hj. apply list_lookup_insert_Some in Hj as [(_ & <- & _)|[_ Hj]]; [unfold pid_ok; simpl; lia|].
    by apply (Hp j).
Qed.

(** *** Requests *)

Lemma list_clients_fits n s i j buf off : 0 <= i -> 0 <= j -> (0 < j) ->
  (forall k c, clients s !! k = Some c -> k <> O -> pid_ok (c_pid c)) ->
  (off + 8 * length (List.filter (fun k => open_at (clients s) k && negb (k =? Z.to_nat i)%nat) (seq (Z.to_nat j) n))
     <= length buf)%nat ->
  exists buf' off', list_clients n s i j buf off = Some (buf', off') /\ length buf' = length buf.
Proof.
  intros Hi Hj Hj0 Hp. revert j buf off Hj Hj0. induction n as [|n IH]; intros j buf off Hj Hj0 Hl; [by eexists _, _|].
  cbn [list_clients seq List.filter] in *.
  assert (negb (c_fd (slot s j) =? -1) && negb (j =? i) =
    open_at (clients s) (Z.to_nat j) && negb (Z.to_nat j =? Z.to_nat i)%nat) as Heq.
  { unfold open_at, is_open, slot. f_equal. f_equal. apply Bool.eq_iff_eq_true.
    rewrite Z.eqb_eq, Nat.eqb_eq. lia. }
  rewrite Heq. replace (S (Z.to_nat j)) with (Z.to_nat (j + 1)) in Hl by lia.
  destruct (open_at (clients s) (Z.to_nat j) && negb (Z.to_nat j =? Z.to_nat i)%nat) eqn:Ho; [|apply IH; lia || done].
  cbn [length] in Hl. apply andb_true_iff in Ho as [Ho _]. apply open_at_Some in Ho as (c & Hc & _).
  assert (pid_ok (c_pid (slot s j))) as Hpid by (unfold slot; rewrite Hc; simpl; apply (Hp _ _ Hc); lia).
  destruct (list_pid_fits buf off _ Hpid) as (buf' & off' & -> & Hlb & Hob); [lia|]. cbn [mbind option_bind].
  destruct (IH (j + 1) buf' off') as (b2 & o2 & -> & Hl2); [lia|lia|lia|]. eexists _, _. split; [done|]. congruence.
Qed.

Definition client_open (s : server) (i : Z) : Prop := 0 < i /\ open_at (clients s) (Z.to_nat i) = true.

(** The parts of the state a request leaves alone. *)
Definition same_but_db (s s' : server) : Prop :=
  clients s' = clients s /\ active_clients s' = active_clients s /\ highest_client s' = highest_client s /\
  die_forcefully s' = die_forcefully s.

Lemma serve_shutdown_ok s i (m : pseudo_msg_t) scratch : server_ok s -> client_open s i -> (forall n, 0 <= n -> Z.of_nat (length (scratch n)) = n) ->
  exists s' m' path, serve_shutdown i m scratch s = Some (s', m', path) /\ server_ok s' /\ same_but_db s s' /\
    m_path m' = m_path m /\ rx s' = rx s.
Proof.
  intros [Ht Hpe Hrx Hdb] [Hi Ho] Hscr. unfold serve_shutdown. destruct (Z.ltb_spec 2 (active_clients s)) as [Ha|Ha].
  - destruct (list_clients_fits (Z.to_nat (highest_client s)) s i 1 (scratch (8 * active_clients s)) 0)
      as (buf & off & -> & _); [lia|lia|lia|apply (table_pids _ _ _ Ht)| |].
    { pose proof (table_highest _ _ _ Ht). pose proof (table_count _ _ _ Ht) as Hc.
      pose proof (others_count (clients s) (Z.to_nat i) (Z.to_nat (highest_client s)) ltac:(lia)
        (table_listen _ _ _ Ht) Ho ltac:(lia)) as Hn. specialize (Hscr (8 * active_clients s)).
      change (Z.to_nat 1) with 1%nat. lia. }
    cbn [mbind option_bind]. eexists _, _, _. split; [done|]. split; [|by destruct m as [[]]].
    constructor; [done|done|done|]. unfold pdb_backup. cbn [with_timeouts with_sdb sdb].
    by destruct (_ && _).
  - eexists _, _, _. split; [done|]. split; [|by destruct m as [[]]]. constructor; try done.
Qed.

Lemma serve_request_ok s i (m : pseudo_msg_t) : server_ok s -> in_uint64 (m_ino m) ->
  let '(s', m', _) := serve_request i m s in
  server_ok s' /\ same_but_db s s' /\ rx s' = rx s /\ die_peacefully s' = die_peacefully s /\
  length (m_path m') = length (m_path m).
Proof.
  intros [Ht Hpe Hrx Hdb] Hino. unfold serve_request.
  pose proof (response_tables_ok (sdb s) m (c_program (slot s i)) (c_tag (slot s i)) Hino Hdb) as Hd.
  pose proof (response_plen (sdb s) m (c_program (slot s i)) (c_tag (slot s i))) as Hpl.
  destruct (pseudo_server_response _ _ _ _) as [o rc]. cbn [fst] in Hd, Hpl.
  destruct (response o) as [[p len]|]; (split; [by constructor|]; split; [done|]; split; [done|]; split; [done|]);
    rewrite <- Hpl; by destruct (msg o) as [[]].
Qed.

Lemma register_ok s i (m : pseudo_msg_t) : server_ok s -> client_open s i -> pid_ok (m_client m) ->
  let s' := register_client i m s in
  server_ok s' /\ (forall j, open_at (clients s') j = open_at (clients s) j) /\
  highest_client s' = highest_client s /\ active_clients s' = active_clients s /\
  die_peacefully s' = die_peacefully s /\ die_forcefully s' = die_forcefully s /\ rx s' = rx s /\
  c_fd (slot s' i) = c_fd (slot s i).
Proof.
  intros Hs [Hi Ho] Hpid. destruct (open_at_Some _ _ Ho) as (c & Hc & Hco).
  pose proof (lookup_lt_Some _ _ _ Hc) as Hlt.
  assert (slot s i = c) as Hslot by (unfold slot; by rewrite Hc).
  assert (forall c', c_fd c' = c_fd c -> c_pid c' = m_client m -> let s' := set_slot i c' s in
    server_ok s' /\ (forall j, open_at (clients s') j = open_at (clients s) j) /\
    highest_client s' = highest_client s /\ active_clients s' = active_clients s /\
    die_peacefully s' = die_peacefully s /\ die_forcefully s' = die_forcefully s /\ rx s' = rx s /\
    c_fd (slot s' i) = c_fd (slot s i)) as Hset.
  { intros c' Hfd Hp s'. assert (is_open c' = true) as Hc'o by (unfold is_open in *; by rewrite Hfd).
    assert (forall j, open_at (clients s') j = open_at (clients s) j) as Hsame.
    { intros j. unfold s', set_slot. cbn [with_clients clients]. rewrite open_at_insert by done.
      case_decide; [subst; by rewrite Ho|done]. }
    split; [|split; [done|]].
    - destruct Hs as [[H0 Hcnt Hh Hop Hpids] Hpe Hrx Hdb]. constructor; try done. constructor.
      + by rewrite Hsame.
      + unfold s', set_slot. cbn [with_clients clients active_clients].
        rewrite (open_count_insert _ _ _ _ Hc), Hco, Hc'o. simpl. lia.
      + unfold s', set_slot. cbn [with_clients clients highest_client]. by rewrite length_insert.
      + intros j. rewrite Hsame. apply Hop.
      + intros j c2 Hj Hj0. unfold s', set_slot in Hj. cbn [with_clients clients] in Hj.
        apply list_lookup_insert_Some in Hj as [(_ & <- & _)|[_ Hj]]; [by rewrite Hp|by apply (Hpids j)].
    - do 5 (split; [done|]). unfold s', slot, set_slot. cbn [with_clients clients].
      rewrite list_lookup_insert_eq by done. rewrite Hc. done. }
  unfold register_client. rewrite Hslot in *. destruct (_ && _); [destruct (negb _); by apply Hset|].
  cbv zeta. repeat (split; [done|]). by rewrite ?Hslot.
Qed.

(** Messages whose path length stays below 2^31, from processes with ids of
    at most seven digits. *)
Definition stream_ok (stream : sock) : Prop := forall h (s1 : sock), sock_read stream PSEUDO_HEADER_SIZE = (Some h, s1) ->
  m_pathlen (header_of_bytes h) < 2 ^ 31 /\ pid_ok (m_client (header_of_bytes h)).

Lemma receive_safe fd st stream : rx_ok st -> stream_ok stream ->
  let '(res, st', _) := pseudo_msg_receive fd st stream in
  rx_ok st' /\ match res with
    | RxOverflow => False
    | RxNull => True
    | RxMsg m => incoming st' = Some m /\ in_uint64 (m_ino m) /\ pid_ok (m_client m)
    end.
Proof.
  intros Hst Hs. pose proof (receive_ok fd st stream Hst (fun h (s2 : sock) Hr => proj1 (Hs h s2 Hr))) as H.
  destruct (pseudo_msg_receive fd st stream) as [[res st'] rest]. destruct H as [Hok H]. split; [done|].
  destruct res as [|m|]; [done| |done]. destruct H as (Hinc & h & s1 & Hr & Hhdr). split; [done|].
  destruct (Hs _ _ Hr) as [_ Hpid]. rewrite Hhdr. split; [apply (field_range 32 8 h)|done].
Qed.

Lemma rx_swap st m m' : rx_ok st -> incoming st = Some m -> length (m_path m') = length (m_path m) ->
  rx_ok (mkRx (Some m') (incoming_pathlen st)).
Proof. unfold rx_ok. simpl. intros H Hi Hl. rewrite Hi in H. by rewrite Hl. Qed.

Lemma server_ok_rx s r : server_ok s -> rx_ok r -> server_ok (with_rx r s).
Proof. by intros [] ?. Qed.

Lemma server_ok_emit s o : server_ok s -> server_ok (emit o s).
Proof. by intros []. Qed.

Lemma send_reply_ok s i m p kernel : server_ok s -> server_ok (send_reply i m p kernel s) /\
  same_but_db s (send_reply i m p kernel s).
Proof.
  intros Hs. unfold send_reply. destruct (pseudo_msg_send _ _ _ _ _) as [[m' w] rc].
  split; [by apply server_ok_emit|done].
Qed.

(** *** Messages and events *)

Lemma serve_client_ok s i stream kernel scratch : server_ok s -> client_open s i -> stream_ok stream ->
  (forall n, 0 <= n -> Z.of_nat (length (scratch n)) = n) ->
  exists s', serve_client i stream kernel scratch s = Some s' /\ server_ok s' /\
    (forall j, j <> Z.to_nat i -> open_at (clients s') j = open_at (clients s) j) /\
    die_forcefully s' = die_forcefully s /\ highest_client s' = highest_client s.
Proof.
  intros Hs Hi Hst Hscr. unfold serve_client.
  pose proof (receive_safe (c_fd (slot s i)) (rx s) stream (ok_rx _ Hs) Hst) as Hr.
  destruct (pseudo_msg_receive _ _ _) as [[res r] rest]. destruct Hr as [Hrok Hr].
  destruct res as [|m|]; [| |done].
  - pose proof (server_ok_rx s r Hs Hrok) as Hs1. destruct Hi as [Hi Ho].
    destruct (close_client_table i (with_rx r s) (ok_table _ Hs1) Hi Ho) as (Ht & Ha & Hh & Hj & Hp & Hf & Hrx & Hd).
    eexists. split; [done|]. split; [|done]. constructor; [done| |by rewrite Hrx|rewrite Hd; by apply Hs].
    rewrite Hp, Ha. intros Hdie. pose proof (ok_peace _ Hs Hdie). simpl in *. lia.
  - destruct Hr as (Hinc & Hino & Hpid).
    destruct (register_ok (with_rx r s) i m (server_ok_rx s r Hs Hrok) Hi Hpid)
      as (Hs1 & Hopen & Hh & Ha & Hp & Hf & Hrx & _).
    set (s1 := register_client i m (with_rx r s)) in *.
    assert (client_open s1 i) as Hi1 by (destruct Hi as [? Ho]; split; [done|by rewrite Hopen]).
    assert (forall (s2 : server) (m2 : pseudo_msg_t) p, server_ok s2 -> same_but_db s1 s2 -> length (m_path m2) = length (m_path m) ->
      let s' := send_reply i m2 p kernel s2 in
      server_ok s' /\ (forall j, j <> Z.to_nat i -> open_at (clients s') j = open_at (clients s) j) /\
      die_forcefully s' = die_forcefully s /\ highest_client s' = highest_client s) as Hfin.
    { intros s2 m2 p Hs2 (Hc2 & Ha2 & Hh2 & Hf2) _. destruct (send_reply_ok s2 i m2 p kernel Hs2) as [Hok (Hc3 & Ha3 & Hh3 & Hf3)].
      split; [done|]. split; [|split; [by rewrite Hf3, Hf2, Hf|by rewrite Hh3, Hh2, Hh]]. intros j _. rewrite Hc3, Hc2. apply Hopen. }
    destruct (m_type m =? PSEUDO_MSG_SHUTDOWN).
    + set (m1 := if c_pid (slot s1 i) =? 0 then set_client (c_pid (slot s1 i)) m else m).
      assert (m_path m1 = m_path m) as Hm1 by (unfold m1; destruct (_ =? 0); [by destruct m as [[]]|done]).
      destruct (serve_shutdown_ok s1 i m1 scratch Hs1 Hi1 Hscr) as (s2 & m2 & p & -> & Hs2 & Hsame & Hpath & Hrx2).
      cbn [mbind option_bind]. eexists. split; [done|]. apply Hfin; [|done|by rewrite Hpath, Hm1].
      apply server_ok_rx; [done|]. apply (rx_swap _ m); [done|done|by rewrite Hpath, Hm1].
    + pose proof (serve_request_ok s1 i m Hs1 Hino) as Hreq. destruct (serve_request i m s1) as [[s2 m2] p].
      destruct Hreq as (Hs2 & Hsame & Hrx2 & _ & Hl).
      assert (server_ok (with_rx (mkRx (Some m2) (incoming_pathlen r)) s2)) as Hs3
        by (apply server_ok_rx; [done|]; by apply (rx_swap _ m)).
      destruct (m_type m2 =? PSEUDO_MSG_FASTOP); eexists; (split; [done|]); apply Hfin; try done.
      rewrite <- Hl. by destruct m2 as [[]].
Qed.

Definition event_id (e : ready) : option Z := match e with Client i _ _ _ => Some i | Listening _ _ _ => None end.

(** What [epoll_wait] delivers: valid new descriptors, open clients. *)
Definition event_ok (dupfd : Z -> Z) (s : server) (e : ready) : Prop :=
  match e with
  | Listening accepted _ _ => forall fd, accepted = Some fd -> not_stderr dupfd fd <> -1
  | Client i stream _ scratch =>
      client_open s i /\ (forall n, 0 <= n -> Z.of_nat (length (scratch n)) = n) /\
      match stream with Some stream => stream_ok stream | None => True end
  end.

(** A new client that [epoll_ctl] does not take. *)
Definition ctl_fails (e : ready) : Prop := match e with Listening (Some _) _ false => True | _ => False end.

Lemma loop_event_ok dupfd e s : server_ok s -> event_ok dupfd s e ->
  exists s' failed, loop_event dupfd e s = Some (s', failed) /\ (failed = true -> ctl_fails e) /\ server_ok s' /\
    (forall j, open_at (clients s) j = true -> event_id e <> Some (Z.of_nat j) -> open_at (clients s') j = true) /\
    die_forcefully s' = die_forcefully s /\ highest_client s <= highest_client s'.
Proof.
  intros Hs He. destruct e as [accepted mok cok|i stream kernel scratch]; cbn [loop_event event_ok ctl_fails] in *.
  - destruct (negb (die_forcefully s)); [|exists s, false; by (repeat (split; [done|]); lia)].
    destruct accepted as [fd|]; [|exists s, false; by (repeat (split; [done|]); lia)].
    specialize (He fd eq_refl). cbv zeta. set (s0 := with_peace _ _). set (s1 := if fd =? 2 then _ else _).
    assert (server_ok s0) as Hs0 by (by destruct Hs).
    assert (server_ok s1 /\ clients s1 = clients s /\ die_peacefully s1 = false /\ die_forcefully s1 = die_forcefully s /\
      highest_client s1 = highest_client s /\ rx s1 = rx s /\ sdb s1 = sdb s)
      as (Hs1 & Hc1 & Hp1 & Hf1 & Hh1 & Hr1 & Hd1) by (unfold s1; destruct (fd =? 2); [split; [by apply server_ok_emit|done]|done]).
    destruct (open_client_table (not_stderr dupfd fd) mok s1 (ok_table _ Hs1) He)
      as (Ht & Hopen & Hh & Hp & Hf & Hrx & Hd).
    destruct (open_client _ _ s1) as [s2 id]. cbn [fst] in *. eexists _, _. split; [done|].
    split; [by destruct cok; [rewrite andb_false_r|]|]. split; [|split; [intros j Hj _; apply Hopen; by rewrite Hc1|by rewrite Hf, <- Hh1]].
    constructor; [done|by rewrite Hp, Hp1|rewrite Hrx, Hr1; by apply Hs|rewrite Hd, Hd1; by apply Hs].
  - destruct He as (Hi & Hscr & Hstr). destruct stream as [stream|].
    + destruct (serve_client_ok s i stream kernel scratch Hs Hi Hstr Hscr) as (s' & Hs' & Hok & Hopen & Hf & Hh).
      exists s', false. rewrite Hs'. split; [done|]. split; [done|]. split; [done|]. split; [|split; [done|lia]].
      intros j Hj Hne. rewrite Hopen; [done|]. intros ->. apply Hne. simpl. f_equal. destruct Hi. lia.
    + destruct Hi as [Hi Ho].
      destruct (close_client_table i s (ok_table _ Hs) Hi Ho) as (Ht & Ha & Hh & Hopen & Hp & Hf & Hrx & Hd).
      eexists _, false. split; [done|]. split; [done|]. split; [|split; [|split; [done|lia]]].
      * constructor; [done| |rewrite Hrx; by apply Hs|rewrite Hd; by apply Hs].
        rewrite Hp, Ha. intros Hdie. pose proof (ok_peace _ Hs Hdie). lia.
      * intros j Hj Hne. rewrite Hopen; [done|]. intros ->. apply Hne. simpl. f_equal. lia.
Qed.

Lemma loop_events_ok dupfd es s : server_ok s -> NoDup (omap event_id es) -> Forall (event_ok dupfd s) es ->
  exists s' failed, loop_events dupfd es s = Some (s', failed) /\ (failed = true -> Exists ctl_fails es) /\ server_ok s' /\ die_forcefully s' = die_forcefully s /\
    highest_client s <= highest_client s'.
Proof.
  revert s. induction es as [|e es IH]; intros s Hs Hnd Hev; [exists s, false; by (repeat (split; [done|]); lia)|].
  inversion Hev as [|? ? He Hes]; subst. cbn [loop_events].
  destruct (loop_event_ok dupfd e s Hs He) as (s1 & failed & -> & Hctl & Hs1 & Hopen & Hf & Hh). cbn [mbind option_bind].
  destruct failed; [exists s1, true; split; [done|]; split; [intros _; left; by apply Hctl|by (repeat (split; [congruence || done|]); lia)]|].
  destruct (die_forcefully s1) eqn:Hfs; [exists s1, false; by (repeat (split; [congruence || done|]); lia)|].
  assert (NoDup (omap event_id es)) as Hnd' by (simpl in Hnd; destruct (event_id e); [by inversion Hnd|done]).
  destruct (IH s1 Hs1 Hnd') as (s' & failed & -> & Hctl' & Hs' & Hf' & Hh').
  - apply Forall_forall. intros e' He'. pose proof (proj1 (Forall_forall _ _) Hes e' He') as Hok.
    destruct e' as [acc mok cok|i stream kernel scratch]; [done|]. destruct Hok as ([Hi Ho] & Hscr & Hstr).
    split; [|done]. split; [done|]. apply Hopen; [done|]. intros Heq. simpl in Hnd. rewrite Heq in Hnd.
    inversion Hnd as [|? ? Hnin _]; subst. apply Hnin. apply list_elem_of_omap. eexists. split; [done|].
    simpl. f_equal. lia.
  - exists s', failed. split; [done|]. split; [intros H; right; by apply Hctl'|]. split; [done|]. split; [congruence|lia].
Qed.

Definition wait_ok (dupfd : Z -> Z) (s : server) (r : wait_result) : Prop :=
  match r with
  | WaitTimeout | WaitFailed => True
  | WaitReady es => NoDup (omap event_id es) /\ Forall (event_ok dupfd s) es
  end.

Lemma maybe_backup_ok s : server_ok s ->
  let s' := pdb_maybe_backup s in
  server_ok s' /\ clients s' = clients s /\ active_clients s' = active_clients s /\
  highest_client s' = highest_client s /\ die_forcefully s' = die_forcefully s.
Proof.
  intros Hs. unfold pdb_maybe_backup. destruct (file_db_open _); [|done]. cbv zeta.
  destruct (_ =? 0); (split; [|done]); destruct Hs; constructor; try done.
  cbn [with_sdb with_occasional sdb]. unfold pdb_backup. by destruct (_ && _).
Qed.

(** Why the server ends after a round. *)
Definition end_justified (s : server) (r : wait_result) (s' : server) (e : round_end) : Prop :=
  match e with
  | NextRound => True
  | Quits => die_forcefully s = true \/ (die_peacefully s' = true /\ active_clients s' <= 2)
  | CtlFailed => match r with WaitReady es => Exists ctl_fails es | _ => False end
  | LoopBroken => r = WaitFailed
  end.

Lemma loop_round_ok dupfd r s : server_ok s -> wait_ok dupfd s r ->
  exists s' e, loop_round dupfd r s = Some (s', e) /\ server_ok s' /\ end_justified s r s' e /\
    highest_client s <= highest_client s'.
Proof.
  intros Hs Hw. unfold loop_round.
  match goal with |- context [mbind _ ?x] =>
    assert (exists s1 e, x = Some (s1, e) /\ e <> Quits /\ (e <> NextRound -> end_justified s r s1 e) /\ server_ok s1 /\
      die_forcefully s1 = die_forcefully s /\ highest_client s <= highest_client s1) as (s1 & e & -> & Hq & He & Hs1 & Hf & Hh) end.
  { destruct r as [|es|].
    - destruct (Z.eqb_spec (active_clients s) 1) as [Ha|Ha]; [|exists s, NextRound; by (repeat (split; [done|]); lia)].
      set (s0 := with_timeouts _ _ s). assert (server_ok s0) as Hs0 by (by destruct Hs).
      destruct (maybe_backup_ok s0 Hs0) as (Hs1 & _ & Ha1 & Hh1 & Hf1). cbv zeta. set (s1 := pdb_maybe_backup s0) in *.
      change (active_clients s0) with (active_clients s) in Ha1. change (highest_client s0) with (highest_client s) in Hh1.
      eexists _, NextRound. do 3 (split; [done|]). destruct (_ <=? 0); (split; [|split; [done|cbn [with_peace highest_client]; lia]]).
      + destruct Hs1. constructor; try done. cbn [with_peace active_clients]. lia.
      + done.
    - destruct Hw as [Hnd Hev].
      destruct (loop_events_ok dupfd es (with_timeouts (server_timeout s) (server_timeout s) s)) as (s' & failed & Hs' & Hctl & H).
      + by destruct Hs.
      + done.
      + done.
      + rewrite Hs'. cbn [mbind option_bind]. eexists s', _. split; [done|]. destruct failed; split; try done; split; try done.
        intros _. by apply Hctl.
    - exists s, LoopBroken. by (repeat (split; [done|]); lia). }
  cbn [mbind option_bind].
  assert (e = NextRound \/ e = CtlFailed \/ e = LoopBroken) as [->|Hend] by (destruct e; auto; done).
  2: exists s1, e; destruct Hend as [-> | ->]; (split; [done|]; split; [done|]; split; [by apply He|done]).
  destruct (die_peacefully s1) eqn:Hp; cbn [orb].
  - eexists _, _. split; [done|]. split; [by apply server_ok_emit|]. split; [|done].
    right. split; [done|]. by apply (ok_peace s1 Hs1).
  - destruct (die_forcefully s1) eqn:Hfs.
    + eexists _, _. split; [done|]. split; [by apply server_ok_emit|]. split; [|done]. left. congruence.
    + eexists _, _. split; [done|]. split; [done|]. by split.
Qed.

Lemma server_start_ok listen_fd pid d : listen_fd <> -1 -> tables_ok (pdb_tables d) ->
  server_ok (server_start listen_fd pid d).
Proof.
  intros Hl Hd.
  assert (is_open (mkSlot listen_fd pid None None) = true) as Ho by (unfold is_open; simpl; by apply negb_true_iff, Z.eqb_neq).
  constructor; [|done|done|done]. cbn [server_start clients active_clients highest_client]. constructor.
  - done.
  - change (mkSlot listen_fd pid None None :: replicate 15 free_slot) with ([mkSlot listen_fd pid None None] ++ replicate 15 free_slot).
    rewrite open_count_app, open_count_free. unfold open_count. simpl. by rewrite Ho.
  - rewrite length_cons, length_replicate. lia.
  - intros i Hi. destruct i as [|i]; [lia|]. apply open_at_Some in Hi as (c & Hc & Hco). change (replicate 15 free_slot !! i = Some c) in Hc.
    apply lookup_replicate in Hc as [-> _]. done.
  - intros [|i] c Hc Hne; [done|]. change (replicate 15 free_slot !! i = Some c) in Hc. apply lookup_replicate in Hc as [-> _]. unfold pid_ok. simpl. lia.
Qed.

(** The answer to a request: its header and what follows it. *)
Definition answer_header (i rc : Z) (o : op_state) : header :=
  hdr (set_pathlen (match response o with Some (_, len) => uint32 len | None => 0 end)
    (set_client i (set_type (if rc =? 0 then PSEUDO_MSG_ACK else PSEUDO_MSG_NAK) (msg o)))).

Definition answer_payload (o : op_state) : bytes :=
  match response o with Some (path, len) => take (Z.to_nat (uint32 len)) path | None => [] end.

(** What [send_reply] puts on the socket. *)
Lemma send_reply_output s i (m : pseudo_msg_t) p kernel : 0 <= c_fd (slot s i) ->
  outputs (send_reply i m p kernel s) =
    Sent (c_fd (slot s i)) (header_bytes (match p with Some _ => set_pathlen (uint32 (m_pathlen m)) m | None => m end) ++
      match p with Some path => take (Z.to_nat (m_pathlen m)) path | None => take (Z.to_nat (m_pathlen m)) (m_path m) end)
    :: outputs s /\ sdb (send_reply i m p kernel s) = sdb s /\ die_peacefully (send_reply i m p kernel s) = die_peacefully s /\
  clients (send_reply i m p kernel s) = clients s.
Proof.
  intros Hfd. unfold send_reply, pseudo_msg_send. rewrite (proj2 (Z.ltb_ge _ _) Hfd).
  destruct p as [path|]; cbn [default from_option id]; destruct (kernel _); cbn [emit outputs sdb die_peacefully clients];
    unfold do_send; cbn [concat]; by rewrite app_nil_r.
Qed.

Lemma request_output s i stream kernel scratch (m : pseudo_msg_t) r rest :
  server_ok s -> client_open s i -> stream_ok stream ->
  pseudo_msg_receive (c_fd (slot s i)) (rx s) stream = (RxMsg m, r, rest) -> m_type m <> PSEUDO_MSG_SHUTDOWN ->
  let c := slot (register_client i m (with_rx r s)) i in
  let '(o, rc) := pseudo_server_response (sdb s) m (c_program c) (c_tag c) in
  exists s', serve_client i stream kernel scratch s = Some s' /\ sdb s' = db o /\
    outputs s' = Sent (c_fd (slot s i)) (header_bytes (answer_header i rc o) ++ answer_payload o) :: outputs s /\
    clients s' = clients (register_client i m (with_rx r s)).
Proof.
  intros Hs Hi Hst Hrecv Hty. assert (0 <= c_fd (slot s i)) as Hfd.
  { unfold pseudo_msg_receive in Hrecv. destruct (Z.ltb_spec (c_fd (slot s i)) 0); [done|lia]. }
  pose proof (receive_safe (c_fd (slot s i)) (rx s) stream (ok_rx _ Hs) Hst) as Hr. rewrite Hrecv in Hr.
  destruct Hr as [Hrok (_ & _ & Hpid)]. unfold serve_client. rewrite Hrecv.
  destruct (register_ok (with_rx r s) i m (server_ok_rx s r Hs Hrok) Hi Hpid) as (_ & _ & _ & _ & _ & _ & _ & Hfd1).
  set (s1 := register_client i m (with_rx r s)) in *. change (slot (with_rx r s) i) with (slot s i) in Hfd1.
  assert (sdb s1 = sdb s /\ outputs s1 = outputs s) as [Hsdb Hout]
    by (unfold s1, register_client; destruct (_ && _); [destruct (negb _)|]; done).
  rewrite (proj2 (Z.eqb_neq _ _) Hty). cbv zeta. unfold serve_request. rewrite Hsdb.
  destruct (pseudo_server_response _ _ _ _) as [o rc].
  set (mm := set_client i (set_type (if negb (rc =? 0) then PSEUDO_MSG_NAK else PSEUDO_MSG_ACK) (msg o))).
  assert (forall v, m_type (set_pathlen v mm) =? PSEUDO_MSG_FASTOP = false) as Hfast
    by (intros v; unfold mm; destruct (rc =? 0), (msg o) as [[]]; done).
  assert (answer_header i rc o = hdr (set_pathlen (match response o with Some (_, len) => uint32 len | None => 0 end) mm)) as ->
    by (unfold answer_header, mm; by destruct (rc =? 0)).
  assert (forall v, m_pathlen (set_pathlen v mm) = v) as Hpl by (intros v; by destruct mm as [[]]).
  unfold answer_payload. destruct (response o) as [[path len]|]; rewrite Hfast; eexists; (split; [done|]);
    match goal with |- context [send_reply i ?m2 ?p kernel ?s2] =>
      assert (slot s2 i = slot s1 i) as Hsl by done;
      destruct (send_reply_output s2 i m2 p kernel) as (-> & -> & _ & ->); [by rewrite Hsl, Hfd1|rewrite Hsl, Hfd1] end;
    (split; [done|]); (split; [|done]); cbn [outputs with_rx with_sdb]; rewrite Hout, Hpl; [|done].
  assert (set_pathlen (uint32 (uint32 len)) (set_pathlen (uint32 len) mm) = set_pathlen (uint32 len) mm) as ->; [|done].
  assert (uint32 (uint32 len) = uint32 len) as -> by (unfold wrap_unsigned; by rewrite Z.mod_mod). by destruct mm as [[]].
Qed.

(** The states the loop goes through. *)
Inductive server_run (dupfd : Z -> Z) : server -> server -> Prop :=
| run_here s : server_run dupfd s s
| run_round s r s1 s' : wait_ok dupfd s r -> loop_round dupfd r s = Some (s1, NextRound) ->
    server_run dupfd s1 s' -> server_run dupfd s s'
| run_signal s s' : server_run dupfd (quit_now s) s' -> server_run dupfd s s'.

Lemma server_run_ok dupfd s s' : server_ok s -> server_run dupfd s s' ->
  server_ok s' /\ highest_client s <= highest_client s'.
Proof.
  intros Hs Hr. induction Hr as [s|s r s1 s' Hw Heq Hr IH|s s' Hr IH].
  - split; [done|lia].
  - destruct (loop_round_ok dupfd r s Hs Hw) as (s2 & b & Heq2 & Hs2 & _ & Hh). rewrite Heq in Heq2.
    injection Heq2 as <- _. destruct (IH Hs2). split; [done|lia].
  - apply IH. by destruct Hs.
Qed.
End LoopInvariant.

(** ** Properties *)


(** C33: every complete message from a client gets exactly one reply, on that
    client's socket, fast operations included (the test that should spare
    them one comes after the type was overwritten).  The reply carries the
    handler's result and attributes, says ACK or NAK after the handler's
    return code, and is followed by the handler's extra data and nothing else;
    a shutdown request is refused as long as other clients are connected. *)
Theorem every_message_one_reply {E : SqlEngine} {L : SqlLaws E} {PM : PathMax} {SC : ServerConfig} {M : Malloc} {ML : MallocLaws}
    (s : server) i stream kernel scratch m r rest :
  server_ok s -> client_open s i -> stream_ok stream -> (forall n, 0 <= n -> Z.of_nat (length (scratch n)) = n) ->
  pseudo_msg_receive (c_fd (slot s i)) (rx s) stream = (RxMsg m, r, rest) ->
  exists s' reply payload,
    serve_client i stream kernel scratch s = Some s' /\
    outputs s' = Sent (c_fd (slot s i)) (header_bytes reply ++ payload) :: outputs s /\
    if m_type m =? PSEUDO_MSG_SHUTDOWN
    then m_type reply = (if 2 <? active_clients s then PSEUDO_MSG_NAK else PSEUDO_MSG_ACK) /\
         die_peacefully s' = negb (2 <? active_clients s) || die_peacefully s
    else
      let c := slot (register_client i m (with_rx r s)) i in
      let '(o, rc) := pseudo_server_response (sdb s) m (c_program c) (c_tag c) in
      sdb s' = db o /\ m_type reply = (if rc =? 0 then PSEUDO_MSG_ACK else PSEUDO_MSG_NAK) /\
      m_client reply = i /\ m_result reply = m_result (msg o) /\
      (m_uid reply, m_gid reply, m_mode reply, m_rdev reply) = (m_uid (msg o), m_gid (msg o), m_mode (msg o), m_rdev (msg o)) /\
      match response o with
      | Some (path, len) => m_pathlen reply = uint32 len /\ payload = take (Z.to_nat (uint32 len)) path
      | None => m_pathlen reply = 0 /\ payload = []
      end.
Proof.
  intros Hs Hi Hst Hscr Hrecv. destruct (Z.eqb_spec (m_type m) PSEUDO_MSG_SHUTDOWN) as [Hty|Hty].
  - assert (0 <= c_fd (slot s i)) as Hfd.
    { unfold pseudo_msg_receive in Hrecv. destruct (Z.ltb_spec (c_fd (slot s i)) 0); [done|lia]. }
    pose proof (receive_safe (c_fd (slot s i)) (rx s) stream (ok_rx _ Hs) Hst) as Hr. rewrite Hrecv in Hr.
    destruct Hr as [Hrok (_ & _ & Hpid)]. unfold serve_client. rewrite Hrecv.
    destruct (register_ok (with_rx r s) i m (server_ok_rx s r Hs Hrok) Hi Hpid) as (Hs1 & Hopen & _ & Ha & Hp & _ & _ & Hfd1).
    set (s1 := register_client i m (with_rx r s)) in *. change (slot (with_rx r s) i) with (slot s i) in Hfd1.
    assert (outputs s1 = outputs s) as Hout
      by (unfold s1, register_client; destruct (_ && _); [destruct (negb _)|]; done).
    assert (client_open s1 i) as Hi1 by (destruct Hi as [? Ho]; split; [done|by rewrite Hopen]).
    rewrite Hty, Z.eqb_refl. cbv zeta. set (m1 := if c_pid (slot s1 i) =? 0 then set_client (c_pid (slot s1 i)) m else m).
    destruct (serve_shutdown_ok s1 i m1 scratch Hs1 Hi1 Hscr) as (s2 & m2 & p & Heq & _ & (Hc2 & _) & _).
    rewrite Heq. cbn [mbind option_bind].
    assert (outputs s2 = outputs s /\ m_type m2 = (if 2 <? active_clients s then PSEUDO_MSG_NAK else PSEUDO_MSG_ACK) /\
      die_peacefully s2 = negb (2 <? active_clients s) || die_peacefully s) as (Ho2 & Hty2 & Hdie).
    { unfold serve_shutdown in Heq. rewrite Ha in Heq. change (active_clients (with_rx r s)) with (active_clients s) in Heq.
      change (die_peacefully (with_rx r s)) with (die_peacefully s) in Hp.
      destruct (2 <? active_clients s).
      - destruct (list_clients _ _ _ _ _ _) as [[buf off]|]; [|done]. cbn [mbind option_bind] in Heq.
        injection Heq as <- <- <-. split; [done|]. split; [by destruct m1 as [[]]|done].
      - injection Heq as <- <- <-. split; [done|]. split; [by destruct m1 as [[]]|done]. }
    set (s3 := with_rx _ s2). assert (slot s3 i = slot s1 i) as Hsl by (unfold slot, s3; cbn [with_rx clients]; by rewrite Hc2).
    destruct (send_reply_output s3 i m2 p kernel) as (Hsend & _ & Hdie3 & _); [by rewrite Hsl, Hfd1|]. rewrite Hsl, Hfd1 in Hsend.
    eexists _, _, _. split; [done|]. rewrite Hsend. cbn [s3 with_rx outputs]. rewrite Ho2. split; [done|].
    split; [by destruct p, m2 as [[]]|]. by rewrite Hdie3.
  - pose proof (request_output s i stream kernel scratch m r rest Hs Hi Hst Hrecv Hty) as H. cbv zeta in *.
    destruct (pseudo_server_response _ _ _ _) as [o rc]. destruct H as (s' & Heq & Hdb & Hout & _).
    exists s', (mkMsg (answer_header i rc o) []), (answer_payload o). split; [done|]. split; [done|]. split; [done|].
    unfold answer_header, answer_payload.
    destruct (response o) as [[path len]|]; destruct (rc =? 0), (msg o) as [[]]; repeat (split; [done|]); done.
Qed.

(** [highest_client] never drops, in any run: when the highest client is
    closed, the loop that should look for a lower one tests the slot that has
    just been freed and stops. *)
Theorem highest_client_never_drops {E : SqlEngine} {L : SqlLaws E} {PM : PathMax} {SC : ServerConfig} {M : Malloc} {ML : MallocLaws}
    dupfd (s s' : server) :
  server_ok s -> server_run dupfd s s' ->
  highest_client s <= highest_client s' /\
  (client_open s (highest_client s) -> highest_client (close_client (highest_client s) s) = highest_client s).
Proof.
  intros Hs Hr. split; [by apply (server_run_ok dupfd s s' Hs Hr)|]. intros [Hi Ho].
  by apply (close_client_table _ s (ok_table _ Hs) Hi Ho).
Qed.

(** ** Concrete servers *)

#[local] Existing Instance mem_engine.
#[local] Existing Instance zero_malloc.
#[local] Existing Instance sample_path_max.
#[local] Existing Instance sample_config.

Definition slot_of (fd pid : Z) : client_slot := mkSlot fd pid None None.

(** Eight active clients, six of which claim the process id -2^31. *)
Definition crowded_server : server :=
  mkServer (slot_of 3 100 :: slot_of 4 0 :: map (fun fd => slot_of fd (- 2 ^ 31)) [5; 6; 7; 8; 9; 10] ++ replicate 8 free_slot)
    8 7 false false 30 30 (sample_pdb [] []) 0 rx_init [].

(** The list of clients a refused shutdown is answered with has 8 bytes
    per client, which is enough for process ids of up to seven digits; but the
    process id of a client is whatever number its first ping claims, and with
    six clients that claim a long one the list runs over its block. *)
Theorem shutdown_list_overflows :
  (forall (s : server) i (m : pseudo_msg_t), 0 <= i < max_clients s -> m_type m = PSEUDO_MSG_PING -> c_pid (slot s i) = 0 ->
     c_pid (slot (register_client i m s) i) = m_client m) /\
  open_count (clients crowded_server) = active_clients crowded_server /\
  forall m, serve_shutdown 1 m (fun n => replicate (Z.to_nat n) NUL) crowded_server = None.
Proof.
  split; [|split; [done|]].
  - intros s i m Hi Ht Hp. unfold register_client. rewrite Ht, Hp. cbn [Z.eqb andb].
    assert (Z.to_nat i < length (clients s))%nat as Hlt by (unfold max_clients in Hi; lia).
    change (PSEUDO_MSG_PING =? PSEUDO_MSG_PING) with true. cbn [andb].
    destruct (negb _); unfold slot, set_slot; cbn [with_clients clients]; by rewrite list_lookup_insert_eq.
  - intros m. unfold serve_shutdown. change (2 <? active_clients crowded_server) with true. cbn [andb].
    assert (list_clients (Z.to_nat (highest_client crowded_server)) crowded_server 1 1
      (replicate (Z.to_nat (8 * active_clients crowded_server)) NUL) 0 = None) as -> by (vm_compute; reflexivity).
    done.
Qed.

(** ** Witnesses *)

Definition idle_server : server := server_start 3 100 (sample_pdb [] []).

Lemma sample_tables_ok : tables_ok (pdb_tables (sample_pdb [] [])).
Proof. apply no_tables_ok. Qed.


(** One client on descriptor 5 that asks for the attributes of a file. *)
Definition busy_server : server := (open_client 5 true idle_server).1.

Definition stat_header : header := mkHeader PSEUDO_MSG_OP OP_STAT 0 0 7 (-1) 5 11 1000 100 0x81a4 0 3 1 0.
Definition stat_stream : sock := [Some (header_bytes stat_header); Some ($"/f" ++ [NUL])].

Lemma busy_server_ok : server_ok busy_server.
Proof.
  pose proof (server_start_ok 3 100 (sample_pdb [] []) ltac:(done) sample_tables_ok) as Hs.
  destruct (open_client_table 5 true idle_server (ok_table _ Hs) ltac:(done)) as (Ht & _ & _ & Hp & _ & Hrx & Hd).
  constructor; [done|done|exact (ok_rx _ Hs)|exact sample_tables_ok].
Qed.

Lemma stat_stream_ok : stream_ok stat_stream.
Proof.
  intros h s1 Hr. assert (sock_read stat_stream PSEUDO_HEADER_SIZE = (Some (header_bytes stat_header), [Some ($"/f" ++ [NUL])]))
    as Hr' by (vm_compute; reflexivity).
  rewrite Hr' in Hr. injection Hr as <- _. vm_compute. done.
Qed.

Lemma stat_received : exists m r,
  pseudo_msg_receive (c_fd (slot busy_server 1)) (rx busy_server) stat_stream = (RxMsg m, r, []) /\
  m_type m = PSEUDO_MSG_OP.
Proof. eexists _, _. split; vm_compute; reflexivity. Qed.

Lemma every_message_one_reply_witness : exists s' reply payload,
  serve_client 1 stat_stream (fun w => SendBytes (Z.of_nat (length w))) (fun n => replicate (Z.to_nat n) NUL) busy_server = Some s' /\
  outputs s' = [Sent 5 (header_bytes reply ++ payload)].
Proof.
  destruct stat_received as (m & r & Hr & Hty).
  destruct (@every_message_one_reply mem_engine mem_engine_laws sample_path_max sample_config zero_malloc zero_malloc_laws
    busy_server 1 stat_stream (fun w => SendBytes (Z.of_nat (length w))) (fun n => replicate (Z.to_nat n) NUL) m r [])
    as (s' & reply & payload & H1 & H2 & _).
  - exact busy_server_ok.
  - split; [lia|reflexivity].
  - exact stat_stream_ok.
  - intros n Hn. rewrite length_replicate. lia.
  - exact Hr.
  - exists s', reply, payload. split; [exact H1|exact H2].
Defined.

Lemma highest_client_never_drops_witness :
  highest_client busy_server = 1 /\ highest_client (close_client 1 busy_server) = 1.
Proof.
  split; [reflexivity|].
  apply (@highest_client_never_drops mem_engine mem_engine_laws sample_path_max sample_config zero_malloc zero_malloc_laws
    (fun fd => fd) busy_server busy_server busy_server_ok (run_here _ _)).
  split; [reflexivity|reflexivity].
Defined.
