(* ===== verification/ClientConn.v ===== *)
(** The client's connection to the server ([pseudo_client.c]): connecting,
    the ping, starting a server, and [pseudo_client_request], which sends one
    message and waits for the answer, with a new connection and another try
    whenever something goes wrong.

    The kernel's answers are arguments: one record per group of system calls.
    Memory read outside its block gives [None].  What the forked child does
    before it becomes the server, the delays between tries and the event log
    are not modelled. *)

From stdpp Require Import base gmap list strings.
From Stdlib Require Import ZArith Lia Ascii.
From S2P Require Import Prelude Tables Message Paths ClientPath.

Open Scope Z_scope.

(** The descriptors the client keeps for itself. *)
Record client_fds := mkFds {
  connect_fd : Z;
  pseudo_util_debug_fd : Z;
  pseudo_prefix_dir_fd : Z;
  pseudo_localstate_dir_fd : Z;
  pseudo_pwd_fd : Z;
  pseudo_grp_fd : Z
}.

Definition set_connect_fd v (f : client_fds) : client_fds :=
  match f with mkFds _ d p l w g => mkFds v d p l w g end.

(** What others see: descriptors closed, bytes sent. *)
Inductive client_event := CloseFd (fd : Z) | SendOn (fd : Z) (wire : bytes).

(** [alloced_path] and [alloced_len] are statics of [pseudo_client_op]. *)
Record cstate := mkCS {
  c_paths : client;
  c_fds : client_fds;
  alloced_path : option bytes;
  alloced_len : Z;
  c_rx : rx_state;
  sent_messages : bool;
  pseudo_client_logging : bool;
  pseudo_local_only : bool;
  server_pid : Z;
  pseudo_fuid : Z;
  pseudo_fgid : Z;
  c_events : list client_event           (* latest first *)
}.

Definition with_paths v (s : cstate) : cstate :=
  match s with mkCS _ f a n r m l o p u g e => mkCS v f a n r m l o p u g e end.
Definition with_fds v (s : cstate) : cstate :=
  match s with mkCS c _ a n r m l o p u g e => mkCS c v a n r m l o p u g e end.
Definition with_alloced v w (s : cstate) : cstate :=
  match s with mkCS c f _ _ r m l o p u g e => mkCS c f v w r m l o p u g e end.
Definition with_crx v (s : cstate) : cstate :=
  match s with mkCS c f a n _ m l o p u g e => mkCS c f a n v m l o p u g e end.
Definition with_sent v (s : cstate) : cstate :=
  match s with mkCS c f a n r _ l o p u g e => mkCS c f a n r v l o p u g e end.
Definition with_logging v (s : cstate) : cstate :=
  match s with mkCS c f a n r m _ o p u g e => mkCS c f a n r m v o p u g e end.
Definition with_server_pid v (s : cstate) : cstate :=
  match s with mkCS c f a n r m l o _ u g e => mkCS c f a n r m l o v u g e end.
Definition event v (s : cstate) : cstate :=
  match s with mkCS c f a n r m l o p u g e => mkCS c f a n r m l o p u g (v :: e) end.

Definition with_connect_fd v (s : cstate) : cstate := with_fds (set_connect_fd v (c_fds s)) s.

(** What the client finds in its surroundings: its process id, the value of
    [PSEUDO_IGNORE_PATHS], the program's name and tag, what
    [fcntl(fd, F_DUPFD, PSEUDO_MIN_FD)], [getcwd] and [malloc] return, and the
    contents of a fresh stack buffer. *)
Class ClientEnv := {
  getpid : Z;
  ignore_paths : option bytes;
  program_invocation_name : bytes;
  pseudo_tag : bytes;
  dupfd : Z -> Z;
  real_getcwd : option bytes;
  chunk : Z -> option bytes
}.

(** [F_DUPFD] fails or gives a descriptor from [PSEUDO_MIN_FD] up; [malloc]
    fails or gives a block of the size asked for. *)
Definition PSEUDO_MIN_FD : Z := 20.

Class ClientEnvLaws (CE : ClientEnv) : Prop := {
  dupfd_high fd : dupfd fd = -1 \/ PSEUDO_MIN_FD <= dupfd fd;
  chunk_size n b : 0 <= n -> chunk n = Some b -> Z.of_nat (length b) = n
}.

Section ClientConn.
Context {PM : PathMax} {M : Malloc} {CE : ClientEnv}.

(** [pseudo_fd], with [move] for [MOVE_FD]; the close-on-exec flag apart. *)
Definition pseudo_fd (fd : Z) (move : bool) (s : cstate) : Z * cstate :=
  if fd <? 0 then (-1, s)
  else if move && (PSEUDO_MIN_FD <=? fd) then (fd, s)
  else (dupfd fd, if move then event (CloseFd fd) s else s).

(** [close(connect_fd); connect_fd = -1] *)
Definition drop_connection (s : cstate) : cstate :=
  with_connect_fd (-1) (event (CloseFd (connect_fd (c_fds s))) s).

(** [socket], [open(".")], whether [fchdir] to the state directory and
    [connect] succeed. *)
Record connect_env := mkConnect { ce_socket : Z; ce_cwd : Z; ce_fchdir : bool; ce_connect : bool }.

Definition client_connect (e : connect_env) (s : cstate) : cstate * Z :=
  let '(fd, s) := pseudo_fd (ce_socket e) true s in
  let s := with_connect_fd fd s in
  if fd =? -1 then (s, 1)
  else if ce_cwd e =? -1 then (drop_connection s, 1)
  else if negb (ce_fchdir e) then (with_connect_fd (-1) (event (CloseFd (ce_cwd e)) (event (CloseFd fd) s)), 1)
  else if negb (ce_connect e) then (with_connect_fd (-1) (event (CloseFd (ce_cwd e)) (event (CloseFd fd) s)), 1)
  else (event (CloseFd (ce_cwd e)) s, 0).

(** One exchange: what the kernel answers to the send, and what arrives. *)
Record exchange := mkExchange { ex_kernel : bytes -> send_result; ex_stream : sock }.

(** [pseudo_msg_send] on the connection; [path] must have the bytes [len]
    promises. *)
Definition send_message (m : pseudo_msg_t) (len : Z) (path : bytes) (kernel : bytes -> send_result)
    (s : cstate) : option (cstate * Z) :=
  if Z.of_nat (length path) <? len then None
  else
    match pseudo_msg_send (connect_fd (c_fds s)) (Some m) (Some len) (Some path) kernel with
    | (_, wire, rc) =>
        Some (if connect_fd (c_fds s) <? 0 then s else event (SendOn (connect_fd (c_fds s)) wire) s, rc)
    end.

(** [pseudo_msg_receive] on the connection. *)
Definition receive_answer (stream : sock) (s : cstate) : option (cstate * option pseudo_msg_t) :=
  match pseudo_msg_receive (connect_fd (c_fds s)) (c_rx s) stream with
  | (RxOverflow, _, _) => None
  | (RxNull, r, _) => Some (with_crx r s, None)
  | (RxMsg m, r, _) => Some (with_crx r s, Some m)
  end.

Definition empty_msg : pseudo_msg_t := mkMsg (mkHeader 0 OP_NONE 0 0 0 0 0 0 0 0 0 0 0 0 0) [].

(** [snprintf(tagbuf, sizeof(tagbuf), "%s%c%s", name, 0, tag)] *)
Definition ping_text : bytes := program_invocation_name ++ NUL :: pseudo_tag.

Definition ping_buffer : bytes :=
  if Z.of_nat (length ping_text) <? pseudo_path_max
  then ping_text ++ replicate (Z.to_nat pseudo_path_max - length ping_text) NUL
  else take (Z.to_nat (pseudo_path_max - 1)) ping_text ++ [NUL].

Definition ping_message : pseudo_msg_t :=
  set_client getpid (set_pathlen (Z.of_nat (length ping_text)) (set_op OP_NONE (set_type PSEUDO_MSG_PING empty_msg))).

Definition client_ping (e : exchange) (s : cstate) : option (cstate * Z) :=
  '(s, rc) ← send_message ping_message (m_pathlen ping_message) ping_buffer (ex_kernel e) s;
  if negb (rc =? 0) then Some (s, 1)
  else
    '(s, ack) ← receive_answer (ex_stream e) s;
    match ack with
    | None => Some (with_server_pid 0 s, 1)
    | Some ack =>
        if negb (m_type (hdr ack) =? PSEUDO_MSG_ACK) then Some (with_server_pid 0 s, 1)
        else Some (with_logging (m_result (hdr ack) =? RESULT_SUCCEED) s, 0)
    end.

(** [fork], whether the child exited with status 0, and the contents of the
    pid file. *)
Record spawn_env := mkSpawn { sp_fork : Z; sp_ok : bool; sp_pidfile : option Z }.

Definition client_spawn_server (e : spawn_env) (s : cstate) : cstate * Z :=
  let s := with_server_pid (sp_fork e) s in
  if sp_fork e =? -1 then (s, 1)
  else
    let s := with_server_pid (-2) s in
    if sp_ok e then (with_server_pid (default (-2) (sp_pidfile e)) s, 0)
    else (with_server_pid (-1) s, 1).

Record setup_env := mkSetup {
  su_connect : connect_env;
  su_ping : exchange;
  su_pidfile : option Z;
  su_alive : bool;                       (* kill(server_pid, 0) *)
  su_spawn : spawn_env;
  su_reconnect : connect_env;
  su_reping : exchange
}.

(** A server was started: connect to it. *)
Definition client_reconnect (e : setup_env) (s : cstate) : option (cstate * Z) :=
  let '(s, rc) := client_connect (su_reconnect e) s in
  if rc =? 0 then
    '(s, rc) ← client_ping (su_reping e) s;
    Some (if rc =? 0 then (s, 0) else (drop_connection s, 1))
  else Some (s, 1).

(** No connection: look for a server, start one. *)
Definition client_restart (e : setup_env) (s : cstate) : option (cstate * Z) :=
  let s := with_server_pid (default (server_pid s) (su_pidfile e)) s in
  let s := if (0 <? server_pid s) && negb (su_alive e) then with_server_pid 0 s else s in
  let '(s, rc) := client_spawn_server (su_spawn e) s in
  if negb (rc =? 0) then Some (s, 1) else client_reconnect e s.

Definition pseudo_client_setup (e : setup_env) (s : cstate) : option (cstate * Z) :=
  let s := with_server_pid 0 s in
  let s := if 0 <=? connect_fd (c_fds s) then drop_connection s else s in
  let '(s, rc) := client_connect (su_connect e) s in
  if rc =? 0 then
    '(s, rc) ← client_ping (su_ping e) s;
    if rc =? 0 then Some (s, 0) else client_restart e (drop_connection s)
  else client_restart e s.

(** What one try meets. *)
Record attempt := mkAttempt { at_exchange : exchange; at_setup : setup_env }.

Definition PSEUDO_RETRIES : nat := 250.

(** The server's answer; [NoReply] is a NULL; [Aborted] does not return. *)
Inductive reply := NoReply | Reply (m : pseudo_msg_t) | Aborted.

(** [tries] counts from 0; [fuel] tries are left. *)
Fixpoint request_loop (fuel tries : nat) (world : nat -> attempt) (m : pseudo_msg_t) (len : Z) (path : bytes)
    (s : cstate) : option (cstate * reply) :=
  match fuel with
  | O => Some (s, Aborted)
  | S fuel =>
      '(s, rc) ← send_message m len path (ex_kernel (at_exchange (world tries))) s;
      if negb (rc =? 0) then
        '(s, _) ← pseudo_client_setup (at_setup (world tries)) s;
        request_loop fuel (S tries) world m len path s
      else
        '(s, response) ← receive_answer (ex_stream (at_exchange (world tries))) s;
        match response with
        | None => request_loop fuel (S tries) world m len path s
        | Some response =>
            Some (s, if negb (m_type (hdr response) =? PSEUDO_MSG_ACK) then NoReply else Reply response)
        end
  end.

Definition pseudo_client_request (world : nat -> attempt) (m : pseudo_msg_t) (len : Z) (path : bytes)
    (s : cstate) : option (cstate * reply) :=
  request_loop PSEUDO_RETRIES 0 world m len path s.
End ClientConn.
