(* ===== verification/ClientConnSpec.v ===== *)
(** The client's connection: whatever the kernel and the server do, a request
    ends after a bounded number of tries without touching memory outside its
    blocks, and it is answered as soon as one try finds a server. *)

From stdpp Require Import base gmap list strings.
From Stdlib Require Import ZArith Lia Ascii.
From S2P Require Import Prelude Tables Message Paths ClientPath ClientConn.

Open Scope Z_scope.

(** What the connection code leaves alone. *)
Definition conn_frame (s s' : cstate) : Prop :=
  c_paths s' = c_paths s /\ set_connect_fd 0 (c_fds s') = set_connect_fd 0 (c_fds s) /\
  alloced_path s' = alloced_path s /\ alloced_len s' = alloced_len s /\
  sent_messages s' = sent_messages s /\ pseudo_local_only s' = pseudo_local_only s /\
  pseudo_fuid s' = pseudo_fuid s /\ pseudo_fgid s' = pseudo_fgid s.

#[export] Instance conn_frame_preorder : PreOrder conn_frame.
Proof.
  split; [by intros s|]. intros s1 s2 s3 (?&?&?&?&?&?&?&?) (?&?&?&?&?&?&?&?).
  unfold conn_frame. split_and!; congruence.
Qed.

Definition is_send (e : client_event) : bool := match e with SendOn _ _ => true | _ => false end.

(** Messages sent so far. *)
Definition sends (s : cstate) : nat := length (List.filter is_send (c_events s)).

Section Requests.
Context {PM : PathMax} {M : Malloc} {ML : MallocLaws} {CE : ClientEnv}.

(** [s'] is a later state of the same client, with at most [n] more messages
    sent and the receive buffer in order. *)
Record later (n : nat) (s s' : cstate) : Prop := {
  later_frame : conn_frame s s';
  later_rx : rx_ok (c_rx s) -> rx_ok (c_rx s');
  later_events : exists new, c_events s' = new ++ c_events s;
  later_sends : (sends s' <= sends s + n)%nat
}.

Lemma later_refl s : later 0 s s.
Proof. split; [done|done|by exists []|lia]. Qed.

Lemma later_trans n k s1 s2 s3 : later n s1 s2 -> later k s2 s3 -> later (n + k) s1 s3.
Proof.
  intros [F1 R1 [e1 E1] S1] [F2 R2 [e2 E2] S2]. split.
  - by transitivity s2.
  - auto.
  - exists (e2 ++ e1). by rewrite E2, E1, app_assoc.
  - lia.
Qed.

Lemma later_weaken n k s s' : later n s s' -> (n <= k)%nat -> later k s s'.
Proof. intros [F R E S] ?. split; [done..|lia]. Qed.

Lemma later_close fd s : later 0 s (event (CloseFd fd) s).
Proof. split; destruct s; [done|done|by eexists [_]|unfold sends; simpl; lia]. Qed.

Lemma later_send fd w s : later 1 s (event (SendOn fd w) s).
Proof. split; destruct s; [done|done|by eexists [_]|unfold sends; simpl; lia]. Qed.

Lemma later_connect_fd v s : later 0 s (with_connect_fd v s).
Proof. split; destruct s as [? [] ? ? ? ? ? ? ? ? ? ?]; [done|done|by exists []|unfold sends; simpl; lia]. Qed.

Lemma later_server_pid v s : later 0 s (with_server_pid v s).
Proof. split; destruct s; [done|done|by exists []|unfold sends; simpl; lia]. Qed.

Lemma later_logging v s : later 0 s (with_logging v s).
Proof. split; destruct s; [done|done|by exists []|unfold sends; simpl; lia]. Qed.

(** Chains of steps that send nothing. *)
Ltac quiet :=
  repeat first
    [ apply later_refl | apply later_close | apply later_connect_fd | apply later_server_pid | apply later_logging
    | assumption
    | match goal with
      | |- later 0 ?s (event (CloseFd _) ?t) => apply (later_trans 0 0 s t); [|apply later_close]
      | |- later 0 ?s (with_connect_fd _ ?t) => apply (later_trans 0 0 s t); [|apply later_connect_fd]
      | |- later 0 ?s (with_server_pid _ ?t) => apply (later_trans 0 0 s t); [|apply later_server_pid]
      | |- later 0 ?s (with_logging _ ?t) => apply (later_trans 0 0 s t); [|apply later_logging]
      end ].

Lemma drop_connection_later s : later 0 s (drop_connection s).
Proof. unfold drop_connection. quiet. Qed.

Lemma client_connect_later e s : later 0 s (client_connect e s).1.
Proof.
  unfold client_connect, pseudo_fd. destruct (ce_socket e <? 0); [cbn; quiet|].
  destruct (true && _); cbn zeta iota beta.
  all: repeat match goal with |- context [if ?b then _ else _] => destruct b end; cbn [fst]; unfold drop_connection; quiet.
Qed.

Lemma client_spawn_later e s : later 0 s (client_spawn_server e s).1.
Proof. unfold client_spawn_server. destruct (_ =? _); [|destruct (sp_ok e)]; cbn [fst]; quiet. Qed.

(** *** One exchange *)

Definition message_wire (m : pseudo_msg_t) (len : Z) (path : bytes) : bytes :=
  header_bytes (set_pathlen (uint32 len) m) ++ take (Z.to_nat len) path.

Lemma send_message_spec m len path kernel s : len <= Z.of_nat (length path) ->
  exists s' rc, send_message m len path kernel s = Some (s', rc) /\ later 1 s s' /\ c_rx s' = c_rx s /\
    connect_fd (c_fds s') = connect_fd (c_fds s) /\
    (rc = 0 -> 0 <= connect_fd (c_fds s) /\
       c_events s' = SendOn (connect_fd (c_fds s)) (message_wire m len path) :: c_events s /\
       kernel (message_wire m len path) = SendBytes (PSEUDO_HEADER_SIZE + uint32 len)) /\
    (0 <= connect_fd (c_fds s) -> kernel (message_wire m len path) = SendBytes (PSEUDO_HEADER_SIZE + uint32 len) -> rc = 0).
Proof.
  intros Hlen. unfold send_message. rewrite (proj2 (Z.ltb_ge _ _)) by done.
  unfold pseudo_msg_send. destruct (Z.ltb_spec (connect_fd (c_fds s)) 0) as [Hfd|Hfd].
  - eexists _, _. split; [done|]. split; [apply (later_weaken 0); [apply later_refl|lia]|].
    split; [done|]. split; [done|]. split; [done|lia].
  - cbn [default from_option id]. unfold do_send. cbn [concat]. rewrite app_nil_r. fold (message_wire m len path).
    assert (m_pathlen (set_pathlen (uint32 len) m) = uint32 len) as Hpl by (by destruct m as [[]]). rewrite Hpl.
    assert (forall w, later 1 s (event (SendOn (connect_fd (c_fds s)) w) s)) as Hl by (intros; apply later_send).
    assert (forall w, connect_fd (c_fds (event w s)) = connect_fd (c_fds s) /\ c_rx (event w s) = c_rx s /\
      c_events (event w s) = w :: c_events s) as Hev by (by destruct s).
    destruct (kernel (message_wire m len path)) as [r| |] eqn:Hk; eexists _, _; (split; [done|]);
      (split; [apply Hl|]); (split; [apply Hev|]); (split; [apply Hev|]).
    + split.
      * destruct (Z.eqb_spec r (PSEUDO_HEADER_SIZE + uint32 len)) as [->|]; [|done]. intros _.
        split; [done|]. split; [apply Hev|done].
      * intros _ [= ->]. by rewrite Z.eqb_refl.
    + by split.
    + by split.
Qed.

Lemma receive_answer_spec stream s : rx_ok (c_rx s) -> short_paths stream ->
  exists s' r, receive_answer stream s = Some (s', r) /\ later 0 s s' /\ rx_ok (c_rx s') /\
    connect_fd (c_fds s') = connect_fd (c_fds s) /\ c_events s' = c_events s /\
    (forall m, r = Some m -> exists h s1, sock_read stream PSEUDO_HEADER_SIZE = (Some h, s1) /\ hdr m = header_of_bytes h).
Proof.
  intros Hrx Hs. unfold receive_answer.
  pose proof (receive_ok (connect_fd (c_fds s)) (c_rx s) stream Hrx Hs) as H.
  destruct (pseudo_msg_receive _ _ _) as [[res r] rest]. destruct H as [Hr H].
  assert (later 0 s (with_crx r s)) as Hl.
  { split; destruct s; [done|done|by exists []|unfold sends; simpl; lia]. }
  assert (connect_fd (c_fds (with_crx r s)) = connect_fd (c_fds s) /\ c_events (with_crx r s) = c_events s /\
    c_rx (with_crx r s) = r) as (Hc & He & Hx) by (by destruct s).
  destruct res as [|m|]; [| |done]; eexists _, _; (split; [done|]); (split; [done|]); (split; [by rewrite Hx|]);
    (split; [done|]); (split; [done|]); [done|]. intros m' [= <-]. by destruct H.
Qed.

(** *** Setting the connection up *)

(** The program's name and tag fit the buffer of the ping. *)
Definition ping_fits : Prop := 0 < pseudo_path_max /\ Z.of_nat (length ping_text) <= pseudo_path_max.

Lemma ping_buffer_length : ping_fits -> Z.of_nat (length ping_text) <= Z.of_nat (length ping_buffer).
Proof.
  intros [Hpos Hfit]. unfold ping_buffer. destruct (Z.ltb_spec (Z.of_nat (length ping_text)) pseudo_path_max).
  - rewrite length_app. lia.
  - rewrite length_app, length_take. simpl. lia.
Qed.

Lemma client_ping_spec e s : rx_ok (c_rx s) -> ping_fits -> short_paths (ex_stream e) ->
  exists s' rc, client_ping e s = Some (s', rc) /\ later 1 s s' /\ rx_ok (c_rx s') /\
    connect_fd (c_fds s') = connect_fd (c_fds s).
Proof.
  intros Hrx Hfit Hs. unfold client_ping.
  destruct (send_message_spec ping_message (m_pathlen ping_message) ping_buffer (ex_kernel e) s)
    as (s1 & rc & -> & Hl & Hr1 & Hc1 & _); [by apply ping_buffer_length|]. cbn [mbind option_bind].
  destruct (negb (rc =? 0)); [eexists _, _; split; [done|]; rewrite Hr1; done|].
  destruct (receive_answer_spec (ex_stream e) s1) as (s2 & r & -> & Hl2 & Hr2 & Hc2 & _); [by rewrite Hr1|done|].
  cbn [mbind option_bind].
  assert (forall s', later 0 s2 s' -> c_rx s' = c_rx s2 -> connect_fd (c_fds s') = connect_fd (c_fds s2) ->
    later 1 s s' /\ rx_ok (c_rx s') /\ connect_fd (c_fds s') = connect_fd (c_fds s)) as Hfin.
  { intros s' Hl' Hx Hc. split; [|by rewrite Hx, Hc, Hc2, Hc1].
    apply (later_trans 1 0 s s1); [done|]. by apply (later_trans 0 0 s1 s2). }
  destruct r as [ack|]; [destruct (negb (m_type (hdr ack) =? PSEUDO_MSG_ACK))|]; eexists _, _; (split; [done|]);
    apply Hfin; try (by destruct s2 as [? [] ? ? ? ? ? ? ? ? ? ?]); quiet.
Qed.

(** The streams of a set-up announce short paths. *)
Definition setup_ok (e : setup_env) : Prop :=
  short_paths (ex_stream (su_ping e)) /\ short_paths (ex_stream (su_reping e)).

Lemma client_restart_spec e s : rx_ok (c_rx s) -> ping_fits -> setup_ok e ->
  exists s' rc, client_restart e s = Some (s', rc) /\ later 1 s s' /\ rx_ok (c_rx s').
Proof.
  intros Hrx Hfit [_ Hs]. unfold client_restart. cbv zeta.
  set (s1 := if _ && _ then _ else _). assert (later 0 s s1) as H1 by (unfold s1; destruct (_ && _); quiet).
  pose proof (client_spawn_later (su_spawn e) s1) as H2. destruct (client_spawn_server _ _) as [s2 rc]. cbn [fst] in H2.
  assert (later 0 s s2) as H3 by (by apply (later_trans 0 0 s s1)).
  destruct (negb (rc =? 0)).
  { eexists _, _. split; [done|]. split; [by apply (later_weaken 0); [|lia]|by apply (later_rx _ _ _ H3)]. }
  unfold client_reconnect. pose proof (client_connect_later (su_reconnect e) s2) as H4.
  destruct (client_connect _ _) as [s3 rc3]. cbn [fst] in H4.
  assert (later 0 s s3) as H5 by (by apply (later_trans 0 0 s s2)). destruct (rc3 =? 0).
  - destruct (client_ping_spec (su_reping e) s3) as (s4 & rc4 & -> & Hl & Hr & _); [by apply (later_rx _ _ _ H5)|done|done|].
    cbn [mbind option_bind]. assert (later 1 s s4) as H6 by (by apply (later_trans 0 1 s s3)).
    destruct (rc4 =? 0); [by eexists _, _|]. eexists _, _. split; [done|]. split; [apply (later_trans 1 0 s s4); [done|apply drop_connection_later]|].
    by destruct s4 as [? [] ? ? ? ? ? ? ? ? ? ?].
  - eexists _, _. split; [done|]. split; [by apply (later_weaken 0); [|lia]|by apply (later_rx _ _ _ H5)].
Qed.

Lemma client_setup_spec e s : rx_ok (c_rx s) -> ping_fits -> setup_ok e ->
  exists s' rc, pseudo_client_setup e s = Some (s', rc) /\ later 2 s s' /\ rx_ok (c_rx s').
Proof.
  intros Hrx Hfit Hs. unfold pseudo_client_setup. cbv zeta.
  set (s1 := if 0 <=? _ then _ else _).
  assert (later 0 s s1) as H1 by (unfold s1, drop_connection; destruct (0 <=? _); quiet).
  pose proof (client_connect_later (su_connect e) s1) as H2. destruct (client_connect _ _) as [s2 rc]. cbn [fst] in H2.
  assert (later 0 s s2) as H3 by (by apply (later_trans 0 0 s s1)). destruct (rc =? 0).
  - destruct (client_ping_spec (su_ping e) s2) as (s4 & rc4 & -> & Hl & Hr & _); [by apply (later_rx _ _ _ H3)|done|by apply Hs|].
    cbn [mbind option_bind]. assert (later 1 s s4) as H6 by (by apply (later_trans 0 1 s s2)).
    destruct (rc4 =? 0).
    { eexists _, _. split; [done|]. split; [by apply (later_weaken 1); [|lia]|done]. }
    destruct (client_restart_spec e (drop_connection s4)) as (s5 & rc5 & -> & Hl5 & Hr5); [|done|done|].
    { by destruct s4 as [? [] ? ? ? ? ? ? ? ? ? ?]. }
    eexists _, _. split; [done|]. split; [|done].
    apply (later_trans 1 1 s s4); [done|]. apply (later_trans 0 1 s4 (drop_connection s4)); [apply drop_connection_later|done].
  - destruct (client_restart_spec e s2) as (s5 & rc5 & -> & Hl5 & Hr5); [by apply (later_rx _ _ _ H3)|done|done|].
    eexists _, _. split; [done|]. split; [|done]. apply (later_weaken (0 + 1)); [by apply (later_trans 0 1 s s2)|lia].
Qed.

(** *** Requests *)

(** A try whose streams announce short paths. *)
Definition attempt_ok (a : attempt) : Prop := short_paths (ex_stream (at_exchange a)) /\ setup_ok (at_setup a).

(** The answer to try [k]: the kernel took the whole message, and [a]'s header
    was on the stream. *)
Definition answered_at (world : nat -> attempt) (m : pseudo_msg_t) len path (s' : cstate) (k : nat) (h : header) : Prop :=
  ex_kernel (at_exchange (world k)) (message_wire m len path) = SendBytes (PSEUDO_HEADER_SIZE + uint32 len) /\
  (exists fd, SendOn fd (message_wire m len path) ∈ c_events s') /\
  exists l s1, sock_read (ex_stream (at_exchange (world k))) PSEUDO_HEADER_SIZE = (Some l, s1) /\ h = header_of_bytes l.

Lemma request_loop_spec world m len path : len <= Z.of_nat (length path) -> ping_fits ->
  forall fuel tries s, (forall k, attempt_ok (world k)) -> rx_ok (c_rx s) ->
  exists s' r, request_loop fuel tries world m len path s = Some (s', r) /\ later (3 * fuel) s s' /\ rx_ok (c_rx s') /\
    match r with
    | Aborted => True
    | Reply a => m_type a = PSEUDO_MSG_ACK /\
        exists k, (tries <= k < tries + fuel)%nat /\ answered_at world m len path s' k (hdr a)
    | NoReply => exists k h, (tries <= k < tries + fuel)%nat /\ answered_at world m len path s' k h /\ m_type h <> PSEUDO_MSG_ACK
    end.
Proof.
  intros Hlen Hfit. induction fuel as [|fuel IH]; intros tries s Hw Hrx.
  { eexists _, _. split; [done|]. split; [apply later_refl|done]. }
  cbn [request_loop]. destruct (Hw tries) as [Hstr Hset].
  destruct (send_message_spec m len path (ex_kernel (at_exchange (world tries))) s Hlen)
    as (s1 & rc & -> & Hl1 & Hx1 & Hc1 & Hsent & _). cbn [mbind option_bind].
  assert (forall s2 n, later n s s2 -> (n <= 3)%nat -> rx_ok (c_rx s2) ->
    exists s' r, request_loop fuel (S tries) world m len path s2 = Some (s', r) /\ later (3 * S fuel) s s' /\ rx_ok (c_rx s') /\
    match r with
    | Aborted => True
    | Reply a => m_type a = PSEUDO_MSG_ACK /\
        exists k, (tries <= k < tries + S fuel)%nat /\ answered_at world m len path s' k (hdr a)
    | NoReply => exists k h, (tries <= k < tries + S fuel)%nat /\ answered_at world m len path s' k h /\ m_type h <> PSEUDO_MSG_ACK
    end) as Hagain.
  { intros s2 n Hl2 Hn Hr2. destruct (IH (S tries) s2 Hw Hr2) as (s' & r & Heq & Hl & Hr & Hres).
    exists s', r. split; [done|]. split; [apply (later_weaken (n + 3 * fuel)); [by apply (later_trans n _ s s2)|lia]|].
    split; [done|]. destruct r as [|a|]; [| |done].
    - destruct Hres as (k & h & Hk & H). exists k, h. split; [lia|done].
    - destruct Hres as (Ha & k & Hk & H). split; [done|]. exists k. split; [lia|done]. }
  destruct (Z.eqb_spec rc 0) as [->|]; cbn [negb].
  - destruct (Hsent eq_refl) as (Hfd & Hev & Hker).
    destruct (receive_answer_spec (ex_stream (at_exchange (world tries))) s1) as (s2 & r & -> & Hl2 & Hr2 & _ & Hev2 & Hhdr);
      [by rewrite Hx1|done|]. cbn [mbind option_bind].
    assert (later 1 s s2) as Hl by (by apply (later_trans 1 0 s s1)).
    destruct r as [a|]; [|apply (Hagain s2 1%nat); [done|lia|done]].
    assert (answered_at world m len path s2 tries (hdr a)) as Hans.
    { split; [done|]. split; [|destruct (Hhdr a eq_refl) as (l & s3 & ? & ?); eauto].
      exists (connect_fd (c_fds s)). rewrite Hev2, Hev. left. }
    eexists _, _. split; [done|]. split; [apply (later_weaken 1); [done|lia]|]. split; [done|].
    destruct (Z.eqb_spec (m_type (hdr a)) PSEUDO_MSG_ACK) as [Ha|Ha]; cbn [negb].
    + split; [done|]. exists tries. split; [lia|done].
    + exists tries, (hdr a). split; [lia|done].
  - destruct (client_setup_spec (at_setup (world tries)) s1) as (s2 & rc2 & -> & Hl2 & Hr2); [by rewrite Hx1|done|done|].
    cbn [mbind option_bind]. apply (Hagain s2 3%nat); [by apply (later_trans 1 2 s s1)|lia|done].
Qed.

(** A connection that is made. *)
Definition connects (e : connect_env) : Prop :=
  0 <= ce_socket e /\ dupfd (ce_socket e) <> -1 /\ ce_cwd e <> -1 /\ ce_fchdir e = true /\ ce_connect e = true.

(** The kernel takes everything, and [h] and [payload] come back. *)
Definition answers (e : exchange) (h : header) (payload : bytes) : Prop :=
  (forall w, ex_kernel e w = SendBytes (Z.of_nat (length w))) /\ header_ok h /\
  Z.of_nat (length payload) = m_pathlen h /\ m_pathlen h < 2 ^ 31 /\
  exists rest s, ex_stream e = sock_push (header_bytes h ++ payload ++ rest) s.

Lemma client_connects e s {CL : ClientEnvLaws CE} : connects e ->
  exists s', client_connect e s = (s', 0) /\ 0 <= connect_fd (c_fds s') /\ later 0 s s'.
Proof.
  intros (Hs & Hd & Hc & Hf & Hk). pose proof (client_connect_later e s) as Hl. unfold client_connect, pseudo_fd in *.
  rewrite (proj2 (Z.ltb_ge _ _)) in * by done.
  assert (forall fd (s1 : cstate), connect_fd (c_fds (event (CloseFd (ce_cwd e)) (with_connect_fd fd s1))) = fd) as Hfd
    by (by intros fd [? [] ? ? ? ? ? ? ? ? ? ?]).
  destruct (true && (PSEUDO_MIN_FD <=? ce_socket e)) eqn:Hmin; cbn zeta iota beta in *.
  - rewrite (proj2 (Z.eqb_neq (ce_socket e) (-1))) in * by lia. rewrite (proj2 (Z.eqb_neq (ce_cwd e) (-1))) in * by done.
    rewrite Hf, Hk in *. cbn [negb fst] in *. eexists. split; [done|]. rewrite Hfd. done.
  - rewrite (proj2 (Z.eqb_neq (dupfd (ce_socket e)) (-1))) in * by done. rewrite (proj2 (Z.eqb_neq (ce_cwd e) (-1))) in * by done.
    rewrite Hf, Hk in *. cbn [negb fst] in *. eexists. split; [done|]. rewrite Hfd. split; [|done].
    destruct (dupfd_high (ce_socket e)); [done|unfold PSEUDO_MIN_FD in *; lia].
Qed.

Lemma message_wire_length m len path : 0 <= len < 2 ^ 31 -> len <= Z.of_nat (length path) ->
  Z.of_nat (length (message_wire m len path)) = PSEUDO_HEADER_SIZE + uint32 len.
Proof.
  intros Hlen Hp. unfold message_wire. rewrite length_app, length_header_bytes, length_take.
  rewrite wrap_unsigned_small by lia. unfold PSEUDO_HEADER_SIZE. lia.
Qed.

(** An exchange on an open connection: the message goes out, the answer comes
    back. *)
Lemma exchange_answered e h payload m len path s : (forall k, is_Some (malloc k)) -> answers e h payload -> rx_ok (c_rx s) ->
  0 <= connect_fd (c_fds s) -> 0 <= len < 2 ^ 31 -> len <= Z.of_nat (length path) ->
  exists s1, send_message m len path (ex_kernel e) s = Some (s1, 0) /\ later 1 s s1 /\
    exists s2 a, receive_answer (ex_stream e) s1 = Some (s2, Some a) /\ hdr a = h /\
      take (length payload) (m_path a) = payload /\ rx_ok (c_rx s2) /\ connect_fd (c_fds s2) = connect_fd (c_fds s) /\ later 1 s s2.
Proof.
  intros Hm (Hk & Hh & Hpl & Hlt & rest & st & Hst) Hrx Hfd Hlen Hp.
  destruct (send_message_spec m len path (ex_kernel e) s Hp) as (s1 & rc & Heq & Hl & Hx & Hc & _ & Hok).
  rewrite Hok in Heq; [|done|by rewrite Hk, message_wire_length].
  exists s1. split; [done|]. split; [done|]. unfold receive_answer. rewrite Hst.
  destruct (receive_message (connect_fd (c_fds s1)) (c_rx s1) h payload rest st) as (a & r & -> & Hhdr & Htake & Hr);
    [done|by rewrite Hc|by rewrite Hx|done|done|done|].
  assert (later 0 s1 (with_crx r s1)) as Hl2 by (split; destruct s1; [done|done|by exists []|unfold sends; simpl; lia]).
  eexists _, a. split; [done|]. split; [done|]. split; [done|].
  assert (c_rx (with_crx r s1) = r /\ connect_fd (c_fds (with_crx r s1)) = connect_fd (c_fds s1)) as [-> ->] by (by destruct s1).
  split; [done|]. split; [done|]. by apply (later_trans 1 0 s s1).
Qed.

(** The ping is answered. *)
Definition pings (e : exchange) : Prop := exists h payload, answers e h payload /\ m_type h = PSEUDO_MSG_ACK.

Lemma client_pings e s : (forall k, is_Some (malloc k)) -> ping_fits -> Z.of_nat (length ping_text) < 2 ^ 31 ->
  pings e -> rx_ok (c_rx s) -> 0 <= connect_fd (c_fds s) ->
  exists s', client_ping e s = Some (s', 0) /\ rx_ok (c_rx s') /\ 0 <= connect_fd (c_fds s').
Proof.
  intros Hm Hfit Hlen (h & payload & Ha & Hty) Hrx Hfd. unfold client_ping.
  destruct (exchange_answered e h payload ping_message (m_pathlen ping_message) ping_buffer s)
    as (s1 & -> & _ & s2 & a & Hr & Hhdr & _ & Hr2 & Hc2 & _); try done.
  { change (m_pathlen ping_message) with (Z.of_nat (length ping_text)). lia. }
  { by apply ping_buffer_length. }
  cbn [mbind option_bind Z.eqb negb]. rewrite Hr. cbn [mbind option_bind]. rewrite Hhdr, Hty, Z.eqb_refl. cbn [negb]. eexists. split; [done|].
  rewrite <- Hc2 in Hfd. by destruct s2 as [? [] ? ? ? ? ? ? ? ? ? ?].
Qed.

(** A server is there and takes the connection. *)
Definition server_reachable (e : setup_env) : Prop := connects (su_connect e) /\ pings (su_ping e).

Lemma setup_reaches e s {CL : ClientEnvLaws CE} : (forall k, is_Some (malloc k)) -> ping_fits ->
  Z.of_nat (length ping_text) < 2 ^ 31 -> server_reachable e -> rx_ok (c_rx s) ->
  exists s', pseudo_client_setup e s = Some (s', 0) /\ rx_ok (c_rx s') /\ 0 <= connect_fd (c_fds s').
Proof.
  intros Hm Hfit Hlen [Hc Hp] Hrx. unfold pseudo_client_setup. cbv zeta.
  set (s1 := if 0 <=? _ then _ else _).
  assert (rx_ok (c_rx s1)) as Hrx1
    by (unfold s1, drop_connection; destruct (0 <=? _); by destruct s as [? [] ? ? ? ? ? ? ? ? ? ?]).
  destruct (client_connects (su_connect e) s1 Hc) as (s2 & -> & Hfd & Hl). cbn [Z.eqb].
  destruct (client_pings (su_ping e) s2) as (s3 & -> & Hr3 & Hfd3); try done; [by apply (later_rx _ _ _ Hl)|].
  cbn [mbind option_bind Z.eqb]. by exists s3.
Qed.

(** The server is dead for the sends of the tries before [k]. *)
Lemma request_survives_loop world m len path k h payload {CL : ClientEnvLaws CE} :
  (forall j, is_Some (malloc j)) -> ping_fits -> Z.of_nat (length ping_text) < 2 ^ 31 ->
  (forall j, attempt_ok (world j)) -> 0 <= len < 2 ^ 31 -> len <= Z.of_nat (length path) ->
  answers (at_exchange (world k)) h payload -> m_type h = PSEUDO_MSG_ACK ->
  forall fuel tries s, (tries <= k < tries + fuel)%nat -> rx_ok (c_rx s) ->
  (forall j w, (tries <= j < k)%nat -> ex_kernel (at_exchange (world j)) w = SendDead) ->
  (if (k =? tries)%nat then 0 <= connect_fd (c_fds s) else server_reachable (at_setup (world (k - 1)%nat))) ->
  exists s' a, request_loop fuel tries world m len path s = Some (s', Reply a) /\ hdr a = h /\
    take (length payload) (m_path a) = payload.
Proof.
  intros Hm Hfit Hpl Hw Hlen Hp Hans Hty. induction fuel as [|fuel IH]; intros tries s Hk Hrx Hdead Hreach; [lia|].
  cbn [request_loop]. destruct (Nat.eqb_spec k tries) as [->|Hne].
  - destruct (exchange_answered (at_exchange (world tries)) h payload m len path s)
      as (s1 & -> & _ & s2 & a & Hr & Hhdr & Htake & _); try done.
    cbn [mbind option_bind Z.eqb negb]. rewrite Hr. cbn [mbind option_bind]. rewrite Hhdr, Hty, Z.eqb_refl. cbn [negb]. by eexists _, a.
  - destruct (send_message_spec m len path (ex_kernel (at_exchange (world tries))) s Hp)
      as (s1 & rc & -> & _ & Hx & _ & Hok & _). cbn [mbind option_bind].
    destruct (Z.eqb_spec rc 0) as [->|_]; cbn [negb].
    { destruct (Hok eq_refl) as (_ & _ & Hker). rewrite Hdead in Hker by lia. done. }
    destruct (Nat.eqb_spec k (S tries)) as [->|Hne2].
    + replace (S tries - 1)%nat with tries in Hreach by lia.
      destruct (setup_reaches (at_setup (world tries)) s1) as (s2 & -> & Hr2 & Hfd2); try done; [by rewrite Hx|].
      cbn [mbind option_bind]. apply IH; [lia|done|intros j w Hj; lia|]. by rewrite Nat.eqb_refl.
    + destruct (client_setup_spec (at_setup (world tries)) s1) as (s2 & rc2 & -> & _ & Hr2); [by rewrite Hx|done|apply Hw|].
      cbn [mbind option_bind]. apply IH; [lia|done|intros j w Hj; apply Hdead; lia|].
      rewrite (proj2 (Nat.eqb_neq _ _)) by done. done.
Qed.
End Requests.

(** ** Properties *)


(** C27: a request survives the death of the server: if every send fails until
    try [k], the set-up before it reaches a (new) server, and that one
    acknowledges the message, the request returns its answer, header and
    path, whatever happened in the tries before. *)
Theorem request_survives_server_death {PM : PathMax} {M : Malloc} {ML : MallocLaws} {CE : ClientEnv} {CL : ClientEnvLaws CE}
    (world : nat -> attempt) m len path (s : cstate) k h payload :
  (forall j, is_Some (malloc j)) -> ping_fits -> Z.of_nat (length ping_text) < 2 ^ 31 ->
  (forall j, attempt_ok (world j)) -> rx_ok (c_rx s) -> 0 <= len < 2 ^ 31 -> len <= Z.of_nat (length path) ->
  (0 < k < 250)%nat ->
  (forall j w, (j < k)%nat -> ex_kernel (at_exchange (world j)) w = SendDead) ->
  server_reachable (at_setup (world (k - 1)%nat)) ->
  answers (at_exchange (world k)) h payload -> m_type h = PSEUDO_MSG_ACK ->
  exists s' a, pseudo_client_request world m len path s = Some (s', Reply a) /\ hdr a = h /\
    take (length payload) (m_path a) = payload.
Proof.
  intros Hm Hfit Hpl Hw Hrx Hlen Hp Hk Hdead Hreach Hans Hty. unfold pseudo_client_request.
  apply (request_survives_loop world m len path k h payload); try done.
  - unfold PSEUDO_RETRIES. lia.
  - intros j w Hj. apply Hdead. lia.
  - rewrite (proj2 (Nat.eqb_neq k 0)) by lia. done.
Qed.

(** ** Witnesses *)

Definition sample_client_env : ClientEnv :=
  {| getpid := 7; ignore_paths := None; program_invocation_name := $"sh"; pseudo_tag := $"t"; dupfd := fun _ => 21;
     real_getcwd := Some ($"/"); chunk := fun n => Some (replicate (Z.to_nat n) NUL) |}.

Lemma sample_client_env_laws : ClientEnvLaws sample_client_env.
Proof.
  constructor.
  - intros fd. by right.
  - intros n b Hn [= <-]. rewrite length_replicate. lia.
Defined.

Definition pipe_path_max : PathMax := {| pseudo_path_max := 4096; malloc_path_max := [] |}.

(** A server that acknowledges everything, and one that is gone. *)
Definition ack_header : header := mkHeader PSEUDO_MSG_ACK OP_NONE RESULT_SUCCEED 0 1 (-1) 0 0 0 0 0 0 0 0 0.

Definition ack_exchange : exchange :=
  mkExchange (fun w => SendBytes (Z.of_nat (length w))) [Some (header_bytes ack_header)].
Definition dead_exchange : exchange := mkExchange (fun _ => SendDead) [].

Definition good_connect : connect_env := mkConnect 4 5 true true.
Definition good_setup : setup_env :=
  mkSetup good_connect ack_exchange None false (mkSpawn (-1) false None) good_connect ack_exchange.

(** The server dies before the request and is back for the second try. *)
Definition restarted_world (k : nat) : attempt :=
  mkAttempt (match k with O => dead_exchange | S _ => ack_exchange end) good_setup.

Definition connected_client : cstate :=
  mkCS (mkClient [] [] (Some ($"/")) (Some ($"/")) None) (mkFds 20 2 22 24 (-1) (-1)) None 0 rx_init false true false 0 0 0 [].

Lemma ack_short : short_paths (ex_stream ack_exchange).
Proof.
  intros h s1 Hr. assert (sock_read (ex_stream ack_exchange) PSEUDO_HEADER_SIZE = (Some (header_bytes ack_header), []))
    as Hr' by (vm_compute; reflexivity). rewrite Hr' in Hr. injection Hr as <- _. vm_compute. done.
Qed.

Lemma restarted_ok k : attempt_ok (restarted_world k).
Proof.
  split; [|by split; apply ack_short]. destruct k; [|apply ack_short]. intros h s1 [= <- _]. vm_compute. done.
Qed.

Lemma sample_ping_fits : @ping_fits pipe_path_max sample_client_env.
Proof. split; vm_compute; done. Qed.


Lemma ack_answers : answers ack_exchange ack_header [].
Proof.
  split; [done|]. split; [repeat split; vm_compute; done|]. split; [done|]. split; [done|].
  exists [], []. unfold sock_push. rewrite !app_nil_r. rewrite decide_False; [done|]. vm_compute. done.
Qed.

Lemma request_survives_server_death_witness : exists s' a,
  @pseudo_client_request pipe_path_max zero_malloc sample_client_env restarted_world empty_msg 0 [NUL] connected_client = Some (s', Reply a) /\
  hdr a = ack_header.
Proof.
  destruct (@request_survives_server_death pipe_path_max zero_malloc zero_malloc_laws sample_client_env sample_client_env_laws
    restarted_world empty_msg 0 [NUL] connected_client 1 ack_header []) as (s' & a & H1 & H2 & _).
  - intros j. by eexists.
  - exact sample_ping_fits.
  - vm_compute. done.
  - exact restarted_ok.
  - done.
  - lia.
  - done.
  - lia.
  - intros j w Hj. destruct j; [done|lia].
  - split; [repeat split; done|]. exists ack_header, []. split; [exact ack_answers|done].
  - exact ack_answers.
  - done.
  - exists s', a. split; [exact H1|exact H2].
Defined.
