(* ===== verification/ClientOp.v ===== *)
(** The client's side of every operation, [pseudo_client_op] of
    [pseudo_client.c], and the wrappers [close] and [closefrom], which use
    nothing else of it.

    The path arguments are C strings.  The buffer a message's paths are put
    together in is modelled as memory: an access outside a block gives [None].
    The build is the usual one, without [PSEUDO_XATTRDB] and without
    profiling; diagnostics are not modelled. *)

From stdpp Require Import base gmap list strings.
From Stdlib Require Import ZArith Lia Ascii.
From S2P Require Import Prelude Tables Paths ClientPath Message ClientConn.

Open Scope Z_scope.

(** A stage of the function: a memory error, [return 0], or the next stage. *)
Inductive stage (A : Type) := Crash | ReturnNull | Go (a : A).
Arguments Crash {A}.
Arguments ReturnNull {A}.
Arguments Go {A} a.

Section ClientOp.
Context {PM : PathMax} {M : Malloc} {CE : ClientEnv}.

(** *** The paths of a message *)

(** A missing path is looked up by descriptor. *)
Definition client_path_arg (s : cstate) (fd : Z) (path : option bytes) : option bytes :=
  match path with
  | Some p => Some p
  | None =>
      if (0 <=? fd) && (fd <=? Z.of_nat (length (fd_paths (c_paths s)))) then fd_path (c_paths s) fd else None
  end.

(** Operations that are made for ignored paths too. *)
Definition always_made (op : pseudo_op_t) : bool :=
  match op with OP_CHROOT | OP_CHDIR | OP_CLOSE | OP_CLOSEFROM | OP_DUP => true | _ => false end.

(** An ignored path is only remembered, without a trailing slash. *)
Definition client_ignored (op : pseudo_op_t) (fd : Z) (path : bytes) (s : cstate) : cstate :=
  if bool_decide (op = OP_OPEN) then
    let n := length path in
    let path := if (2 <? n)%nat && bool_decide (char_at path (n - 1) = slash) then take (n - 1) path else path in
    with_paths (pseudo_client_path fd (Some path) (c_paths s)) s
  else s.

(** The arguments after [buf]: the old path of a rename, the name and the
    value of an attribute.  [strlen] of a NULL name crashes. *)
Definition client_extras (op : pseudo_op_t) (path extra1 extra2 : option bytes) :
    stage (option bytes * option bytes) :=
  match op with
  | OP_RENAME =>
      match path, extra1 with
      | None, _ | _, None => ReturnNull
      | Some _, Some old => Go (Some old, None)
      end
  | OP_SET_XATTR | OP_CREATE_XATTR | OP_REPLACE_XATTR =>
      match extra1 with None => Crash | Some name => Go (Some name, extra2) end
  | OP_GET_XATTR | OP_REMOVE_XATTR =>
      match extra1 with None => Crash | Some name => Go (Some name, None) end
  | _ => Go (None, None)
  end.

(** [alloced_path] with room for [len] bytes; a failing [malloc] leaves it
    NULL. *)
Definition alloced_room (len : Z) (s : cstate) : cstate * stage bytes :=
  if alloced_len s <? len then
    match chunk len with
    | None => (with_alloced None 0 s, ReturnNull)
    | Some b => (with_alloced (Some b) len s, Go b)
    end
  else (s, match alloced_path s with None => Crash | Some b => Go b end).

Definition strips_slash (path : bytes) (pathlen : Z) : bool :=
  (2 <? pathlen) && bool_decide (char_at path (Z.to_nat (pathlen - 2)) = slash).

(** [memcpy(dst + off, src, n)] within both blocks. *)
Definition copy_bytes (off : Z) (src : bytes) (n : Z) (dst : bytes) : option bytes :=
  if n <=? Z.of_nat (length src) then memcpy_at (Z.to_nat off) (take (Z.to_nat n) src) dst else None.

(** [full_len] *)
Definition combine_length (pathlen : Z) (strip : bool) (extra1 : bytes) (extra2 : option bytes) : Z :=
  uint64 (Z.of_nat (length extra1) + 1 + pathlen - b2z strip
          + match extra2 with Some v => Z.of_nat (length v) + 1 | None => 0 end).

(** [path], NUL, [path_extra_1], NUL and, if there is one, [path_extra_2]
    and NUL; lengths are [size_t]. *)
Definition combine_paths (path : bytes) (pathlen : Z) (strip : bool) (extra1 : bytes) (extra2 : option bytes)
    (buf : bytes) : option bytes :=
  let full_len := combine_length pathlen strip extra1 extra2 in
  let len1 := Z.of_nat (length extra1) in
  let partial_len := uint64 (pathlen - 1 - b2z strip) in
  b ← copy_bytes 0 (path ++ [NUL]) partial_len buf;
  b ← poke (Z.to_nat partial_len) NUL b;
  b ← copy_bytes (partial_len + 1) (extra1 ++ [NUL]) len1 b;
  b ← poke (Z.to_nat (partial_len + len1 + 1)) NUL b;
  b ← match extra2 with
      | Some v => copy_bytes (partial_len + len1 + 2) v (Z.of_nat (length v)) b
      | None => Some b
      end;
  poke (Z.to_nat (full_len - 1)) NUL b.

(** The path's memory and length as they go into the message. *)
Definition client_build (path extra1 extra2 : option bytes) (s : cstate) : cstate * stage (bytes * Z) :=
  let p := default [] path in
  let pathlen := match path with Some p => Z.of_nat (length p) + 1 | None => 0 end in
  let strip := strips_slash p pathlen in
  match extra1 with
  | Some e1 =>
      let full_len := combine_length pathlen strip e1 extra2 in
      match alloced_room full_len s with
      | (s, Go buf) =>
          match combine_paths p pathlen strip e1 extra2 buf with
          | Some b => (with_alloced (Some b) (alloced_len s) s, Go (b, full_len))
          | None => (s, Crash)
          end
      | (s, Crash) => (s, Crash)
      | (s, ReturnNull) => (s, ReturnNull)
      end
  | None =>
      if strip then
        match alloced_room pathlen s with
        | (s, Go buf) =>
            match b ← copy_bytes 0 (p ++ [NUL]) pathlen buf; poke (Z.to_nat (pathlen - 2)) NUL b with
            | Some b => (with_alloced (Some b) (alloced_len s) s, Go (b, pathlen))
            | None => (s, Crash)
            end
        | (s, Crash) => (s, Crash)
        | (s, ReturnNull) => (s, ReturnNull)
        end
      else (s, Go (p ++ [NUL], pathlen))
  end.

(** *** The message *)

Definition client_message (op : pseudo_op_t) (access fd : Z) (buf : option statbuf) : pseudo_msg_t :=
  let m := default empty_msg (pseudo_msg_stat (Some (set_type PSEUDO_MSG_OP empty_msg)) buf) in
  set_client getpid (set_result RESULT_NONE (set_access access (set_fd fd (set_op op (set_type PSEUDO_MSG_OP m))))).

(** *** What the client does itself *)

(** A descriptor of our own is about to be closed: keep a copy.  The two
    password files are reopened on theirs. *)
Definition client_keep_fd (fd : Z) (s : cstate) : cstate :=
  match c_fds s with
  | mkFds cn db px ls pw gr =>
      let '(copy, s) := pseudo_fd fd false s in
      if fd =? cn then with_fds (mkFds copy db px ls pw gr) s
      else if fd =? db then with_fds (mkFds cn copy px ls pw gr) s
      else if fd =? px then with_fds (mkFds cn db copy ls pw gr) s
      else if fd =? ls then with_fds (mkFds cn db px copy pw gr) s
      else if fd =? pw then event (CloseFd fd) (with_fds (mkFds cn db px ls copy gr) s)
      else if fd =? gr then event (CloseFd fd) (with_fds (mkFds cn db px ls pw copy) s)
      else s
  end.

Definition client_close (fd : Z) (s : cstate) : cstate :=
  let s := if 0 <=? fd then client_keep_fd fd s else s in
  with_paths (client_op_close fd (c_paths s)) s.

(** [startfd], past the descriptors of our own. *)
Definition above (x startfd : Z) : Z := if startfd <? x then x + 1 else startfd.

Definition closefrom_start (f : client_fds) (fd : Z) : Z :=
  above (connect_fd f) (above (pseudo_grp_fd f) (above (pseudo_pwd_fd f)
    (above (pseudo_localstate_dir_fd f) (above (pseudo_util_debug_fd f) fd)))).

(** Those the loop leaves open. *)
Definition closefrom_spares (f : client_fds) (i : Z) : bool :=
  (i =? pseudo_util_debug_fd f) || (i =? pseudo_localstate_dir_fd f) || (i =? pseudo_pwd_fd f)
  || (i =? pseudo_grp_fd f) || (i =? connect_fd f).

(** [n] descriptors from [i] up. *)
Fixpoint closefrom_loop (n : nat) (i : Z) (s : cstate) : cstate :=
  match n with
  | O => s
  | S n =>
      let s := if closefrom_spares (c_fds s) i then s
               else event (CloseFd i) (with_paths (pseudo_client_close i (c_paths s)) s) in
      closefrom_loop n (i + 1) s
  end.

Definition client_closefrom (fd : Z) (s : cstate) : cstate * Z :=
  let startfd := closefrom_start (c_fds s) fd in
  let s := closefrom_loop (Z.to_nat (startfd - fd)) fd s in
  (with_paths (pseudo_client_closefrom startfd (c_paths s)) s, startfd).

Definition with_ids (s : cstate) (m : pseudo_msg_t) : pseudo_msg_t :=
  set_gid (pseudo_fgid s) (set_uid (pseudo_fuid s) m).

(** The operations that go to the server as they are. *)
Definition plain_request (op : pseudo_op_t) : bool :=
  match op with
  | OP_CHOWN | OP_FCHOWN | OP_FSTAT | OP_LINK | OP_STAT | OP_CANCEL_UNLINK | OP_MAY_UNLINK
  | OP_GET_XATTR | OP_LIST_XATTR | OP_SET_XATTR | OP_REMOVE_XATTR => true
  | _ => false
  end.

(** The [switch]: the state, the message, whether to ask the server, and the
    result if there is one already.  [path] is a C string. *)
Definition client_switch (op : pseudo_op_t) (fd dirfd : Z) (path : bytes) (extra1 : option bytes)
    (m : pseudo_msg_t) (s : cstate) : cstate * pseudo_msg_t * bool * option pseudo_msg_t :=
  match op with
  | OP_CHDIR => (with_paths (pseudo_client_getcwd real_getcwd (c_paths s)).1 s, m, false, None)
  | OP_CHROOT => (with_paths (pseudo_client_chroot path (c_paths s)) s, m, false, Some m)
  | OP_OPEN => (with_paths (pseudo_client_path fd (Some path) (c_paths s)) s, m, pseudo_client_logging s, None)
  | OP_EXEC => (s, m, pseudo_client_logging s, None)
  | OP_CLOSEFROM =>
      let '(s, startfd) := client_closefrom fd s in
      let m := set_fd startfd m in
      (s, m, false, Some m)
  | OP_CLOSE => (client_close fd s, m, false, None)
  | OP_DUP => (with_paths (client_op_dup fd dirfd (c_paths s)) s, m, false, None)
  | OP_UNLINK | OP_DID_UNLINK => (with_paths (pseudo_client_unlinked_path path (c_paths s)) s, m, true, None)
  | OP_CHMOD | OP_CREAT | OP_FCHMOD | OP_MKDIR | OP_MKNOD | OP_SYMLINK => (s, with_ids s m, true, None)
  | OP_RENAME =>
      (with_paths (pseudo_client_rename_path (default [] extra1) path (c_paths s)) s, m, true, None)
  | _ => (s, m, plain_request op, None)
  end.

(** A request and what its answer means. *)
Definition client_ask (world : nat -> attempt) (m : pseudo_msg_t) (pathlen : Z) (path : bytes) (s : cstate) :
    option (cstate * reply) :=
  let m := if pseudo_op_wait (m_op m) =? 0 then set_type PSEUDO_MSG_FASTOP m else m in
  if pseudo_local_only s then Some (s, NoReply)
  else
    '(s, r) ← pseudo_client_request world m pathlen path s;
    Some (s, match r with
             | Reply result => if m_result (hdr result) =? RESULT_ABORT then Aborted else r
             | _ => r
             end).

Definition pseudo_client_op (world : nat -> attempt) (op : pseudo_op_t) (access fd dirfd : Z)
    (path : option bytes) (buf : option statbuf) (extra1 extra2 : option bytes) (s : cstate) :
    option (cstate * reply) :=
  let s := with_sent true s in
  let path := client_path_arg s fd path in
  if negb (always_made op) && pseudo_client_ignore_path_chroot (c_paths s) ignore_paths path false then
    Some (client_ignored op fd (default [] path) s, NoReply)
  else
    match client_extras op path extra1 extra2 with
    | Crash => None
    | ReturnNull => Some (s, NoReply)
    | Go (extra1, extra2) =>
        match client_build path extra1 extra2 s with
        | (_, Crash) => None
        | (s, ReturnNull) => Some (s, NoReply)
        | (s, Go (path, pathlen)) =>
            let m := client_message op access fd buf in
            let '(s, m, do_request, result) := client_switch op fd dirfd (c_str path) extra1 m s in
            match result with
            | Some m => Some (s, Reply m)
            | None => if do_request then client_ask world m pathlen path s else Some (s, NoReply)
            end
        end
    end.

(** *** [close] and [closefrom] *)

Definition wrap_close (world : nat -> attempt) (fd : Z) (s : cstate) : option cstate :=
  '(s, _) ← pseudo_client_op world OP_CLOSE 0 fd (-1) None None None None s;
  Some (event (CloseFd fd) s).

(** The descriptor [closefrom] gets from the operation; everything from it
    up is closed by the kernel. *)
Definition wrap_closefrom (world : nat -> attempt) (fd : Z) (s : cstate) : option (cstate * Z) :=
  '(s, r) ← pseudo_client_op world OP_CLOSEFROM 0 fd (-1) None None None None s;
  match r with
  | Reply m => Some (s, m_fd (hdr m))
  | _ => None                            (* msg->fd of a NULL *)
  end.
End ClientOp.
