(* ===== verification/ClientOpSpec.v ===== *)
(** What [pseudo_client_op] does: the buffer it puts two paths together in,
    no memory error on any operation that knows its path, the descriptors it
    protects, and which operations it never sends. *)

From stdpp Require Import base gmap list strings.
From Stdlib Require Import ZArith Lia Ascii.
From S2P Require Import Prelude Tables Modes Paths PathsSpec ClientPath ClientPathSpec Message ClientConn ClientConnSpec ClientOp.

Open Scope Z_scope.

(** *** The buffer of two paths *)

(** The path without its trailing slash, unless it is [/]. *)
Definition sent_path (p : bytes) : bytes :=
  if strips_slash p (Z.of_nat (length p) + 1) then take (length p - 1) p else p.

Definition value_part (extra2 : option bytes) : bytes := match extra2 with Some v => v ++ [NUL] | None => [] end.

(** path, NUL, name, NUL, value, NUL *)
Definition combined (p e1 : bytes) (extra2 : option bytes) : bytes :=
  sent_path p ++ NUL :: e1 ++ NUL :: value_part extra2.

Lemma strips_slash_long p n : strips_slash p n = true -> 2 < n.
Proof. unfold strips_slash. intros H. bool_facts. done. Qed.

Lemma sent_path_length p :
  Z.of_nat (length (sent_path p)) = Z.of_nat (length p) - b2z (strips_slash p (Z.of_nat (length p) + 1)).
Proof.
  unfold sent_path. destruct (strips_slash _ _) eqn:Hs; unfold b2z; [|lia].
  apply strips_slash_long in Hs. rewrite length_take. lia.
Qed.

Lemma sent_path_take p : take (length (sent_path p)) p = sent_path p.
Proof.
  pose proof (sent_path_length p) as Hl. unfold sent_path in *. destruct (strips_slash _ _); [|by apply take_ge].
  f_equal. unfold b2z in Hl. lia.
Qed.

Lemma combine_length_eq p e1 extra2 : Z.of_nat (length (combined p e1 extra2)) < 2 ^ 64 ->
  combine_length (Z.of_nat (length p) + 1) (strips_slash p (Z.of_nat (length p) + 1)) e1 extra2 =
    Z.of_nat (length (combined p e1 extra2)).
Proof.
  intros Hlt. pose proof (sent_path_length p) as Hl. unfold combined, value_part, combine_length in *.
  rewrite length_app in *. cbn [length] in *. rewrite length_app in *. cbn [length] in *.
  destruct extra2 as [v|]; cbn [length] in *; rewrite ?length_app in *; cbn [length] in *;
    rewrite wrap_unsigned_small by lia; lia.
Qed.

(** [memcpy] behind what has been written. *)
Lemma copy_bytes_app t src n junk off : off = Z.of_nat (length t) -> 0 <= n <= Z.of_nat (length src) ->
  n <= Z.of_nat (length junk) ->
  copy_bytes off src n (t ++ junk) = Some ((t ++ take (Z.to_nat n) src) ++ drop (Z.to_nat n) junk).
Proof.
  intros -> Hn Hj. unfold copy_bytes. rewrite (proj2 (Z.leb_le _ _)) by lia. rewrite Nat2Z.id.
  assert (length (take (Z.to_nat n) src) = Z.to_nat n) as Hl by (rewrite length_take; lia).
  rewrite memcpy_app by (rewrite Hl; lia). by rewrite Hl, app_assoc.
Qed.

Lemma poke_next t junk i : i = length t -> (0 < length junk)%nat ->
  poke i NUL (t ++ junk) = Some ((t ++ [NUL]) ++ drop 1 junk).
Proof.
  intros -> Hj. destruct junk as [|c junk]; [simpl in Hj; lia|]. rewrite poke_app, <- app_assoc. done.
Qed.

Lemma poke_same t junk i : S i = length t -> last t = Some NUL -> poke i NUL (t ++ junk) = Some (t ++ junk).
Proof.
  intros Hi Hl. apply last_Some in Hl as [t' ->]. rewrite length_app in Hi. simpl in Hi.
  rewrite <- app_assoc. cbn [app]. apply poke_at. lia.
Qed.

Lemma combine_paths_exact p e1 extra2 buf : Z.of_nat (length (combined p e1 extra2)) < 2 ^ 64 ->
  (length (combined p e1 extra2) <= length buf)%nat ->
  combine_paths p (Z.of_nat (length p) + 1) (strips_slash p (Z.of_nat (length p) + 1)) e1 extra2 buf =
    Some (combined p e1 extra2 ++ drop (length (combined p e1 extra2)) buf).
Proof.
  intros Hlt Hbuf. unfold combine_paths. cbv zeta. rewrite combine_length_eq by done.
  pose proof (sent_path_length p) as Hl. pose proof (length_app (sent_path p) (NUL :: e1 ++ NUL :: value_part extra2)) as Hc.
  fold (combined p e1 extra2) in Hc. cbn [length] in Hc. rewrite length_app in Hc. cbn [length] in Hc.
  replace (uint64 (Z.of_nat (length p) + 1 - 1 - b2z _)) with (Z.of_nat (length (sent_path p)))
    by (rewrite wrap_unsigned_small; unfold b2z in *; lia).
  rewrite (copy_bytes_app [] (p ++ [NUL]) _ buf 0) by (rewrite ?length_app; simpl; unfold b2z in *; destruct (strips_slash _ _); lia).
  cbn [mbind option_bind app]. rewrite Nat2Z.id.
  assert (take (length (sent_path p)) (p ++ [NUL]) = sent_path p) as ->.
  { rewrite take_app_le by (unfold b2z in *; destruct (strips_slash _ _); lia). apply sent_path_take. }
  rewrite poke_next by (rewrite ?length_drop; lia). cbn [mbind option_bind].
  rewrite (copy_bytes_app _ (e1 ++ [NUL])) by (rewrite ?length_app, ?length_drop; simpl; lia).
  cbn [mbind option_bind]. rewrite Nat2Z.id, take_app_length.
  rewrite poke_next by (rewrite ?length_app, ?length_drop; simpl; lia). cbn [mbind option_bind].
  set (t := ((sent_path p ++ [NUL]) ++ e1) ++ [NUL]).
  assert (length t = (length (sent_path p) + length e1 + 2)%nat) as Ht by (unfold t; rewrite !length_app; simpl; lia).
  assert (combined p e1 extra2 = t ++ value_part extra2) as Hcomb by (unfold combined, t; by rewrite <- !app_assoc).
  rewrite !drop_drop. destruct extra2 as [v|]; cbn [value_part] in *.
  - rewrite length_app in Hc. cbn [length] in Hc.
    rewrite copy_bytes_app by (rewrite ?length_drop; lia). cbn [mbind option_bind]. rewrite Nat2Z.id, firstn_all.
    rewrite poke_next by (rewrite ?length_app, ?length_drop; simpl; lia).
    rewrite Hcomb, !drop_drop. f_equal. rewrite <- !app_assoc. do 4 f_equal. rewrite !length_app. simpl. lia.
  - cbn [mbind option_bind]. rewrite Hcomb, app_nil_r. rewrite poke_same; [|lia|unfold t; by rewrite last_snoc].
    do 3 f_equal. cbn [length] in Hc. lia.
Qed.

(** *** Building the path *)

(** The bookkeeping of [alloced_path]. *)
Definition alloc_ok (s : cstate) : Prop :=
  match alloced_path s with
  | Some b => Z.of_nat (length b) = alloced_len s
  | None => alloced_len s = 0
  end.

Definition same_but_alloced (s s' : cstate) : Prop := s' = with_alloced (alloced_path s') (alloced_len s') s.

Lemma with_alloced_same b n (s : cstate) : same_but_alloced s (with_alloced b n s).
Proof. by destruct s. Qed.

Lemma alloced_of b n (s : cstate) : alloced_path (with_alloced b n s) = b /\ alloced_len (with_alloced b n s) = n.
Proof. by destruct s. Qed.

Lemma with_alloced_twice b n b' n' (s : cstate) : with_alloced b n (with_alloced b' n' s) = with_alloced b n s.
Proof. by destruct s. Qed.

Section Build.
Context {PM : PathMax} {M : Malloc} {ML : MallocLaws} {CE : ClientEnv} {CL : ClientEnvLaws CE}.
Implicit Types (s : cstate) (p : bytes).

Lemma room_spec len s : alloc_ok s -> 0 < len ->
  let '(s', r) := alloced_room len s in
  (r = ReturnNull /\ s' = with_alloced None 0 s /\ chunk len = None) \/
  exists b, r = Go b /\ len <= Z.of_nat (length b) /\ Z.of_nat (length b) = alloced_len s' /\ same_but_alloced s s'.
Proof.
  intros Ha Hlen. unfold alloced_room. destruct (Z.ltb_spec (alloced_len s) len) as [Hlt|Hge].
  - destruct (chunk len) as [b|] eqn:Hc; [right|by left]. apply chunk_size in Hc; [|lia].
    exists b. split; [done|]. split; [lia|]. destruct (alloced_of (Some b) len s) as [_ ->].
    split; [done|apply with_alloced_same].
  - unfold alloc_ok in Ha. destruct (alloced_path s) as [b|] eqn:Hb; [|lia].
    right. exists b. split; [done|]. split; [lia|]. split; [done|]. by destruct s.
Qed.

Lemma store_alloced b s s' : same_but_alloced s s' -> Z.of_nat (length b) = alloced_len s' ->
  let s2 := with_alloced (Some b) (alloced_len s') s' in alloc_ok s2 /\ same_but_alloced s s2.
Proof.
  intros Hs Hb. unfold alloc_ok, same_but_alloced. destruct (alloced_of (Some b) (alloced_len s') s') as [-> ->].
  split; [done|]. rewrite Hs. apply with_alloced_twice.
Qed.

Lemma failed_alloced s : alloc_ok (with_alloced None 0 s) /\ same_but_alloced s (with_alloced None 0 s).
Proof. split; [by destruct s|apply with_alloced_same]. Qed.

Lemma build_two p e1 extra2 s : alloc_ok s -> Z.of_nat (length (combined p e1 extra2)) < 2 ^ 64 ->
  let '(s', r) := client_build (Some p) (Some e1) extra2 s in
  alloc_ok s' /\ same_but_alloced s s' /\
  ((r = ReturnNull /\ exists n, chunk n = None) \/
   exists junk, r = Go (combined p e1 extra2 ++ junk, Z.of_nat (length (combined p e1 extra2)))).
Proof.
  intros Ha Hlt. unfold client_build. cbn [default from_option id]. rewrite combine_length_eq by done.
  pose proof (room_spec (Z.of_nat (length (combined p e1 extra2))) s Ha) as H.
  destruct (alloced_room _ s) as [s1 r]. destruct H as [(-> & -> & Hno)|(b & -> & Hb & Hlen & Hs)].
  { unfold combined. rewrite length_app. simpl. lia. }
  - destruct (failed_alloced s) as [? ?]. split; [done|]. split; [done|]. left. by eauto.
  - rewrite combine_paths_exact by (done || lia).
    destruct (store_alloced (combined p e1 extra2 ++ drop (length (combined p e1 extra2)) b) s s1 Hs) as [? ?].
    { rewrite length_app, length_drop. lia. }
    split; [done|]. split; [done|]. right. by eexists.
Qed.

Lemma char_at_take p i : (i < length p)%nat -> char_at p i = default NUL (p !! i).
Proof. done. Qed.

Lemma poke_slash p junk : (2 <= length p)%nat ->
  poke (length p - 1) NUL (p ++ junk) = Some (take (length p - 1) p ++ NUL :: junk).
Proof.
  intros Hl. destruct p as [|c p _] using rev_ind; [simpl in Hl; lia|].
  rewrite length_app in *. simpl in *. replace (length p + 1 - 1)%nat with (length p) by lia.
  rewrite take_app_length, <- app_assoc. apply poke_app.
Qed.

Lemma build_one (path : option bytes) s : alloc_ok s ->
  let '(s', r) := client_build path None None s in
  let p := default [] path in
  alloc_ok s' /\ same_but_alloced s s' /\
  ((r = ReturnNull /\ exists n, chunk n = None) \/
   exists junk, r = Go (sent_path p ++ NUL :: junk, match path with Some p => Z.of_nat (length p) + 1 | None => 0 end) /\
     (length p <= length (sent_path p ++ junk))%nat).
Proof.
  intros Ha. assert (same_but_alloced s s) as Hself by (by destruct s).
  destruct path as [p|]; cbn [default from_option id]; unfold client_build; cbn [default from_option id].
  2: { split; [done|]. split; [done|]. right. by exists []. }
  destruct (strips_slash p (Z.of_nat (length p) + 1)) eqn:Hst.
  - pose proof (strips_slash_long _ _ Hst) as Hlong.
    pose proof (room_spec (Z.of_nat (length p) + 1) s Ha) as H. destruct (alloced_room _ s) as [s1 r].
    destruct H as [(-> & -> & Hno)|(b & -> & Hb & Hlen & Hs)]; [lia| |].
    + destruct (failed_alloced s) as [? ?]. split; [done|]. split; [done|]. left. by eauto.
    + pose proof (copy_bytes_app [] (p ++ [NUL]) (Z.of_nat (length p) + 1) b 0 eq_refl) as Hcp.
      cbn [app] in Hcp. rewrite Hcp by (rewrite ?length_app; simpl; lia). clear Hcp. cbn [mbind option_bind].
      replace (Z.to_nat (Z.of_nat (length p) + 1)) with (length (p ++ [NUL])) by (rewrite length_app; simpl; lia).
      rewrite firstn_all, <- app_assoc. replace (Z.to_nat (Z.of_nat (length p) + 1 - 2)) with (length p - 1)%nat by lia.
      rewrite poke_slash by lia.
      assert (sent_path p = take (length p - 1) p) as -> by (unfold sent_path; by rewrite Hst).
      set (mem := take (length p - 1) p ++ NUL :: _).
      destruct (store_alloced mem s s1 Hs) as [? ?].
      { unfold mem. rewrite length_app, length_take. simpl. rewrite length_drop, length_app. simpl. lia. }
      split; [done|]. split; [done|]. right. eexists. split; [done|].
      rewrite length_app, length_take. simpl. lia.
  - split; [done|]. split; [done|]. right. exists []. unfold sent_path. rewrite Hst. rewrite app_nil_r. split; [done|lia].
Qed.
End Build.

(** *** The operation as a whole *)

(** What one operation may do to the rest of the client: nothing is sent. *)
Record quiet_step (s s' : cstate) : Prop := {
  quiet_rx : c_rx s' = c_rx s;
  quiet_alloced : alloced_path s' = alloced_path s /\ alloced_len s' = alloced_len s;
  quiet_sends : sends s' = sends s;
  quiet_local : pseudo_local_only s' = pseudo_local_only s
}.

#[export] Instance quiet_preorder : PreOrder quiet_step.
Proof.
  split; [by intros s|]. intros s1 s2 s3 [? [? ?] ? ?] [? [? ?] ? ?]. split; [congruence|split; congruence|congruence|congruence].
Qed.

Section Operation.
Context {PM : PathMax} {M : Malloc} {ML : MallocLaws} {CE : ClientEnv}.
Implicit Types (s : cstate).

Lemma quiet_paths c s : quiet_step s (with_paths c s).
Proof. by destruct s. Qed.
Lemma quiet_close fd s : quiet_step s (event (CloseFd fd) s).
Proof. by destruct s. Qed.
Lemma quiet_fds f s : quiet_step s (with_fds f s).
Proof. by destruct s. Qed.

Lemma keep_fd_quiet fd s : quiet_step s (client_keep_fd fd s).
Proof.
  unfold client_keep_fd. destruct (c_fds s). destruct (pseudo_fd fd false s) as [copy s1] eqn:Hp.
  assert (s1 = s) as -> by (unfold pseudo_fd in Hp; destruct (fd <? 0); by injection Hp).
  repeat case_match; solve [done | apply quiet_fds | etransitivity; [apply quiet_fds|apply quiet_close]].
Qed.

Lemma closefrom_loop_quiet n i s : quiet_step s (closefrom_loop n i s).
Proof.
  revert i s. induction n as [|n IH]; intros i s; [done|]. cbn [closefrom_loop]. cbv zeta.
  etransitivity; [|apply IH]. destruct (closefrom_spares _ _); [done|].
  etransitivity; [apply quiet_paths|apply quiet_close].
Qed.

Lemma switch_quiet op fd dirfd path extra1 m s : quiet_step s (client_switch op fd dirfd path extra1 m s).1.1.1.
Proof.
  destruct op; cbn [client_switch fst]; try done; try apply quiet_paths.
  - unfold client_close. etransitivity; [|apply quiet_paths]. destruct (0 <=? fd); [apply keep_fd_quiet|done].
  - unfold client_closefrom. cbn [fst]. etransitivity; [apply closefrom_loop_quiet|apply quiet_paths].
Qed.

Lemma quiet_alloc_ok s s' : quiet_step s s' -> alloc_ok s -> alloc_ok s'.
Proof. intros [_ [Ha Hl] _ _]. unfold alloc_ok. by rewrite Ha, Hl. Qed.
End Operation.

(** The operation has the paths it needs: the name of an attribute and some
    path of its file. *)
Definition has_paths (op : pseudo_op_t) (path extra1 : option bytes) : Prop :=
  match op with
  | OP_SET_XATTR | OP_CREATE_XATTR | OP_REPLACE_XATTR | OP_GET_XATTR | OP_REMOVE_XATTR => path <> None /\ extra1 <> None
  | _ => True
  end.

(** The strings fit into memory. *)
Definition sizes_ok (path extra1 extra2 : option bytes) : Prop :=
  Z.of_nat (length (default [] path) + length (default [] extra1) + length (default [] extra2) + 3) < 2 ^ 64.

Lemma combined_size p e1 extra2 : sizes_ok (Some p) (Some e1) extra2 -> Z.of_nat (length (combined p e1 extra2)) < 2 ^ 64.
Proof.
  unfold sizes_ok. cbn [default from_option id]. intros H. pose proof (sent_path_length p) as Hl.
  unfold b2z in Hl. assert (length (sent_path p) <= length p)%nat by (destruct (strips_slash _ _); lia).
  unfold combined, value_part. rewrite length_app. cbn [length]. rewrite length_app. cbn [length].
  destruct extra2 as [v|]; cbn [default from_option id length] in *; rewrite ?length_app; cbn [length]; lia.
Qed.

Section OperationResult.
Context {PM : PathMax} {M : Malloc} {ML : MallocLaws} {CE : ClientEnv} {CL : ClientEnvLaws CE}.
Implicit Types (s : cstate).

Lemma alloced_step s s1 : same_but_alloced s s1 -> alloc_ok s1 -> rx_ok (c_rx s) ->
  rx_ok (c_rx s1) /\ sends s1 = sends s.
Proof. intros -> _ Hr. by destruct s. Qed.

(** The paths are built, or there is no memory for them. *)
Lemma build_stage op path extra1 extra2 s : alloc_ok s -> rx_ok (c_rx s) -> has_paths op path extra1 -> sizes_ok path extra1 extra2 ->
  match client_extras op path extra1 extra2 with
  | Crash => False
  | ReturnNull => True
  | Go (e1, e2) =>
      let '(s1, r) := client_build path e1 e2 s in
      alloc_ok s1 /\ rx_ok (c_rx s1) /\ sends s1 = sends s /\ same_but_alloced s s1 /\
      match r with Crash => False | ReturnNull => True | Go (mem, len) => len <= Z.of_nat (length mem) end
  end.
Proof.
  intros Ha Hr Hp Hsz. destruct (client_extras op path extra1 extra2) as [| |[e1 e2]] eqn:He.
  - destruct op; try done; destruct path, extra1; naive_solver.
  - done.
  - destruct e1 as [e1|].
    + assert (exists p, path = Some p /\ extra1 = Some e1 /\ (e2 = extra2 \/ e2 = None)) as (p & -> & -> & He2)
        by (destruct op; try done; destruct path, extra1; naive_solver).
      pose proof (build_two p e1 e2 s Ha) as H. destruct (client_build _ _ _ _) as [s1 r].
      destruct H as (Ha1 & Hs1 & Hres).
      { apply combined_size. destruct He2 as [-> | ->]; [done|]. unfold sizes_ok in *. cbn [default from_option id] in *.
        destruct extra2; cbn [default from_option id length] in *; lia. }
      destruct (alloced_step s s1 Hs1 Ha1 Hr) as [? ?]. do 4 (split; [done|]).
      destruct Hres as [[-> _]|(junk & ->)]; [done|]. rewrite length_app. lia.
    + assert (e2 = None) as -> by (destruct op; try done; destruct path, extra1; naive_solver).
      pose proof (build_one path s Ha) as H. destruct (client_build _ _ _ _) as [s1 r]. destruct H as (Ha1 & Hs1 & Hres).
      destruct (alloced_step s s1 Hs1 Ha1 Hr) as [? ?]. do 4 (split; [done|]).
      destruct Hres as [[-> _]|(junk & -> & Hl)]; [done|]. rewrite length_app in *. simpl.
      destruct path; cbn [default from_option id length] in *; lia.
Qed.

Lemma ask_spec world m len path s : len <= Z.of_nat (length path) -> ping_fits -> (forall k, attempt_ok (world k)) ->
  rx_ok (c_rx s) -> alloc_ok s ->
  exists s' r, client_ask world m len path s = Some (s', r) /\ alloc_ok s' /\ rx_ok (c_rx s') /\ (sends s' <= sends s + 750)%nat.
Proof.
  intros Hlen Hfit Hw Hr Ha. unfold client_ask. cbv zeta. set (m' := if _ =? 0 then _ else m).
  destruct (pseudo_local_only s); [eexists _, _; split; [done|]; split; [done|]; split; [done|lia]|].
  destruct (request_loop_spec world m' len path Hlen Hfit PSEUDO_RETRIES 0 s Hw Hr) as (s' & r & Heq & Hl & Hr' & _).
  unfold pseudo_client_request. rewrite Heq. cbn [mbind option_bind]. eexists _, _. split; [done|].
  split; [|split; [done|apply (later_sends _ _ _ Hl)]]. destruct (later_frame _ _ _ Hl) as (_ & _ & Ha1 & Ha2 & _).
  unfold alloc_ok. by rewrite Ha1, Ha2.
Qed.

Lemma ignored_quiet op fd p s : quiet_step s (client_ignored op fd p s).
Proof. unfold client_ignored. destruct (bool_decide _); [apply quiet_paths|done]. Qed.
End OperationResult.

(** *** Descriptors above a bound *)

(** The five descriptors of pseudo's own that the code looks at. *)
Definition spared_fds (f : client_fds) : list Z :=
  [pseudo_util_debug_fd f; pseudo_localstate_dir_fd f; pseudo_pwd_fd f; pseudo_grp_fd f; connect_fd f].

Lemma spares_own f i : closefrom_spares f i = true <-> i ∈ spared_fds f.
Proof.
  unfold closefrom_spares, spared_fds. rewrite !orb_true_iff, !Z.eqb_eq, !elem_of_cons, elem_of_nil. tauto.
Qed.

Lemma above_ge y st : st <= above y st.
Proof. unfold above. destruct (Z.ltb_spec st y); lia. Qed.

Lemma above_lt x st : x <> st -> x < above x st.
Proof. unfold above. destruct (Z.ltb_spec st x); lia. Qed.

Lemma above_ne x y st : x <> st -> x <> y + 1 -> x <> above y st.
Proof. unfold above. by destruct (st <? y). Qed.

(** A descriptor of our own that neither is the bound nor follows another one
    of our own is below the descriptor the kernel closes from. *)
Lemma closefrom_start_above f fd x : x ∈ spared_fds f -> x <> fd -> (forall y, y ∈ spared_fds f -> x <> y + 1) ->
  fd <= closefrom_start f fd /\ x < closefrom_start f fd.
Proof.
  intros Hx Hne Hch. unfold closefrom_start.
  set (a := pseudo_util_debug_fd f). set (b := pseudo_localstate_dir_fd f). set (c := pseudo_pwd_fd f).
  set (d := pseudo_grp_fd f). set (e := connect_fd f).
  assert (x <> a + 1) as Na by (apply Hch; left).
  assert (x <> b + 1) as Nb by (apply Hch; right; left).
  assert (x <> c + 1) as Nc by (apply Hch; do 2 right; left).
  assert (x <> d + 1) as Nd by (apply Hch; do 3 right; left).
  assert (x <> e + 1) as Ne by (apply Hch; do 4 right; left).
  set (s1 := above a fd). set (s2 := above b s1). set (s3 := above c s2). set (s4 := above d s3).
  pose proof (above_ge a fd : fd <= s1). pose proof (above_ge b s1 : s1 <= s2). pose proof (above_ge c s2 : s2 <= s3).
  pose proof (above_ge d s3 : s3 <= s4). pose proof (above_ge e s4). split; [lia|].
  assert (x <> s1) as E1 by (by apply above_ne). assert (x <> s2) as E2 by (by apply above_ne).
  assert (x <> s3) as E3 by (by apply above_ne). assert (x <> s4) as E4 by (by apply above_ne).
  unfold spared_fds in Hx. fold a b c d e in Hx. rewrite !elem_of_cons, elem_of_nil in Hx.
  destruct Hx as [Hx|[Hx|[Hx|[Hx|[Hx|[]]]]]]; rewrite Hx in Hne, E1, E2, E3, E4 |- *.
  - pose proof (above_lt a fd Hne : a < s1). lia.
  - pose proof (above_lt b s1 E1 : b < s2). lia.
  - pose proof (above_lt c s2 E2 : c < s3). lia.
  - pose proof (above_lt d s3 E3 : d < s4). lia.
  - by apply above_lt.
Qed.

Lemma close_length fd c : length (fd_paths (pseudo_client_close fd c)) = length (fd_paths c).
Proof.
  unfold pseudo_client_close. destruct (_ || _); [done|]. destruct (_ <? _); cbn [set_linked_fd_paths set_fd_paths fd_paths];
    unfold clear_entry; by rewrite length_insert.
Qed.

Lemma close_entries i c fd : entry (fd_paths (pseudo_client_close i c)) fd =
  if decide (fd = i) then None else entry (fd_paths c) fd.
Proof.
  destruct (decide (0 <= i)); [by apply closed_entries|]. unfold pseudo_client_close. rewrite (proj2 (Z.ltb_lt _ _)) by lia.
  cbn [orb]. case_decide; [|done]. unfold entry. destruct (Z.leb_spec 0 fd); [lia|done].
Qed.

Lemma closefrom_entries st c fd : 0 <= st ->
  entry (fd_paths (pseudo_client_closefrom st c)) fd = if decide (st <= fd) then None else entry (fd_paths c) fd.
Proof.
  intros Hst. unfold pseudo_client_closefrom. rewrite (proj2 (Z.ltb_ge _ _)) by done. cbn [orb].
  destruct (Z.leb_spec (Z.of_nat (length (fd_paths c))) st).
  { case_decide; [|done]. unfold entry. destruct (Z.ltb_spec fd (Z.of_nat (length (fd_paths c)))); [lia|by rewrite andb_false_r]. }
  set (n := (length (fd_paths c) - Z.to_nat st)%nat).
  pose proof (for_fds_ind (fun j c' => length (fd_paths c') = length (fd_paths c) /\
    forall fd, entry (fd_paths c') fd = if decide (st <= fd < j) then None else entry (fd_paths c) fd)
    n st pseudo_client_close c) as H1.
  destruct H1 as [Hl H1].
  - split; [done|]. intros fd'. by rewrite decide_False by lia.
  - intros i c' Hi [Hl Hc']. rewrite close_length. split; [done|]. intros fd'. rewrite close_entries, Hc'.
    repeat case_decide; try done; lia.
  - rewrite H1. destruct (decide (st <= fd < st + Z.of_nat n)) as [Hin|Hout].
    + by rewrite decide_True by lia.
    + case_decide; [|done]. unfold entry. destruct (Z.ltb_spec fd (Z.of_nat (length (fd_paths c)))); [lia|by rewrite andb_false_r].
Qed.

(** The loop below the bound. *)
Lemma closefrom_loop_spec n i s :
  c_fds (closefrom_loop n i s) = c_fds s /\
  (forall x, CloseFd x ∈ c_events (closefrom_loop n i s) <->
     CloseFd x ∈ c_events s \/ (i <= x < i + Z.of_nat n /\ x ∉ spared_fds (c_fds s))) /\
  (forall fd, entry (fd_paths (c_paths (closefrom_loop n i s))) fd =
     if decide (i <= fd < i + Z.of_nat n /\ fd ∉ spared_fds (c_fds s)) then None else entry (fd_paths (c_paths s)) fd).
Proof.
  revert i s. induction n as [|n IH]; intros i s; cbn [closefrom_loop]; cbv zeta.
  { split; [done|]. split; [intros x; naive_solver lia|]. intros fd. by rewrite decide_False by lia. }
  destruct (closefrom_spares (c_fds s) i) eqn:Hsp.
  - apply spares_own in Hsp. destruct (IH (i + 1) s) as (H1 & H2 & H3). split; [done|]. split.
    + intros x. rewrite H2. split; intros [?|[Hx Ho]]; [by left|right; split; [lia|done]|by left|].
      right. split; [|done]. assert (x <> i) by (by intros ->). lia.
    + intros fd. rewrite H3. apply decide_ext. split; intros [Hx Ho]; (split; [|done]); [lia|].
      assert (fd <> i) by (by intros ->). lia.
  - assert (i ∉ spared_fds (c_fds s)) as Hno by (intros Hin; apply spares_own in Hin; congruence).
    set (s1 := event (CloseFd i) (with_paths (pseudo_client_close i (c_paths s)) s)).
    assert (c_fds s1 = c_fds s /\ c_events s1 = CloseFd i :: c_events s /\ c_paths s1 = pseudo_client_close i (c_paths s))
      as (Hf & He & Hp) by (by destruct s).
    destruct (IH (i + 1) s1) as (H1 & H2 & H3). rewrite Hf in *. split; [done|]. split.
    + intros x. rewrite H2, He, elem_of_cons. split.
      * intros [[[= ->]|?]|[Hx Ho]]; [right; split; [lia|done]|by left|right; split; [lia|done]].
      * intros [?|[Hx Ho]]; [by left; right|]. destruct (decide (x = i)) as [->|]; [by left; left|]. right. split; [lia|done].
    + intros fd. rewrite H3, Hp, close_entries. destruct (decide (fd = i)) as [->|Hne].
      * rewrite decide_False by lia. rewrite decide_True by (split; [lia|done]). done.
      * apply decide_ext. split; intros [Hx Ho]; (split; [lia|done]).
Qed.

Lemma wrap_closefrom_spec {PM : PathMax} {M : Malloc} {CE : ClientEnv} {CL : ClientEnvLaws CE} world fd (s : cstate) :
  alloc_ok s -> (forall n, chunk n <> None) ->
  exists s1, same_but_alloced s s1 /\
    wrap_closefrom world fd s = Some (with_sent true (client_closefrom fd s1).1, closefrom_start (c_fds s) fd).
Proof.
  intros Ha Hm. unfold wrap_closefrom, pseudo_client_op. cbv zeta. cbn [always_made negb andb client_extras].
  set (s0 := with_sent true s). assert (alloc_ok s0) as Ha0 by (by destruct s).
  pose proof (build_one (client_path_arg s0 fd None) s0 Ha0) as H. destruct (client_build _ _ _ _) as [s2 r].
  destruct H as (_ & Hs2 & [[_ [n Hn]]|(junk & -> & _)]); [by destruct (Hm n)|].
  exists (with_alloced (alloced_path s2) (alloced_len s2) s). split.
  { unfold same_but_alloced. destruct (alloced_of (alloced_path s2) (alloced_len s2) s) as [-> ->]. done. }
  cbn [client_switch]. rewrite Hs2. destruct (alloced_of (alloced_path s2) (alloced_len s2) s0) as [-> ->].
  unfold client_closefrom. cbn [fst mbind option_bind].
  assert (forall b n (t : cstate), c_fds (with_alloced b n t) = c_fds t /\ c_fds (with_sent true t) = c_fds t) as Hf by (by intros ? ? []).
  unfold s0. rewrite !(proj1 (Hf _ _ _)), (proj2 (Hf None 0 s)). f_equal. f_equal.
    assert (forall k i b n (t : cstate), closefrom_loop k i (with_alloced b n (with_sent true t)) =
      with_sent true (closefrom_loop k i (with_alloced b n t))) as ->.
    { intros k. induction k as [|k IH]; intros i b n t; [by destruct t|]. cbn [closefrom_loop]. cbv zeta.
      assert (c_fds (with_alloced b n (with_sent true t)) = c_fds (with_alloced b n t)) as -> by (by destruct t).
      destruct (closefrom_spares _ i); [apply IH|].
      assert (event (CloseFd i) (with_paths (pseudo_client_close i (c_paths (with_alloced b n (with_sent true t))))
        (with_alloced b n (with_sent true t))) = with_alloced b n (with_sent true
          (event (CloseFd i) (with_paths (pseudo_client_close i (c_paths t)) t)))) as -> by (by destruct t).
      assert (event (CloseFd i) (with_paths (pseudo_client_close i (c_paths (with_alloced b n t))) (with_alloced b n t)) =
        with_alloced b n (event (CloseFd i) (with_paths (pseudo_client_close i (c_paths t)) t))) as -> by (by destruct t).
      apply IH. }
    by destruct (closefrom_loop _ _ _).
Qed.

(** ** Properties *)


(** C38: an operation on an attribute of a descriptor whose path the client does
    not know ends in a memory error: the length of the missing path wraps to
    2^64 - 1 and so many bytes are copied, although the comment above the code
    promises an empty path for this case. *)
Theorem fd_xattr_without_path_overruns {PM : PathMax} {M : Malloc} {CE : ClientEnv} {CL : ClientEnvLaws CE}
    world op access fd dirfd buf name extra2 (s : cstate) :
  match op with OP_SET_XATTR | OP_CREATE_XATTR | OP_REPLACE_XATTR | OP_GET_XATTR | OP_REMOVE_XATTR => True | _ => False end ->
  client_path_arg s fd None = None -> alloc_ok s -> (forall n, chunk n <> None) ->
  pseudo_client_op world op access fd dirfd None buf (Some name) extra2 s = None.
Proof.
  intros Hop Hp Ha Hm. unfold pseudo_client_op. cbv zeta. set (s0 := with_sent true s).
  assert (client_path_arg s0 fd None = client_path_arg s fd None) as -> by (by destruct s). rewrite Hp.
  assert (forall e2, (client_build None (Some name) e2 s0).2 = Crash) as Hcrash.
  { intros e2. unfold client_build. cbn [default from_option id]. set (len := combine_length _ _ _ _).
    unfold alloced_room. destruct (alloced_len s0 <? len).
    - destruct (chunk len) as [b|] eqn:Hc; [|by destruct (Hm len)]. done.
    - destruct (alloced_path s0); done. }
  destruct op; try done; cbn [always_made negb andb pseudo_client_ignore_path_chroot client_extras];
    match goal with |- context [client_build None (Some name) ?e s0] => specialize (Hcrash e);
      destruct (client_build None (Some name) e s0) as [? r]; cbn in Hcrash; by subst end.
Qed.

(** The operations that create an attribute or replace one are never sent
    to the server, although it handles them: they are missing from the list of
    operations of [pseudo_client_op] and answered with NULL. *)
Theorem create_replace_xattr_never_sent {PM : PathMax} {M : Malloc} {CE : ClientEnv}
    world op access fd dirfd path buf extra1 extra2 (s s' : cstate) r :
  op = OP_CREATE_XATTR \/ op = OP_REPLACE_XATTR ->
  pseudo_client_op world op access fd dirfd path buf extra1 extra2 s = Some (s', r) ->
  r = NoReply /\ c_events s' = c_events s.
Proof.
  intros Hop. unfold pseudo_client_op. cbv zeta. set (s0 := with_sent true s). set (p := client_path_arg s0 fd path).
  assert (c_events s0 = c_events s) as Hs0 by (by destruct s).
  assert (forall e1 e2, c_events (client_build p e1 e2 s0).1 = c_events s) as Hb.
  { intros e1 e2. rewrite <- Hs0. clear. unfold client_build. assert (forall b n (t : cstate), c_events (with_alloced b n t) = c_events t) as H by (by intros ? ? []).
    assert (forall len, c_events (alloced_room len s0).1 = c_events s0) as Hroom
      by (intros len; unfold alloced_room; destruct (_ <? _); [destruct (chunk len)|]; cbn [fst]; by rewrite ?H).
    destruct e1 as [e1|]; [|destruct (strips_slash _ _); [|done]]; cbv zeta; match goal with |- context [alloced_room ?l s0] => specialize (Hroom l) end;
      destruct (alloced_room _ s0) as [s1 [| |b]]; cbn [fst] in *; try done; case_match; cbn [fst]; by rewrite ?H. }
  destruct (negb _ && _).
  { intros [= <- <-]. split; [done|]. unfold client_ignored. by destruct Hop as [-> | ->]. }
  destruct (client_extras op p extra1 extra2) as [| |[e1 e2]]; [done|by intros [= <- <-]|].
  specialize (Hb e1 e2). destruct (client_build p e1 e2 s0) as [s1 [| |[mem len]]]; [done|by intros [= <- <-]|].
  cbn [fst] in Hb. destruct Hop as [-> | ->]; cbn [client_switch plain_request]; by intros [= <- <-].
Qed.

(** C30: [closefrom] forgets the paths of all descriptors from the bound up,
    closes those below the one it hands to the kernel, and leaves five of the
    descriptors of pseudo's own open, those of the debug file, the state
    directory, the passwd and group files and the connection, in both halves,
    unless one is the bound itself or comes right after another of the five:
    the comparison that moves the kernel's bound is strict, and if the
    connection to the server sits at the bound, or the state directory right
    behind the debug file, the kernel closes it.  The sixth descriptor of
    pseudo's own, that of the prefix directory, which a [close] would spare, is
    closed here or by the kernel like any descriptor of the program. *)
Theorem closefrom_spares_own {PM : PathMax} {M : Malloc} {CE : ClientEnv} {CL : ClientEnvLaws CE} world fd (s : cstate) :
  alloc_ok s -> (forall n, chunk n <> None) -> 0 <= fd ->
  exists s' start, wrap_closefrom world fd s = Some (s', start) /\
    (forall i, fd <= i -> i ∉ spared_fds (c_fds s) -> entry (fd_paths (c_paths s')) i = None) /\
    (forall i, fd <= i < start -> i ∉ spared_fds (c_fds s) -> CloseFd i ∈ c_events s') /\
    (forall x, x ∈ spared_fds (c_fds s) -> CloseFd x ∈ c_events s' -> CloseFd x ∈ c_events s) /\
    (forall x, x ∈ spared_fds (c_fds s) -> x <> fd -> (forall y, y ∈ spared_fds (c_fds s) -> x <> y + 1) -> x < start) /\
    (connect_fd (c_fds s) = fd -> (forall y, y ∈ spared_fds (c_fds s) -> y <= fd) -> start = connect_fd (c_fds s)) /\
    (let d := pseudo_prefix_dir_fd (c_fds s) in
     fd <= d -> d ∉ spared_fds (c_fds s) -> CloseFd d ∈ c_events s' \/ start <= d).
Proof.
  intros Ha Hm Hfd. destruct (wrap_closefrom_spec world fd s Ha Hm) as (s1 & Hs1 & ->).
  eexists _, _. split; [done|]. set (start := closefrom_start (c_fds s) fd).
  assert (c_fds s1 = c_fds s /\ c_events s1 = c_events s /\ c_paths s1 = c_paths s) as (Hf & He & Hp) by (rewrite Hs1; by destruct s).
  assert (fd <= start) as Hst.
  { unfold start, closefrom_start. repeat (etransitivity; [|apply above_ge]). done. }
  unfold client_closefrom. rewrite Hf. fold start. cbn [fst].
  destruct (closefrom_loop_spec (Z.to_nat (start - fd)) fd s1) as (_ & Hev & Hen).
  set (s2 := closefrom_loop _ fd s1) in *. rewrite Hf, He in Hev. rewrite Hf, Hp in Hen.
  assert (forall c (t : cstate), c_events (with_sent true (with_paths c t)) = c_events t /\ c_paths (with_sent true (with_paths c t)) = c) as Hw by (by intros ? []).
  rewrite (proj1 (Hw _ s2)), (proj2 (Hw _ s2)). split; [|split; [|split; [|split; [|split]]]].
  - intros i Hi Ho. rewrite closefrom_entries by lia. case_decide; [done|]. rewrite Hen, decide_True; [done|]. split; [lia|done].
  - intros i Hi Ho. apply Hev. right. split; [lia|done].
  - intros x Hx Hc. apply Hev in Hc as [Hc|[_ Hno]]; [done|]. by destruct Hno.
  - intros x Hx Hne Hch. by apply closefrom_start_above.
  - intros Hc Hle. unfold start, closefrom_start. assert (forall x, x <= fd -> above x fd = fd) as Hab
      by (intros x Hx; unfold above; by rewrite (proj2 (Z.ltb_ge _ _))).
    rewrite !Hab; [done|..]; apply Hle; unfold spared_fds; rewrite !elem_of_cons; auto 8.
  - cbv zeta. intros Hd Ho. destruct (decide (start <= pseudo_prefix_dir_fd (c_fds s))); [by right|]. left. apply Hev. right. split; [lia|done].
Qed.

(** ** Witnesses *)

#[local] Existing Instance sample_client_env.
#[local] Existing Instance pipe_path_max.
#[local] Existing Instance zero_malloc.

Definition any_stat : statbuf := mkStat 5 11 0x81a4 1 1000 100 0.


Lemma fd_xattr_without_path_overruns_witness :
  pseudo_client_op restarted_world OP_GET_XATTR 0 9 (-1) None (Some any_stat) (Some ($"user.a")) None connected_client = None.
Proof.
  apply (@fd_xattr_without_path_overruns pipe_path_max zero_malloc sample_client_env sample_client_env_laws
    restarted_world OP_GET_XATTR 0 9 (-1) (Some any_stat) ($"user.a") None connected_client); done.
Defined.

Lemma create_replace_xattr_never_sent_witness : exists s' r,
  pseudo_client_op restarted_world OP_CREATE_XATTR 0 (-1) (-1) (Some ($"/d/")) (Some any_stat) (Some ($"user.a")) (Some ($"v"))
    connected_client = Some (s', r) /\ r = NoReply.
Proof.
  destruct (pseudo_client_op restarted_world OP_CREATE_XATTR 0 (-1) (-1) (Some ($"/d/")) (Some any_stat) (Some ($"user.a")) (Some ($"v"))
    connected_client) as [[s' r]|] eqn:H; [|exfalso; vm_compute in H; discriminate].
  exists s', r. split; [reflexivity|].
  apply (@create_replace_xattr_never_sent pipe_path_max zero_malloc sample_client_env
    restarted_world OP_CREATE_XATTR 0 (-1) (-1) (Some ($"/d/")) (Some any_stat) (Some ($"user.a")) (Some ($"v")) connected_client s' r
    (or_introl eq_refl) H).
Defined.

(** The prefix directory is on descriptor 22. *)
Example prefix_directory_closed : exists s',
  wrap_closefrom restarted_world 21 connected_client = Some (s', 25) /\ CloseFd 22 ∈ c_events s'.
Proof. eexists. split; [vm_compute; reflexivity|]. right. left. Qed.

(** The state directory is on descriptor 24. *)
Lemma closefrom_spares_own_witness : exists s',
  wrap_closefrom restarted_world 23 connected_client = Some (s', 25) /\ ~ CloseFd 24 ∈ c_events s'.
Proof.
  destruct (@closefrom_spares_own pipe_path_max zero_malloc sample_client_env sample_client_env_laws restarted_world 23 connected_client)
    as (s' & start & H1 & _ & _ & H2 & _).
  - done.
  - done.
  - lia.
  - assert (start = 25) as -> by (assert (snd <$> wrap_closefrom restarted_world 23 connected_client = Some 25) as Hs
      by (vm_compute; reflexivity); rewrite H1 in Hs; injection Hs as ->; reflexivity).
    exists s'. split; [exact H1|]. intros Hc. specialize (H2 24). assert (24 ∈ spared_fds (c_fds connected_client)) as Hin
      by (right; left). specialize (H2 Hin Hc). by apply elem_of_nil in H2.
Defined.
