(* ===== verification/Io.v ===== *)
(** What a wrapper works with: the kernel's system calls, [errno], and the
    client's [pseudo_client_op], as interfaces.  A wrapper is a function on
    this state; [None] is a memory error. *)

From stdpp Require Import base list option strings.
From Stdlib Require Import ZArith Lia Ascii.
From S2P Require Import Prelude Tables Message.

Open Scope Z_scope.

Definition AT_FDCWD : Z := -100.
Definition AT_SYMLINK_NOFOLLOW : Z := 0x100.
Definition AT_REMOVEDIR : Z := 0x200.
Definition AT_SYMLINK_FOLLOW : Z := 0x400.
Definition O_CREAT : Z := 0x40.
Definition O_EXCL : Z := 0x80.
Definition O_NONBLOCK : Z := 0x800.
Definition O_NOFOLLOW : Z := 0x20000.
Definition O_TMPFILE : Z := 0x410000.
Definition ENOENT : Z := 2.
Definition EACCES : Z := 13.
Definition EEXIST : Z := 17.
Definition EINVAL : Z := 22.
Definition EFAULT : Z := 14.
Definition EPERM : Z := 1.
Definition X_OK : Z := 1.

(** A system call that returns an [int]: the new state, the value, and [errno]
    if the call sets it. *)
Abbreviation syscall K := (K -> K * Z * option Z).

(** The calls the wrappers make; [stack_stat] is what an uninitialised
    [struct stat] holds. *)
Class Kernel (K : Type) := {
  sys_fstatat : Z -> bytes -> Z -> K -> option statbuf * option Z;
  sys_fstat : Z -> K -> option statbuf * option Z;
  sys_openat : Z -> bytes -> Z -> Z -> syscall K;
  sys_close : Z -> syscall K;
  sys_fchmod : Z -> Z -> syscall K;
  sys_fchmodat : Z -> bytes -> Z -> Z -> syscall K;
  sys_mkdirat : Z -> bytes -> Z -> syscall K;
  sys_mkfifoat : Z -> bytes -> Z -> syscall K;
  sys_symlinkat : bytes -> Z -> bytes -> syscall K;
  sys_unlinkat : Z -> bytes -> Z -> syscall K;
  sys_rmdir : bytes -> syscall K;
  sys_renameat : Z -> bytes -> Z -> bytes -> syscall K;
  sys_umask : Z -> syscall K;
  stack_stat : statbuf
}.

(** The client: [pseudo_client_op] with its arguments in order. *)
Class Session (S : Type) :=
  client_op : pseudo_op_t -> Z -> Z -> Z -> option bytes -> option statbuf -> option bytes -> option bytes ->
    S -> option (S * option pseudo_msg_t).

(** What the client makes of a path: [pseudo_root_path] with or without
    AT_SYMLINK_NOFOLLOW, and [pseudo_client_ignore_path]. *)
Class PathView (S : Type) := {
  root_path : S -> Z -> bytes -> bool -> option bytes;
  path_ignored : S -> bytes -> bool
}.

Record world (K S : Type) := mkWorld {
  w_kernel : K;
  w_errno : Z;
  w_session : S;
  pseudo_umask : Z;
  pseudo_chroot : option bytes;
  pseudo_nosymlinkexp : bool
}.
Arguments mkWorld {K S}.
Arguments w_kernel {K S}.
Arguments w_errno {K S}.
Arguments w_session {K S}.
Arguments pseudo_umask {K S}.
Arguments pseudo_chroot {K S}.
Arguments pseudo_nosymlinkexp {K S}.

Definition io (K S A : Type) : Type := world K S -> option (world K S * A).

#[export] Instance io_ret {K S} : MRet (io K S) := fun A a w => Some (w, a).
#[export] Instance io_bind {K S} : MBind (io K S) := fun A B f m w =>
  match m w with Some (w, a) => f a w | None => None end.

Section Io.
Context {K S : Type} {KE : Kernel K} {SE : Session S}.

Definition real (f : syscall K) : io K S Z := fun w =>
  let '(k, rc, e) := f (w_kernel w) in
  Some (mkWorld k (default (w_errno w) e) (w_session w) (pseudo_umask w) (pseudo_chroot w) (pseudo_nosymlinkexp w), rc).

(** The buffer, [None] for -1. *)
Definition base_stat_call (f : K -> option statbuf * option Z) : io K S (option statbuf) := fun w =>
  let '(b, e) := f (w_kernel w) in
  Some (mkWorld (w_kernel w) (default (w_errno w) e) (w_session w) (pseudo_umask w) (pseudo_chroot w) (pseudo_nosymlinkexp w), b).

Definition base_fstatat (dirfd : Z) (path : bytes) (flags : Z) : io K S (option statbuf) :=
  base_stat_call (sys_fstatat dirfd path flags).
Definition base_stat (path : bytes) : io K S (option statbuf) := base_fstatat AT_FDCWD path 0.
Definition base_lstat (path : bytes) : io K S (option statbuf) := base_fstatat AT_FDCWD path AT_SYMLINK_NOFOLLOW.
Definition base_fstat (fd : Z) : io K S (option statbuf) := base_stat_call (sys_fstat fd).

Definition ask (op : pseudo_op_t) (access fd dirfd : Z) (path : option bytes) (buf : option statbuf)
    (extra1 extra2 : option bytes) : io K S (option pseudo_msg_t) := fun w =>
  match client_op op access fd dirfd path buf extra1 extra2 (w_session w) with
  | Some (s, r) =>
      Some (mkWorld (w_kernel w) (w_errno w) s (pseudo_umask w) (pseudo_chroot w) (pseudo_nosymlinkexp w), r)
  | None => None
  end.

(** [pseudo_client_op] without further arguments. *)
Definition tell (op : pseudo_op_t) (access fd dirfd : Z) (path : option bytes) (buf : option statbuf) :
    io K S (option pseudo_msg_t) := ask op access fd dirfd path buf None None.

Definition get_errno : io K S Z := fun w => Some (w, w_errno w).
Definition set_errno (e : Z) : io K S unit := fun w =>
  Some (mkWorld (w_kernel w) e (w_session w) (pseudo_umask w) (pseudo_chroot w) (pseudo_nosymlinkexp w), tt).
Definition get_umask : io K S Z := fun w => Some (w, pseudo_umask w).
Definition set_umask (m : Z) : io K S unit := fun w =>
  Some (mkWorld (w_kernel w) (w_errno w) (w_session w) m (pseudo_chroot w) (pseudo_nosymlinkexp w), tt).
Definition get_chroot : io K S (option bytes * bool) := fun w => Some (w, (pseudo_chroot w, pseudo_nosymlinkexp w)).

(** [msg && msg->result == RESULT_SUCCEED] *)
Definition succeeded (msg : option pseudo_msg_t) : bool :=
  match msg with Some m => m_result (hdr m) =? RESULT_SUCCEED | None => false end.
End Io.

Definition set_st_mode v (b : statbuf) : statbuf :=
  mkStat (st_dev b) (st_ino b) v (st_nlink b) (st_uid b) (st_gid b) (st_rdev b).
Definition set_st_owner u g (b : statbuf) : statbuf :=
  mkStat (st_dev b) (st_ino b) (st_mode b) (st_nlink b) u g (st_rdev b).
Definition set_st_rdev v (b : statbuf) : statbuf :=
  mkStat (st_dev b) (st_ino b) (st_mode b) (st_nlink b) (st_uid b) (st_gid b) v.
Definition set_st_inode d i (b : statbuf) : statbuf :=
  mkStat d i (st_mode b) (st_nlink b) (st_uid b) (st_gid b) (st_rdev b).
