(* ===== verification/Wrappers.v ===== *)
(** The wrappers of the system calls on files and directories
    ([ports/unix/guts], [ports/linux/guts]): the real call on the real file
    system, and what the server is told and asked.

    The paths are those the generated part of a wrapper passes on, canonical
    and inside the changed root; the build has the [*at] functions; [struct
    stat] is the 64-bit one. *)

From stdpp Require Import base list option strings.
From Stdlib Require Import ZArith Lia Ascii.
From S2P Require Import Prelude Tables Modes Message Io.

Open Scope Z_scope.

Definition _STAT_VER : Z := 1.

Section Wrappers.
Context {K S : Type} {KE : Kernel K} {SE : Session S}.

(** *** Reading attributes *)

(** [pseudo_stat_msg(buf, msg)] for an answer that found the file. *)
Definition overlay (msg : option pseudo_msg_t) (b : statbuf) : statbuf :=
  if succeeded msg then default b (pseudo_stat_msg (Some b) msg) else b.

Definition wrap___fxstatat64 (ver dirfd : Z) (path : bytes) (flags : Z) : io K S (Z * option statbuf) :=
  buf ← base_fstatat dirfd path flags;
  match buf with
  | None => mret (-1, None)
  | Some b =>
      save_errno ← get_errno;
      if negb (ver =? _STAT_VER) then _ ← set_errno save_errno; mret (0, Some b)
      else
        msg ← tell OP_STAT 0 (-1) dirfd (Some path) (Some b);
        _ ← set_errno save_errno;
        mret (0, Some (overlay msg b))
  end.

Definition wrap___fxstat64 (ver fd : Z) : io K S (Z * option statbuf) :=
  buf ← base_fstat fd;
  match buf with
  | None => mret (-1, None)
  | Some b =>
      save_errno ← get_errno;
      if negb (ver =? _STAT_VER) then _ ← set_errno save_errno; mret (0, Some b)
      else
        msg ← tell OP_FSTAT 0 fd (-1) None (Some b);
        _ ← set_errno save_errno;
        mret (0, Some (overlay msg b))
  end.

Definition wrap___xstat64 (ver : Z) (path : bytes) := wrap___fxstatat64 ver AT_FDCWD path 0.
Definition wrap___lxstat64 (ver : Z) (path : bytes) := wrap___fxstatat64 ver AT_FDCWD path AT_SYMLINK_NOFOLLOW.
Definition wrap_fstatat64 (dirfd : Z) (path : bytes) (flags : Z) := wrap___fxstatat64 _STAT_VER dirfd path flags.
Definition wrap_fstat64 (fd : Z) := wrap___fxstat64 _STAT_VER fd.
Definition wrap_stat64 (path : bytes) := wrap___fxstatat64 _STAT_VER AT_FDCWD path 0.
Definition wrap_lstat64 (path : bytes) := wrap___fxstatat64 _STAT_VER AT_FDCWD path AT_SYMLINK_NOFOLLOW.

(** *** Changing attributes *)

(** The type of the one, the permissions of the other. *)
Definition chmod_mode (st_mode mode : Z) : Z := Z.lor (Z.ldiff st_mode 0xfff) (Z.land mode 0xfff).

Definition wrap_fchmodat (dirfd : Z) (path : bytes) (mode flags : Z) : io K S Z :=
  buf ← base_fstatat dirfd path flags;
  match buf with
  | None => mret (-1)
  | Some b =>
      if S_ISLNK (st_mode b) then mret 0
      else
        save_errno ← get_errno;
        _ ← real (sys_fchmodat dirfd path (PSEUDO_FS_MODE mode (S_ISDIR (st_mode b))) flags);
        _ ← tell OP_CHMOD 0 (-1) dirfd (Some path) (Some (set_st_mode (chmod_mode (st_mode b) mode) b));
        _ ← set_errno save_errno;
        mret 0
  end.

Definition wrap_fchmod (fd mode : Z) : io K S Z :=
  save_errno ← get_errno;
  buf ← base_fstat fd;
  match buf with
  | None => mret (-1)
  | Some b =>
      let b := set_st_mode (chmod_mode (st_mode b) mode) b in
      _ ← tell OP_FCHMOD 0 fd (-1) None (Some b);
      _ ← real (sys_fchmod fd (PSEUDO_FS_MODE mode (S_ISDIR (st_mode b))));
      _ ← set_errno save_errno;
      mret 0
  end.

Definition wrap_chmod (path : bytes) (mode : Z) := wrap_fchmodat AT_FDCWD path mode 0.
Definition wrap_lchmod (path : bytes) (mode : Z) := wrap_fchmodat AT_FDCWD path mode AT_SYMLINK_NOFOLLOW.

(** [(uid_t) -1] *)
Definition KEEP_ID : Z := 2 ^ 32 - 1.

Definition new_owner (owner group : Z) (b : statbuf) : statbuf :=
  set_st_owner (if negb (owner =? KEEP_ID) then owner else st_uid b)
               (if negb (group =? KEEP_ID) then group else st_gid b) b.

(** Attributes for the ids that stay: the server's, if it knows the file. *)
Definition current_owner (fd : Z) (path : option bytes) (owner group : Z) (b : statbuf) : io K S statbuf :=
  if (owner =? KEEP_ID) || (group =? KEEP_ID)
  then msg ← tell OP_STAT 0 fd (-1) path (Some b); mret (overlay msg b)
  else mret b.

Definition wrap_fchownat (dirfd : Z) (path : bytes) (owner group flags : Z) : io K S Z :=
  buf ← base_fstatat dirfd path flags;
  match buf with
  | None => mret (-1)
  | Some b =>
      save_errno ← get_errno;
      b ← current_owner (-1) (Some path) owner group b;
      _ ← tell OP_CHOWN 0 (-1) dirfd (Some path) (Some (new_owner owner group b));
      _ ← set_errno save_errno;
      mret 0
  end.

Definition wrap_fchown (fd owner group : Z) : io K S Z :=
  save_errno ← get_errno;
  buf ← base_fstat fd;
  match buf with
  | None => mret (-1)
  | Some b =>
      b ← current_owner fd None owner group b;
      _ ← tell OP_FCHOWN 0 fd (-1) None (Some (new_owner owner group b));
      _ ← set_errno save_errno;
      mret 0
  end.

Definition wrap_chown (path : bytes) (owner group : Z) := wrap_fchownat AT_FDCWD path owner group 0.
Definition wrap_lchown (path : bytes) (owner group : Z) := wrap_fchownat AT_FDCWD path owner group AT_SYMLINK_NOFOLLOW.

Definition wrap_umask (mask : Z) : io K S Z := _ ← set_umask mask; real (sys_umask mask).

(** *** Access checks *)

Definition wrap_access (path : bytes) (mode : Z) : io K S Z :=
  buf ← base_stat path;
  match buf with
  | None => mret (-1)
  | Some b =>
      if negb (Z.land mode X_OK =? 0) then
        if negb (Z.land (st_mode b) 0x49 =? 0) then mret 0 else _ ← set_errno EACCES; mret (-1)
      else mret 0
  end.

Definition wrap_faccessat2 (dirfd : Z) (path : bytes) (mode flags : Z) : io K S Z :=
  buf ← base_fstatat dirfd path (Z.land flags AT_SYMLINK_NOFOLLOW);
  match buf with
  | None => mret (-1)
  | Some b =>
      if negb (Z.land mode X_OK =? 0) then
        if negb (Z.land (st_mode b) 0x49 =? 0) then mret 0 else _ ← set_errno EACCES; mret (-1)
      else mret 0
  end.

(** *** Creating *)

Definition wrap_mkdirat (dirfd : Z) (path : bytes) (mode : Z) : io K S Z :=
  umask ← get_umask;
  let mode := Z.ldiff mode umask in
  rc ← real (sys_mkdirat dirfd path (PSEUDO_FS_MODE mode true));
  if negb (rc =? -1) then
    save_errno ← get_errno;
    buf ← base_fstatat dirfd path AT_SYMLINK_NOFOLLOW;
    _ ← match buf with
        | Some b =>
            _ ← tell OP_MKDIR 0 (-1) dirfd (Some path) (Some (set_st_mode (PSEUDO_DB_MODE (st_mode b) mode) b));
            real (sys_fchmodat dirfd path (PSEUDO_FS_MODE mode true) 0)
        | None => mret 0
        end;
    _ ← set_errno save_errno;
    mret rc
  else mret rc.

Definition wrap_mkdir (path : bytes) (mode : Z) := wrap_mkdirat AT_FDCWD path mode.

(** [msg && msg->result != RESULT_SUCCEED] *)
Definition was_refused (msg : option pseudo_msg_t) : bool :=
  match msg with Some m => negb (m_result (hdr m) =? RESULT_SUCCEED) | None => false end.

(** The file just made is removed again; the flag is not one [unlinkat]
    knows. *)
Definition unmake (dirfd : Z) (path : bytes) : io K S Z :=
  save_errno ← get_errno;
  _ ← real (sys_unlinkat dirfd path AT_SYMLINK_NOFOLLOW);
  _ ← set_errno save_errno;
  mret (-1).

(** A regular file stands for the node. *)
Definition wrap_mknodat (dirfd : Z) (path : bytes) (mode dev : Z) : io K S Z :=
  umask ← get_umask;
  save_errno ← get_errno;
  let mode := Z.ldiff mode umask in
  let mode := if Z.land mode S_IFMT =? 0 then Z.lor mode S_IFREG else mode in
  buf ← base_fstatat dirfd path AT_SYMLINK_NOFOLLOW;
  match buf with
  | Some _ => _ ← set_errno EEXIST; mret (-1)
  | None =>
      fd ← real (sys_openat dirfd path (Z.lor O_CREAT (Z.lor O_WRONLY O_EXCL)) (PSEUDO_FS_MODE mode false));
      if fd =? -1 then mret (-1)
      else
        _ ← real (sys_fchmod fd (PSEUDO_FS_MODE mode false));
        buf ← base_fstat fd;
        let b := default stack_stat buf in
        _ ← real (sys_close fd);
        let b := set_st_rdev dev
          (set_st_mode (Z.lor (Z.land (PSEUDO_DB_MODE (st_mode b) mode) 0xfff) (Z.ldiff mode 0xfff)) b) in
        msg ← tell OP_MKNOD 0 (-1) dirfd (Some path) (Some b);
        if was_refused msg then _ ← set_errno EPERM; unmake dirfd path
        else _ ← set_errno save_errno; mret 0
  end.

(** The same for the old entry points, whose device is a pointer. *)
Definition wrap___xmknodat (ver dirfd : Z) (path : bytes) (mode : Z) (dev : option Z) : io K S Z :=
  umask ← get_umask;
  let mode := Z.ldiff mode umask in
  let mode := if Z.land mode S_IFMT =? 0 then Z.lor mode S_IFREG else mode in
  buf ← base_fstatat dirfd path AT_SYMLINK_NOFOLLOW;
  match buf, dev with
  | Some _, _ => _ ← set_errno EEXIST; mret (-1)
  | None, None => _ ← set_errno EINVAL; mret (-1)
  | None, Some dev =>
      fd ← real (sys_openat dirfd path (Z.lor O_CREAT (Z.lor O_WRONLY O_EXCL)) (PSEUDO_FS_MODE mode false));
      if fd =? -1 then mret (-1)
      else
        _ ← real (sys_fchmod fd (PSEUDO_FS_MODE mode false));
        buf ← base_fstat fd;
        let b := default stack_stat buf in
        _ ← real (sys_close fd);
        let b := set_st_rdev dev
          (set_st_mode (Z.lor (Z.land (PSEUDO_DB_MODE (st_mode b) mode) 0xfff) (Z.ldiff mode 0xfff)) b) in
        msg ← tell OP_MKNOD 0 (-1) dirfd (Some path) (Some b);
        if was_refused msg then _ ← set_errno EPERM; unmake dirfd path
        else mret 0
  end.

Definition wrap_mkfifoat (dirfd : Z) (path : bytes) (mode : Z) : io K S Z :=
  umask ← get_umask;
  let mode := Z.ldiff mode umask in
  buf ← base_fstatat dirfd path AT_SYMLINK_NOFOLLOW;
  match buf with
  | Some _ => _ ← set_errno EEXIST; mret (-1)
  | None =>
      rc ← real (sys_mkfifoat dirfd path (PSEUDO_FS_MODE mode false));
      if rc =? -1 then mret (-1)
      else
        save_errno ← get_errno;
        buf ← base_fstatat dirfd path AT_SYMLINK_NOFOLLOW;
        _ ← real (sys_fchmodat dirfd path (PSEUDO_FS_MODE mode false) 0);
        match buf with
        | Some b =>
            msg ← tell OP_MKNOD 0 (-1) dirfd (Some path) (Some (set_st_mode (PSEUDO_DB_MODE (st_mode b) mode) b));
            if was_refused msg then _ ← set_errno EPERM; unmake dirfd path
            else _ ← set_errno save_errno; mret 0
        | None => unmake dirfd path
        end
  end.

(** An absolute target is kept inside the changed root; [malloc] succeeds. *)
Definition rooted_target (root : option bytes * bool) (oldname : bytes) : bytes :=
  match root with
  | (Some chroot, false) =>
      if bool_decide (head oldname = Some slash) && negb (Z.of_nat (length chroot) =? 0)
      then chroot ++ oldname else oldname
  | _ => oldname
  end.

Definition wrap_symlinkat (oldname : bytes) (dirfd : Z) (newpath : bytes) : io K S Z :=
  root ← get_chroot;
  let target := rooted_target root oldname in
  rc ← real (sys_symlinkat target dirfd newpath);
  if rc =? -1 then mret rc
  else
    buf ← base_fstatat dirfd newpath AT_SYMLINK_NOFOLLOW;
    match buf with
    | None => mret (-1)
    | Some b => _ ← tell OP_SYMLINK 0 (-1) dirfd (Some newpath) (Some b); mret 0
    end.

(** *** Opening

    The lock and the signal mask around the open of a pipe are not modelled;
    the second look at the file there has no effect but on [errno]. *)
Definition wrap_openat (dirfd : Z) (path : bytes) (flags mode : Z) : io K S Z :=
  umask ← get_umask;
  let mode := Z.ldiff mode umask in
  let nofollow := if negb (Z.land flags O_NOFOLLOW =? 0) then AT_SYMLINK_NOFOLLOW else 0 in
  let tmpfile := Z.land flags O_TMPFILE =? O_TMPFILE in
  existed ← (if tmpfile then mret false
             else if negb (Z.land flags O_CREAT =? 0) then
               save_errno ← get_errno;
               buf ← base_fstatat dirfd path nofollow;
               _ ← set_errno save_errno;
               mret (match buf with Some _ => true | None => false end)
             else mret true);
  _ ← (if (Z.land flags O_NONBLOCK =? 0) && negb (Z.land flags O_ACCMODE =? O_RDWR)
       then base_fstatat dirfd path nofollow else mret None);
  rc ← real (sys_openat dirfd path flags (PSEUDO_FS_MODE mode false));
  if negb (rc =? -1) then
    save_errno ← get_errno;
    if tmpfile then
      _ ← real (sys_fchmod rc (PSEUDO_FS_MODE mode false));
      _ ← set_errno save_errno;
      mret rc
    else
      buf ← base_fstatat dirfd path nofollow;
      _ ← match buf with
          | Some b =>
              let b := set_st_mode (PSEUDO_DB_MODE (st_mode b) mode) b in
              _ ← (if negb existed then
                     _ ← real (sys_fchmod rc (PSEUDO_FS_MODE mode false));
                     tell OP_CREAT 0 (-1) dirfd (Some path) (Some b)
                   else mret None);
              tell OP_OPEN (PSEUDO_ACCESS flags) rc dirfd (Some path) (Some b)
          | None => tell OP_OPEN (PSEUDO_ACCESS flags) rc dirfd (Some path) None
          end;
      _ ← set_errno save_errno;
      mret rc
  else mret rc.

(** *** Removing *)

(** The removal itself, between the announcement and its outcome. *)
Definition announced_unlink (ask_dirfd : Z) (path : bytes) (remove : syscall K) (b : statbuf) : io K S Z :=
  msg ← tell OP_MAY_UNLINK 0 (-1) ask_dirfd (Some path) (Some b);
  rc ← real remove;
  if succeeded msg then
    if rc =? -1 then
      save_errno ← get_errno;
      _ ← tell OP_CANCEL_UNLINK 0 (-1) (-1) (Some path) (Some b);
      _ ← set_errno save_errno;
      mret rc
    else _ ← tell OP_DID_UNLINK 0 (-1) (-1) (Some path) (Some b); mret rc
  else mret rc.

Definition wrap_unlinkat (dirfd : Z) (path : bytes) (rflags : Z) : io K S Z :=
  buf ← base_fstatat dirfd path AT_SYMLINK_NOFOLLOW;
  match buf with
  | None => mret (-1)
  | Some b => announced_unlink dirfd path (sys_unlinkat dirfd path rflags) b
  end.

Definition wrap_unlink (path : bytes) := wrap_unlinkat AT_FDCWD path 0.

Definition wrap_rmdir (path : bytes) : io K S Z :=
  buf ← base_lstat path;
  match buf with
  | None => mret (-1)
  | Some b => announced_unlink (-1) path (sys_rmdir path) b
  end.

Definition wrap_remove (path : bytes) : io K S Z :=
  buf ← base_lstat path;
  match buf with
  | None => _ ← set_errno ENOENT; mret (-1)
  | Some b => if S_ISDIR (st_mode b) then wrap_rmdir path else wrap_unlink path
  end.

(** *** Renaming *)

Definition same_file (a b : option statbuf) : bool :=
  match a, b with
  | Some a, Some b => (st_dev a =? st_dev b) && (st_ino a =? st_ino b)
  | _, _ => false
  end.

(** The real rename failed: what was announced is taken back. *)
Definition cancel_rename (olddirfd : Z) (oldpath : bytes) (newdirfd : Z) (newpath : bytes)
    (oldbuf newbuf : statbuf) (may_unlink_old may_unlink_new : bool) : io K S unit :=
  _ ← (if may_unlink_new then tell OP_CANCEL_UNLINK 0 (-1) newdirfd (Some newpath) (Some newbuf) else mret None);
  _ ← (if may_unlink_old then tell OP_CANCEL_UNLINK 0 (-1) olddirfd (Some oldpath) (Some oldbuf) else mret None);
  mret ().

(** It succeeded: the old entry of the new name goes, and the file is renamed;
    one the server does not know is made known first. *)
Definition finish_rename (olddirfd : Z) (oldpath : bytes) (newdirfd : Z) (newpath : bytes)
    (oldbuf newbuf : option statbuf) (may_unlink_new old_db_entry : bool) (fd_arg rc : Z) : io K S Z :=
  let new := default stack_stat newbuf in
  let old := default stack_stat oldbuf in
  _ ← (if may_unlink_new then tell OP_DID_UNLINK 0 (-1) newdirfd (Some newpath) (Some new) else mret None);
  save_errno ← get_errno;
  let old := if negb old_db_entry && match newbuf with Some _ => true | None => false end
                && negb (st_dev new =? st_dev old)
             then set_st_inode (st_dev new) (st_ino new) old else old in
  _ ← (if negb old_db_entry then tell OP_LINK 0 (-1) olddirfd (Some oldpath) (Some old) else mret None);
  _ ← ask OP_RENAME 0 fd_arg newdirfd (Some newpath) (Some old) (Some oldpath) None;
  _ ← set_errno save_errno;
  mret rc.

(** [rename] and [renameat]; [op_old], [op_new] are the descriptors that go
    into the operations; [rename] looks at the new name first. *)
Definition rename_body (olddirfd : Z) (oldpath : option bytes) (newdirfd : Z) (newpath : option bytes)
    (new_first : bool) (op_old op_new fd_arg : Z) : io K S Z :=
  match oldpath, newpath with
  | Some oldpath, Some newpath =>
      save_errno ← get_errno;
      bufs ← (if new_first
              then newbuf ← base_fstatat newdirfd newpath AT_SYMLINK_NOFOLLOW;
                   oldbuf ← base_fstatat olddirfd oldpath AT_SYMLINK_NOFOLLOW; mret (oldbuf, newbuf)
              else oldbuf ← base_fstatat olddirfd oldpath AT_SYMLINK_NOFOLLOW;
                   newbuf ← base_fstatat newdirfd newpath AT_SYMLINK_NOFOLLOW; mret (oldbuf, newbuf));
      let '(oldbuf, newbuf) := (bufs : option statbuf * option statbuf) in
      if same_file newbuf oldbuf then real (sys_renameat olddirfd oldpath newdirfd newpath)
      else
        _ ← set_errno save_errno;
        msg ← tell OP_MAY_UNLINK 0 (-1) op_new (Some newpath) newbuf;
        let may_unlink_new := succeeded msg in
        msg ← tell OP_MAY_UNLINK 0 (-1) op_old (Some oldpath) oldbuf;
        let may_unlink_old := succeeded msg in
        msg ← tell OP_STAT 0 (-1) op_old (Some oldpath) oldbuf;
        let old_db_entry := succeeded msg in
        rc ← real (sys_renameat olddirfd oldpath newdirfd newpath);
        save_errno ← get_errno;
        if rc =? -1 then
          _ ← cancel_rename op_old oldpath op_new newpath (default stack_stat oldbuf) (default stack_stat newbuf)
                may_unlink_old may_unlink_new;
          _ ← set_errno save_errno;
          mret rc
        else finish_rename op_old oldpath op_new newpath oldbuf newbuf may_unlink_new old_db_entry fd_arg rc
  | _, _ => _ ← set_errno EFAULT; mret (-1)
  end.

Definition wrap_renameat (olddirfd : Z) (oldpath : option bytes) (newdirfd : Z) (newpath : option bytes) : io K S Z :=
  rename_body olddirfd oldpath newdirfd newpath false olddirfd newdirfd olddirfd.

Definition wrap_rename (oldpath newpath : option bytes) : io K S Z :=
  rename_body AT_FDCWD oldpath AT_FDCWD newpath true (-1) (-1) (-1).
End Wrappers.
