(* ===== verification/WrapXattr.v ===== *)
(** The wrappers of the extended-attribute calls
    ([ports/linux/xattr/pseudo_wrappers.c] and its [guts]).  A POSIX ACL that
    a mode can express is not stored but turned into a [chmod].

    The machine is little-endian, as [endian_test] finds out; the value
    pointers are blocks of memory, an access outside of one gives [None]. *)

From stdpp Require Import base list option strings.
From Stdlib Require Import ZArith Lia Ascii.
From S2P Require Import Prelude Tables Modes Message Io Wrappers.

Open Scope Z_scope.

Definition EOPNOTSUPP : Z := 95.
Definition ERANGE : Z := 34.
Definition ENOATTR : Z := 61.
Definition XATTR_CREATE : Z := 1.
Definition XATTR_REPLACE : Z := 2.

(** [sizeof(acl_header)], [sizeof(acl_entry)] *)
Definition ACL_HEADER : Z := 4.
Definition ACL_ENTRY : Z := 8.

Inductive acl_tag := ACL_USER_OBJ | ACL_USER | ACL_GROUP_OBJ | ACL_GROUP | ACL_MASK | ACL_OTHER.

Definition acl_tag_of (tag : Z) : option acl_tag :=
  if tag =? 0x1 then Some ACL_USER_OBJ
  else if tag =? 0x2 then Some ACL_USER
  else if tag =? 0x4 then Some ACL_GROUP_OBJ
  else if tag =? 0x8 then Some ACL_GROUP
  else if tag =? 0x10 then Some ACL_MASK
  else if tag =? 0x20 then Some ACL_OTHER
  else None.

(** What [posix_permissions] returns: -1, 1, or 0 with [extra] and [mode]. *)
Inductive permissions := BadVersion | UnknownTag | Permissions (extra mode : Z).

(** [entries] entries from [l] on; [None] when they run out of the block. *)
Fixpoint acl_entries (entries : nat) (l : bytes) (extra mode : Z) : option permissions :=
  match entries with
  | O => Some (Permissions extra mode)
  | S entries =>
      if Z.of_nat (length l) <? ACL_ENTRY then None
      else
        let perm := field 2 2 l in
        let rest := drop (Z.to_nat ACL_ENTRY) l in
        match acl_tag_of (field 0 2 l) with
        | Some ACL_USER_OBJ => acl_entries entries rest extra (Z.lor mode (Z.shiftl perm 6))
        | Some ACL_GROUP_OBJ => acl_entries entries rest extra (Z.lor mode (Z.shiftl perm 3))
        | Some ACL_OTHER => acl_entries entries rest extra (Z.lor mode perm)
        | Some (ACL_USER | ACL_GROUP | ACL_MASK) => acl_entries entries rest (extra + 1) mode
        | None => Some UnknownTag
        end
  end.

Definition posix_permissions (header : bytes) (entries : nat) : option permissions :=
  if Z.of_nat (length header) <? ACL_HEADER then None
  else if negb (int32 (field 0 4 header) =? 2) then Some BadVersion
  else acl_entries entries (drop (Z.to_nat ACL_HEADER) header) 0 0.

Definition ACL_PREFIX : bytes := $"system.posix_acl_".
Definition ACL_ACCESS : bytes := $"system.posix_acl_access".
Definition PSEUDO_DATA : bytes := $"user.pseudo_data".

Section WrapXattr.
Context {K S : Type} {KE : Kernel K} {SE : Session S} {PV : PathView S}.

Definition crash {A} : io K S A := fun _ => None.

Definition of_memory {A} (a : option A) : io K S A := match a with Some a => mret a | None => crash end.

(** [RC_AND_BUF]; the wrapper returns -1 when this fails. *)
Definition rc_and_buf (path : option bytes) (fd : Z) : io K S (option statbuf) :=
  match path with Some p => base_lstat p | None => base_fstat fd end.

(** The first [n] bytes at [p]. *)
Definition bytes_at (p : option bytes) (n : Z) : option bytes :=
  match p with
  | Some l => if n <=? Z.of_nat (length l) then Some (take (Z.to_nat n) l) else None
  | None => None
  end.

(** [lstat64] as any program calls it, with what goes before its wrapper: the
    path is made canonical, also one that is canonical already. *)
Definition lstat64 (path : bytes) : io K S (Z * option statbuf) := fun w =>
  match root_path (w_session w) AT_FDCWD path true with
  | None => (_ ← set_errno EFAULT; mret (-1, None)) w
  | Some p =>
      if path_ignored (w_session w) p then
        (buf ← base_lstat p; mret (match buf with Some _ => 0 | None => -1 end, buf)) w
      else wrap_lstat64 p w
  end.

(** Setuid, setgid and sticky bit as [lstat64] and [fstat64] report them. *)
Definition get_special_bits (path : option bytes) (fd : Z) : io K S Z :=
  r ← match path with Some p => lstat64 p | None => wrap_fstat64 fd end;
  let '(rc, buf) := (r : Z * option statbuf) in
  match buf with
  | Some b => mret (Z.land (st_mode b) 0xe00)
  | None => mret rc
  end.

(** The answer's data as they are copied to the caller's buffer of [size]
    bytes, if there is one; the result is their full length. *)
Definition returned_data (value : bool) (size : Z) (m : pseudo_msg_t) : io K S (Z * option bytes) :=
  let len := m_pathlen (hdr m) in
  if value then
    data ← of_memory (bytes_at (Some (m_path m)) (Z.min len size));
    _ ← (if len <=? size then mret () else set_errno ERANGE);
    mret (len, Some data)
  else mret (len, None).

(** The length or -1, and what is written to the buffer. *)
Definition shared_getxattr (path : option bytes) (fd : Z) (name : bytes) (value : bool) (size : Z) :
    io K S (Z * option bytes) :=
  buf ← rc_and_buf path fd;
  match buf with
  | None => mret (-1, None)
  | Some b =>
      result ← ask OP_GET_XATTR 0 fd (-1) path (Some b) (Some name) None;
      match result with
      | Some m => if succeeded result then returned_data value size m else _ ← set_errno ENOATTR; mret (-1, None)
      | None => _ ← set_errno ENOATTR; mret (-1, None)
      end
  end.

Definition shared_listxattr (path : option bytes) (fd : Z) (list : bool) (size : Z) : io K S (Z * option bytes) :=
  buf ← rc_and_buf path fd;
  match buf with
  | None => mret (-1, None)
  | Some b =>
      result ← ask OP_LIST_XATTR 0 fd (-1) path (Some b) None None;
      match result with
      | Some m => if succeeded result then returned_data list size m else _ ← set_errno ENOATTR; mret (-1, None)
      | None => _ ← set_errno ENOATTR; mret (-1, None)
      end
  end.

Definition shared_removexattr (path : option bytes) (fd : Z) (name : bytes) : io K S Z :=
  buf ← rc_and_buf path fd;
  match buf with
  | None => mret (-1)
  | Some b =>
      result ← ask OP_REMOVE_XATTR 0 fd (-1) path (Some b) (Some name) None;
      if succeeded result then mret 0 else _ ← set_errno ENOENT; mret (-1)
  end.

(** What is left to do after the ACL part: nothing, with this result, or to
    store the attribute. *)
Inductive acl_outcome := AclDone (rc : Z) | StoreXattr.

(** The size of an ACL is a header and a number of entries. *)
Definition acl_filter (name : bytes) (size : Z) : io K S acl_outcome :=
  if bool_decide (take 17 name = ACL_PREFIX) then
    if (size <? ACL_HEADER) || negb ((size - ACL_HEADER) mod ACL_ENTRY =? 0) then
      _ ← set_errno EINVAL; mret (AclDone (-1))
    else if (size - ACL_HEADER) / ACL_ENTRY =? 0 then mret (AclDone 0)
    else mret StoreXattr
  else mret StoreXattr.

(** An access ACL sets the mode; it is stored only if it has entries no mode
    can express. *)
Definition acl_chmod (path : option bytes) (fd : Z) (name : bytes) (value : option bytes) (size : Z) :
    io K S acl_outcome :=
  if bool_decide (name = ACL_ACCESS) then
    acl ← of_memory (bytes_at value size);
    res ← of_memory (posix_permissions acl (Z.to_nat ((size - ACL_HEADER) / ACL_ENTRY)));
    match res with
    | Permissions extra mode =>
        special ← get_special_bits path fd;
        let mode := uint32 (Z.lor mode special) in
        _ ← match path with Some p => wrap_chmod p mode | None => wrap_fchmod fd mode end;
        if extra =? 0 then mret (AclDone 0) else mret StoreXattr
    | BadVersion => _ ← set_errno EOPNOTSUPP; mret (AclDone (-1))
    | UnknownTag => mret StoreXattr
    end
  else mret StoreXattr.

Definition xattr_op (flags : Z) : pseudo_op_t :=
  if flags =? XATTR_CREATE then OP_CREATE_XATTR
  else if flags =? XATTR_REPLACE then OP_REPLACE_XATTR
  else OP_SET_XATTR.

Definition store_xattr (path : option bytes) (fd : Z) (b : statbuf) (name : bytes) (value : option bytes) (size flags : Z) :
    io K S Z :=
  if bool_decide (name = PSEUDO_DATA) then mret (-1)
  else
    let op := xattr_op flags in
    data ← match value with Some _ => d ← of_memory (bytes_at value size); mret (Some d) | None => mret None end;
    result ← ask op 0 fd (-1) path (Some b) (Some name) data;
    if bool_decide (op = OP_SET_XATTR) then mret 0
    else match result with
         | Some m => if m_result (hdr m) =? RESULT_FAIL then mret (-1) else mret 0
         | None => mret (-1)
         end.

Definition shared_setxattr (path : option bytes) (fd : Z) (name : bytes) (value : option bytes) (size flags : Z) :
    io K S Z :=
  buf ← rc_and_buf path fd;
  match buf with
  | None => mret (-1)
  | Some b =>
      o ← acl_filter name size;
      match o with
      | AclDone rc => mret rc
      | StoreXattr =>
          o ← acl_chmod path fd name value size;
          match o with
          | AclDone rc => mret rc
          | StoreXattr => store_xattr path fd b name value size flags
          end
      end
  end.

(** *** The calls *)

Definition wrap_getxattr (path name : bytes) (value : bool) (size : Z) := shared_getxattr (Some path) (-1) name value size.
Definition wrap_lgetxattr (path name : bytes) (value : bool) (size : Z) := shared_getxattr (Some path) (-1) name value size.
Definition wrap_fgetxattr (filedes : Z) (name : bytes) (value : bool) (size : Z) := shared_getxattr None filedes name value size.
Definition wrap_setxattr (path name : bytes) (value : option bytes) (size xflags : Z) :=
  shared_setxattr (Some path) (-1) name value size xflags.
Definition wrap_lsetxattr (path name : bytes) (value : option bytes) (size xflags : Z) :=
  shared_setxattr (Some path) (-1) name value size xflags.
Definition wrap_fsetxattr (filedes : Z) (name : bytes) (value : option bytes) (size xflags : Z) :=
  shared_setxattr None filedes name value size xflags.
Definition wrap_listxattr (path : bytes) (list : bool) (size : Z) := shared_listxattr (Some path) (-1) list size.
Definition wrap_llistxattr (path : bytes) (list : bool) (size : Z) := shared_listxattr (Some path) (-1) list size.
Definition wrap_flistxattr (filedes : Z) (list : bool) (size : Z) := shared_listxattr None filedes list size.
Definition wrap_removexattr (path name : bytes) := shared_removexattr (Some path) (-1) name.
Definition wrap_lremovexattr (path name : bytes) := shared_removexattr (Some path) (-1) name.
Definition wrap_fremovexattr (filedes : Z) (name : bytes) := shared_removexattr None filedes name.
End WrapXattr.
