(* ===== verification/SampleKernel.v ===== *)
(** A small kernel in memory, on which the examples run: files by path, with
    descriptors; everything is on one device and belongs to user 1000. *)

From stdpp Require Import base gmap list option strings.
From Stdlib Require Import ZArith Lia Ascii.
From S2P Require Import Prelude Modes Message Io.

Open Scope Z_scope.

Record disk := mkDisk { d_files : gmap bytes statbuf; d_fds : gmap Z bytes; d_next : Z }.

Definition disk_files f (k : disk) : disk := mkDisk f (d_fds k) (d_next k).

Definition disk_stat (path : bytes) (k : disk) : option statbuf * option Z :=
  match d_files k !! path with Some b => (Some b, None) | None => (None, Some ENOENT) end.

Definition disk_make (path : bytes) (mode : Z) (k : disk) : disk :=
  mkDisk (<[path := mkStat 5 (d_next k) mode 1 1000 100 0]> (d_files k)) (d_fds k) (d_next k + 1).

Definition disk_create (path : bytes) (mode : Z) : syscall disk := fun k =>
  match d_files k !! path with
  | Some _ => (k, -1, Some EEXIST)
  | None => (disk_make path mode k, 0, None)
  end.

Definition disk_chmod (path : bytes) (mode : Z) : syscall disk := fun k =>
  match d_files k !! path with
  | Some b =>
      (disk_files (<[path := mkStat (st_dev b) (st_ino b) (Z.lor (Z.land (st_mode b) S_IFMT) mode) (st_nlink b) (st_uid b) (st_gid b) (st_rdev b)]>
        (d_files k)) k, 0, None)
  | None => (k, -1, Some ENOENT)
  end.

Definition disk_remove (path : bytes) : syscall disk := fun k =>
  match d_files k !! path with
  | Some _ => (disk_files (delete path (d_files k)) k, 0, None)
  | None => (k, -1, Some ENOENT)
  end.

Definition disk_rename (old new : bytes) : syscall disk := fun k =>
  match d_files k !! old with
  | Some b => (disk_files (<[new := b]> (delete old (d_files k))) k, 0, None)
  | None => (k, -1, Some ENOENT)
  end.

(** Opens what is there; makes it if it is not. *)
Definition disk_open (path : bytes) (mode : Z) : syscall disk := fun k =>
  let k := match d_files k !! path with Some _ => k | None => disk_make path (Z.lor S_IFREG mode) k end in
  (mkDisk (d_files k) (<[d_next k := path]> (d_fds k)) (d_next k + 1), d_next k, None).

Definition disk_path (fd : Z) (k : disk) : bytes := default [] (d_fds k !! fd).

#[export] Instance disk_kernel : Kernel disk := {|
  sys_fstatat _ p _ k := disk_stat p k;
  sys_fstat fd k := disk_stat (disk_path fd k) k;
  sys_openat _ p _ mode := disk_open p mode;
  sys_close fd k := (mkDisk (d_files k) (delete fd (d_fds k)) (d_next k), 0, None);
  sys_fchmod fd mode k := disk_chmod (disk_path fd k) mode k;
  sys_fchmodat _ p mode _ := disk_chmod p mode;
  sys_mkdirat _ p mode := disk_create p (Z.lor S_IFDIR mode);
  sys_mkfifoat _ p mode := disk_create p (Z.lor S_IFIFO mode);
  sys_symlinkat _ _ p := disk_create p (Z.lor S_IFLNK 0x1ff);
  sys_unlinkat _ p flags k := if flags =? AT_SYMLINK_NOFOLLOW then (k, -1, Some EINVAL) else disk_remove p k;
  sys_rmdir p := disk_remove p;
  sys_renameat _ old _ new := disk_rename old new;
  sys_umask _ k := (k, 0x12, None);
  stack_stat := mkStat 0 0 0 0 0 0 0
|}.

(** Two names of one file, and another file. *)
Definition sample_disk : disk :=
  mkDisk (<[$"/d/f" := mkStat 5 11 0x81a4 2 1000 100 0]> (<[$"/d/g" := mkStat 5 11 0x81a4 2 1000 100 0]>
    (<[$"/d/h" := mkStat 5 12 0x8180 1 1000 100 0]> ∅))) (<[7 := $"/d/f"]> ∅) 20.
