(* ===== verification/WrapSpec.v ===== *)
(** What the wrappers tell the server when something is removed or renamed,
    and what becomes of an access ACL, for any kernel and any server. *)

From stdpp Require Import base list option strings.
From Stdlib Require Import ZArith Lia Ascii.
From S2P Require Import Prelude Tables Modes Message Io Wrappers WrapXattr SampleKernel.

Open Scope Z_scope.

(** ** A client that keeps a record *)

(** An operation, its path, and whether it succeeded. *)
Record told := Told { t_op : pseudo_op_t; t_path : bytes; t_ok : bool }.

#[export] Instance told_eq_dec : EqDecision told.
Proof. solve_decision. Defined.

(** Any client, with a record of what it is asked to do, latest first. *)
Definition recorded (S : Type) : Type := (S * list told)%type.

#[export] Instance recorded_session {S} {SE : Session S} : Session (recorded S) :=
  fun op access fd dirfd path buf extra1 extra2 s =>
    match client_op op access fd dirfd path buf extra1 extra2 s.1 with
    | Some (s', r) => Some ((s', Told op (default [] path) (succeeded r) :: s.2), r)
    | None => None
    end.

(** ** Removal and renaming *)

Inductive removal :=
| Unlinkat (dirfd : Z) (path : bytes) (rflags : Z)
| Rmdir (path : bytes)
| Remove (path : bytes)
| Renameat (olddirfd : Z) (oldpath : option bytes) (newdirfd : Z) (newpath : option bytes)
| Rename (oldpath newpath : option bytes).

Section Removal.
Context {K S : Type} {KE : Kernel K} {SE : Session S}.

Definition do_removal (r : removal) : io K (recorded S) Z :=
  match r with
  | Unlinkat dirfd path rflags => wrap_unlinkat dirfd path rflags
  | Rmdir path => wrap_rmdir path
  | Remove path => wrap_remove path
  | Renameat olddirfd oldpath newdirfd newpath => wrap_renameat olddirfd oldpath newdirfd newpath
  | Rename oldpath newpath => wrap_rename oldpath newpath
  end.

(** The name a rename gives up; the server settles it itself. *)
Definition renamed_from (r : removal) : option bytes :=
  match r with Renameat _ old _ _ | Rename old _ => old | _ => None end.

Definition is_op (op : pseudo_op_t) (path : bytes) (t : told) : Prop := t_op t = op /\ t_path t = path.

(** The server has agreed that the path may go. *)
Definition announced (l : list told) (path : bytes) : Prop := Told OP_MAY_UNLINK path true ∈ l.

(** How a call that returned [rc] leaves what it announced: taken back if it
    failed, confirmed if it did not; and nothing else is. *)
Definition settled (r : removal) (rc : Z) (l : list told) : Prop :=
  if rc =? -1
  then (forall path, announced l path -> Exists (is_op OP_CANCEL_UNLINK path) l) /\
       Forall (fun t => t_op t <> OP_DID_UNLINK /\ t_op t <> OP_RENAME) l /\
       (forall path, Exists (is_op OP_CANCEL_UNLINK path) l -> announced l path)
  else (forall path, announced l path -> Exists (is_op OP_DID_UNLINK path) l \/ renamed_from r = Some path /\ Exists (fun t => t_op t = OP_RENAME) l) /\
       Forall (fun t => t_op t <> OP_CANCEL_UNLINK) l /\
       (forall path, Exists (is_op OP_DID_UNLINK path) l -> announced l path).

Lemma tell_records op access fd dirfd path buf (w w' : world K (recorded S)) r :
  tell op access fd dirfd (Some path) buf w = Some (w', r) ->
  (w_session w').2 = Told op path (succeeded r) :: (w_session w).2.
Proof.
  unfold tell, ask, client_op, recorded_session. destruct (client_op _ _ _ _ _ _ _ _ _) as [[s r']|]; [|done].
  by intros [= <- <-].
Qed.

Lemma ask_records op access fd dirfd path buf e1 e2 (w w' : world K (recorded S)) r :
  ask op access fd dirfd (Some path) buf e1 e2 w = Some (w', r) ->
  (w_session w').2 = Told op path (succeeded r) :: (w_session w).2.
Proof.
  unfold ask, client_op, recorded_session. destruct (client_op _ _ _ _ _ _ _ _ _) as [[s r']|]; [|done].
  by intros [= <- <-].
Qed.

(** Steps that tell the server nothing. *)
Lemma real_silent f (w w' : world K (recorded S)) rc : real f w = Some (w', rc) -> w_session w' = w_session w.
Proof. unfold real. destruct (f _) as [[k r] e]. by intros [= <- <-]. Qed.

Lemma stat_silent f (w w' : world K (recorded S)) b : base_stat_call f w = Some (w', b) -> w_session w' = w_session w.
Proof. unfold base_stat_call. destruct (f _) as [b' e]. by intros [= <- <-]. Qed.

Lemma bind_some {A B} (m : io K (recorded S) A) (f : A -> io K (recorded S) B) w r :
  (m ≫= f) w = Some r -> exists w1 a, m w = Some (w1, a) /\ f a w1 = Some r.
Proof. unfold mbind, io_bind. destruct (m w) as [[w1 a]|]; [|done]. intros H. by exists w1, a. Qed.

Lemma silent_steps (w w' : world K (recorded S)) :
  (forall u, get_errno w = Some (w', u) -> w_session w' = w_session w) /\
  (forall e u, set_errno e w = Some (w', u) -> w_session w' = w_session w) /\
  (forall A (a b : A), (mret a : io K (recorded S) A) w = Some (w', b) -> w_session w' = w_session w).
Proof. split; [|split]; intros; unfold get_errno, set_errno, mret, io_ret in *; by simplify_eq. Qed.

(** Runs a wrapper whose result is known, one call at a time. *)
Ltac io_step :=
  match goal with
  | H : (_ ≫= _) _ = Some _ |- _ => apply bind_some in H as (? & ? & ? & H)
  | H : mret _ _ = Some _ |- _ => injection H as <- <-
  | H : get_errno _ = Some _ |- _ => injection H as <- <-
  | H : set_errno _ _ = Some _ |- _ => injection H as <- <-; cbn [w_session] in *
  | H : base_stat_call _ _ = Some _ |- _ => apply stat_silent in H
  | H : base_fstatat _ _ _ _ = Some _ |- _ => apply stat_silent in H
  | H : base_lstat _ _ = Some _ |- _ => apply stat_silent in H
  | H : real _ _ = Some _ |- _ => apply real_silent in H
  | H : tell _ _ _ _ (Some _) _ _ = Some _ |- _ => apply tell_records in H
  | H : ask _ _ _ _ (Some _) _ _ _ _ = Some _ |- _ => apply ask_records in H
  | H : (if ?b then _ else _) _ = Some _ |- _ => destruct b eqn:?
  | H : (match ?b with Some _ => _ | None => _ end) _ = Some _ |- _ => destruct b eqn:?
  end.

Ltac same_logs := repeat match goal with H : w_session _ = w_session _ |- _ => rewrite H in *; clear H end.

Ltac logs :=
  repeat match goal with H : (w_session _).2 = _ |- _ => rewrite H; clear H end;
  repeat match goal with H : succeeded _ = _ |- _ => rewrite H end;
  repeat match goal with H : (_ =? _) = _ |- _ => rewrite H end.

Lemma announced_unlink_told dirfd path remove b (w w' : world K (recorded S)) rc :
  announced_unlink dirfd path remove b w = Some (w', rc) ->
  exists ok ok', (w_session w').2 =
    (if ok : bool then [Told (if rc =? -1 then OP_CANCEL_UNLINK else OP_DID_UNLINK) path ok'] else []) ++
    Told OP_MAY_UNLINK path ok :: (w_session w).2.
Proof.
  unfold announced_unlink. intros H. repeat io_step; same_logs; logs.
  - by exists true, (succeeded x6).
  - by exists true, (succeeded x4).
  - by exists false, false.
Qed.

(** What a rename tells, latest first; the [x]s are results nobody looks at. *)
Definition rename_told (rc : Z) (old new : bytes) (ok_old ok_new in_db x1 x2 x3 : bool) : list told :=
  (if rc =? -1
   then (if ok_old then [Told OP_CANCEL_UNLINK old x1] else []) ++ (if ok_new then [Told OP_CANCEL_UNLINK new x2] else [])
   else Told OP_RENAME new x1 :: (if in_db then [] else [Told OP_LINK old x2]) ++ (if ok_new then [Told OP_DID_UNLINK new x3] else []))
  ++ [Told OP_STAT old in_db; Told OP_MAY_UNLINK old ok_old; Told OP_MAY_UNLINK new ok_new].

Lemma cancel_told od old nd new ob nb ok_old ok_new (w w' : world K (recorded S)) u :
  cancel_rename od old nd new ob nb ok_old ok_new w = Some (w', u) ->
  exists x1 x2, (w_session w').2 = (if ok_old : bool then [Told OP_CANCEL_UNLINK old x1] else []) ++
    (if ok_new : bool then [Told OP_CANCEL_UNLINK new x2] else []) ++ (w_session w).2.
Proof.
  unfold cancel_rename. intros H. repeat io_step; same_logs; logs; by eexists _, _.
  Unshelve. all: exact false.
Qed.

Lemma finish_told od old nd new ob nb ok_new in_db fd rc0 (w w' : world K (recorded S)) rc :
  finish_rename od old nd new ob nb ok_new in_db fd rc0 w = Some (w', rc) ->
  rc = rc0 /\ exists x1 x2 x3, (w_session w').2 =
    Told OP_RENAME new x1 :: (if in_db : bool then [] else [Told OP_LINK old x2]) ++
    (if ok_new : bool then [Told OP_DID_UNLINK new x3] else []) ++ (w_session w).2.
Proof.
  unfold finish_rename. cbv zeta. intros H. apply bind_some in H as (w1 & u1 & H1 & H).
  destruct ok_new, in_db; cbn [negb andb] in *; repeat io_step; same_logs; logs; (split; [done|]); by eexists _, _, _.
  Unshelve. all: exact false.
Qed.

Lemma rename_body_told od oldpath nd newpath first o1 o2 fd (w w' : world K (recorded S)) rc :
  rename_body od oldpath nd newpath first o1 o2 fd w = Some (w', rc) ->
  (w_session w').2 = (w_session w).2 \/
  exists old new ok_old ok_new in_db x1 x2 x3, oldpath = Some old /\ newpath = Some new /\
    (w_session w').2 = rename_told rc old new ok_old ok_new in_db x1 x2 x3 ++ (w_session w).2.
Proof.
  unfold rename_body. intros H. destruct oldpath as [old|], newpath as [new|]; try (repeat io_step; by left).
  apply bind_some in H as (w0 & e0 & He0 & H). apply bind_some in H as (w1 & [ob nb] & Hb & H).
  assert (w_session w1 = w_session w) as Hw1 by (injection He0 as <- <-; destruct first; repeat io_step; same_logs; done).
  destruct (same_file nb ob); [apply real_silent in H; left; by rewrite H, Hw1|].
  right. apply bind_some in H as (w2 & u & H2 & H). injection H2 as <- _.
  apply bind_some in H as (w3 & m3 & H3%tell_records & H). apply bind_some in H as (w4 & m4 & H4%tell_records & H).
  apply bind_some in H as (w5 & m5 & H5%tell_records & H). apply bind_some in H as (w6 & rc6 & H6%real_silent & H).
  apply bind_some in H as (w7 & e7 & H7 & H). injection H7 as <- <-. cbn [w_session] in H3.
  assert ((w_session w6).2 = [Told OP_STAT old (succeeded m5); Told OP_MAY_UNLINK old (succeeded m4);
    Told OP_MAY_UNLINK new (succeeded m3)] ++ (w_session w).2) as Hw6 by (by rewrite H6, H5, H4, H3, Hw1).
  exists old, new, (succeeded m4), (succeeded m3), (succeeded m5). destruct (rc6 =? -1) eqn:Hrc.
  - apply bind_some in H as (w8 & u8 & H8 & H). apply cancel_told in H8 as (x1 & x2 & H8).
    apply bind_some in H as (w9 & u9 & H9 & H). injection H9 as <- _. injection H as <- <-.
    exists x1, x2, false. do 2 (split; [done|]). cbn [w_session]. unfold rename_told. rewrite Hrc, H8, Hw6, <- !app_assoc. done.
  - apply finish_told in H as (-> & x1 & x2 & x3 & H). exists x1, x2, x3. do 2 (split; [done|]).
    rewrite H, Hw6. unfold rename_told. rewrite Hrc. cbn [app]. by rewrite <- !app_assoc.
Qed.
End Removal.

(** ** Who settles what *)

Ltac members :=
  repeat match goal with
  | H : _ ∈ [] |- _ => by apply elem_of_nil in H
  | H : _ ∈ _ :: _ |- _ => apply elem_of_cons in H as [[=]|H]; subst
  | H : Exists _ [] |- _ => by apply Exists_nil in H
  | H : Exists _ (_ :: _) |- _ => apply Exists_cons in H as [[? ?]|H]; cbn in *; subst; try discriminate
  end.

Lemma settled_unlink r rc path (ok ok' : bool) :
  settled r rc ((if ok then [Told (if rc =? -1 then OP_CANCEL_UNLINK else OP_DID_UNLINK) path ok'] else []) ++
    [Told OP_MAY_UNLINK path ok]).
Proof.
  unfold settled, announced.
  destruct (rc =? -1), ok; cbn [app]; (split; [|split; [repeat constructor; cbn; congruence|]]); intros p H; members; try done;
    rewrite ?Exists_cons, ?elem_of_cons; unfold is_op; cbn; auto.
Qed.

Lemma settled_rename r rc old new (ok_old ok_new in_db x1 x2 x3 : bool) : renamed_from r = Some old ->
  settled r rc (rename_told rc old new ok_old ok_new in_db x1 x2 x3).
Proof.
  intros Hr. unfold settled, announced, rename_told. rewrite Hr.
  destruct (rc =? -1), ok_old, ok_new, in_db; cbn [app];
    (split; [|split; [repeat constructor; cbn; congruence|]]); intros p H; members; try done;
    rewrite ?Exists_cons, ?elem_of_cons; unfold is_op; cbn; auto 12.
Qed.

(** *** The wrappers return *)

(** The client answers, whatever it answers. *)
Definition answering (S : Type) {SE : Session S} : Prop :=
  forall op access fd dirfd path buf extra1 extra2 (s : S), is_Some (client_op op access fd dirfd path buf extra1 extra2 s).

Section Returns.
Context {K S : Type} {KE : Kernel K} {SE : Session S} (Hans : answering S).

Definition returns {A} (m : io K S A) : Prop := forall w, is_Some (m w).

Lemma returns_bind {A B} (m : io K S A) (f : A -> io K S B) : returns m -> (forall a, returns (f a)) -> returns (m ≫= f).
Proof. intros Hm Hf w. unfold mbind, io_bind. destruct (Hm w) as [[w1 a] ->]. apply Hf. Qed.

Lemma returns_ret {A} (a : A) : returns (mret a).
Proof. intros w. by eexists. Qed.
Lemma returns_get_errno : returns get_errno.
Proof. intros w. by eexists. Qed.
Lemma returns_set_errno e : returns (set_errno e).
Proof. intros w. by eexists. Qed.
Lemma returns_real f : returns (real f).
Proof. intros w. unfold real. destruct (f _) as [[k r] e]. by eexists. Qed.
Lemma returns_stat f : returns (base_stat_call f).
Proof. intros w. unfold base_stat_call. destruct (f _) as [b e]. by eexists. Qed.
Lemma returns_ask op access fd dirfd path buf e1 e2 : returns (ask op access fd dirfd path buf e1 e2).
Proof.
  intros w. unfold ask. destruct (Hans op access fd dirfd path buf e1 e2 (w_session w)) as [[s r] ->]. by eexists.
Qed.
End Returns.

Create HintDb returns.
#[export] Hint Resolve returns_bind returns_ret returns_get_errno returns_set_errno returns_real returns_stat returns_ask : returns.

Ltac returns := repeat first
  [ apply returns_bind; intros | apply returns_ret | apply returns_get_errno | apply returns_set_errno | apply returns_real
  | apply returns_stat | by apply returns_ask | case_match ].

Lemma answering_recorded {S} {SE : Session S} : answering S -> answering (recorded S).
Proof.
  intros H op access fd dirfd path buf e1 e2 s. unfold client_op, recorded_session.
  destruct (H op access fd dirfd path buf e1 e2 s.1) as [[s' r] ->]. by eexists.
Qed.

Lemma removal_returns {K S} {KE : Kernel K} {SE : Session S} (r : removal) (w : world K (recorded S)) :
  answering S -> is_Some (do_removal r w).
Proof.
  intros H%answering_recorded. revert w. change (returns (do_removal r)).
  destruct r; cbn [do_removal]; unfold wrap_remove, wrap_rmdir, wrap_unlink, wrap_unlinkat, announced_unlink, wrap_renameat, wrap_rename,
    rename_body, cancel_rename, finish_rename, tell, base_lstat, base_fstatat; cbv zeta; returns.
Qed.

(** *** Every way out is settled *)

Section Settles.
Context {K S : Type} {KE : Kernel K} {SE : Session S} (r : removal).

Definition settles (m : io K (recorded S) Z) : Prop := forall w w' rc, m w = Some (w', rc) ->
  exists l, (w_session w').2 = l ++ (w_session w).2 /\ settled r rc l.

Lemma settled_nothing rc : settled r rc [].
Proof.
  unfold settled, announced. destruct (rc =? -1); (split; [|split; [constructor|]]); intros p H; members.
Qed.

Lemma settles_ret rc : settles (mret rc).
Proof. intros w w' rc' [= <- <-]. exists []. split; [done|apply settled_nothing]. Qed.

Lemma settles_errno e (m : io K (recorded S) Z) : settles m -> settles (set_errno e ≫= (fun _ => m)).
Proof. intros Hm w w' rc H. apply bind_some in H as (w1 & u & H1 & H). injection H1 as <- _. by apply Hm in H. Qed.

Lemma settles_stat g (f : option statbuf -> io K (recorded S) Z) : (forall b, settles (f b)) -> settles (base_stat_call g ≫= f).
Proof.
  intros Hf w w' rc H. apply bind_some in H as (w1 & b & H1%stat_silent & H). apply Hf in H as (l & Hl & Hs).
  exists l. split; [by rewrite Hl, H1|done].
Qed.

Lemma settles_announced dirfd path remove b : settles (announced_unlink dirfd path remove b).
Proof.
  intros w w' rc H. apply announced_unlink_told in H as (ok & ok' & H).
  eexists. split; [|apply (settled_unlink r rc path ok ok')]. by rewrite H, <- app_assoc.
Qed.

Lemma settles_unlinkat dirfd path rflags : settles (wrap_unlinkat dirfd path rflags).
Proof. apply settles_stat. intros [b|]; [apply settles_announced|apply settles_ret]. Qed.

Lemma settles_rmdir path : settles (wrap_rmdir path).
Proof. apply settles_stat. intros [b|]; [apply settles_announced|apply settles_ret]. Qed.

Lemma settles_remove path : settles (wrap_remove path).
Proof.
  apply settles_stat. intros [b|]; [|apply settles_errno, settles_ret].
  destruct (S_ISDIR _); [apply settles_rmdir|apply settles_unlinkat].
Qed.

Lemma settles_rename od oldpath nd newpath first o1 o2 fd : renamed_from r = oldpath ->
  settles (rename_body od oldpath nd newpath first o1 o2 fd).
Proof.
  intros Hr w w' rc H. apply rename_body_told in H as [H|(old & new & ok_old & ok_new & in_db & x1 & x2 & x3 & -> & -> & H)].
  - exists []. split; [done|apply settled_nothing].
  - eexists. split; [done|by apply settled_rename].
Qed.

Lemma settles_removal : settles (do_removal r).
Proof.
  destruct r eqn:Hr; cbn [do_removal].
  - apply settles_unlinkat.
  - apply settles_rmdir.
  - apply settles_remove.
  - by apply settles_rename; rewrite Hr.
  - by apply settles_rename; rewrite Hr.
Qed.
End Settles.

(** ** Properties *)

(** C35: a call that removes or renames files returns, whatever the kernel and
    the server do, and settles what it announced: if it failed, every deletion
    the server agreed to is cancelled and nothing is confirmed; if it
    succeeded, every one is confirmed, apart from the old name of a rename,
    which the rename itself settles.  Nothing is confirmed or cancelled that
    was not announced. *)
Theorem removal_settled {K S} {KE : Kernel K} {SE : Session S} (r : removal) (w : world K (recorded S)) :
  answering S ->
  exists w' rc l, do_removal r w = Some (w', rc) /\ (w_session w').2 = l ++ (w_session w).2 /\ settled r rc l.
Proof.
  intros Hans. destruct (removal_returns r w Hans) as [[w' rc] Hr]. exists w', rc.
  destruct (settles_removal r w w' rc Hr) as (l & ? & ?). by exists l.
Qed.

(** ** Witness *)

(** A server that agrees to everything. *)
#[local] Instance agreeing : Session unit :=
  fun op _ _ _ _ _ _ _ _ => Some (tt, Some (mkMsg (mkHeader PSEUDO_MSG_ACK op RESULT_SUCCEED 0 0 0 0 0 0 0 0 0 0 0 0) [])).

Definition removal_world : world disk (recorded unit) := mkWorld sample_disk 0 (tt, []) 0x12 None false.

(** Renaming a file that does not exist. *)
Lemma removal_settled_witness : exists w' rc l,
  do_removal (Rename (Some ($"/d/x")) (Some ($"/d/f"))) removal_world = Some (w', rc) /\
  (w_session w').2 = l ++ [] /\ settled (Rename (Some ($"/d/x")) (Some ($"/d/f"))) rc l.
Proof.
  apply (@removal_settled disk unit disk_kernel agreeing (Rename (Some ($"/d/x")) (Some ($"/d/f"))) removal_world).
  intros op access fd dirfd path buf extra1 extra2 s. by eexists.
Defined.

Lemma removal_example : exists w', do_removal (Rename (Some ($"/d/x")) (Some ($"/d/f"))) removal_world = Some (w', -1) /\
  rev (w_session w').2 =
    [Told OP_MAY_UNLINK ($"/d/f") true; Told OP_MAY_UNLINK ($"/d/x") true; Told OP_STAT ($"/d/x") true;
     Told OP_CANCEL_UNLINK ($"/d/f") true; Told OP_CANCEL_UNLINK ($"/d/x") true].
Proof. eexists. split; vm_compute; reflexivity. Qed.
