(* ===== verification/Emulator.v ===== *)
(** What the client promises the wrappers, and what the wrappers make of it.

    [Emulator] is the interface: behind a client stands a server that keeps an
    abstract file system, every operation takes the step [fs_step] prescribes,
    and the answer tells its outcome.  [System.v] shows that the client and
    the server of this development keep the promise.

    Against the interface the wrappers implement [call_step], the calls of a
    program that runs as root: what they return, what they do to the file
    system the program sees, and that [errno] stays as it was. *)

From stdpp Require Import base gmap list option strings.
From Stdlib Require Import ZArith Lia Ascii.
From S2P Require Import Prelude Tables Modes Message Sql FileDb FileDbSpec ServerOp OpInvariant FsSpec OpRefine Refine Io Wrappers.

Open Scope Z_scope.

(** ** The interface *)

(** The operations whose owner is the one new files get. *)
Definition owns (op : pseudo_op_t) : bool :=
  match op with
  | OP_CHMOD | OP_CREAT | OP_FCHMOD | OP_MKDIR | OP_MKNOD | OP_SYMLINK => true
  | _ => false
  end.

(** Operations on one path that do not change what the client knows. *)
Definition asks (op : pseudo_op_t) : bool :=
  owns op ||
  match op with
  | OP_CHOWN | OP_FCHOWN | OP_STAT | OP_FSTAT | OP_LINK | OP_MAY_UNLINK | OP_CANCEL_UNLINK => true
  | _ => false
  end.

Definition stat_key (b : statbuf) : key := (st_dev b, st_ino b).
Definition stat_attrs (b : statbuf) : attrs := mkAttrs (st_uid b) (st_gid b) (st_mode b) (st_rdev b).

(** The attributes that go into the message. *)
Definition sent_attrs (ids : Z * Z) (op : pseudo_op_t) (b : statbuf) : attrs :=
  if owns op then mkAttrs ids.1 ids.2 (st_mode b) (st_rdev b) else stat_attrs b.

(** The values are within the widths the database keeps. *)
Definition stat_ok (b : statbuf) : Prop := key_ok (stat_key b) /\ attrs_ok (stat_attrs b).

(** Paths as the generated part of a wrapper passes them on. *)
Definition canonical (p : bytes) : Prop := path_ok p /\ last p <> Some slash.

Class Emulator (S : Type) {SE : Session S} {SC : ServerConfig} := {
  believes : S -> fs -> Prop;
  new_ids : S -> Z * Z;
  heeded : bytes -> Prop;
  fd_name : S -> Z -> option bytes;
  believes_ok s a : believes s a -> fs_ok a /\ in_uint32 (new_ids s).1 /\ in_uint32 (new_ids s).2;
  emulates s a op fd dirfd path p b a' res oat :
    believes s a -> asks op = true -> in_int32 fd ->
    match path with Some q => q = p | None => fd_name s fd = Some p end -> canonical p -> heeded p -> stat_ok b ->
    fs_step a (Req op p (stat_key b) (sent_attrs (new_ids s) op b) (int32 (st_nlink b))) a' res oat ->
    exists s' m, client_op op 0 fd dirfd path (Some b) None None s = Some (s', Some m) /\
      believes s' a' /\ new_ids s' = new_ids s /\ fd_name s' = fd_name s /\
      m_result (hdr m) = res /\ (forall at_, oat = Some at_ -> msg_attrs (hdr m) = at_)
}.

(** ** The calls *)

Inductive file_call :=
| CallStat (dirfd : Z) (path : bytes) (flags : Z)
| CallFstat (fd : Z)
| CallChmod (dirfd : Z) (path : bytes) (mode flags : Z)
| CallFchmod (fd mode : Z)
| CallChown (dirfd : Z) (path : bytes) (owner group flags : Z)
| CallFchown (fd owner group : Z)
| CallMkdir (dirfd : Z) (path : bytes) (mode : Z)
| CallMknod (dirfd : Z) (path : bytes) (mode dev : Z)
| CallSymlink (target : bytes) (dirfd : Z) (path : bytes).

(** The value, and the buffer of the [stat] calls. *)
Abbreviation outcome := (Z * option statbuf)%type.

(** What root's calls do.  [umask] and [ids] are the process's, [fd_path] says
    which file a descriptor is open on, [b] is what the kernel finds on disk;
    only its device, inode, type and number of links matter for a file the
    server knows. *)
Definition reported (b : statbuf) (at_ : attrs) : statbuf :=
  mkStat (st_dev b) (st_ino b) (a_mode at_) (st_nlink b) (a_uid at_) (a_gid at_) (a_rdev at_).

Definition with_perms (mode : Z) (at_ : attrs) : attrs :=
  mkAttrs (a_uid at_) (a_gid at_) (chmod_mode (a_mode at_) mode) (a_rdev at_).

Definition given_to (owner group : Z) (at_ : attrs) : attrs :=
  mkAttrs (if owner =? KEEP_ID then a_uid at_ else owner) (if group =? KEEP_ID then a_gid at_ else group)
    (a_mode at_) (a_rdev at_).

Definition made (ids : Z * Z) (mode rdev : Z) : attrs := mkAttrs ids.1 ids.2 mode rdev.

Inductive call_step (umask : Z) (ids : Z * Z) (fd_path : Z -> option bytes) (a : fs) :
    file_call -> statbuf -> fs -> outcome -> Prop :=
| call_stat dirfd p flags b at0 : known a p (stat_key b) (stat_attrs b) at0 ->
    call_step umask ids fd_path a (CallStat dirfd p flags) b a (0, Some (reported b at0))
| call_stat_unknown dirfd p flags b : unknown a p (stat_key b) ->
    call_step umask ids fd_path a (CallStat dirfd p flags) b a (0, Some b)
| call_fstat fd p b at0 : fd_path fd = Some p -> known a p (stat_key b) (stat_attrs b) at0 ->
    call_step umask ids fd_path a (CallFstat fd) b a (0, Some (reported b at0))
| call_chmod dirfd p mode flags b at0 : known a p (stat_key b) (stat_attrs b) at0 -> S_ISLNK (st_mode b) = false ->
    call_step umask ids fd_path a (CallChmod dirfd p mode flags) b
      (fs_set_attrs (stat_key b) (with_perms mode at0) a) (0, None)
| call_chmod_unknown dirfd p mode flags b : unknown a p (stat_key b) -> S_ISLNK (st_mode b) = false ->
    call_step umask ids fd_path a (CallChmod dirfd p mode flags) b
      (fs_create p (stat_key b) (made ids (chmod_mode (st_mode b) mode) (st_rdev b)) a) (0, None)
| call_chmod_link dirfd p mode flags b : S_ISLNK (st_mode b) = true ->
    call_step umask ids fd_path a (CallChmod dirfd p mode flags) b a (0, None)
| call_fchmod fd p mode b at0 : fd_path fd = Some p -> known a p (stat_key b) (stat_attrs b) at0 ->
    call_step umask ids fd_path a (CallFchmod fd mode) b
      (fs_set_attrs (stat_key b) (with_perms mode at0) a) (0, None)
| call_chown dirfd p owner group flags b at0 : known a p (stat_key b) (stat_attrs b) at0 ->
    call_step umask ids fd_path a (CallChown dirfd p owner group flags) b
      (fs_set_attrs (stat_key b) (given_to owner group at0) a) (0, None)
| call_chown_unknown dirfd p owner group flags b : unknown a p (stat_key b) ->
    call_step umask ids fd_path a (CallChown dirfd p owner group flags) b
      (fs_create p (stat_key b) (given_to owner group (stat_attrs b)) a) (0, None)
| call_fchown fd p owner group b at0 : fd_path fd = Some p -> known a p (stat_key b) (stat_attrs b) at0 ->
    call_step umask ids fd_path a (CallFchown fd owner group) b
      (fs_set_attrs (stat_key b) (given_to owner group at0) a) (0, None)
| call_mkdir dirfd p mode b : unknown a p (stat_key b) ->
    call_step umask ids fd_path a (CallMkdir dirfd p mode) b
      (fs_create p (stat_key b) (made ids (PSEUDO_DB_MODE (st_mode b) (Z.ldiff mode umask)) (st_rdev b)) a) (0, None)
| call_mknod dirfd p mode dev b : unknown a p (stat_key b) -> Z.land (Z.ldiff mode umask) S_IFMT <> 0 ->
    call_step umask ids fd_path a (CallMknod dirfd p mode dev) b
      (fs_create p (stat_key b)
        (made ids (Z.lor (Z.land (PSEUDO_DB_MODE (st_mode b) (Z.ldiff mode umask)) 0xfff) (Z.ldiff (Z.ldiff mode umask) 0xfff)) dev) a)
      (0, None)
| call_symlink target dirfd p b : unknown a p (stat_key b) ->
    call_step umask ids fd_path a (CallSymlink target dirfd p) b
      (fs_create p (stat_key b) (made ids (st_mode b) (st_rdev b)) a) (0, None).

(** *** Running them *)

Section Calls.
Context {K S : Type} {KE : Kernel K} {SE : Session S}.

Definition do_call (c : file_call) : io K S outcome :=
  match c with
  | CallStat dirfd path flags => wrap_fstatat64 dirfd path flags
  | CallFstat fd => wrap_fstat64 fd
  | CallChmod dirfd path mode flags => rc ← wrap_fchmodat dirfd path mode flags; mret (rc, None)
  | CallFchmod fd mode => rc ← wrap_fchmod fd mode; mret (rc, None)
  | CallChown dirfd path owner group flags => rc ← wrap_fchownat dirfd path owner group flags; mret (rc, None)
  | CallFchown fd owner group => rc ← wrap_fchown fd owner group; mret (rc, None)
  | CallMkdir dirfd path mode => rc ← wrap_mkdirat dirfd path mode; mret (rc, None)
  | CallMknod dirfd path mode dev => rc ← wrap_mknodat dirfd path mode dev; mret (rc, None)
  | CallSymlink target dirfd path => rc ← wrap_symlinkat target dirfd path; mret (rc, None)
  end.

(** The kernel finds [b]; calls that create succeed before.  Calls that
    succeed leave [errno] alone.  The real [chmod]s may do as they like. *)
Definition sees (w : world K S) (c : file_call) (b : statbuf) : Prop :=
  let k := w_kernel w in
  match c with
  | CallStat dirfd path flags | CallChmod dirfd path _ flags | CallChown dirfd path _ _ flags =>
      sys_fstatat dirfd path flags k = (Some b, None)
  | CallFstat fd | CallFchmod fd _ | CallFchown fd _ _ => sys_fstat fd k = (Some b, None)
  | CallMkdir dirfd path mode =>
      exists k1, sys_mkdirat dirfd path (PSEUDO_FS_MODE (Z.ldiff mode (pseudo_umask w)) true) k = (k1, 0, None) /\
        sys_fstatat dirfd path AT_SYMLINK_NOFOLLOW k1 = (Some b, None)
  | CallMknod dirfd path mode dev =>
      let fs_mode := PSEUDO_FS_MODE (Z.ldiff mode (pseudo_umask w)) false in
      (sys_fstatat dirfd path AT_SYMLINK_NOFOLLOW k).1 = None /\
      exists k1 fd, sys_openat dirfd path (Z.lor O_CREAT (Z.lor O_WRONLY O_EXCL)) fs_mode k = (k1, fd, None) /\ fd <> -1 /\
        (sys_fstat fd (sys_fchmod fd fs_mode k1).1.1).1 = Some b
  | CallSymlink target dirfd path =>
      exists k1, sys_symlinkat (rooted_target (pseudo_chroot w, pseudo_nosymlinkexp w) target) dirfd path k = (k1, 0, None) /\
        sys_fstatat dirfd path AT_SYMLINK_NOFOLLOW k1 = (Some b, None)
  end.

(** The path a call is about. *)
Definition call_names (fd_path : Z -> option bytes) (c : file_call) (p : bytes) : Prop :=
  match c with
  | CallStat _ q _ | CallChmod _ q _ _ | CallChown _ q _ _ _ | CallMkdir _ q _ | CallMknod _ q _ _ | CallSymlink _ _ q => q = p
  | CallFstat fd | CallFchmod fd _ | CallFchown fd _ _ => fd_path fd = Some p
  end.

(** The arguments are values of their types. *)
Definition call_fits (c : file_call) : Prop :=
  match c with
  | CallStat _ _ _ | CallSymlink _ _ _ => True
  | CallFstat fd => in_int32 fd
  | CallChmod _ _ mode _ | CallMkdir _ _ mode => 0 <= mode < 2 ^ 31
  | CallFchmod fd mode => in_int32 fd /\ 0 <= mode < 2 ^ 31
  | CallChown _ _ owner group _ => in_uint32 owner /\ in_uint32 group
  | CallFchown fd owner group => in_int32 fd /\ in_uint32 owner /\ in_uint32 group
  | CallMknod _ _ mode dev => 0 <= mode < 2 ^ 31 /\ 0 <= dev < 2 ^ 31
  end.
End Calls.

(** ** Modes *)

Lemma bounded_bits n z : 0 <= n -> 0 <= z < 2 ^ n <-> 0 <= z /\ forall i, n <= i -> Z.testbit z i = false.
Proof.
  intros Hn. split.
  - intros Hz. split; [lia|]. intros i Hi. destruct (Z.eq_dec z 0) as [->|]; [apply Z.testbit_0_l|].
    apply Z.bits_above_log2; [lia|]. apply (Z.lt_le_trans _ n); [|done]. apply Z.log2_lt_pow2; lia.
  - intros [H0 Hb]. split; [done|]. destruct (Z.eq_dec z 0) as [->|Hnz]; [by apply Z.pow_pos_nonneg|].
    apply Z.log2_lt_pow2; [lia|]. destruct (Z.lt_ge_cases (Z.log2 z) n) as [|Hge]; [done|].
    specialize (Hb _ Hge). rewrite Z.bit_log2 in Hb by lia. done.
Qed.

Lemma lor_bound n x y : 0 <= n -> 0 <= x < 2 ^ n -> 0 <= y < 2 ^ n -> 0 <= Z.lor x y < 2 ^ n.
Proof.
  intros Hn. rewrite !bounded_bits by done. intros [Hx Bx] [Hy By]. split; [by apply Z.lor_nonneg|].
  intros i Hi. by rewrite Z.lor_spec, Bx, By by done.
Qed.

Lemma land_bound n x y : 0 <= n -> 0 <= x < 2 ^ n -> 0 <= Z.land x y < 2 ^ n.
Proof.
  intros Hn. rewrite !bounded_bits by done. intros [Hx Bx]. split; [apply Z.land_nonneg; by left|].
  intros i Hi. by rewrite Z.land_spec, Bx by done.
Qed.

Lemma ldiff_bound n x y : 0 <= n -> 0 <= x < 2 ^ n -> 0 <= Z.ldiff x y < 2 ^ n.
Proof.
  intros Hn. rewrite !bounded_bits by done. intros [Hx Bx]. split; [apply Z.ldiff_nonneg; by left|].
  intros i Hi. by rewrite Z.ldiff_spec, Bx by done.
Qed.

#[export] Hint Resolve lor_bound land_bound ldiff_bound : mode_bounds.

Lemma chmod_mode_ok st mode : 0 <= st < 2 ^ 31 -> 0 <= mode < 2 ^ 31 -> 0 <= chmod_mode st mode < 2 ^ 31.
Proof. intros. unfold chmod_mode. auto with lia mode_bounds. Qed.

Lemma db_mode_ok fs mode : 0 <= fs < 2 ^ 31 -> 0 <= mode < 2 ^ 31 -> 0 <= PSEUDO_DB_MODE fs mode < 2 ^ 31.
Proof. intros. unfold PSEUDO_DB_MODE. auto with lia mode_bounds. Qed.

(** What [chmod] sends and the server keeps of it. *)
Lemma merge_chmod disk mode old : merge_mode (chmod_mode disk mode) old = chmod_mode old mode.
Proof.
  unfold merge_mode, chmod_mode. rewrite Z.lor_comm. f_equal. apply Z.bits_inj'. intros i Hi.
  rewrite !Z.land_spec, Z.lor_spec, Z.ldiff_spec, Z.land_spec.
  destruct (Z.testbit 0xfff i); by rewrite ?andb_false_r, ?andb_true_r, ?orb_false_l.
Qed.

(** The type bits are those of the first argument. *)
Lemma type_of_bits x y : Z.ldiff x 0xfff = Z.ldiff y 0xfff -> Z.land x S_IFMT = Z.land y S_IFMT.
Proof.
  intros H. assert (forall z, Z.land z S_IFMT = Z.land (Z.ldiff z 0xfff) S_IFMT) as Hz.
  { intros z. apply Z.bits_inj'. intros i Hi. rewrite !Z.land_spec, Z.ldiff_spec.
    destruct (Z.testbit z i) eqn:Hzi; [|done]. cbn [andb].
    destruct (Z.lt_ge_cases i 16) as [Hlt|Hge].
    - assert (i = 0 \/ i = 1 \/ i = 2 \/ i = 3 \/ i = 4 \/ i = 5 \/ i = 6 \/ i = 7 \/ i = 8 \/ i = 9 \/ i = 10 \/ i = 11 \/
        i = 12 \/ i = 13 \/ i = 14 \/ i = 15) as Hi' by lia.
      repeat destruct Hi' as [-> | Hi']; subst; reflexivity.
    - rewrite (Z.bits_above_log2 S_IFMT i), andb_false_r; [done|vm_compute; congruence|].
      apply (Z.lt_le_trans _ 16); [vm_compute; congruence|done]. }
  by rewrite (Hz x), (Hz y), H.
Qed.

Lemma ldiff_chmod st mode : Z.ldiff (chmod_mode st mode) 0xfff = Z.ldiff st 0xfff.
Proof.
  apply Z.bits_inj'. intros i Hi. unfold chmod_mode. rewrite !Z.ldiff_spec, Z.lor_spec, Z.ldiff_spec, Z.land_spec.
  destruct (Z.testbit st i), (Z.testbit mode i), (Z.testbit 0xfff i); done.
Qed.

Lemma same_type_chmod at0 b mode : same_type at0 (st_mode b) -> same_type at0 (chmod_mode (st_mode b) mode).
Proof.
  unfold same_type, S_ISDIR, S_ISLNK. by rewrite (type_of_bits (chmod_mode (st_mode b) mode) (st_mode b)) by apply ldiff_chmod.
Qed.

(** ** The wrappers implement the calls *)

Lemma stat_ok_bounds b : stat_ok b -> in_uint32 (st_uid b) /\ in_uint32 (st_gid b) /\ 0 <= st_mode b < 2 ^ 31 /\ 0 <= st_rdev b < 2 ^ 31.
Proof. by intros [_ H]. Qed.

Lemma stat_ok_mode b m : stat_ok b -> 0 <= m < 2 ^ 31 -> stat_ok (set_st_mode m b).
Proof. intros [Hk (?&?&?&?)] Hm. split; [done|]. repeat (split; [done|]). done. Qed.

Lemma stat_ok_rdev b r : stat_ok b -> 0 <= r < 2 ^ 31 -> stat_ok (set_st_rdev r b).
Proof. intros [Hk (?&?&?&?)] Hr. split; [done|]. repeat (split; [done|]). done. Qed.

Lemma stat_ok_owner b u g : stat_ok b -> in_uint32 u -> in_uint32 g -> stat_ok (set_st_owner u g b).
Proof. intros [Hk (?&?&?&?)] Hu Hg. split; [done|]. repeat (split; [done|]). done. Qed.

Lemma reported_ok b at_ : stat_ok b -> attrs_ok at_ -> stat_ok (reported b at_).
Proof. intros [Hk _] (?&?&?&?). split; [done|]. repeat (split; [done|]). done. Qed.

Lemma known_mode a p k b at0 m : known a p k (stat_attrs b) at0 -> same_type (a_mode at0) m ->
  forall u g r, known a p k (mkAttrs u g m r) at0.
Proof. intros (? & ? & _) Ht u g r. by split. Qed.

(** Run the model of a wrapper up to its next call. *)
Ltac run := unfold mbind, io_bind, mret, io_ret, base_fstatat, base_fstat, base_stat_call, get_errno, set_errno, real, get_umask, get_chroot;
  cbn [default from_option id w_kernel w_errno w_session pseudo_umask Io.pseudo_chroot pseudo_nosymlinkexp].

Section Emulation.
Context {K S : Type} {KE : Kernel K} {SE : Session S} {SC : ServerConfig} {EM : Emulator S}.
Context (no_xattrdb : PSEUDO_XATTRDB = false).

(** One operation of a wrapper. *)
Lemma tell_ok (k : K) e s u c n a op fd dirfd path p b a' res oat :
  believes s a -> asks op = true -> in_int32 fd ->
  match path with Some q => q = p | None => fd_name s fd = Some p end -> canonical p -> heeded p -> stat_ok b ->
  fs_step a (Req op p (stat_key b) (sent_attrs (new_ids s) op b) (int32 (st_nlink b))) a' res oat ->
  exists s' m, tell op 0 fd dirfd path (Some b) (mkWorld k e s u c n) = Some (mkWorld k e s' u c n, Some m) /\
    believes s' a' /\ new_ids s' = new_ids s /\ fd_name s' = fd_name s /\
    m_result (hdr m) = res /\ (forall at_, oat = Some at_ -> msg_attrs (hdr m) = at_).
Proof.
  intros Hb Ho Hfd Hp Hc Hh Hs Hst.
  destruct (emulates s a op fd dirfd path p b a' res oat Hb Ho Hfd Hp Hc Hh Hs Hst) as (s' & m & Hop & H).
  exists s', m. split; [|done]. unfold tell, ask. cbn [w_session]. by rewrite Hop.
Qed.

Lemma overlay_reported m b at0 : m_result (hdr m) = RESULT_SUCCEED -> msg_attrs (hdr m) = at0 -> attrs_ok at0 ->
  overlay (Some m) b = reported b at0.
Proof.
  intros Hr <- (_ & _ & Hm & _). unfold overlay, succeeded. rewrite Hr, Z.eqb_refl. cbn.
  unfold reported, msg_attrs in *. cbn in *. rewrite wrap_unsigned_small by lia. done.
Qed.

(** Asking for the attributes. *)
Lemma tell_stat (k : K) e s u c n a op fd dirfd path p b at0 :
  is_stat op = true -> believes s a -> in_int32 fd ->
  match path with Some q => q = p | None => fd_name s fd = Some p end -> canonical p -> heeded p -> stat_ok b ->
  known a p (stat_key b) (stat_attrs b) at0 ->
  exists s' m, tell op 0 fd dirfd path (Some b) (mkWorld k e s u c n) = Some (mkWorld k e s' u c n, Some m) /\
    believes s' a /\ new_ids s' = new_ids s /\ fd_name s' = fd_name s /\ overlay (Some m) b = reported b at0.
Proof.
  intros Ho Hb Hfd Hp Hc Hh Hs Hk.
  assert (asks op = true /\ sent_attrs (new_ids s) op b = stat_attrs b) as [Ha Hat] by (by destruct op).
  destruct (tell_ok k e s u c n a op fd dirfd path p b a RESULT_SUCCEED (Some at0) Hb Ha Hfd Hp Hc Hh Hs)
    as (s' & m & Ht & Hb' & Hi & Hf & Hr & Hm).
  { rewrite Hat. apply step_stat; [done|done|by left]. }
  exists s', m. do 4 (split; [done|]). apply overlay_reported; [done|by apply Hm|].
  destruct (believes_ok s a Hb) as [Hfs _]. destruct Hk as (_ & Hin & _). by eapply Hfs.
Qed.

Lemma tell_stat_unknown (k : K) e s u c n a op fd dirfd path p b :
  is_stat op = true -> believes s a -> in_int32 fd ->
  match path with Some q => q = p | None => fd_name s fd = Some p end -> canonical p -> heeded p -> stat_ok b ->
  unknown a p (stat_key b) ->
  exists s' m, tell op 0 fd dirfd path (Some b) (mkWorld k e s u c n) = Some (mkWorld k e s' u c n, Some m) /\
    believes s' a /\ new_ids s' = new_ids s /\ fd_name s' = fd_name s /\ overlay (Some m) b = b.
Proof.
  intros Ho Hb Hfd Hp Hc Hh Hs Hk.
  assert (asks op = true) as Ha by (by destruct op).
  destruct (tell_ok k e s u c n a op fd dirfd path p b a RESULT_FAIL None Hb Ha Hfd Hp Hc Hh Hs)
    as (s' & m & Ht & Hb' & Hi & Hf & Hr & Hm); [by apply step_stat_unknown|].
  exists s', m. do 4 (split; [done|]). unfold overlay, succeeded. by rewrite Hr.
Qed.

(** What holds after a call. *)
Definition call_done (w w' : world K S) (a' : fs) : Prop :=
  believes (w_session w') a' /\ w_errno w' = w_errno w /\ pseudo_umask w' = pseudo_umask w /\
  new_ids (w_session w') = new_ids (w_session w) /\ fd_name (w_session w') = fd_name (w_session w).

Lemma chmod_tells (k : K) e s u c n a dirfd p mode flags b a' :
  believes s a -> canonical p -> heeded p -> stat_ok b -> 0 <= mode < 2 ^ 31 ->
  sys_fstatat dirfd p flags k = (Some b, None) -> S_ISLNK (st_mode b) = false ->
  fs_step a (Req OP_CHMOD p (stat_key b) (made (new_ids s) (chmod_mode (st_mode b) mode) (st_rdev b)) (int32 (st_nlink b)))
    a' RESULT_SUCCEED None ->
  exists w', wrap_fchmodat dirfd p mode flags (mkWorld k e s u c n) = Some (w', 0) /\ call_done (mkWorld k e s u c n) w' a'.
Proof.
  intros Hb Hc Hh Hs Hm Hst Hl Hfs.
  assert (stat_ok (set_st_mode (chmod_mode (st_mode b) mode) b)) as Hs'
    by (apply stat_ok_mode; [done|]; apply chmod_mode_ok; [apply (stat_ok_bounds _ Hs)|done]).
  destruct (sys_fchmodat dirfd p (PSEUDO_FS_MODE mode (S_ISDIR (st_mode b))) flags k) as [[k1 rc] e1] eqn:Hreal.
  destruct (tell_ok k1 (default e e1) s u c n a OP_CHMOD (-1) dirfd (Some p) p _ a' _ None Hb eq_refl ltac:(by vm_compute)
    eq_refl Hc Hh Hs' Hfs) as (s' & m & Ht & Hb' & Hi & Hf & _).
  unfold wrap_fchmodat. run. rewrite Hst. rewrite Hl. run. rewrite Hreal.
  cbn [w_kernel w_errno w_session pseudo_umask pseudo_chroot pseudo_nosymlinkexp]. rewrite Ht. eexists. split; [done|].
  by split_and!.
Qed.

Lemma fchmod_tells (k : K) e s u c n a fd p mode b a' :
  believes s a -> fd_name s fd = Some p -> in_int32 fd -> canonical p -> heeded p -> stat_ok b -> 0 <= mode < 2 ^ 31 ->
  sys_fstat fd k = (Some b, None) ->
  fs_step a (Req OP_FCHMOD p (stat_key b) (made (new_ids s) (chmod_mode (st_mode b) mode) (st_rdev b)) (int32 (st_nlink b)))
    a' RESULT_SUCCEED None ->
  exists w', wrap_fchmod fd mode (mkWorld k e s u c n) = Some (w', 0) /\ call_done (mkWorld k e s u c n) w' a'.
Proof.
  intros Hb Hn Hi Hc Hh Hs Hm Hst Hfs.
  assert (stat_ok (set_st_mode (chmod_mode (st_mode b) mode) b)) as Hs'
    by (apply stat_ok_mode; [done|]; apply chmod_mode_ok; [apply (stat_ok_bounds _ Hs)|done]).
  destruct (tell_ok k e s u c n a OP_FCHMOD fd (-1) None p _ a' _ None Hb eq_refl Hi Hn Hc Hh Hs' Hfs)
    as (s' & m & Ht & Hb' & Hids & Hf & _).
  unfold wrap_fchmod. run. rewrite Hst. run. rewrite Ht. run.
  destruct (sys_fchmod _ _ k) as [[k1 rc] e1]. eexists. split; [done|]. by split_and!.
Qed.

(** The owner that goes to the server. *)
Lemma owner_sent owner group b at0 : in_uint32 owner -> in_uint32 group -> stat_ok b -> attrs_ok at0 ->
  stat_ok (new_owner owner group (reported b at0)) /\
  stat_attrs (new_owner owner group (reported b at0)) = given_to owner group at0.
Proof.
  intros Ho Hg Hs Hat. split; [|unfold new_owner, given_to; by destruct (owner =? KEEP_ID), (group =? KEEP_ID)].
  apply stat_ok_owner; [by apply reported_ok| |]; destruct Hat as (?&?&_).
  - by destruct (owner =? KEEP_ID).
  - by destruct (group =? KEEP_ID).
Qed.

Lemma reported_self b : reported b (stat_attrs b) = b.
Proof. by destruct b. Qed.

(** What goes to the server: the new owner, and attributes of the right
    type. *)
Definition owner_ready (owner group : Z) (b b1 : statbuf) (at0 : attrs) : Prop :=
  let b2 := new_owner owner group b1 in
  stat_ok b2 /\ stat_key b2 = stat_key b /\ st_nlink b2 = st_nlink b /\
  a_uid (given_to owner group at0) = st_uid b2 /\ a_gid (given_to owner group at0) = st_gid b2 /\
  (st_mode b2 = a_mode at0 \/ st_mode b2 = st_mode b).

Lemma new_owner_ok owner group b : in_uint32 owner -> in_uint32 group -> stat_ok b -> stat_ok (new_owner owner group b).
Proof.
  intros Ho Hg Hs. apply stat_ok_owner; [done| |]; destruct (stat_ok_bounds _ Hs) as (?&?&_).
  - by destruct (owner =? KEEP_ID).
  - by destruct (group =? KEEP_ID).
Qed.

Lemma chown_step o a p b b1 owner group at0 n : is_chown o = true -> owner_ready owner group b b1 at0 ->
  known a p (stat_key b) (stat_attrs b) at0 ->
  fs_step a (Req o p (stat_key b) (sent_attrs n o (new_owner owner group b1)) (int32 (st_nlink (new_owner owner group b1))))
    (fs_set_attrs (stat_key b) (given_to owner group at0) a) RESULT_SUCCEED None.
Proof.
  intros Ho (_ & _ & _ & Hu & Hg & Hmode) (Hn & Hin & Hty).
  assert (sent_attrs n o (new_owner owner group b1) = stat_attrs (new_owner owner group b1)) as -> by (by destruct o).
  assert (given_to owner group at0 = mkAttrs (a_uid (stat_attrs (new_owner owner group b1)))
    (a_gid (stat_attrs (new_owner owner group b1))) (a_mode at0) (a_rdev at0)) as ->
    by (cbn [stat_attrs a_uid a_gid]; by rewrite <- Hu, <- Hg).
  apply step_chown; [done|]. split; [done|]. split; [done|]. cbn [stat_attrs a_mode].
  by destruct Hmode as [-> | ->].
Qed.

Lemma owner_known (k : K) e s u c n a fd path p owner group b at0 :
  believes s a -> in_int32 fd -> match path with Some q => q = p | None => fd_name s fd = Some p end ->
  canonical p -> heeded p -> stat_ok b -> in_uint32 owner -> in_uint32 group -> known a p (stat_key b) (stat_attrs b) at0 ->
  exists s' b1, current_owner fd path owner group b (mkWorld k e s u c n) = Some (mkWorld k e s' u c n, b1) /\
    believes s' a /\ new_ids s' = new_ids s /\ fd_name s' = fd_name s /\ owner_ready owner group b b1 at0.
Proof.
  intros Hb Hi Hn Hc Hh Hs Ho Hg Hk. unfold current_owner, owner_ready.
  assert (attrs_ok at0) as Hat by (destruct (believes_ok s a Hb) as [Hfs _]; destruct Hk as (_ & Hin & _); by eapply Hfs).
  destruct ((owner =? KEEP_ID) || (group =? KEEP_ID)) eqn:Hkeep.
  - destruct (tell_stat k e s u c n a OP_STAT fd (-1) path p b at0 eq_refl Hb Hi Hn Hc Hh Hs Hk)
      as (s' & m & Ht & Hb' & Hids & Hf & Hov).
    run. rewrite Ht, Hov. eexists _, _. do 4 (split; [done|]). split; [by apply new_owner_ok, reported_ok|].
    unfold given_to, new_owner. destruct (owner =? KEEP_ID), (group =? KEEP_ID); cbn; by auto 6.
  - apply orb_false_iff in Hkeep as [Hko Hkg]. run. eexists _, _. do 4 (split; [done|]).
    split; [by apply new_owner_ok|]. unfold given_to, new_owner. rewrite Hko, Hkg. cbn. do 4 (split; [done|]). by right.
Qed.

Lemma owner_unknown (k : K) e s u c n a fd path p owner group b :
  believes s a -> in_int32 fd -> match path with Some q => q = p | None => fd_name s fd = Some p end ->
  canonical p -> heeded p -> stat_ok b -> unknown a p (stat_key b) ->
  exists s', current_owner fd path owner group b (mkWorld k e s u c n) = Some (mkWorld k e s' u c n, b) /\
    believes s' a /\ new_ids s' = new_ids s /\ fd_name s' = fd_name s.
Proof.
  intros Hb Hi Hn Hc Hh Hs Hk. unfold current_owner. destruct (_ || _); [|by exists s].
  destruct (tell_stat_unknown k e s u c n a OP_STAT fd (-1) path p b eq_refl Hb Hi Hn Hc Hh Hs Hk)
    as (s' & m & Ht & Hb' & Hids & Hf & Hov).
  run. rewrite Ht, Hov. by exists s'.
Qed.

Lemma chown_known (k : K) e s u c n a dirfd p owner group flags b at0 :
  believes s a -> canonical p -> heeded p -> stat_ok b -> in_uint32 owner -> in_uint32 group ->
  sys_fstatat dirfd p flags k = (Some b, None) -> known a p (stat_key b) (stat_attrs b) at0 ->
  exists w', wrap_fchownat dirfd p owner group flags (mkWorld k e s u c n) = Some (w', 0) /\
    call_done (mkWorld k e s u c n) w' (fs_set_attrs (stat_key b) (given_to owner group at0) a).
Proof.
  intros Hb Hc Hh Hs Ho Hg Hst Hk.
  destruct (owner_known k e s u c n a (-1) (Some p) p owner group b at0 Hb ltac:(by vm_compute) eq_refl Hc Hh Hs Ho Hg Hk)
    as (s1 & b1 & Hcur & Hb1 & Hi1 & Hf1 & Hs2 & Hkey & Hnl & Hu & Hgr & Hmode).
  destruct (tell_ok k e s1 u c n a OP_CHOWN (-1) dirfd (Some p) p _ (fs_set_attrs (stat_key b) (given_to owner group at0) a)
    RESULT_SUCCEED None Hb1 eq_refl ltac:(by vm_compute) eq_refl Hc Hh Hs2) as (s2 & m & Ht & Hb2 & Hi2 & Hf2 & _).
  { rewrite Hkey. eapply chown_step; done. }
  unfold wrap_fchownat. run. rewrite Hst. run. rewrite Hcur. run. rewrite Ht.
  eexists. split; [done|]. unfold call_done. cbn. by rewrite Hi2, Hi1, Hf2, Hf1.
Qed.

Lemma chown_unknown (k : K) e s u c n a dirfd p owner group flags b :
  believes s a -> canonical p -> heeded p -> stat_ok b -> in_uint32 owner -> in_uint32 group ->
  sys_fstatat dirfd p flags k = (Some b, None) -> unknown a p (stat_key b) ->
  exists w', wrap_fchownat dirfd p owner group flags (mkWorld k e s u c n) = Some (w', 0) /\
    call_done (mkWorld k e s u c n) w' (fs_create p (stat_key b) (given_to owner group (stat_attrs b)) a).
Proof.
  intros Hb Hc Hh Hs Ho Hg Hst Hk.
  destruct (owner_unknown k e s u c n a (-1) (Some p) p owner group b Hb ltac:(by vm_compute) eq_refl Hc Hh Hs Hk)
    as (s1 & Hcur & Hb1 & Hi1 & Hf1).
  destruct (owner_sent owner group b (stat_attrs b) Ho Hg Hs (proj2 Hs)) as [Hs2 Hat]. rewrite reported_self in Hs2, Hat.
  destruct (tell_ok k e s1 u c n a OP_CHOWN (-1) dirfd (Some p) p _ (fs_create p (stat_key b) (given_to owner group (stat_attrs b)) a)
    RESULT_SUCCEED None Hb1 eq_refl ltac:(by vm_compute) eq_refl Hc Hh Hs2) as (s2 & m & Ht & Hb2 & Hi2 & Hf2 & _).
  { rewrite <- Hat. by apply (step_create a OP_CHOWN). }
  unfold wrap_fchownat. run. rewrite Hst. run. rewrite Hcur. run. rewrite Ht.
  eexists. split; [done|]. unfold call_done. cbn. by rewrite Hi2, Hi1, Hf2, Hf1.
Qed.

Lemma fchown_known (k : K) e s u c n a fd p owner group b at0 :
  believes s a -> in_int32 fd -> fd_name s fd = Some p -> canonical p -> heeded p -> stat_ok b ->
  in_uint32 owner -> in_uint32 group -> sys_fstat fd k = (Some b, None) -> known a p (stat_key b) (stat_attrs b) at0 ->
  exists w', wrap_fchown fd owner group (mkWorld k e s u c n) = Some (w', 0) /\
    call_done (mkWorld k e s u c n) w' (fs_set_attrs (stat_key b) (given_to owner group at0) a).
Proof.
  intros Hb Hfd Hn Hc Hh Hs Ho Hg Hst Hk.
  destruct (owner_known k e s u c n a fd None p owner group b at0 Hb Hfd Hn Hc Hh Hs Ho Hg Hk)
    as (s1 & b1 & Hcur & Hb1 & Hi1 & Hf1 & Hready).
  pose proof Hready as (Hs2 & Hkey & _).
  destruct (tell_ok k e s1 u c n a OP_FCHOWN fd (-1) None p _ (fs_set_attrs (stat_key b) (given_to owner group at0) a)
    RESULT_SUCCEED None Hb1 eq_refl Hfd ltac:(by rewrite Hf1) Hc Hh Hs2) as (s2 & m & Ht & Hb2 & Hi2 & Hf2 & _).
  { rewrite Hkey. eapply chown_step; done. }
  unfold wrap_fchown. run. rewrite Hst. run. rewrite Hcur. run. rewrite Ht.
  eexists. split; [done|]. unfold call_done. cbn. by rewrite Hi2, Hi1, Hf2, Hf1.
Qed.

Lemma stat_call (k : K) e s u c n a dirfd p flags b b' :
  believes s a -> canonical p -> heeded p -> stat_ok b -> sys_fstatat dirfd p flags k = (Some b, None) ->
  (exists at0, known a p (stat_key b) (stat_attrs b) at0 /\ b' = reported b at0) \/ unknown a p (stat_key b) /\ b' = b ->
  exists s', wrap_fstatat64 dirfd p flags (mkWorld k e s u c n) = Some (mkWorld k e s' u c n, (0, Some b')) /\
    believes s' a /\ new_ids s' = new_ids s /\ fd_name s' = fd_name s.
Proof.
  intros Hb Hc Hh Hs Hst Hk. unfold wrap_fstatat64, wrap___fxstatat64. run. rewrite Hst. run. rewrite Z.eqb_refl. cbn [negb].
  assert (exists s' m, tell OP_STAT 0 (-1) dirfd (Some p) (Some b) (mkWorld k e s u c n) = Some (mkWorld k e s' u c n, Some m) /\
    believes s' a /\ new_ids s' = new_ids s /\ fd_name s' = fd_name s /\ overlay (Some m) b = b') as (s' & m & Ht & Hb' & Hi & Hf & Hov).
  { destruct Hk as [(at0 & Hk & ->)|[Hk ->]].
    - by apply (tell_stat k e s u c n a OP_STAT (-1) dirfd (Some p) p b at0).
    - by apply (tell_stat_unknown k e s u c n a OP_STAT (-1) dirfd (Some p) p b). }
  rewrite Ht. run. rewrite Hov. by exists s'.
Qed.

Lemma fstat_call (k : K) e s u c n a fd p b at0 :
  believes s a -> in_int32 fd -> fd_name s fd = Some p -> canonical p -> heeded p -> stat_ok b -> sys_fstat fd k = (Some b, None) ->
  known a p (stat_key b) (stat_attrs b) at0 ->
  exists w', wrap_fstat64 fd (mkWorld k e s u c n) = Some (w', (0, Some (reported b at0))) /\ call_done (mkWorld k e s u c n) w' a.
Proof.
  intros Hb Hfd Hn Hc Hh Hs Hst Hk. unfold wrap_fstat64, wrap___fxstat64. run. rewrite Hst. run. rewrite Z.eqb_refl. cbn [negb].
  destruct (tell_stat k e s u c n a OP_FSTAT fd (-1) None p b at0 eq_refl Hb Hfd Hn Hc Hh Hs Hk)
    as (s' & m & Ht & Hb' & Hids & Hf & Hov).
  rewrite Ht. run. rewrite Hov. eexists. by split.
Qed.

(** A file that is new to the server. *)
Lemma tell_new (k : K) e s u c n a op dirfd p b :
  owns op = true -> creates op = true -> believes s a -> canonical p -> heeded p -> stat_ok b -> unknown a p (stat_key b) ->
  exists s' m, tell op 0 (-1) dirfd (Some p) (Some b) (mkWorld k e s u c n) = Some (mkWorld k e s' u c n, Some m) /\
    believes s' (fs_create p (stat_key b) (made (new_ids s) (st_mode b) (st_rdev b)) a) /\
    new_ids s' = new_ids s /\ fd_name s' = fd_name s /\ m_result (hdr m) = RESULT_SUCCEED.
Proof.
  intros Ho Hcr Hb Hc Hh Hs Hk.
  assert (asks op = true) as Ha by (unfold asks; by rewrite Ho).
  destruct (tell_ok k e s u c n a op (-1) dirfd (Some p) p b _ RESULT_SUCCEED None Hb Ha ltac:(by vm_compute) eq_refl Hc Hh Hs
    (step_create a op p (stat_key b) (sent_attrs (new_ids s) op b) (int32 (st_nlink b)) Hcr Hk))
    as (s' & m & Ht & Hb' & Hi & Hf & Hr & _).
  unfold sent_attrs in Hb'. rewrite Ho in Hb'. by exists s', m.
Qed.

Lemma mkdir_new (k : K) e s u c n a dirfd p mode b k1 :
  believes s a -> canonical p -> heeded p -> stat_ok b -> 0 <= mode < 2 ^ 31 -> unknown a p (stat_key b) ->
  sys_mkdirat dirfd p (PSEUDO_FS_MODE (Z.ldiff mode u) true) k = (k1, 0, None) ->
  sys_fstatat dirfd p AT_SYMLINK_NOFOLLOW k1 = (Some b, None) ->
  exists w', wrap_mkdirat dirfd p mode (mkWorld k e s u c n) = Some (w', 0) /\ call_done (mkWorld k e s u c n) w'
    (fs_create p (stat_key b) (made (new_ids s) (PSEUDO_DB_MODE (st_mode b) (Z.ldiff mode u)) (st_rdev b)) a).
Proof.
  intros Hb Hc Hh Hs Hm Hk Hmk Hst.
  assert (stat_ok (set_st_mode (PSEUDO_DB_MODE (st_mode b) (Z.ldiff mode u)) b)) as Hs'
    by (apply stat_ok_mode; [done|]; apply db_mode_ok; [apply (stat_ok_bounds _ Hs)|by apply ldiff_bound]).
  destruct (tell_new k1 e s u c n a OP_MKDIR dirfd p _ eq_refl eq_refl Hb Hc Hh Hs' Hk) as (s' & m & Ht & Hb' & Hi & Hf & _).
  unfold wrap_mkdirat. run. rewrite Hmk. run. change (negb (0 =? -1)) with true. run. rewrite Hst. run.
  rewrite Ht. run. destruct (sys_fchmodat _ _ _ 0 k1) as [[k2 rc] e2].
  eexists. split; [done|]. by split_and!.
Qed.

Lemma symlink_new (k : K) e s u c n a target dirfd p b k1 :
  believes s a -> canonical p -> heeded p -> stat_ok b -> unknown a p (stat_key b) ->
  sys_symlinkat (rooted_target (c, n) target) dirfd p k = (k1, 0, None) ->
  sys_fstatat dirfd p AT_SYMLINK_NOFOLLOW k1 = (Some b, None) ->
  exists w', wrap_symlinkat target dirfd p (mkWorld k e s u c n) = Some (w', 0) /\ call_done (mkWorld k e s u c n) w'
    (fs_create p (stat_key b) (made (new_ids s) (st_mode b) (st_rdev b)) a).
Proof.
  intros Hb Hc Hh Hs Hk Hmk Hst.
  destruct (tell_new k1 e s u c n a OP_SYMLINK dirfd p _ eq_refl eq_refl Hb Hc Hh Hs Hk) as (s' & m & Ht & Hb' & Hi & Hf & _).
  unfold wrap_symlinkat. run. rewrite Hmk. run. change (0 =? -1) with false. run. rewrite Hst. run.
  rewrite Ht. eexists. split; [done|]. by split_and!.
Qed.

Lemma mknod_new (k : K) e s u c n a dirfd p mode dev b k1 fd :
  believes s a -> canonical p -> heeded p -> stat_ok b -> 0 <= mode < 2 ^ 31 -> 0 <= dev < 2 ^ 31 -> unknown a p (stat_key b) ->
  Z.land (Z.ldiff mode u) S_IFMT <> 0 ->
  (sys_fstatat dirfd p AT_SYMLINK_NOFOLLOW k).1 = None ->
  sys_openat dirfd p (Z.lor O_CREAT (Z.lor O_WRONLY O_EXCL)) (PSEUDO_FS_MODE (Z.ldiff mode u) false) k = (k1, fd, None) -> fd <> -1 ->
  (sys_fstat fd (sys_fchmod fd (PSEUDO_FS_MODE (Z.ldiff mode u) false) k1).1.1).1 = Some b ->
  exists w', wrap_mknodat dirfd p mode dev (mkWorld k e s u c n) = Some (w', 0) /\ call_done (mkWorld k e s u c n) w'
    (fs_create p (stat_key b) (made (new_ids s)
      (Z.lor (Z.land (PSEUDO_DB_MODE (st_mode b) (Z.ldiff mode u)) 0xfff) (Z.ldiff (Z.ldiff mode u) 0xfff)) dev) a).
Proof.
  intros Hb Hc Hh Hs Hm Hd Hk Hty Hno Hop Hfd Hst. set (mode1 := Z.ldiff mode u) in *.
  assert (0 <= mode1 < 2 ^ 31) as Hm1 by (by apply ldiff_bound).
  set (mode2 := Z.lor _ _).
  assert (stat_ok (set_st_rdev dev (set_st_mode mode2 b))) as Hs'.
  { apply stat_ok_rdev; [|done]. apply stat_ok_mode; [done|]. pose proof (db_mode_ok (st_mode b) mode1).
    unfold mode2. destruct (stat_ok_bounds _ Hs) as (_ & _ & ? & _). auto with lia mode_bounds. }
  unfold wrap_mknodat. run. fold mode1. destruct (sys_fstatat _ _ _ k) as [o0 e0]. cbn in Hno. subst o0.
  rewrite (proj2 (Z.eqb_neq _ _)) by done. run. rewrite Hop. run. rewrite (proj2 (Z.eqb_neq fd (-1))) by done. run.
  destruct (sys_fchmod fd _ k1) as [[k2 rc2] e2]. cbn in Hst. run. destruct (sys_fstat fd k2) as [o3 e3]. cbn in Hst. subst o3.
  run. destruct (sys_close fd k2) as [[k3 rc3] e4]. cbn [default from_option id]. fold mode2.
  match goal with |- context [tell _ _ _ _ _ _ (mkWorld _ ?e' _ _ _ _)] =>
    destruct (tell_new k3 e' s u c n a OP_MKNOD dirfd p _ eq_refl eq_refl Hb Hc Hh Hs' Hk) as (s' & m & Ht & Hb' & Hi & Hf & Hr) end.
  cbn [default from_option id] in *. rewrite Ht. unfold was_refused. rewrite Hr, Z.eqb_refl. cbn [negb]. run.
  eexists. split; [done|]. by split_and!.
Qed.

Lemma call_refines (w : world K S) a c b a' out :
  believes (w_session w) a -> call_fits c -> (forall p, call_names (fd_name (w_session w)) c p -> canonical p /\ heeded p) ->
  stat_ok b -> sees w c b ->
  call_step (pseudo_umask w) (new_ids (w_session w)) (fd_name (w_session w)) a c b a' out ->
  exists w', do_call c w = Some (w', out) /\ call_done w w' a'.
Proof.
  destruct w as [k e s u root n]. cbn [w_session pseudo_umask]. intros Hb Hfit Hp Hs Hsee Hst.
  destruct Hst; cbn [call_fits call_names sees w_kernel pseudo_umask pseudo_chroot pseudo_nosymlinkexp] in *; try specialize (Hp _ eq_refl);
    try match goal with H : fd_name s _ = Some ?q |- _ => specialize (Hp q H) end; try destruct Hp as [Hc Hh]; cbn [do_call].
  - destruct (stat_call k e s u root n a dirfd p flags b (reported b at0)) as (s1 & -> & ? & ? & ?); eauto. eexists. split; [done|]. by split_and!.
  - destruct (stat_call k e s u root n a dirfd p flags b b) as (s1 & -> & ? & ? & ?); eauto. eexists. split; [done|]. by split_and!.
  - destruct (fstat_call k e s u root n a fd p b at0) as (w' & -> & ?); eauto.
  - destruct (chmod_tells k e s u root n a dirfd p mode flags b (fs_set_attrs (stat_key b) (with_perms mode at0) a)) as (w' & Heq & ?);
      try done; [|unfold mbind, io_bind; rewrite Heq; by exists w'].
    unfold with_perms. rewrite <- (merge_chmod (st_mode b) mode (a_mode at0)).
    destruct H as (? & ? & ?). apply (step_chmod a OP_CHMOD); [done|]. split; [done|]. split; [done|by apply same_type_chmod].
  - destruct (chmod_tells k e s u root n a dirfd p mode flags b _ Hb Hc Hh Hs Hfit Hsee H0 (step_create a OP_CHMOD _ _ _ _ eq_refl H))
      as (w' & Heq & ?). unfold mbind, io_bind; rewrite Heq; by exists w'.
  - unfold wrap_fchmodat. run. rewrite Hsee. run. rewrite H. by eexists.
  - destruct Hfit as [Hfd Hm].
    destruct (fchmod_tells k e s u root n a fd p mode b (fs_set_attrs (stat_key b) (with_perms mode at0) a)) as (w' & Heq & ?);
      try done; [|unfold mbind, io_bind; rewrite Heq; by exists w'].
    unfold with_perms. rewrite <- (merge_chmod (st_mode b) mode (a_mode at0)).
    destruct H0 as (? & ? & ?). apply (step_chmod a OP_FCHMOD); [done|]. split; [done|]. split; [done|by apply same_type_chmod].
  - destruct (chown_known k e s u root n a dirfd p owner group flags b at0) as (w' & Heq & ?); try tauto.
    unfold mbind, io_bind; rewrite Heq; by exists w'.
  - destruct (chown_unknown k e s u root n a dirfd p owner group flags b) as (w' & Heq & ?); try tauto.
    unfold mbind, io_bind; rewrite Heq; by exists w'.
  - destruct (fchown_known k e s u root n a fd p owner group b at0) as (w' & Heq & ?); try tauto.
    unfold mbind, io_bind; rewrite Heq; by exists w'.
  - destruct Hsee as (k1 & ? & ?). destruct (mkdir_new k e s u root n a dirfd p mode b k1) as (w' & Heq & ?); try done.
    unfold mbind, io_bind; rewrite Heq; by exists w'.
  - destruct Hsee as (? & k1 & fd & ? & ? & ?). destruct Hfit.
    destruct (mknod_new k e s u root n a dirfd p mode dev b k1 fd) as (w' & Heq & ?); try done.
    unfold mbind, io_bind; rewrite Heq; by exists w'.
  - destruct Hsee as (k1 & ? & ?). destruct (symlink_new k e s u root n a target dirfd p b k1) as (w' & Heq & ?); try done.
    unfold mbind, io_bind; rewrite Heq; by exists w'.
Qed.

(** *** Programs *)

Fixpoint do_calls (cs : list file_call) : io K S (list outcome) :=
  match cs with
  | [] => mret []
  | c :: cs => out ← do_call c; outs ← do_calls cs; mret (out :: outs)
  end.

(** What the kernel finds at each call. *)
Fixpoint finds (cs : list (file_call * statbuf)) (w : world K S) : Prop :=
  match cs with
  | [] => True
  | (c, b) :: cs => sees w c b /\ forall w' out, do_call c w = Some (w', out) -> finds cs w'
  end.

Definition call_ready (fd_path : Z -> option bytes) (cb : file_call * statbuf) : Prop :=
  call_fits cb.1 /\ (forall p, call_names fd_path cb.1 p -> canonical p /\ heeded p) /\ stat_ok cb.2.
End Emulation.

Inductive call_steps (umask : Z) (ids : Z * Z) (fd_path : Z -> option bytes) (a : fs) :
    list (file_call * statbuf) -> fs -> list outcome -> Prop :=
| calls_nil : call_steps umask ids fd_path a [] a []
| calls_cons c b a1 out cs a2 outs :
    call_step umask ids fd_path a c b a1 out -> call_steps umask ids fd_path a1 cs a2 outs ->
    call_steps umask ids fd_path a ((c, b) :: cs) a2 (out :: outs).

(** A program's calls, one after the other. *)
Lemma calls_emulated {K S : Type} {KE : Kernel K} {SE : Session S} {SC : ServerConfig} {EM : Emulator S}
    (cs : list (file_call * statbuf)) (w : world K S) a a' outs :
  PSEUDO_XATTRDB = false ->
  believes (w_session w) a -> Forall (call_ready (fd_name (w_session w))) cs -> finds cs w ->
  call_steps (pseudo_umask w) (new_ids (w_session w)) (fd_name (w_session w)) a cs a' outs ->
  exists w', do_calls (map fst cs) w = Some (w', outs) /\ call_done w w' a'.
Proof.
  intros Hx Hb Hr Hf Hst. revert w outs a Hb Hr Hf Hst.
  induction cs as [|[c b] cs IH]; intros w outs a Hb Hr Hf Hst; inversion Hst; subst; clear Hst.
  - exists w. split; [done|]. by split_and!.
  - apply Forall_cons in Hr as [(Hfit & Hp & Hs) Hr]. destruct Hf as [Hsee Hf].
    match goal with H : call_step _ _ _ _ _ _ _ _ |- _ =>
      destruct (call_refines Hx w a c b _ _ Hb Hfit Hp Hs Hsee H) as (w1 & Hc & Hb1 & He & Hu & Hi & Hn) end.
    match goal with H : call_steps _ _ _ _ _ _ _ |- _ =>
      rewrite <- Hu, <- Hi, <- Hn in H; destruct (IH w1 _ _ Hb1 ltac:(by rewrite Hn) (Hf _ _ Hc) H) as (w2 & Hcs & Hb2 & He2 & Hu2 & Hi2 & Hn2) end.
    exists w2. split; [cbn [map fst do_calls]; unfold mbind, io_bind; by rewrite Hc, Hcs|].
    unfold call_done. rewrite He2, Hu2, Hi2, Hn2. by split_and!.
Qed.
