(* ===== verification/AclSpec.v ===== *)
(** POSIX ACLs: the layout the kernel interface gives them, and what becomes
    of one that is set as an extended attribute. *)

From stdpp Require Import base gmap list option strings.
From Stdlib Require Import ZArith Lia Ascii.
From S2P Require Import Prelude Tables Modes Message ServerOp FsSpec OpRefine Refine Io Wrappers WrapXattr Emulator.

Open Scope Z_scope.

(** ** ACLs as values *)

Record acl_entry := mkAcl { e_tag : acl_tag; e_perm : Z; e_id : Z }.

Definition tag_code (t : acl_tag) : Z :=
  match t with
  | ACL_USER_OBJ => 0x1 | ACL_USER => 0x2 | ACL_GROUP_OBJ => 0x4 | ACL_GROUP => 0x8 | ACL_MASK => 0x10 | ACL_OTHER => 0x20
  end.

Definition entry_bytes (e : acl_entry) : bytes :=
  le_bytes 2 (tag_code (e_tag e)) ++ le_bytes 2 (e_perm e) ++ le_bytes 4 (e_id e).

Definition acl_bytes (es : list acl_entry) : bytes := le_bytes 4 2 ++ concat (map entry_bytes es).

(** The permission bits an entry contributes to the mode, if a mode can
    express it. *)
Definition entry_mode (e : acl_entry) : option Z :=
  match e_tag e with
  | ACL_USER_OBJ => Some (Z.shiftl (e_perm e) 6)
  | ACL_GROUP_OBJ => Some (Z.shiftl (e_perm e) 3)
  | ACL_OTHER => Some (e_perm e)
  | _ => None
  end.

Definition acl_mode (es : list acl_entry) : Z := foldr (fun e m => Z.lor (default 0 (entry_mode e)) m) 0 es.
Definition acl_extra (es : list acl_entry) : nat := length (List.filter (fun e => match entry_mode e with None => true | _ => false end) es).

Definition entry_ok (e : acl_entry) : Prop := 0 <= e_perm e < 8.

Lemma tag_code_inverse t : acl_tag_of (tag_code t) = Some t.
Proof. by destruct t. Qed.

Lemma length_entry_bytes e : length (entry_bytes e) = 8%nat.
Proof. unfold entry_bytes. by rewrite !length_app, !length_le_bytes. Qed.

Lemma field_at (pre post : bytes) n z : 0 <= z < 2 ^ (8 * Z.of_nat n) -> field (length pre) n (pre ++ le_bytes n z ++ post) = z.
Proof.
  intros Hz. unfold field. rewrite drop_app_length, take_app_length' by (by rewrite length_le_bytes).
  rewrite le_val_le_bytes. by apply Z.mod_small.
Qed.

Lemma entry_fields e post : entry_ok e ->
  field 0 2 (entry_bytes e ++ post) = tag_code (e_tag e) /\ field 2 2 (entry_bytes e ++ post) = e_perm e /\
  drop 8 (entry_bytes e ++ post) = post.
Proof.
  intros He. unfold entry_ok in He. split; [|split].
  - unfold entry_bytes. rewrite <- !app_assoc. apply (field_at []). by destruct (e_tag e).
  - unfold entry_bytes. rewrite <- !app_assoc.
    replace 2%nat with (length (le_bytes 2 (tag_code (e_tag e)))) at 1 by apply length_le_bytes.
    apply field_at. change (2 ^ (8 * Z.of_nat 2)) with 65536. lia.
  - rewrite <- (length_entry_bytes e). apply drop_app_length.
Qed.

Lemma entries_read es post extra mode : Forall entry_ok es ->
  acl_entries (length es) (concat (map entry_bytes es) ++ post) extra mode =
  Some (Permissions (extra + Z.of_nat (acl_extra es)) (Z.lor mode (acl_mode es))).
Proof.
  intros Hes. revert extra mode. induction Hes as [|e es He Hes IH]; intros extra mode.
  - cbn. by rewrite Z.lor_0_r, Z.add_0_r.
  - cbn [length acl_entries map concat]. rewrite <- app_assoc. destruct (entry_fields e (concat (map entry_bytes es) ++ post) He) as (-> & -> & Hd).
    assert (Z.of_nat (length (entry_bytes e ++ concat (map entry_bytes es) ++ post)) <? ACL_ENTRY = false) as ->
      by (apply Z.ltb_ge; rewrite length_app, length_entry_bytes; unfold ACL_ENTRY; lia).
    change (Z.to_nat ACL_ENTRY) with 8%nat. rewrite Hd, tag_code_inverse.
    unfold acl_mode, acl_extra, entry_mode. cbn [foldr List.filter].
    destruct (e_tag e); rewrite IH; unfold acl_mode, acl_extra, entry_mode; cbn [default from_option id length];
      rewrite ?Z.lor_0_l, ?Z.lor_assoc; f_equal; f_equal; lia.
Qed.

(** The ACL is read back as it was laid out. *)
Lemma permissions_read es : Forall entry_ok es ->
  posix_permissions (acl_bytes es) (length es) = Some (Permissions (Z.of_nat (acl_extra es)) (acl_mode es)).
Proof.
  intros Hes. unfold posix_permissions, acl_bytes.
  assert (Z.of_nat (length (le_bytes 4 2 ++ concat (map entry_bytes es))) <? ACL_HEADER = false) as ->
    by (apply Z.ltb_ge; rewrite length_app, length_le_bytes; unfold ACL_HEADER; lia).
  assert (field 0 4 (le_bytes 4 2 ++ concat (map entry_bytes es)) = 2) as -> by (by apply (field_at [])). change (negb (int32 2 =? 2)) with false.
  change (Z.to_nat ACL_HEADER) with (length (le_bytes 4 2)). rewrite drop_app_length.
  rewrite <- (app_nil_r (concat _)). rewrite entries_read by done. by rewrite Z.lor_0_l.
Qed.

Lemma length_acl_bytes es : Z.of_nat (length (acl_bytes es)) = ACL_HEADER + ACL_ENTRY * Z.of_nat (length es).
Proof.
  unfold acl_bytes, ACL_HEADER, ACL_ENTRY. rewrite length_app, length_le_bytes.
  assert (length (concat (map entry_bytes es)) = 8 * length es)%nat as ->
    by (induction es as [|e es IH]; [done|cbn [map concat length]; rewrite length_app, length_entry_bytes, IH; lia]).
  lia.
Qed.

Lemma acl_mode_bound es : Forall entry_ok es -> 0 <= acl_mode es < 2 ^ 9.
Proof.
  intros Hes. induction Hes as [|e es He _ IH]; [by vm_compute|]. cbn [acl_mode foldr]. apply lor_bound; [lia| |exact IH].
  unfold entry_mode, entry_ok in *. rewrite ?Z.shiftl_mul_pow2 by lia.
  destruct (e_tag e); cbn [default from_option id]; rewrite ?Z.shiftl_mul_pow2 by lia; lia.
Qed.

(** ** Setting an access ACL *)

Section SetAcl.
Context {K S : Type} {KE : Kernel K} {SE : Session S} {SC : ServerConfig} {EM : Emulator S}.

(** The size of a proper ACL with entries passes the filter. *)
Lemma filter_passes es (w : world K S) : es <> [] ->
  acl_filter ACL_ACCESS (Z.of_nat (length (acl_bytes es))) w = Some (w, StoreXattr).
Proof.
  intros Hne. unfold acl_filter. rewrite bool_decide_eq_true_2 by (vm_compute; reflexivity). rewrite length_acl_bytes.
  assert (0 < Z.of_nat (length es)) by (destruct es; cbn [length]; [done|lia]).
  assert (ACL_HEADER + ACL_ENTRY * Z.of_nat (length es) - ACL_HEADER = Z.of_nat (length es) * ACL_ENTRY) as -> by lia.
  rewrite Z.mod_mul, Z.div_mul by done. unfold ACL_HEADER, ACL_ENTRY. rewrite (proj2 (Z.ltb_ge _ _)) by lia.
  cbn [orb negb Z.eqb]. by rewrite (proj2 (Z.eqb_neq _ _)) by lia.
Qed.

Lemma acl_access_permissions es : Forall entry_ok es ->
  let size := Z.of_nat (length (acl_bytes es)) in
  bytes_at (Some (acl_bytes es)) size = Some (acl_bytes es) /\
  posix_permissions (acl_bytes es) (Z.to_nat ((size - ACL_HEADER) / ACL_ENTRY)) =
    Some (Permissions (Z.of_nat (acl_extra es)) (acl_mode es)).
Proof.
  intros Hes. cbv zeta. split.
  - unfold bytes_at. rewrite Z.leb_refl, Nat2Z.id. by rewrite firstn_all.
  - rewrite length_acl_bytes.
    assert (ACL_HEADER + ACL_ENTRY * Z.of_nat (length es) - ACL_HEADER = Z.of_nat (length es) * ACL_ENTRY) as -> by lia.
    rewrite Z.div_mul, Nat2Z.id by done. by apply permissions_read.
Qed.

(** The mode an ACL asks for, with the bits it cannot express. *)
Definition acl_attrs (es : list acl_entry) (at0 : attrs) : attrs :=
  with_perms (Z.lor (acl_mode es) (Z.land (a_mode at0) 0xe00)) at0.
End SetAcl.

(** ** Properties *)

(** C10: an access ACL that a mode can express is a [chmod] and nothing else, on
    a file the server knows that is not a symbolic link: setting it returns 0,
    leaves [errno] alone, gives the file the permissions of the user, group and
    other entries, keeps the setuid, setgid and sticky bits the program
    believes the file has, and stores no attribute.  This is so where a
    canonical path stays as it is when it is made canonical once more, which
    the lookup of those bits does, that is, outside a changed root (for what
    happens there see [System.acl_in_changed_root]). *)
Theorem acl_is_chmod {K S : Type} {KE : Kernel K} {SE : Session S} {PV : PathView S} {SC : ServerConfig} {EM : Emulator S}
    (w : world K S) a p b at0 es flags :
  PSEUDO_XATTRDB = false -> believes (w_session w) a -> canonical p -> heeded p -> stat_ok b -> S_ISLNK (st_mode b) = false ->
  (forall flags, sys_fstatat AT_FDCWD p flags (w_kernel w) = (Some b, None)) ->
  known a p (stat_key b) (stat_attrs b) at0 ->
  root_path (w_session w) AT_FDCWD p true = Some p -> path_ignored (w_session w) p = false ->
  Forall entry_ok es -> es <> [] -> acl_extra es = 0%nat ->
  exists w', wrap_setxattr p ACL_ACCESS (Some (acl_bytes es)) (Z.of_nat (length (acl_bytes es))) flags w = Some (w', 0) /\
    call_done w w' (fs_set_attrs (stat_key b) (acl_attrs es at0) a).
Proof.
  intros Hx Hb Hc Hh Hs Hl Hst Hk Hroot Hign Hes Hne Hextra. destruct w as [k e s u root n]. cbn [w_session w_kernel] in *.
  destruct (acl_access_permissions es Hes) as [Hat Hperm].
  destruct (stat_call Hx k e s u root n a AT_FDCWD p AT_SYMLINK_NOFOLLOW b (reported b at0) Hb Hc Hh Hs (Hst _))
    as (s1 & Hw1 & Hb1 & Hi1 & Hn1); [by left; exists at0|].
  set (mode := Z.lor (acl_mode es) (Z.land (a_mode at0) 0xe00)).
  assert (0 <= mode < 2 ^ 31) as Hmode.
  { apply lor_bound; [lia| |rewrite Z.land_comm; by apply land_bound].
    pose proof (acl_mode_bound es Hes). lia. }
  assert (uint32 mode = mode) as Hm32 by (apply wrap_unsigned_small; lia).
  unfold wrap_setxattr, shared_setxattr, rc_and_buf, base_lstat, base_fstatat, base_stat_call, mbind, io_bind. cbn [w_kernel].
  rewrite Hst. cbn [default from_option id w_errno w_session pseudo_umask pseudo_chroot pseudo_nosymlinkexp].
  rewrite filter_passes by done. unfold acl_chmod. rewrite bool_decide_eq_true_2 by done.
  unfold mbind, io_bind, of_memory, mret, io_ret. rewrite Hat, Hperm.
  unfold get_special_bits, lstat64, mbind, io_bind, mret, io_ret. cbn [w_session]. rewrite Hroot, Hign.
  unfold wrap_lstat64, wrap_fstatat64 in *. rewrite Hw1.
  cbn [reported st_mode]. fold mode. rewrite Hm32, Hextra.
  destruct (chmod_tells k e s1 u root n a AT_FDCWD p mode 0 b (fs_set_attrs (stat_key b) (acl_attrs es at0) a)) as (w' & Hw & Hdone);
    try done.
  { unfold acl_attrs, with_perms. fold mode. rewrite <- (merge_chmod (st_mode b) mode (a_mode at0)). destruct Hk as (? & ? & ?).
    apply (step_chmod a OP_CHMOD); [done|]. split; [done|]. split; [done|by apply same_type_chmod]. }
  unfold wrap_chmod. rewrite Hw. exists w'. split; [done|]. unfold call_done in *. cbn in *. by rewrite <- Hi1, <- Hn1.
Qed.
