(* ===== verification/RoundTrip.v ===== *)
(** Client and server together: what the client puts into a message is what
    the server's handler works on, and what the handler answers is what the
    client gets. *)

From stdpp Require Import base gmap list fin_maps strings.
From Stdlib Require Import ZArith Lia Ascii.
From S2P Require Import Prelude Tables Modes Paths PathsSpec ClientPath ClientPathSpec Message Sql FileDb FileDbSpec Xattr XattrSpec LogDb ServerOp OpInvariant FsSpec OpRefine Refine XattrRefine ServerLoop ServerLoopSpec ClientConn ClientConnSpec ClientOp ClientOpSpec.

Open Scope Z_scope.

(** ** Every field of an answer fits its C type *)

Section Headers.
Implicit Types (m : pseudo_msg_t).

Ltac hdr_tac := unfold header_ok, in_int32, in_uint32, in_uint64 in *; simpl in *; intuition (lia || done).

Lemma hok_result v m : in_int32 v -> header_ok m -> header_ok (set_result v m).
Proof. destruct m as [[]]. hdr_tac. Qed.
Lemma hok_type v m : in_int32 v -> header_ok m -> header_ok (set_type v m).
Proof. destruct m as [[]]. hdr_tac. Qed.
Lemma hok_client v m : in_int32 v -> header_ok m -> header_ok (set_client v m).
Proof. destruct m as [[]]. hdr_tac. Qed.
Lemma hok_mode v m : in_uint64 v -> header_ok m -> header_ok (set_mode v m).
Proof. destruct m as [[]]. hdr_tac. Qed.
Lemma hok_dev v m : in_uint64 v -> header_ok m -> header_ok (set_dev v m).
Proof. destruct m as [[]]. hdr_tac. Qed.
Lemma hok_ino v m : in_uint64 v -> header_ok m -> header_ok (set_ino v m).
Proof. destruct m as [[]]. hdr_tac. Qed.
Lemma hok_rdev v m : in_uint64 v -> header_ok m -> header_ok (set_rdev v m).
Proof. destruct m as [[]]. hdr_tac. Qed.
Lemma hok_uid v m : in_uint32 v -> header_ok m -> header_ok (set_uid v m).
Proof. destruct m as [[]]. hdr_tac. Qed.
Lemma hok_gid v m : in_uint32 v -> header_ok m -> header_ok (set_gid v m).
Proof. destruct m as [[]]. hdr_tac. Qed.
Lemma hok_nlink v m : in_int32 v -> header_ok m -> header_ok (set_nlink v m).
Proof. destruct m as [[]]. hdr_tac. Qed.
Lemma hok_access v m : in_int32 v -> header_ok m -> header_ok (set_access v m).
Proof. destruct m as [[]]. hdr_tac. Qed.
Lemma hok_fd v m : in_int32 v -> header_ok m -> header_ok (set_fd v m).
Proof. destruct m as [[]]. hdr_tac. Qed.
Lemma hok_op o m : in_int32 (op_code o) -> op_of_code (op_code o) = o -> header_ok m -> header_ok (set_op o m).
Proof. destruct m as [[]]. hdr_tac. Qed.
Lemma hok_pathlen v m : in_uint32 v -> header_ok m -> header_ok (set_pathlen v m).
Proof. destruct m as [[]]. hdr_tac. Qed.
Lemma hok_owner h m : header_ok h -> header_ok m -> header_ok (with_owner h m).
Proof. destruct m as [[]], h. hdr_tac. Qed.
Lemma hok_path p m : header_ok m -> header_ok (set_path p m).
Proof. done. Qed.
Lemma hok_assign m h : header_ok h -> header_ok (assign m h).
Proof. done. Qed.

Lemma uint32_in z : in_uint32 (uint32 z).
Proof. apply (wrap_unsigned_range 32). lia. Qed.
Lemma uint64_in z : in_uint64 (uint64 z).
Proof. apply (wrap_unsigned_range 64). lia. Qed.
Lemma int32_in z : in_int32 (int32 z).
Proof. apply (wrap_signed_range 32). lia. Qed.

Lemma hok_read r m : header_ok m -> header_ok (read_attrs r m).
Proof.
  pose proof (uint32_in (f_uid r)). pose proof (uint32_in (f_gid r)). pose proof (uint64_in (f_mode r)).
  pose proof (uint64_in (f_rdev r)). pose proof (int32_in (f_deleting r)).
  destruct m as [[]]. unfold read_attrs. generalize dependent (uint32 (f_uid r)). hdr_tac.
Qed.

Lemma hok_mode_of h : header_ok h -> in_uint64 (m_mode h).
Proof. by intros (_&_&_&_&_&_&_&_&_&_&_&?&_). Qed.

Lemma hok_merge new old : in_uint64 old -> in_uint64 (merge_mode new old).
Proof. by apply (merge_mode_bounds 64). Qed.
End Headers.

#[local] Hint Resolve hok_result hok_type hok_client hok_mode hok_dev hok_ino hok_pathlen hok_owner hok_path hok_assign
  uint32_in uint64_in int32_in hok_read hok_mode_of hok_merge : hdr.

Section HeadersKept.
Context {E : SqlEngine} {RL : SqlReliable E} {PM : PathMax} {SC : ServerConfig}.
Implicit Types (s : op_state).

(** The length of extra data to send is the length of its block. *)
Definition sized (r : option (bytes * Z)) : Prop :=
  match r with Some (p, len) => len = Z.of_nat (length p) | None => True end.

(** All headers of the handler's state are in range. *)
Record hok (s : op_state) : Prop := {
  hok_msg : header_ok (msg s);
  hok_header : header_ok (msg_header s);
  hok_by_path : header_ok (by_path s);
  hok_by_ino : header_ok (by_ino s);
  hok_db_header : header_ok (db_header s);
  hok_response : sized (response s)
}.

Lemma hok_with_db d s : hok s -> hok (with_db d s).
Proof. destruct s. by intros []. Qed.
Lemma hok_with_msg m s : header_ok (hdr m) -> hok s -> hok (with_msg m s).
Proof. destruct s. by intros ? []. Qed.
Lemma hok_with_found_path b s : hok s -> hok (with_found_path b s).
Proof. destruct s. by intros []. Qed.
Lemma hok_with_found_ino b s : hok s -> hok (with_found_ino b s).
Proof. destruct s. by intros []. Qed.
Lemma hok_with_by_path h s : header_ok h -> hok s -> hok (with_by_path h s).
Proof. destruct s. by intros ? []. Qed.
Lemma hok_with_by_ino h p s : header_ok h -> hok s -> hok (with_by_ino h p s).
Proof. destruct s. by intros ? []. Qed.
Lemma hok_with_db_header h s : header_ok h -> hok s -> hok (with_db_header h s).
Proof. destruct s. by intros ? []. Qed.
Lemma hok_with_exact h p s : header_ok h -> hok s -> hok (with_exact h p s).
Proof. destruct s. by intros ? []. Qed.
Lemma hok_with_oldpath o l s : hok s -> hok (with_oldpath o l s).
Proof. destruct s. by intros []. Qed.
Lemma hok_with_header h s : header_ok h -> hok s -> hok (with_header h s).
Proof. destruct s. by intros ? []. Qed.
Lemma hok_with_slash b s : hok s -> hok (with_slash b s).
Proof. destruct s. by intros []. Qed.
Lemma hok_with_response r s : sized r -> hok s -> hok (with_response r s).
Proof. destruct s. by intros ? []. Qed.
Lemma hok_call f s : hok s -> hok (call f s).
Proof. apply hok_with_db. Qed.
Lemma hok_clear m i : header_ok (hdr m) -> header_ok (hdr (clear_at m i)).
Proof. unfold clear_at. by destruct (_ <? _). Qed.

Lemma hok_find_exact d m : header_ok (hdr m) -> header_ok (hdr (pdb_find_file_exact d m).1).
Proof. intros H. unfold pdb_find_file_exact. repeat case_match; cbn [fst]; auto with hdr. Qed.
Lemma hok_find_path d m : header_ok (hdr m) -> header_ok (hdr (pdb_find_file_path d m).1).
Proof. intros H. unfold pdb_find_file_path. repeat case_match; cbn [fst]; auto 6 with hdr. Qed.
Lemma hok_find_dev d m p : header_ok (hdr m) -> header_ok (hdr (pdb_find_file_dev d m p).1.1).
Proof. intros H. unfold pdb_find_file_dev. repeat case_match; cbn [fst]; auto with hdr. Qed.

#[local] Hint Resolve hok_msg hok_header hok_by_path hok_by_ino hok_db_header hok_with_db hok_with_msg hok_with_found_path
  hok_with_found_ino hok_with_by_path hok_with_by_ino hok_with_db_header hok_with_exact hok_with_oldpath hok_with_header
  hok_with_slash hok_with_response hok_call hok_clear hok_find_exact hok_find_path hok_find_dev : hdr.

(** Split the conditions of a stage; the state of each branch is built by the
    functions above. *)
Ltac keep_hdr := intros; cbv zeta; repeat case_match; cbn [fst hdr]; eauto 10 with hdr.

Lemma split_hok s : hok s -> hok (op_split_paths s).
Proof.
  intros H. unfold op_split_paths. cbv zeta. destruct (_ && _); [|done].
  destruct ((0 <? _) && _); [destruct (decide _)|]; auto 8 with hdr.
Qed.

Lemma strip_hok s : hok s -> hok (op_strip_slash s).
Proof.
  intros H. unfold op_strip_slash. cbv zeta. destruct (Z.eqb_spec (m_pathlen (msg s)) 0); [done|]. cbn [negb].
  destruct (decide _); [|done]. apply hok_with_slash, hok_with_msg; [|done]. apply hok_clear, hok_pathlen; [|auto with hdr].
  destruct (hok_msg s H) as (_&_&_&_&_&_&_&_&_&_&_&_&_&Hp&_). unfold in_uint32 in *. lia.
Qed.

Lemma lookup_exact_hok s : hok s -> hok (op_lookup_exact s).
Proof.
  intros H. unfold op_lookup_exact. cbv zeta. destruct (_ && _); [|done].
  pose proof (hok_find_exact (db s) (msg s) (hok_msg s H)) as Hf. destruct (pdb_find_file_exact _ _) as [m' rc].
  destruct (rc =? 0); auto with hdr.
Qed.

Lemma lookup_path_hok s : hok s -> hok (op_lookup_path s).
Proof.
  intros H. unfold op_lookup_path. cbv zeta. destruct (negb _); [|done].
  pose proof (hok_find_path (db s) (msg s) (hok_msg s H)) as Hf. destruct (pdb_find_file_path _ _) as [m' rc].
  destruct (rc =? 0); auto with hdr.
Qed.

Lemma lookup_dev_hok s : hok s -> hok (op_lookup_dev s).
Proof.
  intros H. unfold op_lookup_dev. cbv zeta. destruct (_ && _); [|done].
  pose proof (hok_find_dev (db s) (as_msg (by_ino s)) (path_by_ino s) (hok_by_ino s H)) as Hf.
  destruct (pdb_find_file_dev _ _ _) as [[m' p] rc]. destruct (rc =? 0); auto with hdr.
Qed.

Lemma lookup_hok s : hok s -> hok (op_lookup s).
Proof.
  intros H%lookup_exact_hok. unfold op_lookup. cbv zeta. destruct (_ && _); [|done]. by apply lookup_dev_hok, lookup_path_hok.
Qed.

Lemma check_path_hok s : hok s -> hok (op_check_path s).
Proof.
  intros H. unfold op_check_path. destruct (_ && _); [|done]. cbv zeta.
  assert (hok (op_check_path_ino s)) by (unfold op_check_path_ino; destruct (_ && _); auto with hdr).
  destruct (_ || _); auto with hdr.
Qed.

Lemma check_ino_type_hok s : hok s -> hok (op_check_ino_type s).
Proof. intros H. unfold op_check_ino_type. destruct (_ || _); auto with hdr. Qed.

Lemma check_ino_hok s : hok s -> match op_check_ino s with inl s' | inr s' => hok s' end.
Proof.
  intros H. unfold op_check_ino. destruct (_ && _); [|done]. cbv zeta. destruct (path_by_ino s).
  - destruct (_ && _); [|by apply check_ino_type_hok]. apply hok_with_msg; [|auto with hdr]. apply hok_result; [done|auto with hdr].
  - apply check_ino_type_hok. destruct (negb _); auto with hdr.
Qed.

Lemma pick_hok s : hok s -> hok (op_pick_header s).
Proof. intros H. unfold op_pick_header. repeat case_match; auto with hdr. Qed.

Lemma fail_hok s : hok s -> hok (op_fail s).
Proof. intros H. unfold op_fail. apply hok_with_msg; [|done]. apply hok_result; [done|auto with hdr]. Qed.

Lemma update_msg_hok m s : header_ok (hdr m) -> hok s -> hok (op_update_msg m s).
Proof. intros. unfold op_update_msg. auto with hdr. Qed.

Lemma link_if_new_hok s : hok s -> hok (op_link_if_new s).
Proof. intros H. unfold op_link_if_new. destruct (_ && _); auto with hdr. Qed.

Lemma chmod_hok s : hok s -> hok (op_chmod s).
Proof.
  intros H. unfold op_chmod. cbv zeta. apply link_if_new_hok.
  destruct (found_ino s), (found_path s); first [apply update_msg_hok|apply hok_with_msg]; auto with hdr; apply hok_mode; auto with hdr.
Qed.

Lemma chown_hok s : hok s -> hok (op_chown s).
Proof.
  intros H. unfold op_chown. cbv zeta. apply link_if_new_hok.
  destruct (found_ino s), (found_path s); first [apply update_msg_hok|apply hok_with_msg]; auto with hdr.
Qed.

Lemma stat_hok s : hok s -> hok (op_stat s).
Proof.
  intros H. unfold op_stat. destruct (_ || _); [|by apply fail_hok]. destruct (_ && _); [by apply fail_hok|auto with hdr].
Qed.

Lemma creat_hok s : hok s -> hok (op_creat s).
Proof. intros H. unfold op_creat. cbv zeta. destruct (_ && _), (negb _); auto with hdr. Qed.

Lemma link_hok s : hok s -> hok (op_link s).
Proof.
  intros H. unfold op_link. cbv zeta. set (s1 := if found_path s then _ else s).
  assert (hok s1) as H1 by (unfold s1; destruct (found_path s); auto with hdr). clearbody s1. apply hok_call.
  destruct (found_ino s1); [destruct (bool_decide _)|]; auto with hdr.
Qed.

Lemma mknod_hok s : hok s -> hok (op_mknod s).
Proof.
  intros H. unfold op_mknod. cbv zeta. set (s1 := if found_path s then _ else s).
  assert (hok s1) as H1 by (unfold s1; destruct (found_path s); auto with hdr). clearbody s1.
  set (s2 := if found_ino s1 then _ else s1).
  assert (hok s2) as H2 by (unfold s2; destruct (found_ino s1); auto with hdr). clearbody s2. auto with hdr.
Qed.

Lemma unlink_hok s : hok s -> hok (op_unlink s).
Proof.
  intros H. unfold op_unlink. cbv zeta. apply hok_with_msg; [apply hok_result; [done|]|]; destruct (_ && _); auto 8 with hdr.
Qed.

Lemma may_unlink_hok s : hok s -> hok (op_may_unlink s).
Proof.
  intros H. unfold op_may_unlink. destruct (pdb_may_unlink_file _ _ _) as [d rc]. cbv zeta.
  destruct (negb _); [apply fail_hok|]; auto with hdr.
Qed.

Lemma set_xattr_hok s : hok s -> hok (op_set_xattr s).
Proof.
  intros H. unfold op_set_xattr. destruct (pdb_set_xattr _ _ _ _ _) as [d rc]. cbv zeta.
  destruct (negb _); [apply fail_hok|]; auto with hdr.
Qed.

Definition sized_read (f : option bytes * Z * Z) : Prop := f.2 = 0 -> sized ((fun v => (v, f.1.2)) <$> f.1.1).

Lemma get_sized p m v len : sized_read (pdb_get_xattr p m v len).
Proof.
  unfold pdb_get_xattr. no_failure. unfold bind_fails. destruct v as [v|]; cbn [fmap option_fmap option_map];
    rewrite ?bind_text_ok; cbn [Z.eqb negb]; destruct (select_xattrs _ _) as [[|r l] rc]; try done; by destruct (1 <=? _).
Qed.

Lemma list_sized p m v len : sized_read (pdb_list_xattr p m v len).
Proof.
  unfold pdb_list_xattr. no_failure. destruct (select_xattrs_by_name _ _) as [l rc].
  destruct (rc =? SQLITE_DONE); [|done]. by destruct (list_xattr_rows _).
Qed.

Lemma read_xattr_hok s (f : option bytes * Z * Z) : sized_read f -> hok s -> hok (let '(value, len, rc) := f in
  if negb (rc =? 0) then op_fail s else with_response ((fun v => (v, len)) <$> value) s).
Proof.
  intros Hf H. destruct f as [[v len] rc]. destruct (Z.eqb_spec rc 0) as [->|]; [|by apply fail_hok].
  apply hok_with_response; [by apply Hf|done].
Qed.

Lemma dispatch_hok s : hok s -> hok (op_dispatch s).
Proof.
  intros H. unfold op_dispatch. destruct (m_op (msg s)); first
    [ done | by apply creat_hok | by apply chmod_hok | by apply chown_hok | by apply stat_hok | by apply link_hok
    | by apply may_unlink_hok | by apply unlink_hok | by apply mknod_hok | by apply set_xattr_hok | by apply read_xattr_hok; [apply get_sized|] | by apply read_xattr_hok; [apply list_sized|]
    | by apply hok_call | by repeat apply hok_call ].
Qed.

Lemma zero_header_ok : header_ok zero_header.
Proof. repeat split; vm_compute; done. Qed.

(** The answer to any message has its fields in range, and the data that
    comes with it is all of its block. *)
Lemma response_hok d m pr tg : header_ok (hdr m) ->
  let o := (pseudo_server_response d m pr tg).1 in header_ok (hdr (msg o)) /\ sized (response o).
Proof.
  intros Hm. cbv zeta. unfold pseudo_server_response. pose proof zero_header_ok as Hz.
  assert (forall (s : op_state), hok s -> header_ok (hdr (msg (op_exit s pr tg))) /\ sized (response (op_exit s pr tg))) as Hexit.
  { intros s Hs. assert (hok (op_exit s pr tg)) as H by (unfold op_exit; destruct opt_l; auto with hdr). by destruct H. }
  destruct (_ =? PSEUDO_MSG_PING).
  { cbn [fst]. apply Hexit. constructor; try done. cbn [msg response_state]. apply hok_result; [by destruct opt_l|done]. }
  destruct (_ || _); [|destruct (pdb_log_msg _ _ _ _ _ _ _); done].
  unfold pseudo_op. cbn [fst]. apply Hexit.
  assert (hok (op_start d m)) as H0 by (constructor; try done; cbn [msg op_start]; by apply hok_result).
  assert (hok (op_strip_slash (op_stash (op_split_paths (op_start d m))))) as H1
    by (apply strip_hok; unfold op_stash; apply hok_with_header; [|by apply split_hok]; by apply hok_msg, split_hok).
  pose proof (check_ino_hok _ (check_path_hok _ (lookup_hok _ H1))) as H2. unfold op_prepare.
  destruct (op_check_ino _) as [s|s]; [|done].
  assert (hok (op_dispatch (op_pick_header s))) as H3 by (by apply dispatch_hok, pick_hok).
  unfold op_unlinked_fd. repeat case_match; auto with hdr.
Qed.
End HeadersKept.

(** ** An operation from the client to the server and back *)

Section Operation.
Context {PM : PathMax} {M : Malloc} {CE : ClientEnv}.
Implicit Types (s : cstate).

(** The request [pseudo_client_op] makes, if it makes one: the state, the
    message, its path memory and length. *)
Definition client_request_of (op : pseudo_op_t) (access fd dirfd : Z) (path : option bytes) (buf : option statbuf)
    (extra1 extra2 : option bytes) (s : cstate) : option (cstate * pseudo_msg_t * bytes * Z) :=
  let s := with_sent true s in
  let path := client_path_arg s fd path in
  if negb (always_made op) && pseudo_client_ignore_path_chroot (c_paths s) ignore_paths path false then None
  else
    match client_extras op path extra1 extra2 with
    | Go (extra1, extra2) =>
        match client_build path extra1 extra2 s with
        | (s, Go (mem, len)) =>
            match client_switch op fd dirfd (c_str mem) extra1 (client_message op access fd buf) s with
            | (s, m, true, None) => Some (s, m, mem, len)
            | _ => None
            end
        | _ => None
        end
    | _ => None
    end.

Lemma client_op_asks world op access fd dirfd path buf extra1 extra2 s s1 m mem len :
  client_request_of op access fd dirfd path buf extra1 extra2 s = Some (s1, m, mem, len) ->
  pseudo_client_op world op access fd dirfd path buf extra1 extra2 s = client_ask world m len mem s1.
Proof.
  unfold client_request_of, pseudo_client_op. cbv zeta. destruct (negb _ && _); [done|].
  destruct (client_extras _ _ _ _) as [| |[e1 e2]]; [done|done|]. destruct (client_build _ _ _ _) as [s0 [| |[mem0 len0]]]; [done|done|].
  destruct (client_switch _ _ _ _ _ _ _) as [[[s2 m2] ask] result]. destruct ask, result; try done. by intros [= -> -> -> ->].
Qed.

(** The arguments of a call fit their types. *)
Definition args_ok (access fd : Z) (buf : option statbuf) s : Prop :=
  in_int32 access /\ in_int32 fd /\ pid_ok getpid /\ in_uint32 (pseudo_fuid s) /\ in_uint32 (pseudo_fgid s) /\
  match buf with
  | Some b => in_uint64 (st_dev b) /\ in_uint64 (st_ino b) /\ in_uint64 (st_mode b) /\
      in_uint32 (st_uid b) /\ in_uint32 (st_gid b) /\ in_uint64 (st_rdev b)
  | None => True
  end.

(** What the server is asked. *)
Definition wire_message (m : pseudo_msg_t) : pseudo_msg_t :=
  if pseudo_op_wait (m_op m) =? 0 then set_type PSEUDO_MSG_FASTOP m else m.

Lemma message_ok op access fd buf s : args_ok access fd buf s -> (forall z, op <> OP_other z) ->
  let m := client_message op access fd buf in
  header_ok (hdr m) /\ m_type m = PSEUDO_MSG_OP /\ m_op m = op /\ m_client m = getpid.
Proof.
  intros (Ha & Hf & Hp & _ & _ & Hb) Hop. unfold client_message.
  assert (in_int32 getpid) as Hp' by (unfold pid_ok, in_int32 in *; lia).
  assert (in_int32 (op_code op)) as Hc by (destruct op; try (exfalso; by eapply Hop); split; vm_compute; congruence).
  assert (op_of_code (op_code op) = op) as Hoc by (apply op_of_code_op_code; intros z ->; by destruct (Hop z)).
  assert (header_ok (hdr (set_type PSEUDO_MSG_OP empty_msg))) as He
    by (apply hok_type; [vm_compute; split; congruence|repeat split; vm_compute; done]).
  set (m0 := default empty_msg _).
  assert (header_ok (hdr m0)) as H0.
  { unfold m0. destruct buf as [b|]; [|done]. destruct Hb as (?&?&?&?&?&?). cbn [pseudo_msg_stat default from_option id].
    auto 12 using hok_nlink, hok_rdev, hok_mode, hok_ino, hok_dev, hok_gid, hok_uid, int32_in. }
  clearbody m0. split; [|by destruct m0 as [[]]].
  apply hok_client; [done|]. apply hok_result; [done|]. apply hok_access; [done|]. apply hok_fd; [done|].
  apply hok_op; [done|done|]. by apply hok_type.
Qed.

(** A connected client of a server it has been accepted by. *)
Definition connected s : Prop := 0 <= connect_fd (c_fds s) /\ pseudo_local_only s = false /\ rx_ok (c_rx s) /\ alloc_ok s.

Lemma request_of_spec op access fd dirfd path buf extra1 extra2 s s1 m mem len {CL : ClientEnvLaws CE} :
  client_request_of op access fd dirfd path buf extra1 extra2 s = Some (s1, m, mem, len) ->
  has_paths op (client_path_arg s fd path) extra1 -> sizes_ok (client_path_arg s fd path) extra1 extra2 ->
  args_ok access fd buf s -> connected s ->
  connected s1 /\ connect_fd (c_fds s1) = connect_fd (c_fds s) /\ c_events s1 = c_events s /\
  header_ok (hdr (wire_message m)) /\ m_op m = op /\ m_client (wire_message m) = getpid /\
  (m_type (wire_message m) = PSEUDO_MSG_OP \/ m_type (wire_message m) = PSEUDO_MSG_FASTOP) /\
  len <= Z.of_nat (length mem).
Proof.
  intros Hreq Hp Hsz Hargs (Hfd & Hloc & Hrx & Hal). unfold client_request_of in Hreq. cbv zeta in Hreq.
  set (s0 := with_sent true s) in *.
  assert (client_path_arg s0 fd path = client_path_arg s fd path) as Hpa by (by destruct s). rewrite Hpa in Hreq.
  assert (rx_ok (c_rx s0) /\ alloc_ok s0) as [Hrx0 Hal0] by (by destruct s).
  destruct (negb _ && _); [done|].
  pose proof (build_stage op _ extra1 extra2 s0 Hal0 Hrx0 Hp Hsz) as Hb.
  destruct (client_extras _ _ _ _) as [| |[e1 e2]]; [done|done|].
  destruct (client_build _ e1 e2 s0) as [s2 [| |[mem2 len2]]]; [done|done|].
  destruct Hb as (Hal2 & Hrx2 & _ & Hsame & Hlen).
  pose proof (switch_quiet op fd dirfd (c_str mem2) e1 (client_message op access fd buf) s2) as Hq.
  destruct (client_switch _ _ _ _ _ _ _) as [[[s3 m3] ask] result] eqn:Hsw. cbn [fst] in Hq.
  destruct ask; [|done]. destruct result; [done|]. injection Hreq as -> -> -> ->.
  assert (c_fds s2 = c_fds s /\ c_events s2 = c_events s /\ pseudo_local_only s2 = pseudo_local_only s /\
    pseudo_fuid s2 = pseudo_fuid s /\ pseudo_fgid s2 = pseudo_fgid s) as (Hf2 & He2 & Hl2 & Hu2 & Hg2) by (rewrite Hsame; by destruct s).
  assert (c_fds s1 = c_fds s2 /\ c_events s1 = c_events s2 /\ (forall z, op <> OP_other z) /\
    (m = client_message op access fd buf \/ m = with_ids s2 (client_message op access fd buf))) as (Hf1 & He1 & Hop & Hm).
  { destruct op; cbn [client_switch plain_request] in Hsw; try discriminate; injection Hsw as <- <-; try (destruct s2; by auto);
      destruct (client_closefrom fd s2); discriminate. }
  destruct (message_ok op access fd buf s Hargs Hop) as (Hh & Hty & Hmop & Hcl).
  assert (header_ok (hdr m) /\ m_type m = PSEUDO_MSG_OP /\ m_op m = op /\ m_client m = getpid) as (Hh' & Hty' & Hmop' & Hcl').
  { destruct Hm as [-> | ->]; [done|]. destruct Hargs as (_ & _ & _ & Hu & Hg & _). unfold with_ids.
    rewrite Hu2, Hg2. split; [by apply hok_gid, hok_uid|]. by destruct (client_message op access fd buf) as [[]]. }
  split; [|split; [by rewrite Hf1, Hf2|split; [by rewrite He1, He2|]]].
  - split; [by rewrite Hf1, Hf2|]. split; [by rewrite (quiet_local _ _ Hq), Hl2|].
    split; [by rewrite (quiet_rx _ _ Hq)|by apply (quiet_alloc_ok s2)].
  - unfold wire_message. destruct (_ =? 0).
    + split; [apply hok_type; [vm_compute; split; congruence|done]|]. split; [done|]. split; [by destruct m as [[]]|].
      split; [right; by destruct m as [[]]|done].
    + by auto 8.
Qed.
End Operation.

Section Exchange.
Context {E : SqlEngine} {L : SqlLaws E} {RL : SqlReliable E} {PM : PathMax} {SC : ServerConfig} {M : Malloc} {ML : MallocLaws}
  {CE : ClientEnv} {CL : ClientEnvLaws CE}.

(** What the client makes of an answer: one that orders it to abort is obeyed,
    any other is returned with the data that came with it. *)
Definition answered (i : Z) (o : op_state) (r : reply) : Prop :=
  if m_result (msg o) =? RESULT_ABORT then r = Aborted
  else exists a, r = Reply a /\ hdr a = answer_header i 0 o /\ take (length (answer_payload o)) (m_path a) = answer_payload o.

Lemma op_response_rc d (m : pseudo_msg_t) pr tg : m_type m = PSEUDO_MSG_OP \/ m_type m = PSEUDO_MSG_FASTOP ->
  (pseudo_server_response d m pr tg).2 = 0.
Proof. unfold pseudo_server_response. by intros [-> | ->]. Qed.

(** The server's half: the message arrives as it was sent, and the handler's
    answer goes out. *)
Lemma server_half (sv : server) i kernel scratch (m : pseudo_msg_t) len mem rest st : (forall k, is_Some (malloc k)) ->
  server_ok sv -> client_open sv i -> 0 <= c_fd (slot sv i) -> header_ok (hdr m) -> pid_ok (m_client m) ->
  m_type m = PSEUDO_MSG_OP \/ m_type m = PSEUDO_MSG_FASTOP -> 0 <= len < 2 ^ 31 -> len <= Z.of_nat (length mem) ->
  exists m' sv', serve_client i (sock_push (message_wire m len mem ++ rest) st) kernel scratch sv = Some sv' /\
    hdr m' = hdr (set_pathlen len m) /\ take (Z.to_nat len) (m_path m') = take (Z.to_nat len) mem /\
    let o := (pseudo_server_response (sdb sv) m' (c_program (slot sv i)) (c_tag (slot sv i))).1 in
    sdb sv' = db o /\
    outputs sv' = Sent (c_fd (slot sv i)) (header_bytes (answer_header i 0 o) ++ answer_payload o) :: outputs sv /\
    clients sv' = clients sv /\ ((forall n, 0 <= n -> Z.of_nat (length (scratch n)) = n) -> server_ok sv').
Proof.
  intros Hm Hs Hi Hfd Hh Hpid Hty Hlen Hmem. set (h := hdr (set_pathlen len m)).
  assert (message_wire m len mem = header_bytes h ++ take (Z.to_nat len) mem) as ->
    by (unfold message_wire; by rewrite wrap_unsigned_small by lia).
  assert (header_ok h) as Hhok by (apply hok_pathlen; [unfold in_uint32; lia|done]).
  assert (m_pathlen h = len /\ m_client h = m_client m /\ m_type h = m_type m) as (Hpl & Hcl & Hth) by (by destruct m as [[]]).
  assert (Z.of_nat (length (take (Z.to_nat len) mem)) = m_pathlen h) as Hsz by (rewrite length_take, Hpl; lia).
  rewrite <- app_assoc.
  destruct (receive_message (c_fd (slot sv i)) (rx sv) h (take (Z.to_nat len) mem) rest st Hm Hfd (ok_rx _ Hs) Hhok Hsz)
    as (m' & r & Hr & Hhdr & Htake & _); [lia|]. exists m'.
  assert (stream_ok (sock_push (header_bytes h ++ take (Z.to_nat len) mem ++ rest) st)) as Hst.
  { intros hb s1. change PSEUDO_HEADER_SIZE with (Z.of_nat (length (header_bytes h))). rewrite sock_read_push by done.
    intros [= <- _]. rewrite header_bytes_inverse by done. rewrite Hpl, Hcl. by split; [lia|]. }
  assert (m_type m' = m_type m) as Hty' by (by rewrite Hhdr).
  pose proof (request_output sv i _ kernel scratch m' r _ Hs Hi Hst Hr) as H. cbv zeta in H.
  assert (register_client i m' (with_rx r sv) = with_rx r sv) as Hreg
    by (unfold register_client; rewrite Hty'; by destruct Hty as [-> | ->]).
  rewrite Hreg in H. change (slot (with_rx r sv) i) with (slot sv i) in H.
  pose proof (op_response_rc (sdb sv) m' (c_program (slot sv i)) (c_tag (slot sv i))) as Hrc.
  destruct (pseudo_server_response _ _ _ _) as [o rc]. cbn [snd] in Hrc. rewrite Hrc in H by (by rewrite Hty').
  destruct H as (sv' & Hsv & Hdb & Hout & Hcl'); [rewrite Hty'; by destruct Hty as [-> | ->]|].
  exists sv'. split; [done|]. split; [done|]. split.
  { rewrite <- Htake at 1. by rewrite length_take_le by lia. }
  split; [done|]. split; [done|]. split; [done|]. intros Hscr.
  destruct (serve_client_ok sv i _ kernel scratch Hs Hi Hst Hscr) as (sv2 & Hsv2 & Hok2 & _). congruence.
Qed.

(** The client's half: the message goes out, the answer comes back. *)
Lemma client_half world (m : pseudo_msg_t) len mem (s : cstate) i (o : op_state) rest st : (forall k, is_Some (malloc k)) ->
  connected s -> 0 <= len < 2 ^ 31 -> len <= Z.of_nat (length mem) -> in_int32 i ->
  header_ok (hdr (msg o)) -> sized (response o) ->
  match response o with Some (_, k) => k < 2 ^ 31 | None => True end ->
  (forall w, ex_kernel (at_exchange (world 0%nat)) w = SendBytes (Z.of_nat (length w))) ->
  ex_stream (at_exchange (world 0%nat)) = sock_push (header_bytes (answer_header i 0 o) ++ answer_payload o ++ rest) st ->
  exists s' r, client_ask world m len mem s = Some (s', r) /\
    c_events s' = SendOn (connect_fd (c_fds s)) (message_wire (wire_message m) len mem) :: c_events s /\ answered i o r /\
    connected s' /\ conn_frame s s'.
Proof.
  intros Hm (Hfd & Hloc & Hrx & Hal) Hlen Hmem Hi Hh Hsz Hn Hker Hstr. unfold client_ask. cbv zeta. rewrite Hloc.
  fold (wire_message m). unfold pseudo_client_request. change PSEUDO_RETRIES with (S 249). generalize 249%nat as n. intros n. cbn [request_loop].
  assert (m_pathlen (answer_header i 0 o) = Z.of_nat (length (answer_payload o)) /\ header_ok (answer_header i 0 o) /\
    Z.of_nat (length (answer_payload o)) < 2 ^ 31) as (Hpl & Hah & Hpay).
  { unfold answer_header, answer_payload, sized in *. destruct (response o) as [[p k]|].
    - subst k. rewrite wrap_unsigned_small by lia. rewrite Nat2Z.id, firstn_all. split; [by destruct (msg o) as [[]]|].
      split; [|done]. apply hok_pathlen; [unfold in_uint32; lia|]. apply hok_client; [done|]. by apply hok_type.
    - split; [by destruct (msg o) as [[]]|]. split; [|done]. apply hok_pathlen; [unfold in_uint32; lia|]. apply hok_client; [done|]. by apply hok_type. }
  destruct (exchange_answered (at_exchange (world 0%nat)) (answer_header i 0 o) (answer_payload o) (wire_message m) len mem s)
    as (s1 & Hsend & _ & s2 & a & Hrecv & Hhdr & Htake & Hrx2 & Hcfd & Hlat); try done.
  { split; [done|]. split; [done|]. split; [by rewrite Hpl|]. split; [by rewrite Hpl|]. eauto. }
  assert (c_events s1 = SendOn (connect_fd (c_fds s)) (message_wire (wire_message m) len mem) :: c_events s) as Hev.
  { destruct (send_message_spec (wire_message m) len mem (ex_kernel (at_exchange (world 0%nat))) s Hmem)
      as (s1' & rc & Heq & _ & _ & _ & Hok & _). rewrite Hsend in Heq. injection Heq as <- <-. by apply Hok. }
  rewrite Hsend. cbn [mbind option_bind Z.eqb negb]. rewrite Hrecv. cbn [mbind option_bind]. rewrite Hhdr.
  assert (m_type (answer_header i 0 o) = PSEUDO_MSG_ACK /\ m_result (answer_header i 0 o) = m_result (msg o)) as [Hty Hres]
    by (unfold answer_header; by destruct (msg o) as [[]]).
  rewrite Hty, Z.eqb_refl. cbn [negb]. rewrite ?Hhdr, ?Hres. eexists _, _. split; [done|].
  assert (c_events s2 = c_events s1) as ->.
  { unfold receive_answer in Hrecv. destruct (pseudo_msg_receive _ _ _) as [[[| |] r] t]; try done. injection Hrecv as <- _. by destruct s1. }
  split; [done|]. split; [unfold answered; destruct (_ =? RESULT_ABORT); [done|]; eauto|].
  pose proof (later_frame _ _ _ Hlat) as Hf. split; [|done]. destruct Hf as (_ & _ & Hp1 & Hp2 & _ & Hl2 & _).
  split; [by rewrite Hcfd|]. split; [by rewrite Hl2|]. split; [done|]. unfold alloc_ok in *. by rewrite Hp1, Hp2.
Qed.
End Exchange.

(** *** Two paths in one message *)

Section TwoPaths.
Context {E : SqlEngine} {L : SqlLaws E} {RL : SqlReliable E} {PM : PathMax} {SC : ServerConfig} {M : Malloc} {CE : ClientEnv}
  {CL : ClientEnvLaws CE}.

(** The value goes along when an attribute is set. *)
Definition sent_value (op : pseudo_op_t) (value : option bytes) : option bytes :=
  if bool_decide (op = OP_SET_XATTR) then value else None.

Lemma request_of_two op access fd dirfd p b name value (s s1 : cstate) m mem len :
  op = OP_SET_XATTR \/ op = OP_GET_XATTR -> alloc_ok s -> sizes_ok (Some p) (Some name) value ->
  client_request_of op access fd dirfd (Some p) (Some b) (Some name) value s = Some (s1, m, mem, len) ->
  m = client_message op access fd (Some b) /\ len = Z.of_nat (length (combined p name (sent_value op value))) /\
  exists junk, mem = combined p name (sent_value op value) ++ junk.
Proof.
  intros Hop Ha Hsz Hreq. unfold client_request_of in Hreq. cbv zeta in Hreq. cbn [client_path_arg] in Hreq.
  destruct (negb _ && _); [done|].
  assert (client_extras op (Some p) (Some name) value = Go (Some name, sent_value op value)) as He by (by destruct Hop as [-> | ->]).
  rewrite He in Hreq. assert (alloc_ok (with_sent true s)) as Ha0 by (by destruct s).
  pose proof (build_two p name (sent_value op value) (with_sent true s) Ha0) as Hb.
  destruct (client_build _ _ _ _) as [s2 [| |[mem2 len2]]]; [done|done|].
  destruct Hb as (_ & _ & Hres).
  { apply combined_size. unfold sizes_ok, sent_value in *. destruct (bool_decide _); [done|].
    cbn [default from_option id length] in *. destruct value; cbn [default from_option id length] in *; lia. }
  destruct Hres as [[? _]|(junk & Hgo)]; [done|]. injection Hgo as -> ->.
  destruct Hop as [-> | ->]; cbn [client_switch plain_request] in Hreq; injection Hreq as <- <- <- <-; eauto.
Qed.

(** The server reads them as they were sent. *)
Lemma xattr_wire op access fd dirfd p b name value (s s1 : cstate) m mem len (m' : pseudo_msg_t) :
  op = OP_SET_XATTR /\ value <> None \/ op = OP_GET_XATTR -> alloc_ok s -> sizes_ok (Some p) (Some name) value ->
  client_request_of op access fd dirfd (Some p) (Some b) (Some name) value s = Some (s1, m, mem, len) ->
  len < 2 ^ 31 -> path_ok (sent_path p) -> last (sent_path p) <> Some slash -> NUL ∉ name ->
  key_ok (st_dev b, st_ino b) -> attrs_ok (mkAttrs (st_uid b) (st_gid b) (st_mode b) (st_rdev b)) ->
  hdr m' = hdr (set_pathlen len (wire_message m)) -> take (Z.to_nat len) (m_path m') = take (Z.to_nat len) mem ->
  m_mode m' = st_mode b /\ (m_type m' = PSEUDO_MSG_OP \/ m_type m' = PSEUDO_MSG_FASTOP) /\
  exists tail, xattr_request m' op (sent_path p) (st_dev b, st_ino b) name
    (default [] (sent_value op value) ++ tail)
    (Z.of_nat (length name) + match sent_value op value with Some v => 1 + Z.of_nat (length v) | None => 0 end).
Proof.
  intros Hop Ha Hsz Hreq Hlen Hp Hsl Hname Hkey Hat Hhdr Hmem.
  assert (op = OP_SET_XATTR \/ op = OP_GET_XATTR) as Hop' by (destruct Hop as [[-> _]| ->]; auto).
  destruct (request_of_two _ _ _ _ _ _ _ _ _ _ _ _ _ Hop' Ha Hsz Hreq) as (-> & -> & junk & ->).
  rewrite Nat2Z.id, take_app_length in Hmem. set (c := combined p name (sent_value op value)) in *.
  assert (m_path m' = c ++ drop (length c) (m_path m')) as Hpath by (rewrite <- Hmem at 1; by rewrite take_drop).
  assert (hdr (wire_message (client_message op access fd (Some b))) =
    mkHeader (if pseudo_op_wait op =? 0 then PSEUDO_MSG_FASTOP else PSEUDO_MSG_OP) op RESULT_NONE access getpid fd
      (st_dev b) (st_ino b) (st_uid b) (st_gid b) (st_mode b) (st_rdev b) 0 (int32 (st_nlink b)) 0) as Hw.
  { unfold wire_message, client_message. cbn. by destruct Hop' as [-> | ->]. }
  assert (hdr m' = mkHeader (if pseudo_op_wait op =? 0 then PSEUDO_MSG_FASTOP else PSEUDO_MSG_OP) op RESULT_NONE access getpid fd
      (st_dev b) (st_ino b) (st_uid b) (st_gid b) (st_mode b) (st_rdev b) (Z.of_nat (length c)) (int32 (st_nlink b)) 0) as Hh.
  { rewrite Hhdr. destruct (wire_message _) as [h mp]. cbn [hdr] in Hw. subst h. done. }
  clear Hhdr Hw Hreq. destruct m' as [h' mp]. cbn [hdr m_path] in *. subst h'. split; [done|]. split; [by destruct (_ =? 0); auto|].
  assert (Z.of_nat (length c) = Z.of_nat (length (sent_path p)) + 2 + (Z.of_nat (length name) +
    match sent_value op value with Some v => 1 + Z.of_nat (length v) | None => 0 end)) as Hcl.
  { unfold c, combined. rewrite length_app. cbn [length]. rewrite length_app. cbn [length]. unfold value_part.
    destruct (sent_value op value); rewrite ?length_app; cbn [length]; lia. }
  exists (match sent_value op value with Some _ => [NUL] | None => [] end ++ drop (length c) mp).
  constructor; try done; cbn [hdr m_path m_op m_pathlen m_dev m_ino].
  - by destruct Hop' as [-> | ->].
  - rewrite Hpath at 1. unfold c, combined, name_and_value, value_part. rewrite <- app_assoc. cbn [app]. rewrite <- app_assoc. cbn [app].
    destruct (sent_value op value); cbn [default from_option id]; by rewrite <- ?app_assoc.
  - rewrite Hcl. destruct (sent_value op value); lia.
Qed.
End TwoPaths.

Lemma round_trip {E : SqlEngine} {L : SqlLaws E} {RL : SqlReliable E} {PM : PathMax} {SC : ServerConfig}
    {M : Malloc} {ML : MallocLaws} {CE : ClientEnv} {CL : ClientEnvLaws CE}
    op access fd dirfd path buf extra1 extra2 (s s1 : cstate) m mem len (sv : server) i rest st kernel scratch :
  (forall k, is_Some (malloc k)) ->
  connected s -> args_ok access fd buf s -> has_paths op (client_path_arg s fd path) extra1 ->
  sizes_ok (client_path_arg s fd path) extra1 extra2 ->
  client_request_of op access fd dirfd path buf extra1 extra2 s = Some (s1, m, mem, len) -> 0 <= len < 2 ^ 31 ->
  server_ok sv -> client_open sv i -> 0 <= c_fd (slot sv i) -> in_int32 i ->
  let wire := message_wire (wire_message m) len mem in
  exists m' sv', serve_client i (sock_push (wire ++ rest) st) kernel scratch sv = Some sv' /\
    hdr m' = hdr (set_pathlen len (wire_message m)) /\ take (Z.to_nat len) (m_path m') = take (Z.to_nat len) mem /\
    let o := (pseudo_server_response (sdb sv) m' (c_program (slot sv i)) (c_tag (slot sv i))).1 in
    let back := header_bytes (answer_header i 0 o) ++ answer_payload o in
    sdb sv' = db o /\ outputs sv' = Sent (c_fd (slot sv i)) back :: outputs sv /\
    clients sv' = clients sv /\ ((forall n, 0 <= n -> Z.of_nat (length (scratch n)) = n) -> server_ok sv') /\
    forall world rest' st', match response o with Some (_, k) => k < 2 ^ 31 | None => True end ->
      (forall w, ex_kernel (at_exchange (world 0%nat)) w = SendBytes (Z.of_nat (length w))) ->
      ex_stream (at_exchange (world 0%nat)) = sock_push (back ++ rest') st' ->
      exists s' r, pseudo_client_op world op access fd dirfd path buf extra1 extra2 s = Some (s', r) /\
        c_events s' = SendOn (connect_fd (c_fds s)) wire :: c_events s /\ answered i o r /\
        connected s' /\ conn_frame s1 s'.
Proof.
  intros Hm Hcon Hargs Hp Hsz Hreq Hlen Hs Hi Hfd Hint. cbv zeta.
  destruct (request_of_spec _ _ _ _ _ _ _ _ _ _ _ _ _ Hreq Hp Hsz Hargs Hcon) as (Hcon1 & Hcfd & Hev & Hh & _ & Hcl & Hty & Hmem).
  assert (pid_ok (m_client (wire_message m))) as Hpid by (rewrite Hcl; apply Hargs).
  destruct (server_half sv i kernel scratch (wire_message m) len mem rest st Hm Hs Hi Hfd Hh Hpid Hty Hlen Hmem)
    as (m' & sv' & Hsv & Hhdr & Htake & Hdb & Hout & Hcl' & Hok').
  exists m', sv'. do 7 (split; [done|]).
  intros world rest' st' Hk Hker Hstr.
  assert (header_ok (hdr m')) as Hh' by (rewrite Hhdr; apply hok_pathlen; [unfold in_uint32; lia|done]).
  destruct (response_hok (sdb sv) m' (c_program (slot sv i)) (c_tag (slot sv i)) Hh') as [Hoh Hos].
  rewrite (client_op_asks world _ _ _ _ _ _ _ _ _ _ _ _ _ Hreq). rewrite <- app_assoc in Hstr.
  destruct (client_half world m len mem s1 i _ rest' st' Hm Hcon1 Hlen Hmem Hint Hoh Hos Hk Hker Hstr) as (s' & r & H1 & H2 & H3).
  exists s', r. split; [done|]. split; [by rewrite H2, Hcfd, Hev|exact H3].
Qed.

(** *** Attributes through the whole system *)

(** The server knows the file the call is about. *)
Record known_file (a : fs) (p : bytes) (b : statbuf) : Prop := {
  kf_path : path_ok (sent_path p) /\ last (sent_path p) <> Some slash;
  kf_name : names a !! sent_path p = Some (st_dev b, st_ino b);
  kf_attrs : exists at0, inodes a !! (st_dev b, st_ino b) = Some at0 /\ same_type (a_mode at0) (st_mode b);
  kf_key : key_ok (st_dev b, st_ino b);
  kf_range : attrs_ok (mkAttrs (st_uid b) (st_gid b) (st_mode b) (st_rdev b))
}.

(** The attributes' rows are in order. *)
Definition attributes_ok (t : tables) : Prop := rows_ok (files t) /\ xattr_unique t.

Section Attributes.
Context {E : SqlEngine} {L : SqlLaws E} {RL : SqlReliable E} {PM : PathMax} {SC : ServerConfig} {M : Malloc} {CE : ClientEnv}
  {CL : ClientEnvLaws CE}.

Lemma op_response d (m : pseudo_msg_t) pr tg : m_type m = PSEUDO_MSG_OP \/ m_type m = PSEUDO_MSG_FASTOP ->
  (pseudo_server_response d m pr tg).1 = op_exit (op_core d m) pr tg.
Proof.
  intros Hm. unfold pseudo_server_response.
  assert (m_type m =? PSEUDO_MSG_PING = false) as -> by (by destruct Hm as [-> | ->]).
  assert ((m_type m =? PSEUDO_MSG_OP) || (m_type m =? PSEUDO_MSG_FASTOP) = true) as -> by (by destruct Hm as [-> | ->]).
  unfold pseudo_op, op_core. cbn [fst]. reflexivity.
Qed.

(** The handler's answer to a client's SET_XATTR. *)
Lemma setxattr_answer d a access fd dirfd p b name val (s s1 : cstate) m mem len (m' : pseudo_msg_t) pr tg :
  represents (files (pdb_tables d)) a -> attributes_ok (pdb_tables d) -> xattr_ids (pdb_tables d) ->
  known_file a p b -> NUL ∉ name -> alloc_ok s -> sizes_ok (Some p) (Some name) (Some val) ->
  client_request_of OP_SET_XATTR access fd dirfd (Some p) (Some b) (Some name) (Some val) s = Some (s1, m, mem, len) ->
  len < 2 ^ 31 -> hdr m' = hdr (set_pathlen len (wire_message m)) -> take (Z.to_nat len) (m_path m') = take (Z.to_nat len) mem ->
  let o := (pseudo_server_response d m' pr tg).1 in
  m_result (msg o) = RESULT_SUCCEED /\ represents (files (pdb_tables (db o))) a /\ attributes_ok (pdb_tables (db o)) /\
  sets_xattr (pdb_tables d) (pdb_tables (db o)) (bind_int (st_dev b)) (signed_ino (st_ino b)) name val.
Proof.
  intros Hrep [Hok Hu] Hids [[Hp Hsl] Hn (at0 & Hin & Hty) Hkey Hat] Hname Ha Hsz Hreq Hlen Hhdr Hmem. cbv zeta.
  assert (Some val <> None) as Hsome by done.
  destruct (xattr_wire _ _ _ _ _ _ _ _ _ _ _ _ _ m' (or_introl (conj eq_refl Hsome)) Ha Hsz Hreq Hlen Hp Hsl
    Hname Hkey Hat Hhdr Hmem) as (Hmode & Hmt & tail & Hx). unfold sent_value in Hx. rewrite bool_decide_eq_true_2 in Hx by done. cbn [default from_option id] in Hx.
  rewrite op_response by done.
  destruct (op_exit_keeps (op_core d m') pr tg) as (Hf & Hxs & -> & _).
  rewrite <- Hmode in Hty.
  destruct (core_setxattr d a m' _ _ _ _ _ _ Hrep Hok Hx at0 Hn Hin Hty val tail) as (Hfiles & _ & [(_ & _ & Href)|(Hres & _ & Hsets & Huniq)]);
    try done; [lia|by destruct Href as [[? _]|[? _]]|].
  split; [done|]. rewrite Hf, Hfiles. split; [done|]. split.
  - split; [by rewrite Hf, Hfiles|]. unfold xattr_unique. by rewrite Hxs.
  - unfold sets_xattr, xattr_at in *. by rewrite Hxs.
Qed.

(** The handler's answer to a client's GET_XATTR. *)
Lemma getxattr_answer d a access fd dirfd p b name val (s s1 : cstate) m mem len (m' : pseudo_msg_t) pr tg :
  represents (files (pdb_tables d)) a -> attributes_ok (pdb_tables d) ->
  known_file a p b -> NUL ∉ name -> alloc_ok s -> sizes_ok (Some p) (Some name) None ->
  client_request_of OP_GET_XATTR access fd dirfd (Some p) (Some b) (Some name) None s = Some (s1, m, mem, len) ->
  len < 2 ^ 31 -> hdr m' = hdr (set_pathlen len (wire_message m)) -> take (Z.to_nat len) (m_path m') = take (Z.to_nat len) mem ->
  xattr_at (pdb_tables d) (bind_int (st_dev b)) (signed_ino (st_ino b)) name val ->
  let o := (pseudo_server_response d m' pr tg).1 in
  if decide (val = []) then m_result (msg o) = RESULT_FAIL /\ response o = None
  else m_result (msg o) = RESULT_SUCCEED /\ response o = Some (val, Z.of_nat (length val)).
Proof.
  intros Hrep [Hok Hu] [[Hp Hsl] Hn (at0 & Hin & Hty) Hkey Hat] Hname Ha Hsz Hreq Hlen Hhdr Hmem Hval. cbv zeta.
  destruct (xattr_wire _ _ _ _ _ _ _ _ _ _ _ _ _ m' (or_intror eq_refl) Ha Hsz Hreq Hlen Hp Hsl Hname Hkey Hat Hhdr Hmem)
    as (Hmode & Hmt & tail & Hx). rewrite op_response by done.
  destruct (op_exit_keeps (op_core d m') pr tg) as (_ & _ & -> & ->). rewrite <- Hmode in Hty.
  destruct (core_getxattr d a m' _ _ _ _ _ _ Hrep Hok Hx at0 Hn Hin Hty eq_refl Hu) as (_ & Hyes & Hno).
  case_decide as Hv; [|by apply Hyes]. subst. apply Hno. by left.
Qed.
End Attributes.

(** ** Properties *)

(** C5: an operation of a connected client that the server is asked about makes
    one message; the server gets that message, header and paths, whatever
    follows it on the socket, works on it with its handler alone and sends the
    handler's answer; and the client returns exactly that answer, attributes
    and data, or aborts if the answer orders it to. *)
Theorem operation_round_trip {E : SqlEngine} {L : SqlLaws E} {RL : SqlReliable E} {PM : PathMax} {SC : ServerConfig}
    {M : Malloc} {ML : MallocLaws} {CE : ClientEnv} {CL : ClientEnvLaws CE}
    op access fd dirfd path buf extra1 extra2 (s s1 : cstate) m mem len (sv : server) i rest st kernel scratch :
  (forall k, is_Some (malloc k)) ->
  connected s -> args_ok access fd buf s -> has_paths op (client_path_arg s fd path) extra1 ->
  sizes_ok (client_path_arg s fd path) extra1 extra2 ->
  client_request_of op access fd dirfd path buf extra1 extra2 s = Some (s1, m, mem, len) -> 0 <= len < 2 ^ 31 ->
  server_ok sv -> client_open sv i -> 0 <= c_fd (slot sv i) -> in_int32 i ->
  let wire := message_wire (wire_message m) len mem in
  exists m' sv', serve_client i (sock_push (wire ++ rest) st) kernel scratch sv = Some sv' /\
    hdr m' = hdr (set_pathlen len (wire_message m)) /\ take (Z.to_nat len) (m_path m') = take (Z.to_nat len) mem /\
    let o := (pseudo_server_response (sdb sv) m' (c_program (slot sv i)) (c_tag (slot sv i))).1 in
    let back := header_bytes (answer_header i 0 o) ++ answer_payload o in
    sdb sv' = db o /\ outputs sv' = Sent (c_fd (slot sv i)) back :: outputs sv /\
    forall world rest' st', match response o with Some (_, k) => k < 2 ^ 31 | None => True end ->
      (forall w, ex_kernel (at_exchange (world 0%nat)) w = SendBytes (Z.of_nat (length w))) ->
      ex_stream (at_exchange (world 0%nat)) = sock_push (back ++ rest') st' ->
      exists s' r, pseudo_client_op world op access fd dirfd path buf extra1 extra2 s = Some (s', r) /\
        c_events s' = SendOn (connect_fd (c_fds s)) wire :: c_events s /\ answered i o r.
Proof.
  intros Hm Hcon Hargs Hp Hsz Hreq Hlen Hs Hi Hfd Hint.
  destruct (round_trip op access fd dirfd path buf extra1 extra2 s s1 m mem len sv i rest st kernel scratch Hm Hcon Hargs Hp Hsz Hreq
    Hlen Hs Hi Hfd Hint) as (m' & sv' & H1 & H2 & H3 & H4 & H5 & _ & _ & H6). exists m', sv'. do 5 (split; [done|]).
  intros world rest' st' Hk Hker Hstr. destruct (H6 world rest' st' Hk Hker Hstr) as (s' & r & Ho & He & Ha & _). by exists s', r.
Qed.

(** C6: an attribute one client sets on a file the server knows is what another
    client, or the same one, reads: the second client's operation returns the
    value byte for byte, whatever bytes it holds, through both clients'
    messages, the server's loop, the handler and the database.  An attribute
    whose value is empty is set like any other, but the second client is told
    that the operation failed, and the caller that there is no such
    attribute. *)
Theorem setxattr_then_getxattr {E : SqlEngine} {L : SqlLaws E} {RL : SqlReliable E} {PM : PathMax} {SC : ServerConfig}
    {M : Malloc} {ML : MallocLaws} {CE : ClientEnv} {CL : ClientEnvLaws CE}
    a name val (sv : server) i j
    access fd dirfd p b (s s1 : cstate) m mem len rest st kernel scratch
    access' fd' dirfd' p' b' (t t1 : cstate) m2 mem2 len2 rest2 st2 kernel2 scratch2 :
  (forall k, is_Some (malloc k)) -> NUL ∉ name ->
  server_ok sv -> represents (files (pdb_tables (sdb sv))) a -> attributes_ok (pdb_tables (sdb sv)) -> xattr_ids (pdb_tables (sdb sv)) ->
  known_file a p b -> known_file a p' b' -> (st_dev b, st_ino b) = (st_dev b', st_ino b') ->
  connected s -> args_ok access fd (Some b) s -> sizes_ok (Some p) (Some name) (Some val) ->
  client_request_of OP_SET_XATTR access fd dirfd (Some p) (Some b) (Some name) (Some val) s = Some (s1, m, mem, len) ->
  0 <= len < 2 ^ 31 ->
  connected t -> args_ok access' fd' (Some b') t -> sizes_ok (Some p') (Some name) None ->
  client_request_of OP_GET_XATTR access' fd' dirfd' (Some p') (Some b') (Some name) None t = Some (t1, m2, mem2, len2) ->
  0 <= len2 < 2 ^ 31 ->
  client_open sv i -> 0 <= c_fd (slot sv i) -> in_int32 i -> client_open sv j -> 0 <= c_fd (slot sv j) -> in_int32 j ->
  (forall n, 0 <= n -> Z.of_nat (length (scratch n)) = n) -> Z.of_nat (length val) < 2 ^ 31 ->
  exists sv1 sv2 back,
    serve_client i (sock_push (message_wire (wire_message m) len mem ++ rest) st) kernel scratch sv = Some sv1 /\
    serve_client j (sock_push (message_wire (wire_message m2) len2 mem2 ++ rest2) st2) kernel2 scratch2 sv1 = Some sv2 /\
    outputs sv2 = Sent (c_fd (slot sv j)) back :: outputs sv1 /\
    forall world rest3 st3,
      (forall w, ex_kernel (at_exchange (world 0%nat)) w = SendBytes (Z.of_nat (length w))) ->
      ex_stream (at_exchange (world 0%nat)) = sock_push (back ++ rest3) st3 ->
      exists t' ans, pseudo_client_op world OP_GET_XATTR access' fd' dirfd' (Some p') (Some b') (Some name) None t = Some (t', Reply ans) /\
        m_result (hdr ans) = (if decide (val = []) then RESULT_FAIL else RESULT_SUCCEED) /\
        m_pathlen (hdr ans) = Z.of_nat (length val) /\ take (length val) (m_path ans) = val.
Proof.
  intros Hm Hname Hs Hrep Hat Hids Hk1 Hk2 Hkk Hc1 Ha1 Hz1 Hq1 Hl1 Hc2 Ha2 Hz2 Hq2 Hl2 Hi Hfi Hii Hj Hfj Hij Hscr Hvl.
  assert (has_paths OP_SET_XATTR (client_path_arg s fd (Some p)) (Some name) /\
    has_paths OP_GET_XATTR (client_path_arg t fd' (Some p')) (Some name)) as [Hp1 Hp2] by done.
  destruct (round_trip _ _ _ _ _ _ _ _ s s1 m mem len sv i rest st kernel scratch Hm Hc1 Ha1 Hp1 Hz1 Hq1 Hl1 Hs Hi Hfi Hii)
    as (m' & sv1 & Hsv1 & Hh1 & Ht1 & Hdb1 & _ & Hcl1 & Hok1 & _). specialize (Hok1 Hscr).
  destruct (setxattr_answer (sdb sv) a _ _ _ p b name val s s1 m mem len m' (c_program (slot sv i)) (c_tag (slot sv i))
    Hrep Hat Hids Hk1 Hname ltac:(apply Hc1) Hz1 Hq1 ltac:(lia) Hh1 Ht1) as (_ & Hrep1 & Hat1 & Hsets).
  rewrite <- Hdb1 in Hrep1, Hat1, Hsets.
  assert (slot sv1 j = slot sv j) as Hslot by (unfold slot; by rewrite Hcl1).
  assert (client_open sv1 j) as Hj1 by (unfold client_open; rewrite Hcl1; exact Hj).
  destruct (round_trip _ _ _ _ _ _ _ _ t t1 m2 mem2 len2 sv1 j rest2 st2 kernel2 scratch2 Hm Hc2 Ha2 Hp2 Hz2 Hq2 Hl2 Hok1 Hj1
    ltac:(by rewrite Hslot) Hij) as (m2' & sv2 & Hsv2 & Hh2 & Ht2 & Hdb2 & Hout2 & _ & _ & Hfin).
  assert (xattr_at (pdb_tables (sdb sv1)) (bind_int (st_dev b')) (signed_ino (st_ino b')) name val) as Hv.
  { injection Hkk as <- <-. apply Hsets. by rewrite decide_True. }
  pose proof (getxattr_answer (sdb sv1) a _ _ _ p' b' name val t t1 m2 mem2 len2 m2' (c_program (slot sv1 j)) (c_tag (slot sv1 j))
    Hrep1 Hat1 Hk2 Hname ltac:(apply Hc2) Hz2 Hq2 ltac:(lia) Hh2 Ht2 Hv) as Hgot.
  rewrite Hslot in Hout2, Hdb2, Hfin, Hgot. clear Hdb1.
  set (o := (pseudo_server_response (sdb sv1) m2' _ _).1) in *.
  assert (m_result (msg o) = (if decide (val = []) then RESULT_FAIL else RESULT_SUCCEED) /\
    m_pathlen (answer_header j 0 o) = Z.of_nat (length val) /\ answer_payload o = val /\
    match response o with Some (_, k) => k < 2 ^ 31 | None => True end) as (Hres & Hpl & Hpay & Hresp).
  { unfold answer_payload, answer_header. case_decide as Hv0; destruct Hgot as [-> ->]; [subst val|rewrite wrap_unsigned_small by lia];
      (split; [done|]; split; [by destruct (msg o) as [[]]|]); [done|]. by rewrite Nat2Z.id, firstn_all. }
  exists sv1, sv2, (header_bytes (answer_header j 0 o) ++ answer_payload o).
  split; [exact Hsv1|]. split; [exact Hsv2|]. split; [exact Hout2|].
  intros world rest3 st3 Hker Hstr. destruct (Hfin world rest3 st3) as (t' & r & Hop & _ & Hans & _); [done|done|done|].
  unfold answered in Hans. rewrite Hres in Hans.
  assert ((if decide (val = []) then RESULT_FAIL else RESULT_SUCCEED) =? RESULT_ABORT = false) as Hab by (by case_decide).
  rewrite Hab in Hans. destruct Hans as (ans & -> & Hah & Hap). exists t', ans. split; [done|]. rewrite Hah.
  rewrite Hpay in Hap. split; [|by split].
  rewrite <- Hres. unfold answer_header. by destruct (msg o) as [[]].
Qed.

(** ** Witnesses *)

#[local] Existing Instance mem_engine.
#[local] Existing Instance pipe_path_max.
#[local] Existing Instance zero_malloc.
#[local] Existing Instance sample_config.
#[local] Existing Instance sample_client_env.

Definition accept_all (w : bytes) : send_result := SendBytes (Z.of_nat (length w)).
Definition scratch_block (n : Z) : bytes := replicate (Z.to_nat n) NUL.

Lemma scratch_block_size n : 0 <= n -> Z.of_nat (length (scratch_block n)) = n.
Proof. intros Hn. unfold scratch_block. rewrite length_replicate. lia. Qed.

(** A server that knows the inode (5, 11) as [/d/f] and [/d/g], with a client
    on descriptor 5 and one on descriptor 6. *)
Definition linked_server : server :=
  (open_client 6 true (open_client 5 true (server_start 3 100 linked_pdb)).1).1.

Lemma linked_server_ok : server_ok linked_server.
Proof.
  destruct linked_represented as [Htab _].
  pose proof (server_start_ok 3 100 linked_pdb ltac:(done) Htab) as Hs.
  destruct (open_client_table 5 true (server_start 3 100 linked_pdb) (ok_table _ Hs) ltac:(done)) as (Ht & _).
  destruct (open_client_table 6 true (open_client 5 true (server_start 3 100 linked_pdb)).1 Ht ltac:(done)) as (Ht2 & _).
  constructor; [exact Ht2|done|exact (ok_rx _ Hs)|exact Htab].
Qed.

Definition link_stat : statbuf := mkStat 5 11 0x81a4 2 1000 100 0.

Lemma link_args : args_ok 0 (-1) (Some link_stat) connected_client.
Proof. repeat split; vm_compute; congruence. Qed.

Lemma client_ready : connected connected_client.
Proof. split; [vm_compute; congruence|]. by repeat split. Qed.

Lemma link_known p : p = $"/d/f" \/ p = $"/d/g" -> known_file linked_fs p link_stat.
Proof.
  intros Hp. constructor.
  - by destruct Hp as [-> | ->]; (split; [split; [done|split; [by apply no_nul_b|done]]|vm_compute; congruence]).
  - by destruct Hp as [-> | ->].
  - exists session_disk. by split.
  - split; vm_compute; done.
  - repeat split; vm_compute; congruence.
Qed.

Lemma linked_no_attributes (j : Z) (x : xattr_row) : xattrs (pdb_tables (sdb linked_server)) !! j <> Some x.
Proof. change (xattrs (pdb_tables (sdb linked_server))) with (∅ : gmap Z xattr_row). by rewrite lookup_empty. Qed.

Lemma operation_round_trip_witness : exists s1 m mem m' sv',
  client_request_of OP_STAT 0 (-1) (-1) (Some ($"/d/g")) (Some link_stat) None None connected_client = Some (s1, m, mem, 5) /\
  serve_client 1 (sock_push (message_wire (wire_message m) 5 mem ++ []) []) accept_all scratch_block linked_server = Some sv' /\
  hdr m' = hdr (set_pathlen 5 (wire_message m)).
Proof.
  destruct (client_request_of OP_STAT 0 (-1) (-1) (Some ($"/d/g")) (Some link_stat) None None connected_client)
    as [[[[s1 m] mem] len]|] eqn:Hreq; [|exfalso; vm_compute in Hreq; discriminate].
  assert (len = 5) as -> by (vm_compute in Hreq; injection Hreq as _ _ _ <-; reflexivity).
  destruct (@operation_round_trip mem_engine mem_engine_laws mem_engine_reliable pipe_path_max sample_config zero_malloc
    zero_malloc_laws sample_client_env sample_client_env_laws OP_STAT 0 (-1) (-1) (Some ($"/d/g")) (Some link_stat) None None
    connected_client s1 m mem 5 linked_server 1 [] [] accept_all scratch_block) as (m' & sv' & H1 & H2 & _).
  - intros k. by eexists.
  - exact client_ready.
  - exact link_args.
  - exact I.
  - vm_compute. done.
  - exact Hreq.
  - lia.
  - exact linked_server_ok.
  - split; [lia|reflexivity].
  - vm_compute. congruence.
  - split; vm_compute; congruence.
  - exists s1, m, mem, m', sv'. split; [reflexivity|]. split; [exact H1|exact H2].
Defined.

(** Set under one name, read under the other. *)
Lemma setxattr_then_getxattr_witness : exists s1 m mem t1 m2 mem2 sv1 sv2 back,
  client_request_of OP_SET_XATTR 0 (-1) (-1) (Some ($"/d/f")) (Some link_stat) (Some ($"user.a")) (Some ($"v")) connected_client
    = Some (s1, m, mem, 14) /\
  client_request_of OP_GET_XATTR 0 (-1) (-1) (Some ($"/d/g")) (Some link_stat) (Some ($"user.a")) None connected_client
    = Some (t1, m2, mem2, 12) /\
  serve_client 1 (sock_push (message_wire (wire_message m) 14 mem ++ []) []) accept_all scratch_block linked_server = Some sv1 /\
  serve_client 2 (sock_push (message_wire (wire_message m2) 12 mem2 ++ []) []) accept_all scratch_block sv1 = Some sv2 /\
  outputs sv2 = Sent 6 back :: outputs sv1.
Proof.
  destruct (client_request_of OP_SET_XATTR 0 (-1) (-1) (Some ($"/d/f")) (Some link_stat) (Some ($"user.a")) (Some ($"v")) connected_client)
    as [[[[s1 m] mem] len]|] eqn:Hreq; [|exfalso; vm_compute in Hreq; discriminate].
  assert (len = 14) as -> by (vm_compute in Hreq; injection Hreq as _ _ _ <-; reflexivity).
  destruct (client_request_of OP_GET_XATTR 0 (-1) (-1) (Some ($"/d/g")) (Some link_stat) (Some ($"user.a")) None connected_client)
    as [[[[t1 m2] mem2] len2]|] eqn:Hreq2; [|exfalso; vm_compute in Hreq2; discriminate].
  assert (len2 = 12) as -> by (vm_compute in Hreq2; injection Hreq2 as _ _ _ <-; reflexivity).
  destruct (@setxattr_then_getxattr mem_engine mem_engine_laws mem_engine_reliable pipe_path_max sample_config zero_malloc
    zero_malloc_laws sample_client_env sample_client_env_laws linked_fs ($"user.a") ($"v") linked_server 1 2
    0 (-1) (-1) ($"/d/f") link_stat connected_client s1 m mem 14 [] [] accept_all scratch_block
    0 (-1) (-1) ($"/d/g") link_stat connected_client t1 m2 mem2 12 [] [] accept_all scratch_block)
    as (sv1 & sv2 & back & H1 & H2 & H3 & _).
  - intros k. by eexists.
  - by apply no_nul_b.
  - exact linked_server_ok.
  - apply linked_represented.
  - split; [exact (proj1 (proj1 linked_represented))|]. intros j k x y Hx. by apply linked_no_attributes in Hx.
  - intros j x Hx. by apply linked_no_attributes in Hx.
  - apply link_known. by left.
  - apply link_known. by right.
  - reflexivity.
  - exact client_ready.
  - exact link_args.
  - vm_compute. done.
  - exact Hreq.
  - lia.
  - exact client_ready.
  - exact link_args.
  - vm_compute. done.
  - exact Hreq2.
  - lia.
  - split; [lia|reflexivity].
  - vm_compute. congruence.
  - split; vm_compute; congruence.
  - split; [lia|reflexivity].
  - vm_compute. congruence.
  - split; vm_compute; congruence.
  - exact scratch_block_size.
  - vm_compute. done.
  - exists s1, m, mem, t1, m2, mem2, sv1, sv2, back. split; [reflexivity|]. split; [reflexivity|]. split; [exact H1|]. split; [exact H2|exact H3].
Defined.
