(* ===== verification/System.v ===== *)
(** The whole system: a client whose messages go to the server's loop, whose
    handler works on the database, and whose answers come back.  It keeps the
    promise the wrappers rely on ([Emulator]).

    Between client and server every byte arrives; the client is connected and
    the server serves it at once. *)

From stdpp Require Import base gmap list option fin_maps strings sets.
From Stdlib Require Import ZArith Lia Ascii.
From S2P Require Import Prelude Tables Modes Message Sql FileDb FileDbSpec Xattr LogDb ServerOp OpInvariant FsSpec OpRefine XattrRefine Refine Paths ClientPath ServerLoop ServerLoopSpec ClientConn ClientConnSpec ClientOp ClientOpSpec RoundTrip Io Wrappers WrapXattr Emulator AclSpec SampleKernel.

Open Scope Z_scope.

Record system {E : SqlEngine} := mkSystem { sy_client : cstate; sy_server : server; sy_slot : Z }.
Arguments mkSystem {E}.

Section System.
Context {E : SqlEngine} {PM : PathMax} {SC : ServerConfig} {M : Malloc} {CE : ClientEnv}.

(** The server gets [wire] from the client and answers. *)
Definition deliver (wire : bytes) (y : system) : option (server * bytes) :=
  match serve_client (sy_slot y) (sock_push wire []) accept_all scratch_block (sy_server y) with
  | Some sv => Some (sv, match outputs sv with Sent _ back :: _ => back | _ => [] end)
  | None => None
  end.

(** No new connection is needed. *)
Definition no_setup : setup_env :=
  mkSetup (mkConnect (-1) (-1) false false) (mkExchange accept_all []) None false (mkSpawn (-1) false None)
    (mkConnect (-1) (-1) false false) (mkExchange accept_all []).

(** An operation of the client; [None] is a crash or the end of the process. *)
Definition system_op (op : pseudo_op_t) (access fd dirfd : Z) (path : option bytes) (buf : option statbuf)
    (extra1 extra2 : option bytes) (y : system) : option (system * option pseudo_msg_t) :=
  '(sv, back) ←
    match client_request_of op access fd dirfd path buf extra1 extra2 (sy_client y) with
    | Some (_, m, mem, len) => deliver (message_wire (wire_message m) len mem) y
    | None => Some (sy_server y, [])
    end;
  '(c, r) ← pseudo_client_op (fun _ => mkAttempt (mkExchange accept_all (sock_push back [])) no_setup)
              op access fd dirfd path buf extra1 extra2 (sy_client y);
  match r with
  | Aborted => None
  | NoReply => Some (mkSystem c sv (sy_slot y), None)
  | Reply m => Some (mkSystem c sv (sy_slot y), Some m)
  end.

#[export] Instance system_session : Session system := system_op.

(** The name the client has for a descriptor. *)
Definition fd_arg (c : client) (fd : Z) : option bytes :=
  if (0 <=? fd) && (fd <=? Z.of_nat (length (fd_paths c))) then fd_path c fd else None.

Definition system_ids (y : system) : Z * Z := (pseudo_fuid (sy_client y), pseudo_fgid (sy_client y)).

(** The path is not one of those to be ignored, and fits a message. *)
Definition system_heeded (p : bytes) : Prop :=
  (forall c, pseudo_client_ignore_path_chroot c ignore_paths (Some p) false = false) /\ Z.of_nat (length p) + 1 < 2 ^ 31.

Record system_believes (y : system) (a : fs) : Prop := {
  sb_connected : connected (sy_client y);
  sb_pid : pid_ok getpid;
  sb_uid : in_uint32 (pseudo_fuid (sy_client y));
  sb_gid : in_uint32 (pseudo_fgid (sy_client y));
  sb_server : server_ok (sy_server y);
  sb_open : client_open (sy_server y) (sy_slot y);
  sb_fd : 0 <= c_fd (slot (sy_server y) (sy_slot y));
  sb_slot : in_int32 (sy_slot y);
  sb_fs : server_represents (sdb (sy_server y)) a
}.
End System.

(** ** The request of an operation on one path *)

Section OnePath.
Context {PM : PathMax} {M : Malloc} {CE : ClientEnv}.
Implicit Types (s : cstate).

(** The message that goes out. *)
Definition one_message (op : pseudo_op_t) (fd : Z) (b : statbuf) s : pseudo_msg_t :=
  let m := client_message op 0 fd (Some b) in if owns op then with_ids (with_sent true s) m else m.

Lemma no_strip p : last p <> Some slash -> strips_slash p (Z.of_nat (length p) + 1) = false.
Proof.
  intros Hl. unfold strips_slash. destruct (Z.ltb_spec 2 (Z.of_nat (length p) + 1)); [|done]. cbn [andb].
  apply bool_decide_eq_false_2. intros Hc. apply Hl. rewrite last_lookup.
  replace (Z.to_nat (Z.of_nat (length p) + 1 - 2)) with (Nat.pred (length p)) in Hc by lia.
  unfold char_at in Hc. destruct (p !! Nat.pred (length p)) eqn:Hp; [by f_equal|done].
Qed.

Lemma one_request op fd dirfd path p b s : asks op = true -> client_path_arg s fd path = Some p -> last p <> Some slash ->
  (forall c, pseudo_client_ignore_path_chroot c ignore_paths (Some p) false = false) ->
  client_request_of op 0 fd dirfd path (Some b) None None s =
    Some (with_sent true s, one_message op fd b s, p ++ [NUL], Z.of_nat (length p) + 1).
Proof.
  intros Ho Hp Hl Hi. unfold client_request_of. cbv zeta.
  assert (client_path_arg (with_sent true s) fd path = Some p) as -> by (rewrite <- Hp; by destruct s).
  rewrite Hi, andb_false_r.
  assert (client_extras op (Some p) None None = Go (None, None)) as -> by (by destruct op).
  unfold client_build. cbn [default from_option id]. rewrite no_strip by done.
  unfold one_message. by destruct op.
Qed.
End OnePath.

Section Exchange.
Context {E : SqlEngine} {L : SqlLaws E} {RL : SqlReliable E} {PM : PathMax} {SC : ServerConfig} {M : Malloc} {ML : MallocLaws}
  {CE : ClientEnv} {CL : ClientEnvLaws CE}.

Lemma one_message_fields op fd b (s : cstate) : asks op = true ->
  let m := wire_message (one_message op fd b s) in
  m_op m = op /\ (m_dev m, m_ino m) = stat_key b /\
  msg_attrs m = sent_attrs (pseudo_fuid s, pseudo_fgid s) op b /\ m_nlink m = int32 (st_nlink b) /\
  (m_type m = PSEUDO_MSG_OP \/ m_type m = PSEUDO_MSG_FASTOP).
Proof. intros Ho. destruct s, op; try done; cbn; by auto 6. Qed.

(** The server gets a message that carries the request. *)
Lemma one_carries op fd p b (s : cstate) (m' : pseudo_msg_t) : asks op = true -> canonical p -> stat_ok b ->
  attrs_ok (sent_attrs (pseudo_fuid s, pseudo_fgid s) op b) -> Z.of_nat (length p) + 1 < 2 ^ 31 ->
  let len := Z.of_nat (length p) + 1 in
  hdr m' = hdr (set_pathlen len (wire_message (one_message op fd b s))) ->
  take (Z.to_nat len) (m_path m') = take (Z.to_nat len) (p ++ [NUL]) ->
  carries m' (Req op p (stat_key b) (sent_attrs (pseudo_fuid s, pseudo_fgid s) op b) (int32 (st_nlink b))).
Proof.
  intros Ho [Hp _] [Hk _] Hat Hlen. cbv zeta. intros Hh Hm.
  destruct (one_message_fields op fd b s Ho) as (H1 & H2 & H3 & H4 & _). set (m := wire_message _) in *.
  assert (m_op m' = op /\ (m_dev m', m_ino m') = stat_key b /\ msg_attrs m' = sent_attrs (pseudo_fuid s, pseudo_fgid s) op b /\
    m_nlink m' = int32 (st_nlink b) /\ m_pathlen m' = Z.of_nat (length p) + 1) as (G1 & G2 & G3 & G4 & G5).
  { rewrite Hh. clearbody m. destruct m as [[]]. by cbn in *. }
  split; [|split; [done|split; [by destruct op|by split]]].
  constructor; try done.
  - exists (drop (Z.to_nat (Z.of_nat (length p) + 1)) (m_path m')).
    rewrite <- (take_drop (Z.to_nat (Z.of_nat (length p) + 1)) (m_path m')) at 1. rewrite Hm.
    rewrite take_ge by (rewrite length_app; cbn [length]; lia). by rewrite <- app_assoc.
  - rewrite G5. lia.
  - by rewrite G3.
Qed.

(** Only the operations that read attributes answer with data. *)
Lemma dispatch_response (s : op_state) : has_two_paths (m_op (msg s)) = false -> response (op_dispatch s) = response s.
Proof.
  intros Ho. assert (forall f (t : op_state), response (call f t) = response t) as Hcall by (intros f []; done).
  assert (forall (m : pseudo_msg_t) (t : op_state), response (with_msg m t) = response t) as Hmsg by (intros m []; done).
  unfold op_dispatch. destruct (m_op (msg s)) eqn:Hop; try done; rewrite ?Hcall; try done.
  all: unfold op_creat, op_chmod, op_chown, op_stat, op_link, op_may_unlink, op_unlink, op_mknod, op_link_if_new, op_update_msg, op_fail; cbv zeta.
  all: repeat case_match; rewrite ?Hmsg, ?Hcall, ?Hmsg, ?Hcall, ?Hmsg, ?Hcall; try done; by destruct s.
Qed.

Lemma unlinked_fd_response (s : op_state) : response (op_unlinked_fd s) = response s.
Proof. unfold op_unlinked_fd. destruct (m_op (msg s)); try done; destruct (_ && _); by destruct s. Qed.

Lemma core_response d a m q a' res oat :
  represents (files (pdb_tables d)) a -> rows_ok (files (pdb_tables d)) -> carries m q -> fs_step a q a' res oat ->
  match q with Req _ _ _ _ _ => True | RenameReq _ _ _ _ _ => False end -> response (op_core d m) = None.
Proof.
  intros Hrep Hok Hc Hst Hq. destruct q as [o path k at_ n|]; [|done]. destruct Hc as (R & Hl & Ho & Hat & Hn).
  assert (forall s : op_state, op_core d m = op_unlinked_fd (op_dispatch s) -> m_op (msg s) = o -> response s = None ->
    response (op_core d m) = None) as Hdone.
  { intros s -> Hs Hr. by rewrite unlinked_fd_response, dispatch_response by (by rewrite Hs). }
  assert (m_op (succ_msg m) = o) as Hop by (rewrite <- (req_op _ _ _ _ R); by destruct m as [[]]).
  assert ((exists at0, known a path k at_ at0) -> response (op_core d m) = None) as Hknown.
  { intros (at0 & Hnm & Hin & Hty). rewrite <- Hat in Hty.
    destruct (core_exact d a m o path k Hrep Hok R Ho Hl at0 Hnm Hin Hty) as (r & _ & Hcore). by apply (Hdone _ Hcore). }
  assert (unknown a path k -> response (op_core d m) = None) as Hunknown.
  { intros [Hnm Hin]. by apply (Hdone _ (core_none d a m o path k Hrep Hok R Ho Hl Hnm Hin)). }
  inversion Hst; subst; eauto.
  assert (m_op (succ_msg m) = OP_LINK) as Hlink by done.
  edestruct (core_by_ino d a m) as (r & _ & _ & Hcore); [exact Hrep|exact Hok|exact R|exact Ho|exact Hl|exact Hlink|eassumption..|].
  by apply (Hdone _ Hcore).
Qed.

Lemma pseudo_op_exit d m pr tg : (pseudo_op d m pr tg).1 = op_exit (op_core d m) pr tg.
Proof. unfold pseudo_op, op_core. cbn [fst]. reflexivity. Qed.

(** The handler's database and answer. *)
Lemma response_refines d a (m : pseudo_msg_t) op p k at_ n a' res oat pr tg :
  m_type m = PSEUDO_MSG_OP \/ m_type m = PSEUDO_MSG_FASTOP ->
  server_represents d a -> carries m (Req op p k at_ n) -> fs_step a (Req op p k at_ n) a' res oat ->
  let o := (pseudo_server_response d m pr tg).1 in
  server_represents (db o) a' /\ replies (msg o) res oat /\ response o = None.
Proof.
  intros Hty Hd Hc Hst. cbv zeta.
  destruct (op_simulates d a m _ a' res oat pr tg Hd Hc Hst) as [Hd' Hr].
  rewrite pseudo_op_exit in Hd', Hr. rewrite op_response by done. split; [exact Hd'|]. split; [exact Hr|].
  destruct (op_exit_keeps (op_core d m) pr tg) as (_ & _ & _ & ->).
  destruct Hd as (Ht & Hrep & _). by apply (core_response d a m _ a' res oat Hrep (proj1 Ht) Hc Hst).
Qed.

Lemma fs_step_no_abort a q a' res oat : fs_step a q a' res oat -> (res =? RESULT_ABORT) = false.
Proof. intros H. by destruct H. Qed.

Lemma sent_attrs_ok (ids : Z * Z) op b : in_uint32 ids.1 -> in_uint32 ids.2 -> stat_ok b -> attrs_ok (sent_attrs ids op b).
Proof.
  intros H1 H2 Hs. unfold sent_attrs. destruct (owns op); [|by apply Hs].
  destruct (stat_ok_bounds _ Hs) as (_ & _ & ? & ?). repeat (split; [done|]). done.
Qed.

Lemma stat_args_ok fd b (s : cstate) : pid_ok getpid -> in_uint32 (pseudo_fuid s) -> in_uint32 (pseudo_fgid s) ->
  in_int32 fd -> stat_ok b -> args_ok 0 fd (Some b) s.
Proof.
  intros Hpid Hu Hg Hfd [[Hd Hi] (? & ? & ? & ?)]. unfold stat_key, stat_attrs in *. cbn in *.
  split; [by vm_compute|]. do 4 (split; [done|]). unfold in_uint64.
  split; [lia|]. split; [lia|]. split; [lia|]. split; [done|]. split; [done|lia].
Qed.

Lemma system_step (Hm : forall k, is_Some (malloc k)) (y : system) a op fd dirfd path p b a' res oat :
  system_believes y a -> asks op = true -> in_int32 fd ->
  match path with Some q => q = p | None => fd_arg (c_paths (sy_client y)) fd = Some p end -> canonical p -> system_heeded p ->
  stat_ok b ->
  fs_step a (Req op p (stat_key b) (sent_attrs (system_ids y) op b) (int32 (st_nlink b))) a' res oat ->
  exists y' m, system_op op 0 fd dirfd path (Some b) None None y = Some (y', Some m) /\
    system_believes y' a' /\ system_ids y' = system_ids y /\ c_paths (sy_client y') = c_paths (sy_client y) /\
    m_result (hdr m) = res /\ (forall at_, oat = Some at_ -> msg_attrs (hdr m) = at_).
Proof.
  intros [Hcon Hpid Hu Hg Hsv Hopen Hfd Hslot Hfs] Ho Hi Hp [Hpok Hlast] [Hign Hlen] Hs Hst.
  destruct y as [c sv i]. cbn [sy_client sy_server sy_slot] in *. unfold system_ids in *. cbn [sy_client] in *.
  assert (client_path_arg c fd path = Some p) as Hpa by (destruct path; [by subst|done]).
  pose proof (one_request op fd dirfd path p b c Ho Hpa Hlast Hign) as Hreq.
  destruct (round_trip op 0 fd dirfd path (Some b) None None c _ _ _ _ sv i [] [] accept_all scratch_block Hm Hcon
    (stat_args_ok fd b c Hpid Hu Hg Hi Hs) ltac:(by destruct op) ltac:(rewrite Hpa; unfold sizes_ok; cbn; lia) Hreq
    ltac:(lia) Hsv Hopen Hfd Hslot) as (m' & sv' & Hserve & Hh & Hmem & Hdb & Hout & Hcl & Hok & Hclient).
  rewrite app_nil_r in Hserve. specialize (Hok scratch_block_size).
  assert (carries m' (Req op p (stat_key b) (sent_attrs (pseudo_fuid c, pseudo_fgid c) op b) (int32 (st_nlink b)))) as Hcar
    by (eapply one_carries; try done; by apply sent_attrs_ok).
  assert (m_type m' = PSEUDO_MSG_OP \/ m_type m' = PSEUDO_MSG_FASTOP) as Hty.
  { destruct (one_message_fields op fd b c Ho) as (_ & _ & _ & _ & Hty). rewrite Hh. by destruct (wire_message _) as [[]]. }
  destruct (response_refines (sdb sv) a m' op p _ _ _ a' res oat (c_program (slot sv i)) (c_tag (slot sv i)) Hty Hfs Hcar Hst)
    as (Hd' & Hrep & Hresp).
  set (o := (pseudo_server_response _ _ _ _).1) in *.
  destruct (Hclient (fun _ => mkAttempt (mkExchange accept_all (sock_push (header_bytes (answer_header i 0 o) ++ answer_payload o) []))
    no_setup) [] []) as (c' & r & Hop & _ & Hans & Hcon' & Hframe); [by rewrite Hresp|done|by rewrite app_nil_r|].
  destruct Hrep as [Hres Hat].
  unfold answered in Hans. rewrite Hres, (fs_step_no_abort _ _ _ _ _ Hst) in Hans. destruct Hans as (ans & -> & Hah & _).
  exists (mkSystem c' sv' i), ans. split.
  { unfold system_op. cbn [sy_client sy_server]. rewrite Hreq. unfold deliver. cbn [sy_slot sy_server]. rewrite Hserve, Hout.
    cbn [mbind option_bind]. by rewrite Hop. }
  destruct Hframe as (Hpaths & _ & _ & _ & _ & _ & Hu' & Hg').
  assert (c_paths (with_sent true c) = c_paths c /\ pseudo_fuid (with_sent true c) = pseudo_fuid c /\
    pseudo_fgid (with_sent true c) = pseudo_fgid c) as (Hp1 & Hp2 & Hp3) by (by destruct c).
  cbn [sy_client]. rewrite Hu', Hg', Hpaths, Hp1, Hp2, Hp3. rewrite Hah.
  assert (m_result (answer_header i 0 o) = m_result (msg o) /\ msg_attrs (answer_header i 0 o) = msg_attrs (msg o)) as [Ha1 Ha2]
    by (unfold answer_header; by destruct (msg o) as [[]]).
  rewrite Ha1, Ha2. split; [|by auto].
  assert (slot sv' i = slot sv i) as Hsl by (unfold slot; by rewrite Hcl).
  constructor; cbn [sy_client sy_server sy_slot]; rewrite ?Hu', ?Hg', ?Hp2, ?Hp3, ?Hsl; try done.
  - unfold client_open. by rewrite Hcl.
  - by rewrite Hdb.
Qed.

(** The system keeps the promise. *)
#[export] Instance system_emulator (Hm : forall k, is_Some (malloc k)) : Emulator system.
Proof.
  refine {| believes := system_believes; new_ids := system_ids; heeded := system_heeded;
            fd_name y := fd_arg (c_paths (sy_client y)) |}.
  - intros y a Hb. destruct (sb_fs y a Hb) as (_ & _ & Hfs). split; [done|]. split; [apply (sb_uid y a Hb)|apply (sb_gid y a Hb)].
  - intros y a op fd dirfd path p b a' res oat Hb Ho Hi Hp Hc Hh Hs Hst.
    destruct (system_step Hm y a op fd dirfd path p b a' res oat Hb Ho Hi Hp Hc Hh Hs Hst) as (y' & m & H1 & H2 & H3 & H4 & H5).
    exists y', m. split; [done|]. split; [done|]. split; [done|]. split; [by rewrite H4|done].
Defined.
End Exchange.

(** ** Properties *)

(** C2: a program that runs under the wrappers, connected to the server, sees the file system of a
    program that runs as root.  Whatever sequence of [stat], [chmod], [chown],
    [mkdir], [mknod] and [symlink] calls it makes, by path or by descriptor,
    and whatever the real [chmod]s do: if root's calls would take the abstract
    file system from one state to another with certain results, the wrappers
    return these results, leave [errno] alone, and the server keeps the new
    state.  An id of -1 stays as the program sees it, not as it is on disk. *)
Theorem calls_refine {E : SqlEngine} {L : SqlLaws E} {RL : SqlReliable E} {PM : PathMax} {SC : ServerConfig}
    {M : Malloc} {ML : MallocLaws} {CE : ClientEnv} {CL : ClientEnvLaws CE} {K : Type} {KE : Kernel K}
    (Hm : forall k, is_Some (malloc k)) (cs : list (file_call * statbuf)) (w : world K system) a a' outs :
  PSEUDO_XATTRDB = false -> system_believes (w_session w) a ->
  Forall (call_ready (EM := system_emulator Hm) (fd_arg (c_paths (sy_client (w_session w))))) cs -> finds cs w ->
  call_steps (pseudo_umask w) (system_ids (w_session w)) (fd_arg (c_paths (sy_client (w_session w)))) a cs a' outs ->
  exists w', do_calls (map fst cs) w = Some (w', outs) /\ w_errno w' = w_errno w /\ system_believes (w_session w') a'.
Proof.
  intros Hx Hb Hr Hf Hst.
  destruct (calls_emulated (EM := system_emulator Hm) cs w a a' outs Hx Hb Hr Hf Hst) as (w' & Hc & Hb' & He & _).
  by exists w'.
Qed.

(** ** Witnesses *)

Definition linked_system : system (E := mem_engine) := mkSystem connected_client linked_server 1.

#[local] Existing Instance mem_engine.
#[local] Existing Instance mem_engine_laws.
#[local] Existing Instance mem_engine_reliable.
#[local] Existing Instance pipe_path_max.
#[local] Existing Instance zero_malloc.
#[local] Existing Instance zero_malloc_laws.
#[local] Existing Instance sample_config.
#[local] Existing Instance sample_client_env.
#[local] Existing Instance sample_client_env_laws.

Lemma zero_malloc_gives k : is_Some (malloc k).
Proof. by eexists. Qed.

#[local] Instance sample_emulator : Emulator system := system_emulator zero_malloc_gives.

Lemma linked_believes : system_believes linked_system linked_fs.
Proof.
  constructor; cbn [linked_system sy_client sy_server sy_slot].
  - exact client_ready.
  - vm_compute. split; congruence.
  - vm_compute. split; congruence.
  - vm_compute. split; congruence.
  - exact linked_server_ok.
  - split; [lia|reflexivity].
  - vm_compute. congruence.
  - vm_compute. split; congruence.
  - exact linked_represented.
Qed.

Definition sample_world : world disk system := mkWorld sample_disk 0 linked_system 0x12 None false.

(** Where a call leads. *)
Definition after (c : file_call) (w : world disk system) : world disk system :=
  match do_call c w with Some (w', _) => w' | None => w end.

Lemma finds_after c b cs (w : world disk system) : sees w c b -> finds cs (after c w) -> finds ((c, b) :: cs) w.
Proof. intros Hs Hf. split; [done|]. intros w' out H. unfold after in Hf. by rewrite H in Hf. Qed.

(** Give the file to root, make it setuid, and look at its other name,
    whose entry on the sample disk has not changed. *)
Definition disk_f : statbuf := mkStat 5 11 0x81a4 2 1000 100 0.

Definition sample_program : list (file_call * statbuf) :=
  [(CallStat AT_FDCWD ($"/d/g") 0, disk_f);
   (CallChown AT_FDCWD ($"/d/f") 0 KEEP_ID 0, disk_f);
   (CallChmod AT_FDCWD ($"/d/f") 0x9ed 0, disk_f);
   (CallStat AT_FDCWD ($"/d/g") 0, disk_f)].

Definition sample_results : list outcome :=
  [(0, Some (mkStat 5 11 0x81a4 2 1000 100 0)); (0, None); (0, None); (0, Some (mkStat 5 11 0x89ed 2 0 100 0))].

Lemma sample_finds : finds sample_program sample_world.
Proof. repeat (apply finds_after; [vm_compute; reflexivity|]). exact I. Qed.

Lemma sample_canonical p : p = $"/d/f" \/ p = $"/d/g" -> canonical p /\ system_heeded p.
Proof. intros Hp. destruct (link_known p Hp) as [[? ?] _ _ _ _]. by destruct Hp as [-> | ->]. Qed.

Lemma disk_f_ok : stat_ok disk_f.
Proof. destruct (link_known ($"/d/f") (or_introl eq_refl)) as [_ _ _ Hk Ha]. by split. Qed.

Lemma on_sample c : call_fits c -> (forall p, call_names (fd_name linked_system) c p -> p = $"/d/f" \/ p = $"/d/g") ->
  call_ready (fd_name linked_system) (c, disk_f).
Proof. intros Hf Hp. split; [exact Hf|]. split; [intros p Hn; apply sample_canonical, Hp, Hn|exact disk_f_ok]. Qed.

Lemma sample_ready : Forall (call_ready (fd_name linked_system)) sample_program.
Proof.
  unfold sample_program. repeat (apply Forall_cons; split); [..|apply Forall_nil; exact I].
  all: apply on_sample; [|intros p <-; by auto].
  - exact I.
  - unfold call_fits, in_uint32, KEEP_ID. lia.
  - split; lia.
  - exact I.
Qed.

Lemma sample_steps : exists a', call_steps (pseudo_umask sample_world) (new_ids linked_system) (fd_name linked_system) linked_fs
  sample_program a' sample_results.
Proof.
  eexists. unfold sample_program, sample_results.
  eapply (calls_cons _ _ _ _ _ _ _ (0, Some (reported disk_f session_disk))).
  { eapply call_stat. by split. }
  eapply (calls_cons _ _ _ _ _ _ _ (0, None)).
  { eapply call_chown. by split. }
  eapply (calls_cons _ _ _ _ _ _ _ (0, None)).
  { eapply (call_chmod _ _ _ _ _ _ _ _ _ (mkAttrs 0 100 0x81a4 0)); by split. }
  eapply (calls_cons _ _ _ _ _ _ _ (0, Some (reported disk_f (mkAttrs 0 100 0x89ed 0)))).
  { eapply call_stat. by split. }
  apply calls_nil.
Qed.

Lemma calls_refine_witness : exists w', do_calls (map fst sample_program) sample_world = Some (w', sample_results).
Proof.
  destruct sample_steps as [a' Hsteps].
  destruct (@calls_refine mem_engine mem_engine_laws mem_engine_reliable pipe_path_max sample_config zero_malloc zero_malloc_laws
    sample_client_env sample_client_env_laws disk disk_kernel zero_malloc_gives sample_program sample_world linked_fs a' sample_results)
    as (w' & Hw & _).
  - reflexivity.
  - exact linked_believes.
  - exact sample_ready.
  - exact sample_finds.
  - exact Hsteps.
  - exists w'. exact Hw.
Defined.

(** [rp] is what [pseudo_root_path] makes of a path. *)
Definition system_paths {E : SqlEngine} (rp : client -> Z -> bytes -> bool -> option bytes) : PathView system := {|
  root_path y := rp (c_paths (sy_client y));
  path_ignored y p := pseudo_client_ignore_path_chroot (c_paths (sy_client y)) ignore_paths (Some p) false
|}.

#[local] Instance sample_paths : PathView system := system_paths (fun _ _ p _ => Some p).

(** [u::rwx g::r-x o::r--] *)
Definition sample_acl : list acl_entry := [mkAcl ACL_USER_OBJ 7 0; mkAcl ACL_GROUP_OBJ 5 0; mkAcl ACL_OTHER 4 0].

Lemma acl_is_chmod_witness : exists w',
  wrap_setxattr ($"/d/f") ACL_ACCESS (Some (acl_bytes sample_acl)) 28 0 sample_world = Some (w', 0).
Proof.
  destruct (@acl_is_chmod disk system disk_kernel _ sample_paths sample_config sample_emulator sample_world linked_fs ($"/d/f") disk_f
    session_disk sample_acl 0) as (w' & Hw & _).
  - reflexivity.
  - exact linked_believes.
  - apply sample_canonical. by left.
  - apply sample_canonical. by left.
  - exact disk_f_ok.
  - reflexivity.
  - intros flags. reflexivity.
  - by split.
  - reflexivity.
  - reflexivity.
  - unfold sample_acl. repeat (apply Forall_cons; split); [..|apply Forall_nil; exact I]; unfold entry_ok; cbn; lia.
  - discriminate.
  - reflexivity.
  - exists w'. exact Hw.
Defined.

(** In a changed root the canonical path of the file gets the root put in front
    a second time when its bits are looked up; nothing is found there, and the
    -1 becomes part of the mode: the file has all the bits. *)
Example acl_in_changed_root :
  let PV := system_paths (fun _ _ p _ => Some ($"/d" ++ p)) in
  match wrap_setxattr (PV := PV) ($"/d/f") ACL_ACCESS (Some (acl_bytes sample_acl)) 28 0 sample_world with
  | Some (w, rc) => (rc, option_map snd (wrap_fstatat64 AT_FDCWD ($"/d/f") 0 w))
  | None => (-1, None)
  end = (0, Some (0, Some (mkStat 5 11 0x8fff 2 1000 100 0))).
Proof. vm_compute. reflexivity. Qed.
