(* ===== verification/LogQuery.v ===== *)
(** Queries on the log ([pseudo_db.c]): the growing buffer the SQL text is
    built in, the text and the values bound to its placeholders, and reading
    the rows back.

    What SQLite makes of a text is an argument: whether it prepares, and the
    columns of the rows it returns. *)

From stdpp Require Import base list option strings.
From Stdlib Require Import ZArith Lia Ascii.
From S2P Require Import Prelude Format Tables Modes Message Paths Sql FileDb LogDb.

Open Scope Z_scope.

(** ** The buffer *)

(** [data] with its [buflen] bytes, and the offset of [tail]. *)
Record sql_buffer := mkBuf { b_data : bytes; b_tail : nat }.

Class BufferEnv := {
  (** what [malloc] returns *)
  malloc_chars : nat -> option bytes;
  (** whether [sqlite3_prepare_v2] takes the text *)
  prepares : bytes -> bool
}.

Class BufferEnvLaws (BE : BufferEnv) : Prop :=
  malloc_chars_size n b : malloc_chars n = Some b -> length b = n.

(** [vsnprintf(tail, room, ...)] when the arguments print as [text]. *)
Definition print_at (tail room : nat) (text mem : bytes) : option bytes :=
  match room with
  | O => Some mem
  | S room => memcpy_at tail (take room text ++ [NUL]) mem
  end.

(** The first [n] bytes of a block. *)
Definition read_block (n : nat) (mem : bytes) : option bytes :=
  if (n <=? length mem)%nat then Some (take n mem) else None.

(** [while (newlen <= need) newlen *= 2;] *)
Fixpoint grow (fuel newlen need : nat) : option nat :=
  match fuel with
  | O => None
  | S fuel => if (newlen <=? need)%nat then grow fuel (2 * newlen) need else Some newlen
  end.

Section LogQuery.
Context {BE : BufferEnv}.

(** Memory errors are [None]; the result is the number of bytes or -1. *)
Definition frag (text : bytes) (b : sql_buffer) : option (sql_buffer * Z) :=
  let curlen := b_tail b in
  let buflen := length (b_data b) in
  let rc := length text in
  data ← print_at curlen (buflen - curlen) text (b_data b);
  if (0 <? rc)%nat && (buflen - curlen <=? rc)%nat then
    newlen ← grow (rc + curlen + 1) buflen (rc + curlen);
    match malloc_chars newlen with
    | None => Some (mkBuf data curlen, -1)
    | Some newbuf =>
        old ← read_block (curlen + 1) data;
        newbuf ← memcpy_at 0 old newbuf;
        newbuf ← print_at curlen (newlen - curlen) text newbuf;
        if (newlen - curlen <=? rc)%nat then Some (mkBuf newbuf curlen, -1)
        else Some (mkBuf newbuf (curlen + rc), Z.of_nat rc)
    end
  else Some (mkBuf data (curlen + rc), Z.of_nat rc).

(** Results are not looked at. *)
Fixpoint frags (l : list bytes) (b : sql_buffer) : option sql_buffer :=
  match l with
  | [] => Some b
  | text :: l => '(b, _) ← frag text b; frags l b
  end.

(** ** The text *)

Definition is_text_field (f : Z) : bool :=
  (f =? PSQF_PROGRAM) || (f =? PSQF_TEXT) || (f =? PSQF_TAG) || (f =? PSQF_PATH).

Definition is_like (ty : Z) : bool := (ty =? PSQT_LIKE) || (ty =? PSQT_NOTLIKE) || (ty =? PSQT_SQLPAT).

(** The fields to return, with commas between them. *)
Definition selects (fields f : Z) : bool := negb (Z.land fields (Z.shiftl 1 f) =? 0).

Definition query_fields : list Z := map Z.of_nat (seq 1 (Z.to_nat (PSQF_MAX - 1))).

Fixpoint field_frags (fields : Z) (l : list Z) (done_any : bool) : list bytes :=
  match l with
  | [] => []
  | f :: l =>
      if selects fields f
      then ((if done_any then $", " else []) ++ pseudo_query_field_name f) :: field_frags fields l true
      else field_frags fields l done_any
  end.

(** One condition; [None] is refused.  The bare percent signs of the LIKE
    format are no directives; the C library prints them as they are. *)
Definition trait_frag (t : pseudo_query_t) : option bytes :=
  let sql := pseudo_query_type_sql (q_type t) in
  if is_text_field (q_field t) then
    Some (pseudo_query_field_name (q_field t) ++ $" " ++ sql ++
      (if q_type t =? PSQT_LIKE then $" ('%' || ? || '%')"
       else if (q_type t =? PSQT_NOTLIKE) || (q_type t =? PSQT_SQLPAT) then $" ?"
       else $" ? "))
  else if is_like (q_type t) then None
  else if q_field t =? PSQF_PERM then Some ($"(mode & " ++ decimal (Z.ldiff 0xffff S_IFMT) ++ $") " ++ sql ++ $" ? ")
  else if q_field t =? PSQF_FTYPE then Some ($"(mode & " ++ decimal S_IFMT ++ $") " ++ sql ++ $" ? ")
  else Some (pseudo_query_field_name (q_field t) ++ $" " ++ sql ++ $" ? ").

(** [order_by] and [order_dir] *)
Definition order_trait (t : pseudo_query_t) (order : bytes * bytes) : option (bytes * bytes) :=
  let by_ := pseudo_query_field_name (int32 (q_ivalue t)) in
  if q_type t =? PSQT_LESS then Some (by_, $"DESC")
  else if q_type t =? PSQT_EXACT then Some (by_, order.2)
  else if q_type t =? PSQT_GREATER then Some (by_, $"ASC")
  else None.

(** The conditions, and the order; [None] is [return 0]. *)
Fixpoint trait_frags (l : list pseudo_query_t) (done_any : bool) (order : bytes * bytes) :
    list bytes * option (bytes * bytes) :=
  match l with
  | [] => ([], Some order)
  | t :: l =>
      if q_field t =? PSQF_ORDER then
        match order_trait t order with
        | Some order => trait_frags l done_any order
        | None => ([], None)
        end
      else
        let lead := if done_any then $"AND " else $"WHERE " in
        match trait_frag t with
        | Some text => let '(r, o) := trait_frags l true order in (lead :: text :: r, o)
        | None => ([lead], None)
        end
  end.

Definition query_head (stmt_type : bytes) (fields : Z) (unique want_results : bool) : list bytes :=
  (stmt_type ++ $" ") ::
  (if want_results then (if unique then [$"DISTINCT "] else []) ++ field_frags fields query_fields false else []) ++
  [$" FROM logs "].

(** ** The values *)

Inductive bound := BindText (s : option bytes) | BindInt (v : Z).

Definition bind_trait (t : pseudo_query_t) : option (list bound) :=
  let f := q_field t in
  if f =? PSQF_ORDER then Some []
  else if is_text_field f then Some [BindText (c_str <$> q_svalue t)]
  else if (1 <=? f) && (f <? PSQF_MAX) && negb (f =? PSQF_ID) then Some [BindInt (int64 (q_ivalue t))]
  else None.

Fixpoint bind_traits (l : list pseudo_query_t) : option (list bound) :=
  match l with
  | [] => Some []
  | t :: l => b ← bind_trait t; r ← bind_traits l; Some (b ++ r)
  end.

(** ** The query *)

(** [NULL], or a statement with its text and its values. *)
Inductive query := NoQuery | Query (text : bytes) (values : list bound).

Definition initial_buffer : option sql_buffer := (fun b => mkBuf b 0) <$> malloc_chars 512.

(** [sql] is static: NULL at first, kept from call to call. *)
Definition pdb_query (log_db_open : bool) (stmt_type : bytes) (traits : list pseudo_query_t) (fields : Z)
    (unique want_results : bool) (sql : option sql_buffer) : option (option sql_buffer * query) :=
  if negb log_db_open then Some (sql, NoQuery)
  else
    match (match sql with Some b => Some b | None => initial_buffer end) with
    | None => Some (None, NoQuery)
    | Some b =>
        b ← frags (query_head stmt_type fields unique want_results) (mkBuf (b_data b) 0);
        let '(conditions, order) := trait_frags traits false ($"id", $"ASC") in
        b ← frags conditions b;
        match order with
        | None => Some (Some b, NoQuery)
        | Some (order_by, order_dir) =>
            b ← frags (if want_results then [$"ORDER BY " ++ order_by ++ $" " ++ order_dir ++ $";"] else []) b;
            let text := c_str (b_data b) in
            Some (Some b,
              if negb (prepares text) then NoQuery
              else match bind_traits traits with Some values => Query text values | None => NoQuery end)
        end
    end.
End LogQuery.

(** ** Reading rows *)

Inductive sql_value := SqlInt (v : Z) | SqlText (s : option bytes).

(** The columns of the table [logs]; NULL reads as 0. *)
Definition log_column_names : list bytes :=
  [$"id"; $"stamp"; $"op"; $"client"; $"fd"; $"dev"; $"ino"; $"mode"; $"path"; $"result"; $"severity"; $"text";
   $"tag"; $"uid"; $"gid"; $"access"; $"program"; $"type"].

Definition log_values (r : log_row) : list sql_value :=
  [SqlInt (l_id r); SqlInt (l_stamp r); SqlInt (l_op r); SqlInt (l_client r); SqlInt (default 0 (l_fd r));
   SqlInt (l_dev r); SqlInt (l_ino r); SqlInt (l_mode r); SqlText (l_path r); SqlInt (l_result r);
   SqlInt (l_severity r); SqlText (l_text r); SqlText (l_tag r); SqlInt (l_uid r); SqlInt (l_gid r);
   SqlInt (l_access r); SqlText (l_program r); SqlInt (l_type r)].

Definition log_column (r : log_row) (name : bytes) : option sql_value :=
  '(i, _) ← list_find (fun c => c = name) log_column_names; log_values r !! i.

(** The columns of a row SQLite returns. *)
Class SqlRow (R : Type) := {
  column_int64 : R -> nat -> Z;
  column_text : R -> nat -> option bytes
}.

Section History.
Context {R : Type} {SR : SqlRow R}.

(** One field from a column; [None] is [return 0]. *)
Definition read_field (f : Z) (row : R) (column : nat) (e : log_entry) : option log_entry :=
  let '(mkEntry st ty op ac cl fd dev ino mode gid uid path res sev text tag prog) := e in
  let v := column_int64 row column in
  let s := column_text row column in
  if f =? PSQF_ACCESS then Some (mkEntry st ty op (int32 v) cl fd dev ino mode gid uid path res sev text tag prog)
  else if f =? PSQF_CLIENT then Some (mkEntry st ty op ac (uint64 v) fd dev ino mode gid uid path res sev text tag prog)
  else if f =? PSQF_DEV then Some (mkEntry st ty op ac cl fd (uint64 v) ino mode gid uid path res sev text tag prog)
  else if f =? PSQF_FD then Some (mkEntry st ty op ac cl (uint64 v) dev ino mode gid uid path res sev text tag prog)
  else if f =? PSQF_GID then Some (mkEntry st ty op ac cl fd dev ino mode (uint64 v) uid path res sev text tag prog)
  else if f =? PSQF_INODE then Some (mkEntry st ty op ac cl fd dev (uint64 v) mode gid uid path res sev text tag prog)
  else if f =? PSQF_MODE then Some (mkEntry st ty op ac cl fd dev ino (uint64 v) gid uid path res sev text tag prog)
  else if f =? PSQF_OP then Some (mkEntry st ty (int32 v) ac cl fd dev ino mode gid uid path res sev text tag prog)
  else if f =? PSQF_PATH then Some (mkEntry st ty op ac cl fd dev ino mode gid uid (match s with Some s => Some s | None => path end) res sev text tag prog)
  else if f =? PSQF_PROGRAM then Some (mkEntry st ty op ac cl fd dev ino mode gid uid path res sev text tag (match s with Some s => Some s | None => prog end))
  else if f =? PSQF_RESULT then Some (mkEntry st ty op ac cl fd dev ino mode gid uid path (int32 v) sev text tag prog)
  else if f =? PSQF_SEVERITY then Some (mkEntry st ty op ac cl fd dev ino mode gid uid path res (int32 v) text tag prog)
  else if f =? PSQF_STAMP then Some (mkEntry v ty op ac cl fd dev ino mode gid uid path res sev text tag prog)
  else if f =? PSQF_TAG then Some (mkEntry st ty op ac cl fd dev ino mode gid uid path res sev text (match s with Some s => Some s | None => tag end) prog)
  else if f =? PSQF_TEXT then Some (mkEntry st ty op ac cl fd dev ino mode gid uid path res sev (match s with Some s => Some s | None => text end) tag prog)
  else if f =? PSQF_TYPE then Some (mkEntry st (int32 v) op ac cl fd dev ino mode gid uid path res sev text tag prog)
  else if f =? PSQF_UID then Some (mkEntry st ty op ac cl fd dev ino mode gid (uint64 v) path res sev text tag prog)
  else None.

Fixpoint read_fields (fields : Z) (l : list Z) (row : R) (column : nat) (e : log_entry) : option log_entry :=
  match l with
  | [] => Some e
  | f :: l =>
      if selects fields f
      then e ← read_field f row column e; read_fields fields l row (S column) e
      else read_fields fields l row column e
  end.

(** What a step of the statement returns. *)
Inductive stepped := StepRow (row : R) | StepDone | StepError.

(** The history: [rc] is [SQLITE_DONE] or not. *)
Record log_history := mkHistory { h_done : bool; h_fields : Z }.

(** [step] is what [sqlite3_step] would return now. *)
Definition pdb_history_entry (step : stepped) (h : log_history) : log_history * option log_entry :=
  if h_done h then (h, None)
  else
    match step with
    | StepDone => (mkHistory true (h_fields h), None)
    | StepError => (mkHistory false (h_fields h), None)
    | StepRow row => (mkHistory false (h_fields h), read_fields (h_fields h) query_fields row 0 log_entry_zero)
    end.
End History.

Definition pdb_history {BE : BufferEnv} (log_db_open : bool) (traits : list pseudo_query_t) (fields : Z) (unique : bool)
    (sql : option sql_buffer) : option (option sql_buffer * query) :=
  pdb_query log_db_open ($"SELECT") traits fields unique true sql.

(** The result, and whether the file database is marked as changed; [step_ok]
    is whether [sqlite3_step] ends with [SQLITE_DONE]. *)
Definition pdb_delete {BE : BufferEnv} (log_db_open step_ok : bool) (traits : list pseudo_query_t) (fields : Z)
    (sql : option sql_buffer) : option (option sql_buffer * Z * bool) :=
  '(sql, q) ← pdb_query log_db_open ($"DELETE") traits fields false false sql;
  match q with
  | Query _ _ => Some (sql, if step_ok then 0 else -1, true)
  | NoQuery => Some (sql, -1, false)
  end.
