(* ===== verification/LogQuerySpec.v ===== *)
(** What the queries on the log do: building the text never leaves its buffer
    and ends, whatever [malloc] answers; with memory, the text is the one the
    traits describe, with a placeholder for each value bound, in their order;
    and an entry that was logged is reported as the log keeps it. *)

From stdpp Require Import base gmap list option strings.
From Stdlib Require Import ZArith Lia Ascii.
From S2P Require Import Prelude Format Tables Modes Message Paths Sql FileDb FileDbSpec LogDb LogQuery.

Open Scope Z_scope.

(** ** The reference: the text a list of traits describes *)

Definition join (sep : bytes) (l : list bytes) : bytes :=
  match l with
  | [] => []
  | x :: l => x ++ concat (map (app sep) l)
  end.

Definition query_columns (fields : Z) : list bytes :=
  map pseudo_query_field_name (filter (fun f => selects fields f = true) query_fields).

Definition is_order (t : pseudo_query_t) : bool := q_field t =? PSQF_ORDER.

Definition conditions (traits : list pseudo_query_t) : list pseudo_query_t :=
  filter (fun t => is_order t = false) traits.

Definition orders (traits : list pseudo_query_t) : list pseudo_query_t :=
  filter (fun t => is_order t = true) traits.

Definition where_clause (conds : list bytes) : bytes :=
  match conds with
  | [] => []
  | _ => $"WHERE " ++ join ($"AND ") conds
  end.

Fixpoint order_of (l : list pseudo_query_t) (order : bytes * bytes) : option (bytes * bytes) :=
  match l with
  | [] => Some order
  | t :: l => order ← order_trait t order; order_of l order
  end.

(** [None] is refused. *)
Definition query_text (stmt_type : bytes) (traits : list pseudo_query_t) (fields : Z) (unique want_results : bool) :
    option bytes :=
  conds ← mapM trait_frag (conditions traits);
  order ← order_of (orders traits) ($"id", $"ASC");
  Some (stmt_type ++ $" " ++
        (if want_results then (if unique then $"DISTINCT " else []) ++ join ($", ") (query_columns fields) else []) ++
        $" FROM logs " ++ where_clause conds ++
        (if want_results then $"ORDER BY " ++ order.1 ++ $" " ++ order.2 ++ $";" else [])).

(** ** The buffer *)

Lemma grow_spec fuel newlen need :
  (1 <= fuel)%nat -> (need + 1 < newlen + fuel)%nat -> (1 <= newlen)%nat ->
  exists n, grow fuel newlen need = Some n /\ (need < n)%nat /\ (newlen <= n)%nat.
Proof.
  revert newlen. induction fuel as [|fuel IH]; intros newlen ? ? ?; [lia|]. simpl.
  destruct (Nat.leb_spec newlen need).
  - destruct (IH (newlen + (newlen + 0))%nat) as (n & -> & ? & ?); [lia..|].
    exists n. repeat split; lia.
  - exists newlen. repeat split; lia.
Qed.

(** Printing in a room inside the block stays there. *)
Lemma print_at_ok tail text mem :
  (tail < length mem)%nat ->
  exists mem', print_at tail (length mem - tail) text mem = Some mem' /\ length mem' = length mem /\
    take tail mem' = take tail mem /\
    ((length text < length mem - tail)%nat -> exists rest, mem' = take tail mem ++ text ++ NUL :: rest).
Proof.
  intros Htail. unfold print_at. destruct (length mem - tail)%nat as [|room] eqn:Hroom; [lia|].
  rewrite memcpy_at_ok.
  2: { rewrite length_app, length_take. simpl. lia. }
  eexists. split; [done|]. split.
  { rewrite !length_app, !length_take, length_drop. simpl. lia. }
  split.
  { rewrite take_app_le by (rewrite length_take; lia). rewrite take_take. f_equal. lia. }
  intros Hlen. rewrite (take_ge text) by lia. eexists. by rewrite <- (app_assoc text).
Qed.

(** The text so far is [pre]. *)
Definition prefix_is (b : sql_buffer) (pre : bytes) : Prop :=
  (b_tail b < length (b_data b))%nat /\ take (b_tail b) (b_data b) = pre.

(** ... and a NUL ends it. *)
Definition holds (b : sql_buffer) (text : bytes) : Prop :=
  b_tail b = length text /\ exists rest, b_data b = text ++ NUL :: rest.

Lemma holds_prefix b text : holds b text -> prefix_is b text.
Proof.
  intros (Ht & rest & Hd). unfold prefix_is. rewrite Hd, Ht. split; [rewrite length_app; simpl; lia|].
  by rewrite take_app_length.
Qed.

Lemma buffer_c_str b text : holds b text -> NUL ∉ text -> c_str (b_data b) = text.
Proof. intros (_ & rest & ->) ?. by apply c_str_app_nul. Qed.

Section Buffer.
Context {BE : BufferEnv} {BEL : BufferEnvLaws BE}.

(** Whatever [malloc] answers, the text goes in its block and stays there; it
    goes in whole when [malloc] has memory. *)
Lemma frag_ok text b pre :
  prefix_is b pre ->
  exists b' rc, frag text b = Some (b', rc) /\ (exists post, prefix_is b' (pre ++ post)) /\
    ((forall n, is_Some (malloc_chars n)) -> rc = Z.of_nat (length text) /\ holds b' (pre ++ text)).
Proof.
  intros [Htail <-]. destruct b as [data tail]. cbn [b_data b_tail] in *. unfold frag. cbn [b_data b_tail].
  assert (length (take tail data) = tail) as Hlen by (rewrite length_take; lia).
  destruct (print_at_ok tail text data Htail) as (data' & -> & Hl & Hpre & Hwhole). cbn [mbind option_bind].
  destruct (Nat.ltb_spec 0 (length text)) as [?|?]; cbn [andb];
    [destruct (Nat.leb_spec (length data - tail) (length text)) as [Hbig|Hfits]|].
  - destruct (grow_spec (length text + tail + 1) (length data) (length text + tail)) as (n & -> & Hn & Hn');
      [lia..|]. cbn [mbind option_bind].
    destruct (malloc_chars n) as [newbuf|] eqn:Hm.
    2: { eexists _, _. split; [done|]. split; [exists []; rewrite app_nil_r; split; cbn; [lia|done]|].
         intros Hall. destruct (Hall n) as [? ?]. congruence. }
    apply malloc_chars_size in Hm.
    unfold read_block. rewrite (proj2 (Nat.leb_le (tail + 1) (length data'))) by lia. cbn [mbind option_bind].
    assert (length (take (tail + 1) data') = tail + 1)%nat as Hcp by (rewrite length_take; lia).
    rewrite memcpy_at_ok by (rewrite Hcp; lia). cbn [mbind option_bind]. rewrite Hcp.
    set (buf := take 0 newbuf ++ take (tail + 1) data' ++ drop (0 + (tail + 1)) newbuf).
    assert (length buf = n) as Hbuf by (unfold buf; rewrite take_0, !length_app, Hcp, length_drop; simpl; lia).
    assert (take tail buf = take tail data) as Hbt.
    { unfold buf. rewrite take_0. cbn [app]. rewrite take_app_le by lia. rewrite take_take, Nat.min_l by lia. done. }
    destruct (print_at_ok tail text buf) as (buf' & Hp & Hl' & Hpre' & Hwhole'); [lia|].
    rewrite Hbuf in Hp. rewrite Hp. cbn [mbind option_bind].
    destruct (Nat.leb_spec (n - tail) (length text)) as [|]; [lia|].
    destruct (Hwhole' ltac:(lia)) as [rest ->]. rewrite Hbt in *.
    assert (holds (mkBuf (take tail data ++ text ++ NUL :: rest) (tail + length text)) (take tail data ++ text)).
    { split; cbn; [rewrite length_app; lia|]. exists rest. by rewrite <- app_assoc. }
    eexists _, _. split; [done|]. split; [exists text; by apply holds_prefix|]. done.
  - destruct (Hwhole Hfits) as [rest ->].
    assert (holds (mkBuf (take tail data ++ text ++ NUL :: rest) (tail + length text)) (take tail data ++ text)).
    { split; cbn; [rewrite length_app; lia|]. exists rest. by rewrite <- app_assoc. }
    eexists _, _. split; [done|]. split; [exists text; by apply holds_prefix|]. done.
  - destruct (Hwhole ltac:(lia)) as [rest ->].
    assert (holds (mkBuf (take tail data ++ text ++ NUL :: rest) (tail + length text)) (take tail data ++ text)).
    { split; cbn; [rewrite length_app; lia|]. exists rest. by rewrite <- app_assoc. }
    eexists _, _. split; [done|]. split; [exists text; by apply holds_prefix|]. done.
Qed.

Lemma frags_ok l b pre :
  prefix_is b pre ->
  exists b', frags l b = Some b' /\ (exists post, prefix_is b' (pre ++ post)) /\
    ((forall n, is_Some (malloc_chars n)) -> l <> [] \/ holds b pre -> holds b' (pre ++ concat l)).
Proof.
  revert b pre. induction l as [|text l IH]; intros b pre Hb; simpl.
  - exists b. split; [done|]. rewrite app_nil_r. split; [exists []; by rewrite app_nil_r|]. naive_solver.
  - destruct (frag_ok text b pre Hb) as (b1 & rc & -> & (post & Hp) & Hall). cbn.
    destruct (IH b1 _ Hp) as (b2 & E2 & (post2 & Hp2) & _). exists b2. split; [done|].
    split; [exists (post ++ post2); by rewrite app_assoc|].
    intros Hmem _. destruct (Hall Hmem) as [_ Hh].
    destruct (IH b1 (pre ++ text) (holds_prefix _ _ Hh)) as (b3 & E3 & _ & Hall3).
    rewrite E2 in E3. injection E3 as <-. rewrite app_assoc. auto.
Qed.
End Buffer.

(** ** The fragments make the text of the reference *)

Lemma join_cons sep x l : join sep (x :: l) = x ++ (match l with [] => [] | _ => sep ++ join sep l end).
Proof. destruct l; simpl; [done|]. by rewrite <- app_assoc. Qed.

Lemma field_frags_join fields l (done_any : bool) :
  concat (field_frags fields l done_any) =
    let names := map pseudo_query_field_name (filter (fun f => selects fields f = true) l) in
    if done_any then concat (map (app ($", ")) names) else join ($", ") names.
Proof.
  revert done_any. induction l as [|f l IH]; intros done_any; [by destruct done_any|].
  rewrite filter_cons. simpl. destruct (selects fields f) eqn:E.
  - rewrite decide_True by done. cbn [concat map]. rewrite IH. destruct done_any; [|done].
    cbn [map concat]. by rewrite <- app_assoc.
  - rewrite decide_False by done. apply IH.
Qed.

Lemma trait_frags_spec traits (done_any : bool) order :
  match mapM trait_frag (conditions traits), order_of (orders traits) order with
  | Some conds, Some order' =>
      trait_frags traits done_any order =
        (concat (zip_with (fun lead text => [lead; text])
           ((if done_any then $"AND " else $"WHERE ") :: replicate (length conds) ($"AND ")) conds), Some order')
  | _, _ => exists r, trait_frags traits done_any order = (r, None)
  end.
Proof.
  unfold conditions, orders. revert done_any order. induction traits as [|t l IH]; intros done_any order; [done|].
  rewrite !filter_cons. unfold is_order. cbn [trait_frags]. destruct (q_field t =? PSQF_ORDER).
  - rewrite decide_False, decide_True by done. cbn [order_of].
    destruct (order_trait t order) as [order1|]; cbn [mbind option_bind].
    + apply IH.
    + destruct (mapM _ _); by eexists.
  - rewrite decide_True, decide_False by done. cbn [mapM]. destruct (trait_frag t) as [text|]; cbn [mbind option_bind].
    2: by eexists.
    specialize (IH true order). destruct (mapM trait_frag _) as [conds|]; cbn [mbind option_bind mret option_ret].
    2: { destruct IH as [r ->]. by eexists. }
    destruct (order_of _ order) as [order'|].
    2: { destruct IH as [r ->]. by eexists. }
    rewrite IH. done.
Qed.

Lemma leads_join conds lead :
  concat (concat (zip_with (fun lead text => [lead; text]) (lead :: replicate (length conds) ($"AND ")) conds)) =
  match conds with [] => [] | _ => lead ++ join ($"AND ") conds end.
Proof.
  revert lead. induction conds as [|c conds IH]; intros lead; [done|].
  cbn [zip_with concat length replicate app]. rewrite join_cons.
  f_equal. f_equal. apply IH.
Qed.

(** ** Placeholders *)

Definition is_mark (c : ascii) : bool := bool_decide (c = "?"%char).
Definition marks (l : bytes) : nat := length (filter (fun c => is_mark c = true) l).

Lemma marks_app a b : marks (a ++ b) = (marks a + marks b)%nat.
Proof. unfold marks. by rewrite filter_app, length_app. Qed.

Lemma marks_concat l : marks (concat l) = sum_list (map marks l).
Proof. induction l; [done|]. cbn [concat map sum_list sum_list_with]. rewrite marks_app. simpl. by rewrite IHl. Qed.

(** No NUL, and [n] placeholders. *)
Definition marked (n : nat) (l : bytes) : Prop := NUL ∉ l /\ marks l = n.
Abbreviation plain := (marked 0).

#[export] Instance marked_dec n l : Decision (marked n l) := _.

Lemma marked_app n m a b : marked n a -> marked m b -> marked (n + m) (a ++ b).
Proof. intros [? ?] [? ?]. split; [by rewrite not_elem_of_app|rewrite marks_app; lia]. Qed.

Lemma marked_nil : plain [].
Proof. split; [by apply not_elem_of_nil|done]. Qed.

Ltac marked_const := apply (bool_decide_unpack _); by vm_compute.

Lemma marked_join n sep l : plain sep -> Forall (marked n) l -> marked (n * length l) (join sep l).
Proof.
  intros Hs. induction 1 as [|x l Hx Hl IH]; [rewrite Nat.mul_0_r; apply marked_nil|].
  rewrite join_cons. cbn [length]. rewrite Nat.mul_succ_r, Nat.add_comm. apply marked_app; [done|].
  destruct l; [rewrite Nat.mul_0_r; apply marked_nil|]. by apply (marked_app 0).
Qed.

Lemma enum_name_all (P : bytes -> Prop) names id : Forall P names -> P ($"unknown") -> P (enum_name names id).
Proof.
  intros Hall Hu. unfold enum_name. case_match; [done|].
  destruct (names !! Z.to_nat id) eqn:E; [|done]. by eapply Forall_lookup_1 in E.
Qed.

Lemma enum_column_all {A} (P : A -> Prop) dflt column id : Forall P column -> P dflt -> P (enum_column dflt column id).
Proof.
  intros Hall Hu. unfold enum_column. case_match; [done|].
  destruct (column !! Z.to_nat id) eqn:E; [|done]. by eapply Forall_lookup_1 in E.
Qed.

Lemma field_name_plain f : plain (pseudo_query_field_name f).
Proof. apply (enum_name_all plain); marked_const. Qed.

Lemma type_sql_plain t : plain (pseudo_query_type_sql t).
Proof. apply (enum_column_all plain); marked_const. Qed.

(** ** One placeholder for a condition, and nothing else has one *)

Lemma trait_frag_marked t text : trait_frag t = Some text -> marked 1 text.
Proof.
  unfold trait_frag. intros H.
  pose proof (field_name_plain (q_field t)). pose proof (type_sql_plain (q_type t)).
  break_match; simplify_eq;
    repeat first [assumption | marked_const | apply (marked_app 0); [by first [assumption|marked_const]|]].
Qed.

Lemma order_of_plain l order order' :
  order_of l order = Some order' -> plain order.1 /\ plain order.2 -> plain order'.1 /\ plain order'.2.
Proof.
  revert order. induction l as [|t l IH]; intros order; cbn [order_of]; [by intros [= ->]|].
  destruct (order_trait t order) as [o|] eqn:Ho; cbn [mbind option_bind]; [|done].
  intros H [Hb Hd]. apply (IH o H). unfold order_trait in Ho.
  pose proof (field_name_plain (int32 (q_ivalue t))).
  break_match; simplify_eq; split; try assumption; marked_const.
Qed.

Lemma query_text_marked stmt_type traits fields unique want_results text :
  plain stmt_type -> query_text stmt_type traits fields unique want_results = Some text ->
  marked (length (conditions traits)) text.
Proof.
  intros Hst. unfold query_text. destruct (mapM trait_frag _) as [conds|] eqn:Hc; cbn [mbind option_bind]; [|done].
  destruct (order_of _ _) as [order|] eqn:Ho; cbn [mbind option_bind]; [|done]. intros <-%(inj Some).
  apply mapM_Some in Hc. pose proof (Forall2_length _ _ _ Hc) as Hlen. rewrite Hlen.
  destruct (order_of_plain _ _ _ Ho) as [? ?]; [split; marked_const|].
  assert (plain (join ($", ") (query_columns fields))) as Hjoin.
  { apply (marked_join 0); [marked_const|]. apply Forall_forall. intros x Hx. unfold query_columns in Hx.
    apply list_elem_of_fmap in Hx as (f & -> & _). apply field_name_plain. }
  assert (marked (length conds) (where_clause conds)) as Hwhere.
  { assert (Forall (marked 1) conds) as Hone.
    { clear -Hc. induction Hc; constructor; [|done]. by eapply trait_frag_marked. }
    destruct conds as [|c conds]; [marked_const|]. unfold where_clause. apply (marked_app 0); [marked_const|].
    pose proof (marked_join 1 ($"AND ") (c :: conds) ltac:(marked_const) Hone) as Hj.
    by rewrite Nat.mul_1_l in Hj. }
  revert Hwhere. generalize (length conds). intros n Hwhere. rewrite <- (Nat.add_0_r n).
  apply (marked_app 0 (n + 0)); [done|]. apply (marked_app 0 (n + 0)); [marked_const|]. apply (marked_app 0 (n + 0)).
  { destruct want_results; [|marked_const]. apply (marked_app 0); [|done]. destruct unique; marked_const. }
  apply (marked_app 0 (n + 0)); [marked_const|]. apply marked_app; [done|].
  destruct want_results; [|marked_const].
  apply (marked_app 0); [marked_const|]. apply (marked_app 0); [done|].
  apply (marked_app 0); [marked_const|]. apply (marked_app 0); [done|]. marked_const.
Qed.

(** ** The pieces of the query *)

Lemma query_head_concat stmt_type fields (unique want_results : bool) :
  concat (query_head stmt_type fields unique want_results) =
  stmt_type ++ $" " ++
    (if want_results then (if unique then $"DISTINCT " else []) ++ join ($", ") (query_columns fields) else []) ++
    $" FROM logs ".
Proof.
  unfold query_head. cbn [concat]. rewrite concat_app, <- app_assoc. f_equal. f_equal. f_equal.
  destruct want_results; [|done]. rewrite concat_app, field_frags_join. by destruct unique.
Qed.

Definition order_frags (want_results : bool) (by_ dir : bytes) : list bytes :=
  if want_results then [$"ORDER BY " ++ by_ ++ $" " ++ dir ++ $";"] else [].

Lemma query_pieces stmt_type traits fields unique want_results :
  match query_text stmt_type traits fields unique want_results with
  | Some text => exists l order, trait_frags traits false ($"id", $"ASC") = (l, Some order) /\
      text = concat (query_head stmt_type fields unique want_results) ++ concat l ++
             concat (order_frags want_results order.1 order.2)
  | None => exists r, trait_frags traits false ($"id", $"ASC") = (r, None)
  end.
Proof.
  pose proof (trait_frags_spec traits false ($"id", $"ASC")) as Htf. unfold query_text.
  destruct (mapM trait_frag _) as [conds|]; cbn [mbind option_bind]; [|done].
  destruct (order_of _ _) as [order|]; cbn [mbind option_bind]; [|done].
  eexists _, _. split; [exact Htf|]. rewrite leads_join, query_head_concat, <- !app_assoc.
  unfold order_frags. destruct conds, want_results; cbn [concat]; by rewrite ?app_nil_r.
Qed.

Lemma bind_traits_spec traits :
  match bind_traits traits with
  | Some values => Forall2 (fun t v => bind_trait t = Some [v]) (conditions traits) values
  | None => Exists (fun t => bind_trait t = None) (conditions traits)
  end.
Proof.
  unfold conditions. induction traits as [|t l IH]; [constructor|]. rewrite filter_cons. cbn [bind_traits].
  unfold is_order in *. destruct (q_field t =? PSQF_ORDER) eqn:Ho.
  - rewrite decide_False by done. assert (bind_trait t = Some []) as -> by (unfold bind_trait; by rewrite Ho).
    cbn [mbind option_bind]. by destruct (bind_traits l).
  - rewrite decide_True by done.
    assert (bind_trait t = None \/ exists v, bind_trait t = Some [v]) as [Hv|[v Hv]].
    { unfold bind_trait. rewrite Ho. repeat case_match; eauto. }
    + rewrite Hv. cbn [mbind option_bind]. by constructor.
    + rewrite Hv. cbn [mbind option_bind]. destruct (bind_traits l); cbn [mbind option_bind app]; by constructor.
Qed.

(** ** The query *)

Section Query.
Context {BE : BufferEnv} {BEL : BufferEnvLaws BE}.

(** The block kept from an earlier call, if there is one, has room. *)
Definition buffer_ok (sql : option sql_buffer) : Prop :=
  match sql with Some b => (0 < length (b_data b))%nat | None => True end.

Lemma start_buffer sql b :
  buffer_ok sql -> match sql with Some b => Some b | None => initial_buffer end = Some b ->
  prefix_is (mkBuf (b_data b) 0) [].
Proof.
  intros Hsql Hb. split; [|done]. cbn [b_tail b_data]. destruct sql as [b0|]; [by simplify_eq|].
  unfold initial_buffer in Hb. destruct (malloc_chars 512) as [m|] eqn:Hm; [|done].
  apply malloc_chars_size in Hm. simpl in Hb. injection Hb as <-. cbn [b_data]. lia.
Qed.

(** C26: building a query never writes outside the buffer it grows and always
    comes to an end, whatever the traits and the fields are, however long the
    text gets, and whichever allocations fail; the buffer it leaves is fit for
    the next query. *)
Theorem pdb_query_safe log_db_open stmt_type traits fields unique want_results sql :
  buffer_ok sql ->
  exists sql' q, pdb_query log_db_open stmt_type traits fields unique want_results sql = Some (sql', q) /\
    buffer_ok sql'.
Proof.
  intros Hsql. unfold pdb_query. destruct log_db_open; cbn [negb]; [|by eexists _, _].
  destruct (match sql with Some b => Some b | None => initial_buffer end) as [b|] eqn:Hb;
    [|by exists None, NoQuery].
  pose proof (start_buffer _ _ Hsql Hb) as Hpre.
  destruct (frags_ok (query_head stmt_type fields unique want_results) _ _ Hpre) as (b1 & -> & (p1 & H1) & _).
  cbn [mbind option_bind]. destruct (trait_frags traits false _) as [conds order].
  destruct (frags_ok conds _ _ H1) as (b2 & -> & (p2 & H2) & _). cbn [mbind option_bind].
  destruct order as [[by_ dir]|].
  2: { eexists _, _. split; [done|]. destruct H2. cbn [buffer_ok]. lia. }
  destruct (frags_ok (if want_results then [$"ORDER BY " ++ by_ ++ $" " ++ dir ++ $";"] else []) _ _ H2)
    as (b3 & -> & (p3 & [H3 _]) & _).
  cbn [mbind option_bind]. eexists _, _. split; [done|]. cbn [buffer_ok]. lia.
Qed.

(** C8: with memory, the text handed to SQLite is the one the traits describe
    (the columns asked for, the conditions joined by AND, the last order), with
    as many placeholders as there are conditions, and the values bound are as
    many; a trait the code cannot express refuses the whole query. *)
Theorem pdb_query_exact stmt_type traits fields unique want_results sql :
  (forall n, is_Some (malloc_chars n)) -> buffer_ok sql -> plain stmt_type ->
  exists sql' q, pdb_query true stmt_type traits fields unique want_results sql = Some (sql', q) /\
    match query_text stmt_type traits fields unique want_results with
    | None => q = NoQuery
    | Some text =>
        marks text = length (conditions traits) /\
        match q with
        | Query text' values =>
            text' = text /\ prepares text = true /\ length values = marks text /\
            Forall2 (fun t v => bind_trait t = Some [v]) (conditions traits) values
        | NoQuery => prepares text = false \/ Exists (fun t => bind_trait t = None) (conditions traits)
        end
    end.
Proof.
  intros Hmem Hsql Hst. unfold pdb_query. cbn [negb].
  assert (exists b, match sql with Some b => Some b | None => initial_buffer end = Some b) as [b Hb].
  { destruct sql as [b|]; [eauto|]. unfold initial_buffer. destruct (Hmem 512%nat) as [m ->]. by eexists. }
  rewrite Hb. pose proof (start_buffer _ _ Hsql Hb) as Hpre.
  assert (query_head stmt_type fields unique want_results <> []) as Hne by done.
  destruct (frags_ok (query_head stmt_type fields unique want_results) _ _ Hpre) as (b1 & -> & _ & H1).
  cbn [mbind option_bind]. specialize (H1 Hmem (or_introl Hne)).
  pose proof (query_pieces stmt_type traits fields unique want_results) as Hq.
  pose proof (query_text_marked stmt_type traits fields unique want_results) as Hmarks.
  destruct (query_text _ _ _ _ _) as [text|].
  2: { destruct Hq as [r ->], (frags_ok r _ _ (holds_prefix _ _ H1)) as (b2 & -> & _). by eexists _, _. }
  destruct Hq as (conds & [by_ dir] & -> & Htext). specialize (Hmarks _ Hst eq_refl) as [Hnul Hmarks].
  destruct (frags_ok conds _ _ (holds_prefix _ _ H1)) as (b2 & -> & _ & H2). cbn [mbind option_bind].
  specialize (H2 Hmem (or_intror H1)).
  destruct (frags_ok (order_frags want_results by_ dir) _ _ (holds_prefix _ _ H2)) as (b3 & E3 & _ & H3).
  unfold order_frags in E3. rewrite E3. cbn [mbind option_bind].
  specialize (H3 Hmem (or_intror H2)). cbn [app fst snd] in H3, Htext. rewrite <- app_assoc, <- Htext in H3.
  rewrite (buffer_c_str _ _ H3 Hnul). eexists _, _. split; [done|]. split; [done|].
  pose proof (bind_traits_spec traits) as Hvals.
  destruct (prepares text) eqn:Hp; cbn [negb]; [|by left].
  destruct (bind_traits traits) as [values|]; [|by right].
  rewrite Hmarks. split_and!; try done. symmetry. by eapply Forall2_length.
Qed.
End Query.

(** ** What was logged is what is reported *)

(** The fields a log entry has and a query can select. *)
Definition reported : list Z :=
  [PSQF_ACCESS; PSQF_CLIENT; PSQF_DEV; PSQF_FD; PSQF_GID; PSQF_MODE; PSQF_OP; PSQF_PATH; PSQF_PROGRAM;
   PSQF_RESULT; PSQF_SEVERITY; PSQF_STAMP; PSQF_TAG; PSQF_TEXT; PSQF_TYPE; PSQF_UID].

Definition entry_values (e : log_entry) : list sql_value :=
  [SqlInt (e_access e); SqlInt (e_client e); SqlInt (e_dev e); SqlInt (e_fd e); SqlInt (e_gid e); SqlInt (e_mode e);
   SqlInt (e_op e); SqlText (e_path e); SqlText (e_program e); SqlInt (e_result e); SqlInt (e_severity e);
   SqlInt (e_stamp e); SqlText (e_tag e); SqlText (e_text e); SqlInt (e_type e); SqlInt (e_uid e)].

(** What the columns hold: the integers went through [sqlite3_bind_int]; no
    file descriptor; the time of the call if the entry had none. *)
Definition bound_entry (now : Z) (e : log_entry) : log_entry :=
  mkEntry (bind_int (if negb (e_stamp e =? 0) then e_stamp e else now)) (bind_int (e_type e)) (bind_int (e_op e))
    (bind_int (e_access e)) (bind_int (e_client e)) 0 (bind_int (e_dev e)) (signed_ino (e_ino e)) (bind_int (e_mode e))
    (bind_int (e_gid e)) (bind_int (e_uid e)) (c_str <$> e_path e) (bind_int (e_result e)) (bind_int (e_severity e))
    (c_str <$> e_text e) (c_str <$> e_tag e) (c_str <$> e_program e).

(** The fields of type [unsigned long]. *)
Definition is_unsigned (f : Z) : bool :=
  existsb (Z.eqb f) [PSQF_CLIENT; PSQF_DEV; PSQF_FD; PSQF_GID; PSQF_MODE; PSQF_UID].

(** A column's value once it is in a field again. *)
Definition back (f : Z) (v : sql_value) : sql_value :=
  match v with SqlInt z => SqlInt (if is_unsigned f then uint64 z else z) | SqlText _ => v end.

(** The entry a query can give back. *)
Definition kept_entry (now : Z) (e : log_entry) : log_entry :=
  let '(mkEntry st ty op ac cl fd dev ino mode gid uid path res sev text tag prog) := bound_entry now e in
  mkEntry st ty op ac (uint64 cl) (uint64 fd) (uint64 dev) (uint64 ino) (uint64 mode) (uint64 gid) (uint64 uid)
    path res sev text tag prog.

(** An entry with a time whose numbers have 31 bits is kept as it was, but for
    the file descriptor. *)
Lemma small_entry_kept now e : e_stamp e <> 0 ->
  Forall (fun z => 0 <= z < 2 ^ 31) [e_stamp e; e_type e; e_op e; e_access e; e_client e; e_dev e; e_mode e; e_gid e; e_uid e;
    e_result e; e_severity e] -> 0 <= e_ino e < 2 ^ 64 ->
  Forall (fun s => match s with Some s => NUL ∉ s | None => True end) [e_path e; e_text e; e_tag e; e_program e] ->
  kept_entry now e = mkEntry (e_stamp e) (e_type e) (e_op e) (e_access e) (e_client e) 0 (e_dev e) (e_ino e) (e_mode e)
    (e_gid e) (e_uid e) (e_path e) (e_result e) (e_severity e) (e_text e) (e_tag e) (e_program e).
Proof.
  intros Hst Hz Hino Hs. assert (forall s : option bytes, match s with Some s => NUL ∉ s | None => True end -> c_str <$> s = s) as Hc.
  { intros [s|] H; [|done]. cbn. by rewrite c_str_id. }
  repeat match goal with H : Forall _ _ |- _ => let H1 := fresh in let H2 := fresh in apply Forall_cons in H as [H1 H2] end.
  unfold kept_entry, bound_entry. rewrite (proj2 (Z.eqb_neq _ _) Hst). cbn [negb]. rewrite !Hc by done. unfold bind_int.
  rewrite !(wrap_signed_small 32) by lia.
  rewrite signed_ino_uint64 by done. by rewrite !wrap_unsigned_small by lia.
Qed.

(** A bound value fits in an [int], and a text is one. *)
Definition in_width (f : Z) (v : sql_value) : Prop :=
  match v with SqlInt z => - 2 ^ 31 <= z < 2 ^ 31 | SqlText _ => True end.

(** The values [vs] of the columns come back as the fields of [e0]. *)
Definition comes_back (vs : list sql_value) (e0 : log_entry) : Prop :=
  forall i f, reported !! i = Some f -> exists v, vs !! i = Some v /\ entry_values e0 !! i = Some (back f v) /\ in_width f v.

Lemma kept_comes_back now e : comes_back (entry_values (bound_entry now e)) (kept_entry now e).
Proof.
  intros i f Hf. assert (forall z, in_width f (SqlInt (bind_int z))) as Hw by (intros z; apply (wrap_signed_range 32); lia).
  do 16 (destruct i as [|i]; [cbn in Hf; simplify_eq; eexists; split; [reflexivity|]; split; [reflexivity|by first [apply Hw|done]]|]).
  done.
Qed.

Section HistorySpec.
Context {R : Type} {SR : SqlRow R}.

Definition delivers_at (row : R) (k : nat) (v : sql_value) : Prop :=
  match v with
  | SqlInt z => column_int64 row k = z
  | SqlText s => column_text row k = s
  end.

Definition delivers (row : R) (values : list sql_value) : Prop :=
  forall k v, values !! k = Some v -> delivers_at row k v.

Lemma read_field_spec i f row k v e e0 :
  reported !! i = Some f -> entry_values e0 !! i = Some (back f v) -> delivers_at row k v -> in_width f v ->
  entry_values e !! i = entry_values log_entry_zero !! i ->
  exists e', read_field f row k e = Some e' /\ entry_values e' = <[i := back f v]> (entry_values e).
Proof.
  intros Hf H0 Hv Hfit Hz. destruct e.
  do 16 (destruct i as [|i]; [cbn in Hf, Hz; injection Hf as <-; destruct v as [v|v]; cbn in H0; simplify_eq;
    eexists; split; [reflexivity|]; cbn -[wrap_signed wrap_unsigned Z.pow] in Hv, Hfit |- *;
    first [ by rewrite Hv, ?wrap_signed_small by lia
          | rewrite <- Hv; by destruct (column_text row k) ] |]).
  done.
Qed.

Lemma reported_nodup : NoDup reported.
Proof. apply (bool_decide_unpack _). by vm_compute. Qed.

Lemma reported_inj i j f : reported !! i = Some f -> reported !! j = Some f -> i = j.
Proof. apply NoDup_lookup, reported_nodup. Qed.

(** Reading the fields of [l], the columns holding the values of [e0]. *)
Lemma read_fields_spec fields l row column e vs e0 :
  NoDup l -> comes_back vs e0 -> (forall f, f ∈ l -> selects fields f = true -> f ∈ reported) ->
  (forall j f i v, filter (fun f => selects fields f = true) l !! j = Some f -> reported !! i = Some f ->
     vs !! i = Some v -> delivers_at row (column + j) v) ->
  (forall i f, reported !! i = Some f -> f ∈ l -> entry_values e !! i = entry_values log_entry_zero !! i) ->
  exists e', read_fields fields l row column e = Some e' /\
    forall i f, reported !! i = Some f ->
      entry_values e' !! i =
      (if decide (f ∈ l /\ selects fields f = true) then entry_values e0 !! i else entry_values e !! i).
Proof.
  intros Hnd Hback. revert column e. induction Hnd as [|f l Hf Hnd IH]; intros column e Hsub Hrow He.
  { exists e. split; [done|]. intros. rewrite decide_False; [done|]. by intros [Hin%elem_of_nil ?]. }
  cbn [read_fields]. rewrite filter_cons in Hrow. destruct (selects fields f) eqn:Hs.
  - rewrite decide_True in Hrow by done.
    destruct (list_elem_of_lookup_1 _ _ (Hsub f ltac:(left) Hs)) as [i Hi].
    destruct (Hback i f Hi) as (v & Hv & Hv0 & Hfit).
    destruct (read_field_spec i f row column v e e0 Hi Hv0) as (e1 & -> & He1); [|done|apply (He i f Hi); left|].
    { rewrite <- (Nat.add_0_r column). by apply (Hrow 0%nat f i). }
    cbn [mbind option_bind].
    assert (forall j, j <> i -> entry_values e1 !! j = entry_values e !! j) as Hother.
    { intros j Hj. by rewrite He1, list_lookup_insert_ne by done. }
    destruct (IH (S column) e1) as (e' & -> & He').
    + intros g Hg. apply Hsub. by right.
    + intros j g i' v' Hg Hi' Hv'. replace (S column + j)%nat with (column + S j)%nat by lia. by eapply Hrow.
    + intros j g Hj Hg. rewrite Hother; [apply (He j g); [done|by right]|]. intros ->. congruence.
    + exists e'. split; [done|]. intros j g Hj. rewrite (He' j g Hj).
      destruct (decide (g = f)) as [->|Hgf].
      * rewrite decide_False by (by intros [? ?]). rewrite decide_True by (split; [left|done]).
        pose proof (reported_inj _ _ _ Hi Hj). subst j. rewrite He1, list_lookup_insert_eq, Hv0; [done|].
        by apply lookup_lt_Some in Hi.
      * rewrite Hother by (intros ->; congruence).
        apply decide_ext. rewrite elem_of_cons. clear -Hgf. tauto.
  - rewrite decide_False in Hrow by done.
    destruct (IH column e) as (e' & -> & He').
    + intros g Hg. apply Hsub. by right.
    + done.
    + intros j g Hj Hg. apply (He j g); [done|by right].
    + exists e'. split; [done|]. intros j g Hj. rewrite (He' j g Hj).
      apply decide_ext. rewrite elem_of_cons. clear -Hs. naive_solver congruence.
Qed.

(** Where the columns of the reported fields are in the table. *)
Lemma reported_columns :
  map (fun f => fst <$> list_find (fun c => c = pseudo_query_field_name f) log_column_names) reported =
  map Some [15; 3; 5; 4; 14; 7; 2; 8; 16; 9; 10; 1; 12; 11; 17; 13]%nat.
Proof. by vm_compute. Qed.

Lemma log_column_reported r i f :
  reported !! i = Some f ->
  log_column r (pseudo_query_field_name f) =
  [15; 3; 5; 4; 14; 7; 2; 8; 16; 9; 10; 1; 12; 11; 17; 13]%nat !! i ≫= fun k => log_values r !! k.
Proof.
  intros Hf. pose proof (f_equal (fun l => l !! i) reported_columns) as Hc. rewrite !list_lookup_fmap, Hf in Hc.
  unfold log_column. cbn [fmap option_fmap option_map] in Hc.
  revert Hc. generalize (list_find (fun c => c = pseudo_query_field_name f) log_column_names).
  generalize ([15; 3; 5; 4; 14; 7; 2; 8; 16; 9; 10; 1; 12; 11; 17; 13]%nat !! i).
  intros [k|] [[k' ?]|]; cbn; intros Hc; by simplify_eq.
Qed.

Lemma logged_columns now e id i f : reported !! i = Some f ->
  log_column (entry_row now (Some e) id) (pseudo_query_field_name f) = entry_values (bound_entry now e) !! i.
Proof.
  intros Hf. rewrite (log_column_reported _ _ _ Hf).
  by do 16 (destruct i as [|i]; [reflexivity|]).
Qed.
Context {E : SqlEngine} {L : SqlLaws E}.

Lemma logged_row p now e p' :
  pdb_log_entry p now (Some e) = (p', 0) ->
  exists id, logs (pdb_tables p') !! id = Some (entry_row now (Some e) id).
Proof.
  unfold pdb_log_entry, log_insert, step_clean. destruct (log_db_open _); [|done].
  destruct (not_prepared _ _); [done|]. cbn [negb].
  destruct (step _ _) as [d rc] eqn:Hs. unfold not_done. destruct (Z.eqb_spec rc SQLITE_DONE) as [->|]; [|done].
  intros [= <-]. apply step_done in Hs. inversion Hs; subst.
  eexists. unfold pdb_tables. cbn [conn]. match goal with H : _ = db_tables d |- _ => rewrite <- H end.
  cbn [logs]. apply lookup_insert_eq.
Qed.

Lemma query_fields_nodup : NoDup query_fields.
Proof. apply (bool_decide_unpack _). by vm_compute. Qed.

(** An entry that was logged comes back from a query as it was: for every
    set of fields among those the log can report, the columns the query asks
    for exist, and reading a row of them gives an entry whose fields are those
    stored, each in its place, and zero or NULL where they were not asked for.
    The integers are bound as those of 31 bits and a sign; the file
    descriptor is not stored, and an entry without a time has that of the
    call. *)
Lemma logged_entry_read_back p now e p' fields :
  pdb_log_entry p now (Some e) = (p', 0) ->
  (forall f, f ∈ query_fields -> selects fields f = true -> f ∈ reported) ->
  exists id r values, logs (pdb_tables p') !! id = Some r /\
    mapM (log_column r) (query_columns fields) = Some values /\
    forall row, delivers row values ->
      exists e', pdb_history_entry (StepRow row) (mkHistory false fields) = (mkHistory false fields, Some e') /\
        forall i f, reported !! i = Some f ->
          entry_values e' !! i =
          entry_values (if selects fields f then kept_entry now e else log_entry_zero) !! i.
Proof.
  intros Hlog Hsub. destruct (logged_row _ _ _ _ Hlog) as (id & Hr). exists id, (entry_row now (Some e) id).
  destruct (mapM (log_column (entry_row now (Some e) id)) (query_columns fields)) as [values|] eqn:Hm.
  2: { apply mapM_None_1, Exists_exists in Hm as (name & Hin & Hnone). unfold query_columns in Hin.
       apply list_elem_of_fmap in Hin as (f & -> & [Hs Hf]%list_elem_of_filter).
       destruct (list_elem_of_lookup_1 _ _ (Hsub f Hf Hs)) as [i Hi].
       destruct (kept_comes_back now e i f Hi) as (v & Hv & _).
       rewrite (logged_columns _ _ _ _ _ Hi), Hv in Hnone. done. }
  exists values. split; [done|]. split; [done|]. intros row Hrow. apply mapM_Some in Hm.
  destruct (read_fields_spec fields query_fields row 0 log_entry_zero (entry_values (bound_entry now e)) (kept_entry now e))
    as (e' & He' & Hall); [apply query_fields_nodup|apply kept_comes_back|done| |done|].
  - intros j f i v Hj Hi Hv. apply Hrow. unfold query_columns in Hm.
    destruct (Forall2_lookup_l _ _ _ j (pseudo_query_field_name f) Hm) as (v' & Hv' & Hcol).
    { by rewrite list_lookup_fmap, Hj. }
    rewrite (logged_columns _ _ _ _ _ Hi), Hv in Hcol. by simplify_eq.
  - exists e'. split; [unfold pdb_history_entry; cbn [h_done h_fields]; by rewrite He'|].
    intros i f Hi. rewrite (Hall i f Hi).
    assert (f ∈ query_fields) as Hf.
    { apply list_elem_of_lookup_2 in Hi. revert f Hi. apply Forall_forall, (bool_decide_unpack _). by vm_compute. }
    destruct (selects fields f); [by rewrite decide_True|]. rewrite decide_False; [done|]. by intros [_ ?].
Qed.
End HistorySpec.

(** ** Witnesses *)

(** A memory of zeroes. *)
#[local] Instance zero_memory : BufferEnv := { malloc_chars n := Some (replicate n NUL); prepares _ := true }.

#[local] Instance zero_memory_laws : BufferEnvLaws zero_memory.
Proof. intros n b [= <-]. apply length_replicate. Qed.

(** [pseudolog -p '%usr' -u '!0' -O '<s']; the path makes the text longer than
    the first block. *)
Definition sample_traits : list pseudo_query_t :=
  [mkQuery PSQT_LIKE PSQF_PATH 0 (Some ($"usr")); mkQuery PSQT_NOTEQUAL PSQF_UID 0 None;
   mkQuery PSQT_LESS PSQF_ORDER PSQF_STAMP None].

Definition sample_fields : Z := Z.lor (Z.shiftl 1 PSQF_PATH) (Z.shiftl 1 PSQF_MODE).

Example sample_query : match pdb_query true ($"SELECT") sample_traits sample_fields false true None with
  | Some (_, Query text values) =>
      text = $"SELECT mode, path FROM logs WHERE path LIKE ('%' || ? || '%')AND uid != ? ORDER BY stamp DESC;" /\
      values = [BindText (Some ($"usr")); BindInt 0]
  | _ => False
  end.
Proof. by vm_compute. Qed.

Lemma pdb_query_safe_witness :
  exists sql' q, pdb_query true ($"SELECT") (concat (replicate 20 sample_traits)) sample_fields false true
    (Some (mkBuf [NUL] 0)) = Some (sql', q) /\ buffer_ok sql'.
Proof. apply (@pdb_query_safe zero_memory zero_memory_laws). simpl. lia. Defined.

Lemma pdb_query_exact_witness :
  exists sql' q, pdb_query true ($"SELECT") sample_traits sample_fields false true None = Some (sql', q) /\
    match query_text ($"SELECT") sample_traits sample_fields false true with
    | None => q = NoQuery
    | Some text =>
        marks text = length (conditions sample_traits) /\
        match q with
        | Query text' values =>
            text' = text /\ prepares text = true /\ length values = marks text /\
            Forall2 (fun t v => bind_trait t = Some [v]) (conditions sample_traits) values
        | NoQuery => prepares text = false \/ Exists (fun t => bind_trait t = None) (conditions sample_traits)
        end
    end.
Proof.
  apply (@pdb_query_exact zero_memory zero_memory_laws); [intros n; by eexists|done|].
  apply (bool_decide_unpack _). by vm_compute.
Defined.
