(* ===== verification/PseudoLog.v ===== *)
(** [pseudolog.c]: the options that describe a log entry or a query, the
    parsers of their values, the format string, and [main].

    [getopt] is an argument (the list of options it returns), as are the time
    functions of the C library; what [printf] makes of a directive is left to
    it, so the output is the sequence of calls. *)

From stdpp Require Import base list option strings.
From Stdlib Require Import ZArith Lia Ascii.
From S2P Require Import Prelude Format Tables Modes Message Paths Sql FileDb LogDb LogQuery.

Open Scope Z_scope.

(** ** Options *)

Definition opt_to_field (c : ascii) : Z :=
  match c with
  | "a"%char => PSQF_ACCESS
  | "c"%char => PSQF_CLIENT
  | "d"%char => PSQF_DEV
  | "f"%char => PSQF_FD
  | "g"%char => PSQF_GID
  | "G"%char => PSQF_TAG
  | "I"%char => PSQF_ID
  | "i"%char => PSQF_INODE
  | "m"%char => PSQF_PERM
  | "M"%char => PSQF_MODE
  | "o"%char => PSQF_OP
  | "O"%char => PSQF_ORDER
  | "p"%char => PSQF_PATH
  | "r"%char => PSQF_RESULT
  | "R"%char => PSQF_PROGRAM
  | "s"%char => PSQF_STAMP
  | "S"%char => PSQF_SEVERITY
  | "t"%char => PSQF_FTYPE
  | "T"%char => PSQF_TEXT
  | "u"%char => PSQF_UID
  | "y"%char => PSQF_TYPE
  | _ => 0
  end.

(** The type of a trait and the rest of its value; [opt_l] refuses all but
    equality. *)
Definition plog_query_type (opt_l : bool) (string : bytes) : Z * bytes :=
  let '(ty, rest) :=
    match string with
    | [] => (PSQT_UNKNOWN, [])
    | c :: rest =>
        match c with
        | ">"%char => (PSQT_GREATER, rest)
        | "<"%char => (PSQT_LESS, rest)
        | "!"%char => (PSQT_NOTEQUAL, rest)
        | "="%char => (PSQT_EXACT, rest)
        | "&"%char => (PSQT_BITAND, rest)
        | "%"%char => (PSQT_LIKE, rest)
        | "^"%char => (PSQT_NOTLIKE, rest)
        | "~"%char => (PSQT_SQLPAT, rest)
        | "\"%char => (PSQT_EXACT, rest)
        | _ => (PSQT_EXACT, string)
        end
    end in
  (if opt_l && negb (ty =? PSQT_EXACT) then PSQT_UNKNOWN else ty, rest).

(** ** Modes; [mode_t] has 32 bits *)

Definition bad_mode : Z := uint32 (-1).

Definition parse_file_type (c : ascii) : Z :=
  match c with
  | "b"%char => S_IFBLK
  | "c"%char => S_IFCHR
  | "d"%char => S_IFDIR
  | "-"%char | "f"%char => S_IFREG
  | "l"%char => S_IFLNK
  | "p"%char => S_IFIFO
  | "s"%char => S_IFSOCK
  | _ => bad_mode
  end.

(** 010 is the special bit of the three characters. *)
Definition parse_partial_mode (c0 c1 c2 : ascii) : Z :=
  match (match c0 with "r"%char => Some 4 | "-"%char => Some 0 | _ => None end),
        (match c1 with "w"%char => Some 2 | "-"%char => Some 0 | _ => None end),
        (match c2 with
         | "x"%char => Some 1
         | "t"%char | "s"%char => Some 9
         | "T"%char | "S"%char => Some 8
         | "-"%char => Some 0
         | _ => None
         end) with
  | Some r, Some w, Some x => Z.lor (Z.lor r w) x
  | _, _, _ => bad_mode
  end.

Definition S_ISUID : Z := 0x800.
Definition S_ISGID : Z := 0x400.
Definition S_ISVTX : Z := 0x200.

(** Three characters, with the mode bit their special bit stands for. *)
Definition add_partial (special shift : Z) (c0 c1 c2 : ascii) (mode : Z) : option Z :=
  let bits := parse_partial_mode c0 c1 c2 in
  if bits =? bad_mode then None
  else
    let '(mode, bits) := if negb (Z.land bits 8 =? 0) then (Z.lor mode special, Z.ldiff bits 8) else (mode, bits) in
    Some (Z.lor mode (Z.shiftl bits shift)).

Definition parse_permissions (string : bytes) (mode : Z) : Z :=
  match string with
  | [u0; u1; u2; g0; g1; g2; o0; o1; o2] =>
      default bad_mode
        (mode ← add_partial S_ISUID 6 u0 u1 u2 mode;
         mode ← add_partial S_ISGID 3 g0 g1 g2 mode;
         add_partial S_ISVTX 0 o0 o1 o2 mode)
  | _ => bad_mode
  end.

Definition parse_mode_string (string : bytes) : Z :=
  if (length string =? 9)%nat then parse_permissions string 0
  else if (length string =? 10)%nat then
    match string with
    | c :: string =>
        let mode := parse_file_type c in
        if mode =? bad_mode then bad_mode else parse_permissions string mode
    | [] => bad_mode
    end
  else bad_mode.

(** ** [strtoll] *)

Definition digit_in (base : Z) (c : ascii) : option Z :=
  let v := Z_of_byte c in
  let d := if (48 <=? v) && (v <=? 57) then v - 48
           else if (97 <=? v) && (v <=? 122) then v - 87
           else if (65 <=? v) && (v <=? 90) then v - 55 else base in
  if d <? base then Some d else None.

Fixpoint scan_base (base v : Z) (l : bytes) : Z * bytes :=
  match l with
  | c :: l' => match digit_in base c with Some d => scan_base base (base * v + d) l' | None => (v, l) end
  | [] => (v, [])
  end.

(** The base and the digits after a prefix. *)
Definition strtoll_base (base : Z) (l : bytes) : Z * bytes :=
  match l with
  | "0"%char :: l' =>
      if base =? 0 then
        match l' with
        | x :: d :: l'' =>
            if (bool_decide (x = "x"%char) || bool_decide (x = "X"%char)) && bool_decide (is_Some (digit_in 16 d))
            then (16, d :: l'') else (8, l)
        | _ => (8, l)
        end
      else (base, l)
  | _ => (if base =? 0 then 10 else base, l)
  end.

(** The value and [*endptr]: without a digit, nothing is consumed. *)
Definition strtoll (base : Z) (string : bytes) : Z * bytes :=
  let l := skip_space string in
  let '(sign, l) := match l with
                    | "-"%char :: l' => (-1, l')
                    | "+"%char :: l' => (1, l')
                    | _ => (1, l)
                    end in
  let '(base, l) := strtoll_base base l in
  match l with
  | c :: _ =>
      match digit_in base c with
      | Some _ => let '(v, rest) := scan_base base 0 l in (Z.max INT64_MIN (Z.min INT64_MAX (sign * v)), rest)
      | None => (0, string)
      end
  | [] => (0, string)
  end.

(** ** Times *)

Class TimeLib := {
  tm : Type;
  (** [strptime]: the rest of the string and the time *)
  strptime : bytes -> bytes -> option (bytes * tm);
  mktime : tm -> Z;
  (** [localtime_r] and [strftime] *)
  strftime : bytes -> Z -> bytes
}.

Definition time_formats : list bytes :=
  [$"%s"; $"%F %r"; $"%F %T"; $"%m-%d %r"; $"%m-%d %T"; $"%r"; $"%T"].

(** The first format that takes the whole string. *)
Fixpoint first_time `{TimeLib} (string : bytes) (formats : list bytes) : option tm :=
  match formats with
  | [] => None
  | f :: formats =>
      match strptime string f with
      | Some ([], t) => Some t
      | _ => first_time string formats
      end
  end.

Definition parse_timestamp `{TimeLib} (timeformat string : bytes) : Z :=
  match first_time string (timeformat :: time_formats) with
  | Some t => mktime t
  | None => -1
  end.

(** ** Traits *)

Definition long_string (s : bytes) : bool := (1 <? length s)%nat.

Definition head_char (s : bytes) : ascii := default NUL (head s).

(** The value of the union; [None] is refused. *)
Definition trait_value `{TimeLib} (timeformat : bytes) (field : Z) (string : bytes) : option (Z * option bytes) :=
  let int v := Some (uint64 v, None) in
  let mode v := if v =? bad_mode then None else Some (v, None) in
  if field =? PSQF_ACCESS then
    let v := pseudo_access_fopen string in if v =? -1 then None else int v
  else if field =? PSQF_FTYPE then
    if long_string string then None else mode (parse_file_type (head_char string))
  else if field =? PSQF_OP then int (pseudo_op_id (Some string))
  else if field =? PSQF_ORDER then
    if long_string string then None else int (opt_to_field (head_char string))
  else if field =? PSQF_RESULT then int (enum_id res_names (Some string))
  else if field =? PSQF_SEVERITY then int (enum_id sev_names (Some string))
  else if field =? PSQF_STAMP then
    let v := parse_timestamp timeformat string in if v =? -1 then None else int v
  else if field =? PSQF_TYPE then int (enum_id msg_type_names (Some string))
  else if (field =? PSQF_CLIENT) || (field =? PSQF_DEV) || (field =? PSQF_FD) || (field =? PSQF_GID) ||
          (field =? PSQF_INODE) || (field =? PSQF_UID) then
    match strtoll 0 string with (v, []) => int v | _ => None end
  else if (field =? PSQF_MODE) || (field =? PSQF_PERM) then
    match strtoll 8 string with
    | (v, []) => int v
    | _ =>
        let v := parse_mode_string string in
        mode (if (field =? PSQF_PERM) && negb (v =? bad_mode) then Z.ldiff v S_IFMT else v)
    end
  else if is_text_field field then Some (0, Some string)
  else None.

Definition plog_trait `{TimeLib} (opt_l : bool) (timeformat : bytes) (opt : ascii) (string : bytes) :
    option pseudo_query_t :=
  let field := opt_to_field opt in
  if field =? 0 then None
  else if bool_decide (string = []) then None
  else
    let '(ty, string) := plog_query_type opt_l string in
    if ty =? PSQT_UNKNOWN then None
    else '(ivalue, svalue) ← trait_value timeformat field string; Some (mkQuery ty field ivalue svalue).

(** ** Formats *)

Definition is_specifier (c : ascii) : bool := bool_decide (c ∈ $"acdfgGimMoprRsStTuy").

(** [strcspn(format, "acdf...")]: the characters before a specifier, and the
    string from it on. *)
Fixpoint to_specifier (s : bytes) : bytes * bytes :=
  match s with
  | [] => ([], [])
  | c :: s' => if is_specifier c then ([], s) else let '(l, r) := to_specifier s' in (c :: l, r)
  end.

(** The fields with the one a specifier needs; [None] is refused. *)
Definition add_specifier (c : ascii) (fields : Z) : option Z :=
  let field := opt_to_field c in
  if (field =? PSQF_PERM) || (field =? PSQF_FTYPE) then Some (Z.lor fields (Z.shiftl 1 PSQF_MODE))
  else if field =? 0 then Some fields
  else if (field =? PSQF_ID) || (field =? PSQF_ORDER) then None
  else Some (Z.lor fields (Z.shiftl 1 field)).

(** From the start of a string, or after a specifier. *)
Fixpoint scan_formats (fuel : nat) (s : bytes) (fields : Z) : Z :=
  match fuel with
  | O => -1
  | S fuel =>
      match list_find (fun c => c = "%"%char) s with
      | None => fields
      | Some (i, _) =>
          match (to_specifier (drop i s)).2 with
          | [] => -1
          | c :: s =>
              match add_specifier c fields with
              | Some fields => scan_formats fuel s fields
              | None => -1
              end
          end
      end
  end.

Definition format_scan (format : bytes) : Z := scan_formats (S (length format)) format 0.

(** ** Output *)

Inductive printf_arg := ArgInt (v : Z) | ArgUnsigned (v : Z) | ArgString (s : bytes).

Inductive printed := PutChar (c : ascii) | Printf (fmt : bytes) (arg : printf_arg).

Fixpoint octal_digits (fuel : nat) (n : Z) (acc : bytes) : bytes :=
  match fuel with
  | O => acc
  | S fuel =>
      let acc := ascii_of_N (Z.to_N (48 + n mod 8)) :: acc in
      if n / 8 =? 0 then acc else octal_digits fuel (n / 8) acc
  end.

Definition has_bit (v bit : Z) : bool := negb (Z.land v bit =? 0).

Definition access_text (access : Z) : bytes :=
  if access =? -1 then $"invalid"
  else if access =? 0 then $"-"
  else
    (if has_bit access PSA_READ then $"r" ++ (if has_bit access PSA_WRITE then $"+" else [])
     else if has_bit access PSA_WRITE then (if has_bit access PSA_APPEND then $"a" else $"w")
     else if has_bit access PSA_EXEC then $"x" else []) ++
    (if has_bit access PSA_APPEND && negb (has_bit access PSA_WRITE) then $"?a" else []).

(** A regular file is first called one, and then falls to the last case. *)
Definition type_text (mode : Z) : bytes :=
  if S_ISLNK mode then $"link"
  else if S_ISDIR mode then $"dir"
  else if Z.land mode S_IFMT =? S_IFIFO then $"fifo"
  else if S_ISBLK mode then $"block"
  else if S_ISCHR mode then $"char"
  else "?"%char :: octal_digits 11 (Z.land (uint32 mode) S_IFMT) [].

Definition ALLPERMS : Z := 0xfff.

(** What replaces the specifier, and the argument; [None] prints nothing. *)
Definition specifier_value `{TimeLib} (timeformat : bytes) (e : log_entry) (c : ascii) : option (bytes * printf_arg) :=
  let str s := Some ($"s", ArgString s) in
  let int v := Some ($"d", ArgInt (int32 v)) in
  match c with
  | "a"%char => str (access_text (e_access e))
  | "c"%char => int (e_client e)
  | "d"%char => int (e_dev e)
  | "f"%char => int (e_fd e)
  | "g"%char => int (e_gid e)
  | "G"%char => str (default [] (e_tag e))
  | "i"%char => Some ($"llu", ArgUnsigned (e_ino e))
  | "m"%char => Some ($"o", ArgUnsigned (Z.land (uint32 (e_mode e)) ALLPERMS))
  | "M"%char => Some ($"o", ArgUnsigned (uint32 (e_mode e)))
  | "o"%char => str (enum_name op_names (e_op e))
  | "p"%char => str (default [] (e_path e))
  | "r"%char => str (enum_name res_names (e_result e))
  | "R"%char => str (default [] (e_program e))
  | "s"%char => str (strftime timeformat (e_stamp e))
  | "S"%char => str (enum_name sev_names (e_severity e))
  | "t"%char => str (type_text (e_mode e))
  | "T"%char => str (default [] (e_text e))
  | "u"%char => int (e_uid e)
  | "y"%char => str (enum_name msg_type_names (e_type e))
  | _ => None
  end.

(** [fmtbuf] after [snprintf], with room for 256 bytes. *)
Definition fmtbuf_size : nat := Z.to_nat 256.

Definition fmtbuf_of (text : bytes) : bytes := text ++ replicate (fmtbuf_size - length text) NUL.

(** The outcomes: a write outside [fmtbuf], nothing more to print, or what is
    printed and the string from the specifier on. *)
Inductive formatted := Overrun | Stop | Next (out : list printed) (rest : bytes).

(** [format] is at a percent sign. *)
Definition format_one `{TimeLib} (timeformat : bytes) (e : log_entry) (format : bytes) : formatted :=
  let '(l, r) := to_specifier format in
  let text := l ++ take 1 r in
  if (fmtbuf_size - 1 <=? length text)%nat then Stop
  else if existsb (fun c => bool_decide (c ∈ $"*lh")) text then Stop
  else
    match r with
    | [] => Next [] []
    | c :: _ =>
        match specifier_value timeformat e c with
        | Some (conv, arg) =>
            match memcpy_at (length l) (conv ++ [NUL]) (fmtbuf_of text) with
            | Some fmtbuf => Next [Printf (c_str fmtbuf) arg] r
            | None => Overrun
            end
        | None => Next [] r
        end
    end.

(** [None] is a memory error: in [format_one], or stepping over the NUL that
    ends the string. *)
Fixpoint display_from `{TimeLib} (fuel : nat) (timeformat : bytes) (e : log_entry) (s : bytes) : option (list printed) :=
  match fuel, s with
  | O, _ => None
  | _, [] => Some [PutChar (byte_of_Z 10)]
  | S fuel, c :: s' =>
      if bool_decide (c = "%"%char) then
        match format_one timeformat e s with
        | Stop => Some []
        | Next out (_ :: rest) => app out <$> display_from fuel timeformat e rest
        | Next _ [] | Overrun => None
        end
      else cons (PutChar c) <$> display_from fuel timeformat e s'
  end.

Definition display `{TimeLib} (timeformat : bytes) (e : log_entry) (format : bytes) : option (list printed) :=
  display_from (S (length format)) timeformat e format.

(** ** [main] *)

Record settings := mkSettings {
  o_traits : list pseudo_query_t; opt_l : bool; opt_D : bool; opt_U : bool; query_only : bool; bad_args : bool;
  o_format : bytes; o_timeformat : bytes
}.

Definition initial_settings : settings :=
  mkSettings [] false false false false false ($"%s %-12.12R %-4y %7o: [mode %04m, %2a] %p %T") ($"%X").

Inductive getopt_result := GotOpt (o : ascii) (optarg : bytes) | GotError.

(** One option; [None] is [usage].  The prefix and the debug flags change
    nothing here. *)
Definition take_option `{TimeLib} (s : settings) (g : getopt_result) : option settings :=
  let '(mkSettings tr l D U q bad fmt tf) := s in
  match g with
  | GotError => None
  | GotOpt o optarg =>
      match o with
      | "P"%char | "v"%char | "x"%char => Some s
      | "l"%char => Some (mkSettings tr true D U q bad fmt tf)
      | "D"%char => Some (mkSettings tr l true U true bad fmt tf)
      | "E"%char => Some (mkSettings tr l D U q bad fmt optarg)
      | "F"%char => Some (mkSettings tr l D U true bad optarg tf)
      | "U"%char => Some (mkSettings tr l D true true bad fmt tf)
      | "h"%char => None
      | _ =>
          if opt_to_field o =? 0 then None
          else
            let q := q || bool_decide (o = "I"%char) in
            match plog_trait l tf o optarg with
            | Some t => Some (mkSettings (tr ++ [t]) l D U q bad fmt tf)
            | None => Some (mkSettings tr l D U q true fmt tf)
            end
      end
  end.

Fixpoint take_options `{TimeLib} (s : settings) (l : list getopt_result) : option settings :=
  match l with
  | [] => Some s
  | g :: l => s ← take_option s g; take_options s l
  end.

(** What [main] goes on to do. *)
Inductive action :=
  | Refuse
  | LogEntry (traits : list pseudo_query_t)
  | DeleteEntries (traits : list pseudo_query_t) (fields : Z)
  | Report (traits : list pseudo_query_t) (fields : Z) (unique : bool) (format timeformat : bytes).

(** [extra]: arguments are left; [paths]: the prefix and the directories are
    known. *)
Definition main_action `{TimeLib} (options : list getopt_result) (extra paths : bool) : action :=
  match take_options initial_settings options with
  | None => Refuse
  | Some s =>
      if extra || (query_only s && opt_l s) || bad_args s || negb paths then Refuse
      else if opt_l s then LogEntry (o_traits s)
      else
        let fields := format_scan (o_format s) in
        if fields =? -1 then Refuse
        else if opt_D s then DeleteEntries (o_traits s) fields
        else Report (o_traits s) fields (opt_U s) (o_format s) (o_timeformat s)
  end.

(** The loop of the report, over what the steps of the statement return. *)
Fixpoint report_rows `{TimeLib} {R} `{SqlRow R} (h : log_history) (format timeformat : bytes) (steps : list (stepped (R := R))) :
    option (list printed) :=
  match steps with
  | [] => Some []
  | st :: steps =>
      match pdb_history_entry st h with
      | (h, None) => Some []
      | (h, Some e) => out ← display timeformat e format; app out <$> report_rows h format timeformat steps
      end
  end.
