(* ===== verification/PseudoLogSpec.v ===== *)
(** What [pseudolog] does with modes, formats and entries: the mode strings
    [ls] writes are read back, and a report shows what was logged, without
    leaving the buffers of the format. *)

From stdpp Require Import base gmap list option strings.
From Stdlib Require Import ZArith Lia Ascii.
From S2P Require Import Prelude Format Tables Modes Message Paths Sql FileDb FileDbSpec LogDb LogQuery LogQuerySpec PseudoLog.

Open Scope Z_scope.

(** ** Mode strings *)

(** What [ls -l] writes for a set of permissions. *)
Definition ls_triple (r w x special : bool) (on off : ascii) : bytes :=
  [if r then "r"%char else "-"%char; if w then "w"%char else "-"%char;
   if special then (if x then on else off) else (if x then "x"%char else "-"%char)].

Definition ls_permissions (mode : Z) : bytes :=
  let b i := Z.testbit mode i in
  ls_triple (b 8) (b 7) (b 6) (b 11) "s"%char "S"%char ++
  ls_triple (b 5) (b 4) (b 3) (b 10) "s"%char "S"%char ++
  ls_triple (b 2) (b 1) (b 0) (b 9) "t"%char "T"%char.

Definition ls_types : list (ascii * Z) :=
  [("-"%char, S_IFREG); ("d"%char, S_IFDIR); ("l"%char, S_IFLNK); ("c"%char, S_IFCHR); ("b"%char, S_IFBLK);
   ("p"%char, S_IFIFO); ("s"%char, S_IFSOCK)].

Definition all_permissions : list Z := map Z.of_nat (seq 0 (Z.to_nat 4096)).

Lemma elem_of_all_permissions m : 0 <= m < 4096 -> m ∈ all_permissions.
Proof.
  intros Hm. unfold all_permissions. apply list_elem_of_fmap. exists (Z.to_nat m). split; [lia|].
  apply elem_of_seq. lia.
Qed.

Lemma ls_permissions_read :
  forallb (fun m => (parse_mode_string (ls_permissions m) =? m) &&
    forallb (fun t => parse_mode_string (t.1 :: ls_permissions m) =? Z.lor t.2 m) ls_types) all_permissions = true.
Proof. by vm_compute. Qed.

(** [parse_mode_string] reads what [ls -l] writes: with the letter of any
    type or without one, for every combination of the twelve permission bits,
    the special bits written over the execute bits included, it gives the mode
    the string was written for. *)
Theorem mode_string_roundtrip m :
  0 <= m < 4096 ->
  parse_mode_string (ls_permissions m) = m /\
  Forall (fun t => parse_mode_string (t.1 :: ls_permissions m) = Z.lor t.2 m /\
                   Z.land (parse_mode_string (t.1 :: ls_permissions m)) S_IFMT = t.2) ls_types.
Proof.
  intros Hm. pose proof ls_permissions_read as H. rewrite forallb_forall in H.
  specialize (H m (proj1 (list_elem_of_In _ _) (elem_of_all_permissions m Hm))).
  apply andb_true_iff in H as [H1%Z.eqb_eq H2]. split; [done|].
  apply Forall_forall. intros t Ht. rewrite forallb_forall in H2.
  specialize (H2 t (proj1 (list_elem_of_In _ _) Ht)). apply Z.eqb_eq in H2. split; [done|]. rewrite H2.
  assert (Z.land m S_IFMT = 0) as Hlow.
  { unfold S_IFMT. change 0xf000 with (Z.shiftl 15 12). apply Z.bits_inj'. intros n Hn.
    rewrite Z.land_spec, Z.bits_0. destruct (Z.ltb_spec n 12).
    - rewrite Z.shiftl_spec_low by lia. apply andb_false_r.
    - rewrite <- (Z.mod_small m (2 ^ 12)) by lia. by rewrite Z.mod_pow2_bits_high by lia. }
  rewrite Z.land_lor_distr_l, Hlow, Z.lor_0_r. clear -Ht. revert t Ht.
  apply Forall_forall, (bool_decide_unpack _). by vm_compute.
Qed.

Lemma mode_string_roundtrip_witness :
  0 <= 0x9ed < 4096 /\ parse_mode_string ($"rwsr-xr-x") = 0x9ed.
Proof.
  split; [lia|]. pose proof (mode_string_roundtrip 0x9ed ltac:(lia)) as [H _]. exact H.
Defined.

(** ** Formats *)

Lemma selects_spec fields f : 0 <= f -> selects fields f = Z.testbit fields f.
Proof. apply bit_is_set. Qed.

Definition below_fields (a b : Z) : Prop := forall f, 0 <= f -> selects a f = true -> selects b f = true.

#[export] Instance below_fields_preorder : PreOrder below_fields.
Proof. split; [by intros ???|]. intros a b c Hab Hbc f Hf H. auto. Qed.

Lemma below_lor a b : below_fields a (Z.lor a b).
Proof. intros f Hf. rewrite !selects_spec by done. rewrite Z.lor_spec. by intros ->. Qed.

Lemma selects_lor_shiftl a f : 0 <= f -> selects (Z.lor a (Z.shiftl 1 f)) f = true.
Proof.
  intros Hf. rewrite selects_spec, Z.lor_spec, Z.shiftl_1_l, Z.pow2_bits_true by done. apply orb_true_r.
Qed.

Lemma add_specifier_below c fields fields' : add_specifier c fields = Some fields' -> below_fields fields fields'.
Proof. unfold add_specifier. intros H. repeat case_match; simplify_eq; try done; apply below_lor. Qed.

Lemma scan_formats_step fuel c s fields F :
  scan_formats fuel (c :: s) fields = F -> F <> -1 ->
  if decide (c = "%"%char) then
    exists fuel' l d rest fields', to_specifier (c :: s) = (l, d :: rest) /\ add_specifier d fields = Some fields' /\
      scan_formats fuel' rest fields' = F
  else scan_formats fuel s fields = F.
Proof.
  destruct fuel as [|fuel]; [by intros <-|]. cbn [scan_formats list_find].
  intros H HF. destruct (decide (c = "%"%char)) as [->|Hc].
  - cbn [drop] in H. destruct (to_specifier ("%"%char :: s)) as [l [|d rest]]; cbn [snd] in H; [by subst|].
    destruct (add_specifier d fields) as [fields'|] eqn:Hd; [|by subst]. by exists fuel, l, d, rest, fields'.
  - by destruct (list_find _ s) as [[i ?]|].
Qed.

Lemma to_specifier_spec s l r :
  to_specifier s = (l, r) -> s = l ++ r /\ match r with d :: _ => is_specifier d = true | [] => True end.
Proof.
  revert l r. induction s as [|c s IH]; intros l r; cbn [to_specifier]; [by intros [= <- <-]|].
  destruct (is_specifier c) eqn:Hc; [by intros [= <- <-]|].
  destruct (to_specifier s) as [l' r']. intros [= <- <-]. destruct (IH l' r' eq_refl) as [-> ?]. done.
Qed.

Lemma scan_formats_below fuel s fields F :
  scan_formats fuel s fields = F -> F <> -1 -> below_fields fields F.
Proof.
  revert s fields. induction fuel as [|fuel IH]; intros s fields H HF; [by subst|]. cbn [scan_formats] in H.
  destruct (list_find _ s) as [[i ?]|]; [|by subst].
  destruct (to_specifier (drop i s)).2 as [|d rest]; [by subst|].
  destruct (add_specifier d fields) as [fields'|] eqn:Hd; [|by subst].
  etransitivity; [by eapply add_specifier_below|eauto].
Qed.

(** A format selects fields of the entry: the reported ones and the inode. *)
Lemma add_specifier_fields d fields fields' f :
  add_specifier d fields = Some fields' -> is_specifier d = true -> 0 <= f -> selects fields' f = true ->
  selects fields f = true \/ f ∈ PSQF_INODE :: reported.
Proof.
  intros Hadd Hd Hf Hs. assert (exists g, 0 <= g /\ g ∈ PSQF_INODE :: reported /\ fields' = Z.lor fields (Z.shiftl 1 g))
    as (g & Hg & Hin & ->).
  { unfold add_specifier in Hadd. apply bool_decide_eq_true in Hd.
    repeat (apply elem_of_cons in Hd as [->|Hd]; [|try by apply elem_of_nil in Hd]).
    all: cbn in Hadd; injection Hadd as <-.
    all: match goal with |- context [Z.lor _ (Z.shiftl 1 ?g) = _] => exists g end.
    all: split; [done|]; split; [|done]; apply (bool_decide_unpack _); by vm_compute. }
  rewrite selects_spec, Z.lor_spec, Z.shiftl_1_l, Z.pow2_bits_eqb in Hs by done.
  apply orb_true_iff in Hs as [Hs|Hs%Z.eqb_eq]; [left; by rewrite selects_spec|right; by subst].
Qed.

Lemma scan_formats_fields fuel s fields F f :
  scan_formats fuel s fields = F -> F <> -1 -> 0 <= f -> selects F f = true ->
  selects fields f = true \/ f ∈ PSQF_INODE :: reported.
Proof.
  revert s fields. induction fuel as [|fuel IH]; intros s fields H HF Hf Hs; [by subst|]. cbn [scan_formats] in H.
  destruct (list_find _ s) as [[i ?]|]; [|by subst; left].
  destruct (to_specifier (drop i s)) as [l [|d rest]] eqn:Hsp; cbn [snd] in H; [by subst|].
  destruct (add_specifier d fields) as [fields'|] eqn:Hd; [|by subst].
  destruct (IH rest fields' H HF Hf Hs) as [Hs'|?]; [|by right].
  by destruct (add_specifier_fields d fields fields' f Hd (proj2 (to_specifier_spec _ _ _ Hsp)) Hf Hs'); [left|right].
Qed.

Lemma format_fields_reported format f :
  format_scan format <> -1 -> selects (format_scan format) PSQF_INODE = false ->
  f ∈ query_fields -> selects (format_scan format) f = true -> f ∈ reported.
Proof.
  intros HF Hino Hf Hs.
  assert (0 <= f) as Hpos.
  { clear -Hf. revert f Hf. apply Forall_forall, (bool_decide_unpack _). by vm_compute. }
  destruct (scan_formats_fields _ _ _ _ _ eq_refl HF Hpos Hs) as [H0|[->|?]%elem_of_cons]; [|congruence|done].
  unfold selects in H0. by rewrite Z.land_0_l in H0.
Qed.

(** ** A report depends on the fields it asked for, and stays in its buffer *)

(** Entries that agree on the fields selected. *)
Definition agree (fields : Z) (e1 e2 : log_entry) : Prop :=
  (forall i f, reported !! i = Some f -> selects fields f = true -> entry_values e1 !! i = entry_values e2 !! i) /\
  (selects fields PSQF_INODE = true -> e_ino e1 = e_ino e2).

(** Use the value of the one field the specifier selects. *)
Ltac field_value Hval n :=
  first [ let Heq := fresh in
          pose proof (Hval n _ eq_refl eq_refl ltac:(done)) as Heq; injection Heq as Heq; by rewrite Heq
        | lazymatch n with S ?m => field_value Hval m end ].

Section Report.
Context {TL : TimeLib}.

Lemma specifier_value_agree tf F e1 e2 c fields fields' :
  agree F e1 e2 -> is_specifier c = true -> add_specifier c fields = Some fields' -> below_fields fields' F ->
  specifier_value tf e1 c = specifier_value tf e2 c.
Proof.
  intros [Ha Hino] Hc%bool_decide_eq_true Hadd Hb.
  assert (forall f, selects (Z.lor fields (Z.shiftl 1 f)) f = true -> 0 <= f ->
    fields' = Z.lor fields (Z.shiftl 1 f) -> selects F f = true) as Hsel by (intros f ? ? ->; auto).
  assert (forall i f, reported !! i = Some f -> fields' = Z.lor fields (Z.shiftl 1 f) -> 0 <= f ->
    entry_values e1 !! i = entry_values e2 !! i) as Hval.
  { intros i f Hi Heq Hf. apply (Ha i f Hi), Hsel; [by apply selects_lor_shiftl|done|done]. }
  unfold add_specifier in Hadd.
  repeat (apply elem_of_cons in Hc as [->|Hc]; [|try by apply elem_of_nil in Hc]).
  all: cbn in Hadd; injection Hadd as <-.
  all: unfold specifier_value; first
    [ rewrite Hino by (apply Hsel; [by apply selects_lor_shiftl|done|done]); reflexivity | field_value Hval 15%nat ].
Qed.
(** [strcpy] at the specifier stays in [fmtbuf] but for the longest conversion
    at the very end. *)
Lemma format_one_fits tf e s l d rest :
  to_specifier s = (l, d :: rest) -> (length s <= 253)%nat ->
  format_one tf e s = Stop \/ exists out, format_one tf e s = Next out (d :: rest).
Proof.
  intros Hs Hlen. unfold format_one. rewrite Hs. destruct (to_specifier_spec _ _ _ Hs) as [-> _].
  rewrite length_app in Hlen. cbn [length] in Hlen. case_match; [by left|]. case_match; [by left|]. right.
  destruct (specifier_value tf e d) as [[conv arg]|] eqn:Hv; [|by eexists].
  assert (length conv <= 3)%nat as Hconv.
  { clear -Hv. unfold specifier_value in Hv. destruct d as [[] [] [] [] [] [] [] []]; simplify_eq; cbn; lia. }
  rewrite memcpy_at_ok; [by eexists|]. unfold fmtbuf_of, fmtbuf_size. cbn [take].
  rewrite !length_app, length_replicate. cbn [length]. lia.
Qed.

Lemma format_one_agree tf F e1 e2 s fields fields' l d rest :
  agree F e1 e2 -> to_specifier s = (l, d :: rest) -> add_specifier d fields = Some fields' ->
  below_fields fields' F -> format_one tf e1 s = format_one tf e2 s.
Proof.
  intros Ha Hs Hadd Hb. unfold format_one. rewrite Hs. destruct (to_specifier_spec _ _ _ Hs) as [_ Hd].
  by rewrite (specifier_value_agree tf F e1 e2 d fields fields').
Qed.

Lemma display_from_agree fuel tf F e1 e2 s fuel' fields :
  agree F e1 e2 -> scan_formats fuel' s fields = F -> F <> -1 ->
  display_from fuel tf e1 s = display_from fuel tf e2 s.
Proof.
  intros Ha. revert s fuel' fields. induction fuel as [|fuel IH]; intros s fuel' fields Hscan HF; [done|].
  destruct s as [|c s]; [done|]. pose proof (scan_formats_step _ _ _ _ _ Hscan HF) as Hstep. cbn [display_from].
  destruct (decide (c = "%"%char)) as [->|Hc].
  - destruct Hstep as (fuel2 & l & d & rest & fields' & Hs & Hadd & Hscan').
    rewrite bool_decide_eq_true_2 by done.
    rewrite (format_one_agree tf F e1 e2 _ fields fields' l d rest);
      [|done..|by eapply scan_formats_below].
    assert (forall out r, format_one tf e2 ("%"%char :: s) = Next out r -> r = d :: rest) as Hnext.
    { unfold format_one. rewrite Hs. intros out r H. repeat case_match; by simplify_eq. }
    destruct (format_one tf e2 ("%"%char :: s)) as [| |out r] eqn:Hf; [done..|].
    rewrite (Hnext _ _ eq_refl). by rewrite (IH _ _ _ Hscan' HF).
  - rewrite bool_decide_eq_false_2 by done. by rewrite (IH _ _ _ Hstep HF).
Qed.

Lemma display_from_safe fuel tf e s fuel' fields :
  scan_formats fuel' s fields <> -1 -> (length s < fuel)%nat -> (length s <= 253)%nat ->
  is_Some (display_from fuel tf e s).
Proof.
  revert s fuel' fields. induction fuel as [|fuel IH]; intros s fuel' fields HF Hfuel Hlen; [lia|].
  destruct s as [|c s]; [by eexists|]. pose proof (scan_formats_step _ _ _ _ _ eq_refl HF) as Hstep.
  cbn [display_from]. cbn [length] in *. destruct (decide (c = "%"%char)) as [->|Hc].
  - destruct Hstep as (fuel2 & l & d & rest & fields' & Hs & Hadd & Hscan').
    rewrite bool_decide_eq_true_2 by done.
    destruct (to_specifier_spec _ _ _ Hs) as [Heq _]. apply (f_equal length) in Heq.
    rewrite length_app in Heq. cbn [length] in Heq.
    destruct (format_one_fits tf e _ l d rest Hs ltac:(cbn [length]; lia)) as [->|[out ->]]; [by eexists|].
    rewrite fmap_is_Some. eapply (IH rest fuel2 fields'); [by rewrite Hscan'|lia..].
  - rewrite bool_decide_eq_false_2 by done. rewrite fmap_is_Some.
    eapply (IH s fuel' fields); [by rewrite Hstep|lia..].
Qed.
End Report.

(** ** From the log to the report *)

Section LogReport.
Context {R : Type} {SR : SqlRow R} {E : SqlEngine} {L : SqlLaws E} {TL : TimeLib}.

(** A query for the inode names a column the table does not have. *)
Lemma inode_is_no_column r fields : selects fields PSQF_INODE = true -> mapM (log_column r) (query_columns fields) = None.
Proof.
  intros Hs. destruct (mapM _ _) as [values|] eqn:Hm; [|done]. exfalso. apply mapM_Some in Hm.
  assert (pseudo_query_field_name PSQF_INODE ∈ query_columns fields) as Hin.
  { apply list_elem_of_fmap. exists PSQF_INODE. split; [done|]. apply list_elem_of_filter. split; [done|].
    apply (bool_decide_unpack _). by vm_compute. }
  destruct (list_elem_of_lookup_1 _ _ Hin) as [k Hk]. destruct (Forall2_lookup_l _ _ _ _ _ Hm Hk) as (v & _ & Hv).
  unfold log_column in Hv. assert (list_find (fun c => c = pseudo_query_field_name PSQF_INODE) log_column_names = None) as Hf by (by vm_compute).
  by rewrite Hf in Hv.
Qed.

(** C7: what a report shows of what was logged.  For an entry the log took and
    a format the program accepts, of at most 253 characters: if the format
    asks for the inode, the query names a column the table does not have;
    otherwise its columns exist, and when the row SQLite returns has their
    values, the report prints, directive by directive, what it would print for
    the entry as the log keeps it, and neither the buffer of a directive nor
    the format is overrun.  The log keeps an entry as it was, with the time of
    the call if it had none, except that the file descriptor is not stored,
    and shows as 0, that a text ends at its first NUL, and that every number
    goes through an [int]: one of 31 bits is kept, a larger one comes back as
    its low 32 bits, read as signed. *)
Theorem report_shows_what_was_logged p now e p' format timeformat :
  let fields := format_scan format in
  pdb_log_entry p now (Some e) = (p', 0) -> fields <> -1 -> (length format <= 253)%nat ->
  exists id r, logs (pdb_tables p') !! id = Some r /\
    if selects fields PSQF_INODE then mapM (log_column r) (query_columns fields) = None
    else exists values out,
      mapM (log_column r) (query_columns fields) = Some values /\
      display timeformat (kept_entry now e) format = Some out /\
      forall row, delivers row values ->
        report_rows (mkHistory false fields) format timeformat [StepRow row; StepDone] = Some out.
Proof.
  intros fields Hlog HF Hlen. destruct (selects fields PSQF_INODE) eqn:Hino.
  { destruct (logged_row _ _ _ _ Hlog) as (id & Hr). exists id, (entry_row now (Some e) id). split; [done|]. by apply inode_is_no_column. }
  destruct (logged_entry_read_back p now e p' fields Hlog) as (id & r & values & Hr & Hm & Hread).
  { intros f Hf Hs. by eapply format_fields_reported. }
  destruct (display_from_safe (S (length format)) timeformat (kept_entry now e) format (S (length format)) 0)
    as [out Hout]; [exact HF|lia|done|].
  exists id, r. split; [done|]. exists values, out. split; [done|]. split; [done|]. intros row Hrow.
  destruct (Hread row Hrow) as (e' & He' & Hval). cbn [report_rows]. rewrite He'.
  assert (display timeformat e' format = Some out) as ->.
  { rewrite <- Hout. unfold display.
    refine (display_from_agree _ _ fields _ _ _ (S (length format)) 0 _ eq_refl HF). split.
    - intros i f Hi Hs. by rewrite (Hval i f Hi), Hs.
    - by rewrite Hino. }
  cbn. by rewrite app_nil_r.
Qed.
End LogReport.

(** ** Witnesses *)

(** Rows as lists of values. *)
#[local] Instance list_row : SqlRow (list sql_value) := {
  column_int64 row k := match row !! k with Some (SqlInt z) => z | _ => 0 end;
  column_text row k := match row !! k with Some (SqlText s) => s | _ => None end
}.

Definition sample_entry : log_entry :=
  mkEntry 0 2 14 1 4242 5 64769 1234 0x81a4 100 (2 ^ 31 - 1) (Some ($"/usr/bin/env")) 1 3 None (Some ($"t")) None.


(** Times as plain numbers in decimal. *)
#[local] Instance decimal_time : TimeLib := {
  tm := Z;
  strptime _ _ := None;
  mktime t := t;
  strftime _ t := decimal t
}.

Definition default_format : bytes := o_format initial_settings.

Lemma report_shows_what_was_logged_witness :
  let p : pdb := mkPdb ((no_tables, 0) : sqlite3) false None in
  let fields := format_scan default_format in
  exists id r, logs (pdb_tables (pdb_log_entry p 1700000000 (Some sample_entry)).1) !! id = Some r /\
    exists values out,
      mapM (log_column r) (query_columns fields) = Some values /\
      display ($"%X") (kept_entry 1700000000 sample_entry) default_format = Some out /\
      forall row, delivers row values ->
        report_rows (mkHistory false fields) default_format ($"%X") [StepRow row; StepDone] = Some out.
Proof.
  intros p fields.
  destruct (@report_shows_what_was_logged _ list_row mem_engine mem_engine_laws decimal_time p 1700000000 sample_entry
    (pdb_log_entry p 1700000000 (Some sample_entry)).1 default_format ($"%X")) as (id & r & Hr & H).
  - reflexivity.
  - by vm_compute.
  - vm_compute. lia.
  - exists id, r. split; [exact Hr|]. assert (selects (format_scan default_format) PSQF_INODE = false) as Hi by (by vm_compute).
    rewrite Hi in H. exact H.
Defined.

(** A user id above 2^31 is not shown as it was logged, nor is the file
    descriptor. *)
Example what_is_lost :
  let e := mkEntry 1 2 14 1 4242 5 7 1234 0x81a4 100 (2 ^ 32 - 2) None 1 3 None None None in
  e_uid (kept_entry 0 e) = 2 ^ 64 - 2 /\ e_fd (kept_entry 0 e) = 0.
Proof. by vm_compute. Qed.

(** A regular file is printed by its type bits. *)
Example regular_file_printed :
  display ($"%X") sample_entry ($"%t %p") =
  Some [Printf ($"%s") (ArgString ($"?100000")); PutChar " "%char; Printf ($"%s") (ArgString ($"/usr/bin/env"));
        PutChar (byte_of_Z 10)].
Proof. by vm_compute. Qed.

(** A directive of 254 characters for the inode runs over its buffer. *)
Example long_directive_overruns :
  let format := "%"%char :: replicate (Z.to_nat 252) "0"%char ++ $"i" in
  format_scan format <> -1 /\ display ($"%X") sample_entry format = None.
Proof. by vm_compute. Qed.

(** [-u '>0' -l] logs an entry for a comparison; [-l -u '>0'] is refused. *)
Example order_of_options :
  (exists t, main_action [GotOpt "u"%char ($">0"); GotOpt "l"%char []] false true = LogEntry [t] /\
             q_type t = PSQT_GREATER) /\
  main_action [GotOpt "l"%char []; GotOpt "u"%char ($">0")] false true = Refuse.
Proof. split; [eexists|]; by vm_compute. Qed.

(** [-m rwxr-xr-x] is a mode, and [-i] asks for a column there is not. *)
Example traits_of_options :
  (exists t, plog_trait false ($"%X") "m"%char ($"rwxr-xr-x") = Some t /\ q_ivalue t = 0x1ed) /\
  pseudo_query_field_name (opt_to_field "i"%char) ∉ log_column_names /\
  plog_trait false ($"%X") "I"%char ($"3") = None.
Proof. split; [eexists; by vm_compute|]. split; [apply (bool_decide_unpack _)|]; by vm_compute. Qed.
