(* ===== verification/Debug.v ===== *)
(** Debugging flags and the event log of [pseudo_util.c]: flags as letters and
    as bits, the ring of the last events and its dump. *)

From stdpp Require Import base list option strings.
From Stdlib Require Import ZArith Lia Ascii.
From S2P Require Import Prelude Tables Paths.

Open Scope Z_scope.

(** ** Flags *)

(** One letter: [None] for a letter without a flag. *)
Definition flag_bit (c : ascii) : option Z :=
  let id := pseudo_debug_type_symbolic_id c in
  if 0 <? id then Some (Z.shiftl 1 id) else None.

Definition add_flag (flags : Z) (c : ascii) : Z :=
  match flag_bit c with Some b => Z.lor flags b | None => flags end.

Definition pseudo_debug_flags_in (s : bytes) : Z := foldl add_flag 0 s.

Definition drop_flag (flags : Z) (c : ascii) : Z :=
  match flag_bit c with Some b => Z.ldiff flags b | None => flags end.

(** [pseudo_util_debug_flags] and [max_debug_level] *)
Record debug_state := mkDebug { debug_flags : Z; max_debug_level : Z }.

Definition pseudo_debug_set (s : bytes) (d : debug_state) : debug_state :=
  mkDebug (pseudo_debug_flags_in s) (max_debug_level d).

Definition pseudo_debug_clear (s : bytes) (d : debug_state) : debug_state :=
  mkDebug (foldl drop_flag (debug_flags d) s) (max_debug_level d).

(** A string of one character; [NUL] makes it empty. *)
Definition one_char (c : ascii) : bytes := c_str [c].

Definition pseudo_debug_terse (d : debug_state) : debug_state :=
  let s := one_char (pseudo_debug_type_symbolic (max_debug_level d)) in
  if 0 <? max_debug_level d
  then pseudo_debug_clear s (mkDebug (debug_flags d) (max_debug_level d - 1)) else d.

Definition pseudo_debug_verbose (d : debug_state) : debug_state :=
  let s := one_char (pseudo_debug_type_symbolic (max_debug_level d + 1)) in
  if bool_decide (s = []) then d
  else let d := pseudo_debug_set s d in mkDebug (debug_flags d) (max_debug_level d + 1).

(** [buf] of [pseudo_flags_finalize]: the letters of the flags set. *)
Definition flag_ids : list Z := map Z.of_nat (seq 0 (Z.to_nat PDBG_MAX)).

Definition flag_letters (flags : Z) : bytes :=
  c_str (map pseudo_debug_type_symbolic
    (filter (fun i => negb (Z.land flags (Z.shiftl 1 i) =? 0) = true) flag_ids)).

(** ** The event log *)

Definition PSEUDO_EVLOG_ENTRIES : nat := Z.to_nat 250.
Definition PSEUDO_EVLOG_LENGTH : nat := Z.to_nat 256.

(** [ev_data] is the entry's part of the buffer. *)
Record evlog_entry := mkEv { ev_stamp : Z; ev_len : Z; ev_data : bytes }.

(** [ev_entries] is empty until the buffer is allocated. *)
Record evlog := mkEvlog { ev_next : nat; ev_entries : option (list evlog_entry) }.

Definition no_events : evlog := mkEvlog 0 None.

(** What [malloc] returns for the buffer, in entries. *)
Class EvlogBuffer := { malloc_entries : option (list bytes) }.

Class EvlogBufferLaws (EB : EvlogBuffer) : Prop := {
  malloc_entries_count l : malloc_entries = Some l -> length l = PSEUDO_EVLOG_ENTRIES;
  malloc_entries_size l : malloc_entries = Some l -> Forall (fun d => length d = PSEUDO_EVLOG_LENGTH) l
}.

Section Evlog.
Context {EB : EvlogBuffer}.

Definition evlog_storage (log : evlog) : option (list evlog_entry) :=
  match ev_entries log with
  | Some l => Some l
  | None => map (mkEv 0 0) <$> malloc_entries
  end.

(** [strcpy(ev->data + PSEUDO_EVLOG_LENGTH - 5, "...\n")] *)
Definition dots : bytes := $"..." ++ [byte_of_Z 10; NUL].

(** [text] is the message as [vsnprintf] formats it. *)
Definition evlog_set (now : Z) (text : bytes) (data : bytes) : option evlog_entry :=
  data ← memcpy_at 0 (take (PSEUDO_EVLOG_LENGTH - 1) text ++ [NUL]) data;
  if (PSEUDO_EVLOG_LENGTH <? length text)%nat then
    data ← memcpy_at (PSEUDO_EVLOG_LENGTH - 5) dots data;
    Some (mkEv now (Z.of_nat (PSEUDO_EVLOG_LENGTH - 1)) data)
  else Some (mkEv now (Z.of_nat (length text)) data).

(** [None]: without memory for the log, the message goes to a null pointer. *)
Definition pseudo_evlog_internal (now : Z) (text : bytes) (log : evlog) : option evlog :=
  l ← evlog_storage log;
  e ← l !! ev_next log;
  e ← evlog_set now text (ev_data e);
  Some (mkEvlog ((ev_next log + 1) mod PSEUDO_EVLOG_ENTRIES) (Some (<[ev_next log := e]> l))).

(** The entries [pseudo_evlog_dump] writes, from the oldest; reading past the
    data is an error. *)
Definition dump_entry (e : evlog_entry) : option (list (Z * bytes)) :=
  if ev_len e <=? 0 then Some []
  else if (Z.to_nat (ev_len e) <=? length (ev_data e))%nat
  then Some [(ev_stamp e, take (Z.to_nat (ev_len e)) (ev_data e))] else None.

Definition pseudo_evlog_dump (log : evlog) : option (list (Z * bytes)) :=
  match ev_entries log with
  | None => Some []
  | Some l =>
      @concat _ <$> mapM (fun i => e ← l !! ((ev_next log + i) mod PSEUDO_EVLOG_ENTRIES)%nat; dump_entry e)
        (seq 0 PSEUDO_EVLOG_ENTRIES)
  end.

Fixpoint evlog_run (l : list (Z * bytes)) (log : evlog) : option evlog :=
  match l with
  | [] => Some log
  | (now, text) :: l => log ← pseudo_evlog_internal now text log; evlog_run l log
  end.
End Evlog.
