(* ===== verification/DebugSpec.v ===== *)
(** Flags survive being written as letters, and the event log shows the last
    events, in their order. *)

From stdpp Require Import base list option strings.
From Stdlib Require Import ZArith Lia Ascii.
From S2P Require Import Prelude Tables Paths Debug.

Open Scope Z_scope.

(** ** Flags *)

Definition flags_ok (flags : Z) : Prop := 0 <= flags < 2 ^ PDBG_MAX /\ Z.testbit flags 0 = false.

Lemma foldl_lor_testbit (l : list Z) a n :
  Forall (fun i => 0 <= i) l -> 0 <= n ->
  Z.testbit (foldl (fun f i => Z.lor f (Z.shiftl 1 i)) a l) n = Z.testbit a n || bool_decide (n ∈ l).
Proof.
  revert a. induction l as [|i l IH]; intros a Hl Hn; cbn [foldl].
  { rewrite bool_decide_eq_false_2 by apply not_elem_of_nil. by rewrite orb_false_r. }
  inversion Hl; subst. rewrite IH, Z.lor_spec, Z.shiftl_1_l, Z.pow2_bits_eqb, <- orb_assoc by done. f_equal.
  destruct (Z.eqb_spec i n) as [->|]; cbn [orb].
  - symmetry. apply bool_decide_eq_true. left.
  - apply bool_decide_ext. rewrite elem_of_cons. naive_solver.
Qed.

Lemma symbol_flag :
  map (fun i => flag_bit (pseudo_debug_type_symbolic i)) (tail flag_ids) = map (fun i => Some (Z.shiftl 1 i)) (tail flag_ids).
Proof. by vm_compute. Qed.

Lemma symbol_flag_bit i : i ∈ tail flag_ids -> flag_bit (pseudo_debug_type_symbolic i) = Some (Z.shiftl 1 i).
Proof. intros [k Hk]%list_elem_of_lookup_1. pose proof (f_equal (.!! k) symbol_flag) as H. cbv beta in H.
  rewrite !list_lookup_fmap, Hk in H. by simplify_eq/=.
Qed.

Lemma symbols_no_nul : Forall (fun i => pseudo_debug_type_symbolic i <> NUL) (tail flag_ids).
Proof. apply (bool_decide_unpack _). by vm_compute. Qed.

Lemma foldl_flags l a :
  (forall i, i ∈ l -> i ∈ tail flag_ids) ->
  foldl add_flag a (map pseudo_debug_type_symbolic l) = foldl (fun f i => Z.lor f (Z.shiftl 1 i)) a l.
Proof.
  revert a. induction l as [|i l IH]; intros a Hl; [done|]. cbn [map foldl]. rewrite <- IH by (intros; apply Hl; by right).
  f_equal. unfold add_flag. by rewrite symbol_flag_bit by (apply Hl; left).
Qed.

Definition set_ids (flags : Z) : list Z := filter (fun i => negb (Z.land flags (Z.shiftl 1 i) =? 0) = true) flag_ids.

Lemma set_ids_spec flags i : flags_ok flags -> i ∈ set_ids flags <-> i ∈ tail flag_ids /\ Z.testbit flags i = true.
Proof.
  intros [Hr H0]. unfold set_ids. rewrite list_elem_of_filter.
  assert (forall i, i ∈ flag_ids <-> i = 0 \/ i ∈ tail flag_ids) as Hids by (intros; apply elem_of_cons).
  assert (forall i, i ∈ tail flag_ids -> 0 <= i) as Hpos.
  { apply Forall_forall, (bool_decide_unpack _). by vm_compute. }
  assert (0 <= i -> negb (Z.land flags (Z.shiftl 1 i) =? 0) = Z.testbit flags i) as Hbit by apply bit_is_set.
  rewrite Hids. split.
  - intros [Hb [->|Hi]]; [|split; [done|]]; rewrite Hbit in Hb by (done || auto); congruence.
  - intros [Hi Hb]. split; [|by right]. rewrite Hbit by auto. done.
Qed.

(** The flags a process hands to the next one in its environment are those
    the next one reads: for every set of flags, the letters written for it are
    read back as the same set; and a string of letters stands for the flags of
    its letters, whatever their order, repeated or unknown. *)
Theorem debug_flags_roundtrip flags :
  flags_ok flags -> pseudo_debug_flags_in (flag_letters flags) = flags.
Proof.
  intros Hok. unfold flag_letters. fold (set_ids flags).
  assert (forall i, i ∈ set_ids flags -> i ∈ tail flag_ids) as Hsub by (intros i Hi; by apply set_ids_spec in Hi as [??]).
  rewrite c_str_id.
  2: { intros (i & Hi & Hin)%list_elem_of_fmap. apply Hsub in Hin.
       pose proof symbols_no_nul as Hs. rewrite Forall_forall in Hs. by apply (Hs i Hin). }
  unfold pseudo_debug_flags_in. rewrite foldl_flags by done.
  assert (Forall (fun i => 0 <= i) (set_ids flags)) as Hpos.
  { apply Forall_forall. intros i Hi%Hsub. revert i Hi. apply Forall_forall, (bool_decide_unpack _). by vm_compute. }
  apply Z.bits_inj'. intros n Hn. rewrite foldl_lor_testbit, Z.bits_0 by done. cbn [orb].
  destruct (Z.testbit flags n) eqn:Hb.
  - apply bool_decide_eq_true, set_ids_spec; [done|]. split; [|done].
    destruct Hok as [Hr H0]. destruct (Z.ltb_spec n PDBG_MAX).
    + assert (n <> 0) by (intros ->; congruence). change (tail flag_ids) with (Z.of_nat <$> seq 1 20).
      apply list_elem_of_fmap. exists (Z.to_nat n). split; [lia|].
      apply elem_of_seq. unfold PDBG_MAX in *. lia.
    + rewrite <- (Z.mod_small flags (2 ^ PDBG_MAX)), Z.mod_pow2_bits_high in Hb by (unfold PDBG_MAX in *; lia). done.
  - apply bool_decide_eq_false. intros Hin%set_ids_spec; [|done]. destruct Hin. congruence.
Qed.

Lemma debug_flags_roundtrip_witness :
  flags_ok 0x2c /\ pseudo_debug_flags_in (flag_letters 0x2c) = 0x2c.
Proof.
  assert (flags_ok 0x2c) as H by (split; [unfold PDBG_MAX; lia|done]). split; [done|].
  apply (debug_flags_roundtrip 0x2c H).
Defined.

(** ** The event log *)

Section EvlogSpec.
Context {EB : EvlogBuffer} {EBL : EvlogBufferLaws EB}.

(** What is kept of a message: one that does not fit ends in dots, one that
    fits exactly loses its last byte to the NUL. *)
Definition shorten (text : bytes) : bytes :=
  if (PSEUDO_EVLOG_LENGTH <? length text)%nat then take (PSEUDO_EVLOG_LENGTH - 5) text ++ $"..." ++ [byte_of_Z 10]
  else if (length text =? PSEUDO_EVLOG_LENGTH)%nat then take (PSEUDO_EVLOG_LENGTH - 1) text ++ [NUL]
  else text.

Definition shown (e : Z * bytes) : list (Z * bytes) :=
  if bool_decide (e.2 = []) then [] else [(e.1, shorten e.2)].

(** An entry of the ring shows an event. *)
Definition shows (e : evlog_entry) (l : list (Z * bytes)) : Prop :=
  length (ev_data e) = PSEUDO_EVLOG_LENGTH /\ dump_entry e = Some l.

Lemma first_write text data :
  length data = 256%nat ->
  memcpy_at 0 (take 255 text ++ [NUL]) data =
    Some ((take 255 text ++ [NUL]) ++ drop (length (take 255 text) + 1) data).
Proof.
  intros Hd. rewrite memcpy_at_ok by (rewrite length_app, length_take, Hd; cbn [length]; lia).
  rewrite take_0. by rewrite length_app.
Qed.

Lemma evlog_set_shows now text data :
  length data = PSEUDO_EVLOG_LENGTH ->
  exists e, evlog_set now text data = Some e /\ shows e (shown (now, text)).
Proof.
  intros Hd. unfold evlog_set, shows, shown, shorten, PSEUDO_EVLOG_LENGTH in *. cbn [fst snd].
  change (Z.to_nat 256 - 1)%nat with 255%nat. change (Z.to_nat 256 - 5)%nat with 251%nat.
  change (Z.to_nat 256) with 256%nat in *. rewrite first_write by done. cbn [mbind option_bind].
  set (mem := (take 255 text ++ [NUL]) ++ drop (length (take 255 text) + 1) data).
  assert (length mem = 256%nat) as Hmem.
  { unfold mem. rewrite !length_app, length_drop, length_take, Hd. cbn [length]. lia. }
  destruct (Nat.ltb_spec 256 (length text)) as [Hlong|Hshort].
  - rewrite memcpy_at_ok by (rewrite Hmem; cbn; lia). cbn [mbind option_bind]. eexists. split; [done|].
    assert (take 251 mem ++ dots ++ drop (251 + length dots) mem = take 251 text ++ dots) as ->.
    { rewrite drop_ge by (rewrite Hmem; cbn; lia). rewrite app_nil_r. f_equal.
      unfold mem. rewrite <- app_assoc, take_app_le by (rewrite length_take; lia). by rewrite take_take. }
    assert (length (take 251 text) = 251%nat) as H251 by (rewrite length_take; lia).
    unfold dump_entry. cbn [ev_len ev_data ev_stamp]. rewrite length_app, H251. split; [done|].
    rewrite bool_decide_eq_false_2 by (intros ->; cbn in Hlong; lia). cbn [Z.of_nat Z.leb Z.to_nat].
    change (take (Z.to_nat (Z.of_nat 255)) (take 251 text ++ dots)) with (take 255 (take 251 text ++ dots)).
    rewrite (take_app_ge _ _ 255), H251 by lia. done.
  - eexists. split; [done|]. unfold dump_entry. cbn [ev_len ev_data ev_stamp]. rewrite Nat2Z.id, Hmem. split; [done|].
    rewrite (proj2 (Nat.leb_le (length text) 256)) by lia.
    destruct (bool_decide_reflect (text = [])) as [->|Hne]; [done|].
    destruct (Z.leb_spec (Z.of_nat (length text)) 0); [destruct text; [done|cbn [length] in *; lia]|].
    f_equal. f_equal. f_equal. unfold mem. destruct (Nat.eqb_spec (length text) 256) as [E|E].
    + rewrite take_ge by (fold mem; lia). rewrite drop_ge; [by rewrite app_nil_r|]. rewrite length_take. lia.
    + rewrite (take_ge text) by lia. by rewrite <- app_assoc, take_app_length.
Qed.

Lemma shifted_mod a j N : (0 < j < N)%nat -> (a mod N <> (a + j) mod N)%nat.
Proof.
  intros Hj Heq. pose proof (Nat.div_mod_eq a N) as H1. pose proof (Nat.div_mod_eq (a + j) N) as H2.
  rewrite <- Heq in H2. assert (j = N * ((a + j) / N - a / N))%nat as Hd by nia. nia.
Qed.

Lemma map_lookups {A B} (f : A -> list B) (l : list A) n :
  map (fun i => default [] (f <$> l !! (i - n)%nat)) (seq n (length l)) = map f l.
Proof.
  revert n. induction l as [|x l IH]; intros n; [done|]. cbn [length seq map]. rewrite Nat.sub_diag. cbn. f_equal.
  rewrite <- (IH (S n)). apply map_ext_in. intros i Hi%in_seq.
  by replace (i - n)%nat with (S (i - S n)) by lia.
Qed.

Lemma last_of_ring {A B} (f : A -> list B) (l : list A) N :
  concat (map (fun i => if (length l + i <? N)%nat then [] else default [] (f <$> l !! (length l + i - N)%nat)) (seq 0 N)) =
  concat (map f (drop (length l - N) l)).
Proof.
  set (m := Nat.min N (length l)). assert (seq 0 N = seq 0 (N - m) ++ seq (N - m) m) as ->.
  { replace N with (N - m + m)%nat at 1 by lia. apply seq_app. }
  rewrite map_app, concat_app.
  assert (concat (map (fun i => if (length l + i <? N)%nat then [] else default [] (f <$> l !! (length l + i - N)%nat))
    (seq 0 (N - m))) = []) as ->.
  { apply concat_nil_Forall, Forall_forall. intros x (i & -> & Hi%elem_of_seq)%list_elem_of_fmap.
    by rewrite (proj2 (Nat.ltb_lt _ _)) by lia. }
  cbn [app]. f_equal. assert (m = length (drop (length l - N) l)) as Hm by (rewrite length_drop; lia). rewrite Hm at 2.
  rewrite <- (map_lookups f (drop (length l - N) l) (N - m)). apply map_ext_in. intros i Hi%in_seq.
  rewrite length_drop in Hi. rewrite (proj2 (Nat.ltb_ge _ _)) by lia. rewrite lookup_drop. f_equal. f_equal. f_equal. lia.
Qed.

(** The ring after the events [l]: the entry of an event among the last is
    where its number points, and the entries not used yet are empty. *)
Definition ring (l : list (Z * bytes)) (log : evlog) : Prop :=
  ev_next log = (length l mod PSEUDO_EVLOG_ENTRIES)%nat /\
  exists es, evlog_storage log = Some es /\ (l <> [] -> ev_entries log = Some es) /\
    length es = PSEUDO_EVLOG_ENTRIES /\
    forall j, (j < PSEUDO_EVLOG_ENTRIES)%nat -> exists e, es !! ((length l + j) mod PSEUDO_EVLOG_ENTRIES)%nat = Some e /\
      shows e (if (length l + j <? PSEUDO_EVLOG_ENTRIES)%nat then []
               else default [] (shown <$> l !! (length l + j - PSEUDO_EVLOG_ENTRIES)%nat)).
Lemma ring_start data : malloc_entries = Some data -> ring [] no_events.
Proof.
  intros Hm. split; [done|]. exists (map (mkEv 0 0) data). unfold evlog_storage. cbn [ev_entries no_events].
  rewrite Hm. split; [done|]. split; [done|].
  pose proof (malloc_entries_count _ Hm) as Hc. pose proof (malloc_entries_size _ Hm) as Hs.
  split; [by rewrite length_map|]. intros j Hj. cbn [length Nat.add]. rewrite Nat.mod_small by done.
  rewrite (proj2 (Nat.ltb_lt _ _)) by done. destruct (lookup_lt_is_Some_2 data j) as [d Hd]; [lia|].
  exists (mkEv 0 0 d). rewrite list_lookup_fmap, Hd. split; [done|]. split; [|done].
  by apply (Forall_lookup_1 _ _ _ _ Hs Hd).
Qed.

Lemma ring_step l log now text :
  ring l log -> exists log', pseudo_evlog_internal now text log = Some log' /\ ring (l ++ [(now, text)]) log'.
Proof.
  intros (Hnext & es & Hst & _ & Hlen & Hes). unfold pseudo_evlog_internal. rewrite Hst. cbn [mbind option_bind].
  assert (0 < PSEUDO_EVLOG_ENTRIES)%nat as Hpos by (unfold PSEUDO_EVLOG_ENTRIES; lia).
  destruct (Hes 0%nat Hpos) as (e & He & Hsz & _). rewrite Nat.add_0_r, <- Hnext in He. rewrite He. cbn [mbind option_bind].
  destruct (evlog_set_shows now text (ev_data e) Hsz) as (e' & -> & He'). cbn [mbind option_bind].
  eexists. split; [done|]. unfold ring, evlog_storage. cbn [ev_next ev_entries]. rewrite length_app. cbn [length].
  split. { rewrite Hnext. by rewrite Nat.Div0.add_mod_idemp_l. }
  eexists. split; [done|]. split; [done|]. rewrite length_insert. split; [done|]. intros j Hj.
  destruct (decide (j = PSEUDO_EVLOG_ENTRIES - 1)%nat) as [->|Hne].
  - exists e'. replace (length l + 1 + (PSEUDO_EVLOG_ENTRIES - 1))%nat with (length l + 1 * PSEUDO_EVLOG_ENTRIES)%nat by lia.
    rewrite Nat.Div0.mod_add, <- Hnext. split; [apply list_lookup_insert_eq; rewrite Hlen, Hnext; by apply Nat.mod_upper_bound; lia|].
    rewrite (proj2 (Nat.ltb_ge _ _)) by lia.
    replace (length l + 1 * PSEUDO_EVLOG_ENTRIES - PSEUDO_EVLOG_ENTRIES)%nat with (length l) by lia.
    by rewrite lookup_app_r, Nat.sub_diag by lia.
  - destruct (Hes (S j) ltac:(lia)) as (e1 & He1 & Hs1). exists e1.
    replace (length l + 1 + j)%nat with (length l + S j)%nat by lia. split.
    + rewrite list_lookup_insert_ne; [done|]. rewrite Hnext. apply shifted_mod; lia.
    + destruct (Nat.ltb_spec (length l + S j) PSEUDO_EVLOG_ENTRIES); [done|].
      by rewrite lookup_app_l by lia.
Qed.

Lemma ring_run l l0 log :
  ring l0 log -> exists log', evlog_run l log = Some log' /\ ring (l0 ++ l) log'.
Proof.
  revert l0 log. induction l as [|[now text] l IH]; intros l0 log Hr; cbn [evlog_run].
  { exists log. by rewrite app_nil_r. }
  destruct (ring_step _ _ now text Hr) as (log1 & -> & H1). cbn [mbind option_bind].
  destruct (IH _ _ H1) as (log2 & -> & H2). exists log2. by rewrite <- (app_assoc l0) in H2.
Qed.

(** C24: the event log keeps the last 250 events.  After any sequence of
    messages the dump shows the last 250 that are not empty, each with its time
    and in the order they were logged; a message of 256 bytes or more is cut to
    what its slot holds; no write leaves the slots and no read does. *)
Theorem evlog_keeps_last data l :
  malloc_entries = Some data ->
  exists log, evlog_run l no_events = Some log /\
    pseudo_evlog_dump log = Some (concat (map shown (drop (length l - PSEUDO_EVLOG_ENTRIES) l))).
Proof.
  intros Hm. destruct (ring_run l [] no_events (ring_start _ Hm)) as (log & Hrun & Hnext & es & Hst & Hes & Hlen & Hall).
  exists log. split; [done|]. cbn [app] in *. unfold pseudo_evlog_dump. destruct l as [|x l'].
  { cbn in Hrun. injection Hrun as <-. done. }
  rewrite (Hes ltac:(done)). set (l := x :: l') in *.
  assert (mapM (fun i => e ← es !! ((ev_next log + i) mod PSEUDO_EVLOG_ENTRIES)%nat; dump_entry e) (seq 0 PSEUDO_EVLOG_ENTRIES)
    = Some (map (fun i => if (length l + i <? PSEUDO_EVLOG_ENTRIES)%nat then []
               else default [] (shown <$> l !! (length l + i - PSEUDO_EVLOG_ENTRIES)%nat)) (seq 0 PSEUDO_EVLOG_ENTRIES))) as ->.
  { apply mapM_Some, Forall2_fmap_r, Forall_Forall2_diag, Forall_forall. intros i Hi%elem_of_seq.
    destruct (Hall i ltac:(lia)) as (e & He & _ & Hd). rewrite Hnext, Nat.Div0.add_mod_idemp_l, He. done. }
  cbn [fmap option_fmap option_map]. f_equal. apply last_of_ring.
Qed.
End EvlogSpec.

(** ** Witnesses *)

#[local] Instance zero_entries : EvlogBuffer := {
  malloc_entries := Some (replicate PSEUDO_EVLOG_ENTRIES (replicate PSEUDO_EVLOG_LENGTH NUL))
}.

#[local] Instance zero_entries_laws : EvlogBufferLaws zero_entries.
Proof.
  split; intros l <-%(inj Some); [apply length_replicate|]. apply Forall_replicate, length_replicate.
Qed.

Lemma evlog_keeps_last_witness :
  let l := map (fun i => (Z.of_nat i, [ascii_of_nat (48 + i mod 10)])) (seq 0 300) in
  exists log, evlog_run l no_events = Some log /\
    pseudo_evlog_dump log = Some (concat (map shown (drop (length l - PSEUDO_EVLOG_ENTRIES) l))).
Proof.
  intros l. exact (@evlog_keeps_last zero_entries zero_entries_laws
    (replicate PSEUDO_EVLOG_ENTRIES (replicate PSEUDO_EVLOG_LENGTH NUL)) l eq_refl).
Defined.
