(* ===== verification/Env.v ===== *)
(** The environment of a process under pseudo ([pseudo_util.c]): the variables
    kept in [pseudo_env], the lists of libraries to preload, and the
    environments given to child processes.

    Allocations succeed.  [regexec] on the one pattern of the source is the
    leftmost longest match POSIX describes. *)

From stdpp Require Import base gmap list option strings.
From Stdlib Require Import ZArith Lia Ascii.
From S2P Require Import Prelude Tables Debug.

Open Scope Z_scope.

(** ** [pseudo_env] *)

Definition env_keys : list bytes :=
  [$"PSEUDO_PREFIX"; $"PSEUDO_BINDIR"; $"PSEUDO_LIBDIR"; $"PSEUDO_LOCALSTATEDIR"; $"PSEUDO_IGNORE_PATHS";
   $"PSEUDO_PASSWD"; $"PSEUDO_CHROOT"; $"PSEUDO_UIDS"; $"PSEUDO_GIDS"; $"PSEUDO_OPTS"; $"PSEUDO_DEBUG";
   $"PSEUDO_DEBUG_FILE"; $"PSEUDO_TAG"; $"PSEUDO_ENOSYS_ABORT"; $"PSEUDO_NOSYMLINKEXP"; $"PSEUDO_DISABLED";
   $"PSEUDO_UNLOAD"; $"PSEUDO_ALLOW_FSYNC"; $"PSEUDO_EVLOG"; $"PSEUDO_EVLOG_FILE"].

(** The environment [getenv] and [setenv] see, the variables kept, whether
    they were read, and the flags reading them sets. *)
Record env_state := mkEnv {
  environ : gmap bytes bytes;
  pseudo_env : gmap bytes bytes;
  util_initted : bool;
  debug : debug_state;
  evlog_flags : Z
}.

Definition is_key (key : bytes) : bool := bool_decide (key ∈ env_keys).

Definition with_env (v : gmap bytes bytes) (s : env_state) : env_state :=
  mkEnv (environ s) v (util_initted s) (debug s) (evlog_flags s).

Definition with_environ (e : gmap bytes bytes) (s : env_state) : env_state :=
  mkEnv e (pseudo_env s) (util_initted s) (debug s) (evlog_flags s).

Definition EINVAL : Z := 22.

(** The store itself. *)
Definition store_value (key : bytes) (value : option bytes) (s : env_state) : env_state :=
  with_env (partial_alter (fun _ => value) key (pseudo_env s)) s.

(** One variable read from the environment. *)
Definition load_key (s : env_state) (key : bytes) : env_state :=
  match environ s !! key with
  | Some v => store_value key (Some v) s
  | None => s
  end.

(** [atoi] *)
Fixpoint atoi_digits (v : Z) (l : bytes) : Z :=
  match l with
  | c :: l' => let d := Z_of_byte c - 48 in if (0 <=? d) && (d <=? 9) then atoi_digits (10 * v + d) l' else v
  | [] => v
  end.

Definition atoi (l : bytes) : Z :=
  let fix go l := match l with
                  | c :: l' => if (Z_of_byte c =? 32) || ((9 <=? Z_of_byte c) && (Z_of_byte c <=? 13)) then go l' else l
                  | [] => []
                  end in
  match go l with
  | "-"%char :: l' => - atoi_digits 0 l'
  | "+"%char :: l' => atoi_digits 0 l'
  | l' => atoi_digits 0 l'
  end.

Definition debug_of_value (value : bytes) (d : debug_state) : debug_state :=
  let level := atoi value in
  if 0 <? level then Nat.iter (Z.to_nat level) pseudo_debug_verbose d else pseudo_debug_set value d.

(** The variables are read before any is looked up, so that the recovery of
    [pseudo_get_value] is not entered from here. *)
Definition pseudo_init_util (s : env_state) : env_state :=
  let s := foldl load_key s env_keys in
  let s := mkEnv (environ s) (pseudo_env s) true (debug s) (evlog_flags s) in
  let s := match pseudo_env s !! $"PSEUDO_DEBUG" with
           | Some v =>
               let d := debug_of_value v (debug s) in
               store_value ($"PSEUDO_DEBUG") (Some (flag_letters (debug_flags d)))
                 (mkEnv (environ s) (pseudo_env s) true d (evlog_flags s))
           | None => s
           end in
  match pseudo_env s !! $"PSEUDO_EVLOG" with
  | Some v =>
      let f := pseudo_debug_flags_in v in
      store_value ($"PSEUDO_EVLOG") (Some (flag_letters f)) (mkEnv (environ s) (pseudo_env s) true (debug s) f)
  | None => s
  end.

Definition ensure_init (s : env_state) : env_state := if util_initted s then s else pseudo_init_util s.

Definition pseudo_get_value (key : bytes) (s : env_state) : env_state * option bytes :=
  let s := ensure_init s in
  if negb (is_key key) then (s, None)
  else
    match pseudo_env s !! key, environ s !! key with
    | None, Some _ => let s := pseudo_init_util s in (s, pseudo_env s !! key)
    | v, _ => (s, v)
    end.

Definition pseudo_set_value (key : bytes) (value : option bytes) (s : env_state) : env_state * Z :=
  let s := ensure_init s in
  if is_key key then (store_value key value s, 0) else (s, - EINVAL).

(** ** Libraries to preload; the separator is a space *)

Definition space : ascii := " "%char.

(** The word at the start of a string, and what follows it. *)
Fixpoint next_word (s : bytes) : bytes * bytes :=
  match s with
  | [] => ([], [])
  | c :: s' => if bool_decide (c = space) then ([], s) else let '(w, r) := next_word s' in (c :: w, r)
  end.

Fixpoint has_infix (needle s : bytes) : bool :=
  prefixb needle s || match s with [] => false | _ :: s' => has_infix needle s' end.

(** [[^ ]*libpseudo[^ ]*\.so]: the first occurrence leaves most room for the
    rest. *)
Definition has_suffix (suffix s : bytes) : bool := prefixb (rev suffix) (rev s).

Fixpoint libpseudo_word (w : bytes) : bool :=
  (prefixb ($"libpseudo") w && has_suffix ($".so") (drop (strlen ($"libpseudo")) w)) ||
  match w with [] => false | _ :: w' => libpseudo_word w' end.

(** What follows a match of the word at the start of [s] when the word is
    libpseudo's: the separator is part of the match. *)
Definition match_word (s : bytes) : option bytes :=
  let '(w, r) := next_word s in if libpseudo_word w then Some (tail r) else None.

(** A match that starts with a separator or an equals sign. *)
Fixpoint match_after (s : bytes) : option (bytes * bytes) :=
  match s with
  | [] => None
  | c :: s' =>
      match (if bool_decide (c = space) || bool_decide (c = "="%char) then match_word s' else None) with
      | Some r => Some ([], r)
      | None => match match_after s' with Some (l, r) => Some (c :: l, r) | None => None end
      end
  end.

(** [regexec]: the text before the match and the text after it. *)
Definition libpseudo_match (s : bytes) : option (bytes * bytes) :=
  match match_word s with
  | Some r => Some ([], r)
  | None => match_after s
  end.

(** [memmove(start, end, ...)] over the match. *)
Definition cut_match (skip_start : bool) (list : bytes) (l r : bytes) : bytes :=
  (if skip_start then take (S (length l)) list else l) ++ r.

(** [counter] is how many more the loop removes before it gives up. *)
Fixpoint cut_matches (counter : nat) (skip_start : bool) (list : bytes) : bytes :=
  match libpseudo_match list with
  | None => list
  | Some (l, r) =>
      let list := cut_match skip_start list l r in
      match counter with O => list | S counter => cut_matches counter skip_start list end
  end.

Definition without_libpseudo (list : bytes) : bytes :=
  let skip_start := match list with c :: _ => bool_decide (c = "="%char) || bool_decide (c = space) | [] => false end in
  cut_matches 5 skip_start list.

Definition libpseudo_name : bytes := $"libpseudo.so".

Definition with_libpseudo (list : bytes) : bytes :=
  match libpseudo_match list with
  | None => list ++ (if bool_decide (list = []) then [] else [space]) ++ libpseudo_name
  | Some _ => list
  end.

(** ** Directories *)

(** The directories below the prefix, fixed when pseudo is built. *)
Class BuildConfig := { PSEUDO_BINDIR : bytes; PSEUDO_LIBDIR : bytes; PSEUDO_LOCALSTATEDIR : bytes }.

Fixpoint drop_slashes (rev_path : bytes) : bytes :=
  match rev_path with
  | c :: l => if bool_decide (c = "/"%char) then drop_slashes l else rev_path
  | [] => []
  end.

Definition pseudo_append_path (prefix : bytes) (file : option bytes) : bytes :=
  match file with
  | None => prefix
  | Some file => rev (drop_slashes (rev prefix)) ++ "/"%char :: file
  end.

Section Dirs.
Context {BC : BuildConfig}.

(** [pseudo_get_prefix(NULL)]; [None]: the program exits. *)
Definition pseudo_prefix_path (file : option bytes) (s : env_state) : option (env_state * bytes) :=
  let '(s, prefix) := pseudo_get_value ($"PSEUDO_PREFIX") s in
  (fun prefix => (s, pseudo_append_path prefix file)) <$> prefix.

(** A directory that defaults to one below the prefix. *)
Definition get_dir (key dir : bytes) (s : env_state) : option (env_state * bytes) :=
  let '(s, v) := pseudo_get_value key s in
  match v with
  | Some v => Some (s, v)
  | None => '(s, path) ← pseudo_prefix_path (Some dir) s; Some ((pseudo_set_value key (Some path) s).1, path)
  end.

Definition pseudo_get_bindir : env_state -> option (env_state * bytes) := get_dir ($"PSEUDO_BINDIR") PSEUDO_BINDIR.

Definition pseudo_get_localstatedir : env_state -> option (env_state * bytes) :=
  get_dir ($"PSEUDO_LOCALSTATEDIR") PSEUDO_LOCALSTATEDIR.

(** lib64 is cut down to lib; a shorter value is read before its start. *)
Definition pseudo_get_libdir (s : env_state) : option (env_state * bytes) :=
  '(s, dir) ← get_dir ($"PSEUDO_LIBDIR") PSEUDO_LIBDIR s;
  if (length dir <? 2)%nat then None
  else if has_suffix ($"64") dir then
    let dir := take (length dir - 2) dir in Some ((pseudo_set_value ($"PSEUDO_LIBDIR") (Some dir) s).1, dir)
  else Some (s, dir).

Definition pseudo_libdir_path (file : option bytes) (s : env_state) : option (env_state * bytes) :=
  '(s, dir) ← pseudo_get_libdir s; Some (s, pseudo_append_path dir file).

(** "Make sure everything has been evaluated". *)
Definition eval_dirs (s : env_state) : option env_state :=
  let s := (pseudo_get_value ($"PSEUDO_PREFIX") s).1 in
  '(s, _) ← pseudo_get_bindir s;
  '(s, _) ← pseudo_get_libdir s;
  '(s, _) ← pseudo_get_localstatedir s;
  Some s.

(** ** The process's own environment *)

Definition PRELINK_LIBRARIES : bytes := $"LD_PRELOAD".
Definition PRELINK_PATH : bytes := $"LD_LIBRARY_PATH".

Definition setenv (key value : bytes) (overwrite : bool) (e : gmap bytes bytes) : gmap bytes bytes :=
  match e !! key with
  | Some _ => if overwrite then <[key := value]> e else e
  | None => <[key := value]> e
  end.

Definition export_key (s : env_state) (key : bytes) : env_state :=
  match pseudo_env s !! key with
  | Some v => with_environ (setenv key v false (environ s)) s
  | None => s
  end.

(** The search path with the library directory and its 64-bit twin. *)
Definition library_path (old : option bytes) (libdir : bytes) : bytes :=
  match old with
  | None => libdir ++ $":" ++ libdir ++ $"64"
  | Some old => if has_infix libdir old then old else old ++ $":" ++ libdir ++ $":" ++ libdir ++ $"64"
  end.

Definition pseudo_setupenv (s : env_state) : option env_state :=
  s ← eval_dirs s;
  let s := foldl export_key s env_keys in
  '(s, libdir) ← pseudo_libdir_path None s;
  let e := environ s in
  let e := match e !! PRELINK_PATH with
           | Some old => if has_infix libdir old then e else <[PRELINK_PATH := library_path (Some old) libdir]> e
           | None => <[PRELINK_PATH := library_path None libdir]> e
           end in
  let e := <[PRELINK_LIBRARIES := with_libpseudo (default [] (e !! PRELINK_LIBRARIES))]> e in
  Some (with_environ e s).

Definition pseudo_dropenv (s : env_state) : env_state :=
  match environ s !! PRELINK_LIBRARIES with
  | Some v => with_environ (<[PRELINK_LIBRARIES := without_libpseudo v]> (environ s)) s
  | None => s
  end.

(** ** The environment given to a program: strings "key=value" *)

Definition eq_sign : ascii := "="%char.

Definition entry_of (key value : bytes) : bytes := key ++ eq_sign :: value.

(** [STARTSWITH(entry, key "=")] *)
Definition names (key entry : bytes) : bool := prefixb (key ++ [eq_sign]) entry.

Definition last_named (key : bytes) (envp : list bytes) : option bytes :=
  last (filter (fun e => names key e = true) envp).

(** The variables [new] has no entry for; their names are compared up to their
    own length only. *)
Definition add_variable (vars : gmap bytes bytes) (new : list bytes) (key : bytes) : list bytes :=
  if existsb (prefixb key) new then new
  else match vars !! key with Some v => new ++ [entry_of key v] | None => new end.

Definition setup_entries (s : env_state) (libdir : bytes) (envp : list bytes) : list bytes :=
  let path := match last_named PRELINK_PATH envp with
              | Some old => library_path (Some old) libdir
              | None => entry_of PRELINK_PATH (library_path None libdir)
              end in
  let preload := match last_named PRELINK_LIBRARIES envp with
                 | Some old => with_libpseudo old
                 | None => entry_of PRELINK_LIBRARIES (with_libpseudo [])
                 end in
  foldl (add_variable (pseudo_env s))
    (path :: preload :: filter (fun e => names PRELINK_LIBRARIES e || names PRELINK_PATH e = false) envp) env_keys.

(** The array has room for the entries given, one per variable, and the NULL;
    [None] is a write past its end, or the exit without a prefix. *)
Definition pseudo_setupenvp (envp : list bytes) (s : env_state) : option (env_state * list bytes) :=
  s ← eval_dirs s;
  '(s, libdir) ← pseudo_libdir_path None s;
  let new := setup_entries s libdir envp in
  if (length new + 1 <=? length envp + length env_keys + 1)%nat then Some (s, new) else None.

(** An entry that is left with no library is dropped. *)
Definition drop_entry (e : bytes) : list bytes :=
  if names PRELINK_LIBRARIES e then
    let e := without_libpseudo e in
    if bool_decide (e = entry_of PRELINK_LIBRARIES []) then [] else [e]
  else [e].

Definition pseudo_dropenvp (envp : list bytes) : list bytes := @concat _ (map drop_entry envp).

Definition pseudo_has_unload (envp : option (list bytes)) (s : env_state) : env_state * bool :=
  match environ s !! $"PSEUDO_UNLOAD" with
  | Some _ => (s, true)
  | None =>
      let s := ensure_init s in
      (s, bool_decide (is_Some (pseudo_env s !! $"PSEUDO_UNLOAD")) ||
          match envp with Some l => existsb (names ($"PSEUDO_UNLOAD")) l | None => false end)
  end.

(** ** Starting programs ([guts/execv.c], [guts/execve.c], [guts/fork.c]) *)

(** The environment [real_execve] and [real_posix_spawn] get. *)
Definition exec_environment (envp : list bytes) (s : env_state) : option (env_state * list bytes) :=
  '(s, new) ← pseudo_setupenvp envp s;
  let '(s, unload) := pseudo_has_unload (Some new) s in
  Some (s, if unload then pseudo_dropenvp new else new).

(** What [execv] and [execvp] do to the process's own environment. *)
Definition own_environment (s : env_state) : option env_state :=
  s ← pseudo_setupenv s;
  let '(s, unload) := pseudo_has_unload None s in
  Some (if unload then pseudo_dropenv s else s).

(** [getenv] in a program started with such an environment: the value of the
    first entry of a name. *)
Definition getenv_in (envp : list bytes) (key : bytes) : option bytes :=
  drop (length key + 1) <$> head (filter (fun e => names key e = true) envp).
End Dirs.

(** A program that starts with an environment. *)
Definition split_entry (e : bytes) : option (bytes * bytes) :=
  '(i, _) ← list_find (fun c => c = eq_sign) e; Some (take i e, drop (S i) e).

Definition environ_of (envp : list bytes) : gmap bytes bytes := list_to_map (omap split_entry envp).

Definition started (envp : list bytes) : env_state := mkEnv (environ_of envp) ∅ false (mkDebug 0 0) 0.
