(* ===== verification/EnvSpec.v ===== *)
(** What reaches a program started under pseudo: the variables pseudo keeps,
    the library to preload; and what is left of it when it is to be unloaded. *)

From stdpp Require Import base gmap list option strings.
From Stdlib Require Import ZArith Lia Ascii.
From S2P Require Import Prelude Tables Debug Env.

Open Scope Z_scope.

(** ** Names of variables *)

Definition no_eq (k : bytes) : Prop := eq_sign ∉ k.

Lemma keys_no_eq : Forall no_eq env_keys.
Proof. apply (bool_decide_unpack _). by vm_compute. Qed.

Lemma keys_nodup : NoDup env_keys.
Proof. apply (bool_decide_unpack _). by vm_compute. Qed.

Lemma prefixb_app_l k x y : prefixb (k ++ x) y = true -> prefixb k y = true.
Proof. rewrite !prefixb_spec. intros [z ->]. exists (x ++ z). by rewrite app_assoc. Qed.

Lemma names_prefix k e : names k e = true -> prefixb k e = true.
Proof. apply prefixb_app_l. Qed.

Lemma names_entry k v : names k (entry_of k v) = true.
Proof. apply prefixb_spec. exists v. unfold entry_of. by rewrite <- app_assoc. Qed.

(** A name without an equals sign is the part of an entry before the first. *)
Lemma prefix_entry k k' v : no_eq k -> prefixb k (entry_of k' v) = true -> prefixb k k' = true.
Proof.
  unfold no_eq. revert k'. induction k as [|c k IH]; intros [|c' k'] Hk; cbn; try done.
  - rewrite not_elem_of_cons in Hk. intros H. bool_facts. naive_solver.
  - rewrite not_elem_of_cons in Hk. intros H. bool_facts. subst. rewrite bool_decide_eq_true_2 by done. naive_solver.
Qed.

Lemma names_entry_eq k k' v : no_eq k -> no_eq k' -> names k (entry_of k' v) = true -> k = k'.
Proof.
  unfold names, no_eq. revert k'. induction k as [|c k IH]; intros [|c' k'] Hk Hk'; cbn; try done.
  - rewrite not_elem_of_cons in Hk'. intros H. bool_facts. naive_solver.
  - rewrite not_elem_of_cons in Hk. intros H. bool_facts. naive_solver.
  - rewrite not_elem_of_cons in Hk. rewrite not_elem_of_cons in Hk'. intros H. bool_facts. subst. f_equal. naive_solver.
Qed.

Lemma split_entry_of k v : no_eq k -> split_entry (entry_of k v) = Some (k, v).
Proof.
  intros Hk. unfold split_entry, entry_of.
  rewrite list_find_app_r by (apply list_find_None, Forall_forall; by intros x Hx ->).
  cbn [list_find]. rewrite decide_True by done.
  cbn [fmap option_fmap option_map prod_map mbind option_bind fst snd Nat.add].
  rewrite take_app_length. replace (S (length k)) with (length (k ++ [eq_sign])) by (rewrite length_app; cbn; lia).
  change (eq_sign :: v) with ([eq_sign] ++ v). by rewrite app_assoc, drop_app_length.
Qed.

Lemma names_split k e : no_eq k -> names k e = true <-> exists v, split_entry e = Some (k, v).
Proof.
  intros Hk. split.
  - intros [v ->]%prefixb_spec. exists v. rewrite <- app_assoc. by apply split_entry_of.
  - unfold split_entry. intros [v H]. destruct (list_find _ e) as [[i c]|] eqn:E; [|done]. cbn in H. injection H as H1 H2.
    apply list_find_Some in E as (Hi & -> & _). apply prefixb_spec. exists v.
    rewrite <- (take_drop_middle _ _ _ Hi), H1, H2. by rewrite <- app_assoc.
Qed.

(** [getenv] in the started program. *)
Lemma environ_of_lookup envp k : no_eq k -> environ_of envp !! k = getenv_in envp k.
Proof.
  intros Hk. unfold environ_of, getenv_in. induction envp as [|e envp IH]; [done|].
  rewrite filter_cons. cbn [omap list_omap]. destruct (decide (names k e = true)) as [He|He].
  - destruct (proj1 (names_split k e Hk) He) as [v Hv]. rewrite Hv. cbn [list_to_map foldr head fmap option_fmap option_map].
    rewrite lookup_insert_eq. f_equal. apply prefixb_spec in He as [z ->].
    assert ((k ++ [eq_sign]) ++ z = entry_of k z) as Hz by by rewrite <- app_assoc.
    rewrite Hz, split_entry_of in Hv by done. injection Hv as ->.
    replace (length k + 1)%nat with (length (k ++ [eq_sign])) by (rewrite length_app; cbn; lia). by rewrite drop_app_length.
  - destruct (split_entry e) as [[k' v]|] eqn:Hs; [|done]. cbn [list_to_map foldr]. rewrite lookup_insert_ne; [done|].
    cbn [fst]. intros ->. apply He, names_split; [done|]. by exists v.
Qed.

(** ** The variables of a child *)

Definition first_named (k : bytes) (l : list bytes) : option bytes := head (filter (fun e => names k e = true) l).

Lemma getenv_first l k : getenv_in l k = drop (length k + 1) <$> first_named k l.
Proof. reflexivity. Qed.

Lemma first_named_app k l1 l2 :
  first_named k (l1 ++ l2) = match first_named k l1 with Some e => Some e | None => first_named k l2 end.
Proof. unfold first_named. rewrite filter_app. by destruct (filter _ l1). Qed.

Lemma first_named_none k l : Forall (fun e => names k e = false) l -> first_named k l = None.
Proof.
  unfold first_named. induction 1 as [|e l He Hl IH]; [done|]. rewrite filter_cons, decide_False; [done|by rewrite He].
Qed.

(** The entry [add_variable] makes for a key. *)
Definition new_entry (vars : gmap bytes bytes) (base : list bytes) (key : bytes) : list bytes :=
  if existsb (prefixb key) base then [] else match vars !! key with Some v => [entry_of key v] | None => [] end.

(** No key is the start of one that comes before it. *)
Definition late_prefixes (keys : list bytes) : Prop :=
  forall i j k k', keys !! i = Some k -> keys !! j = Some k' -> (i < j)%nat -> prefixb k' k = false.

Lemma foldl_add_variable vars base keys done_ :
  Forall no_eq (done_ ++ keys) -> late_prefixes (done_ ++ keys) ->
  foldl (add_variable vars) (base ++ concat (map (new_entry vars base) done_)) keys =
  base ++ concat (map (new_entry vars base) (done_ ++ keys)).
Proof.
  revert done_. induction keys as [|k keys IH]; intros done_ Hne Hlate; [by rewrite app_nil_r|].
  cbn [foldl]. rewrite (cons_middle k), app_assoc in Hne, Hlate |- *. rewrite <- IH by done. f_equal.
  unfold add_variable. rewrite map_app, concat_app, existsb_app. cbn [map concat]. rewrite app_nil_r.
  assert (existsb (prefixb k) (concat (map (new_entry vars base) done_)) = false) as ->.
  { apply not_true_iff_false. intros (e & (l & (k' & <- & Hk')%in_map_iff & Hl)%in_concat & Hp)%existsb_exists.
    apply list_elem_of_In in Hk', Hl.
    unfold new_entry in Hl. destruct (existsb _ base); [by apply elem_of_nil in Hl|].
    destruct (vars !! k') as [v|]; [|by apply elem_of_nil in Hl]. apply list_elem_of_singleton in Hl as ->.
    apply list_elem_of_lookup_1 in Hk' as [i Hi].
    assert (prefixb k k' = false) as Hf.
    { apply (Hlate i (length done_)); [by apply lookup_app_l_Some, lookup_app_l_Some| |by apply lookup_lt_Some in Hi].
      rewrite lookup_app_l by (rewrite length_app; cbn; lia). by rewrite lookup_app_r, Nat.sub_diag by lia. }
    rewrite (prefix_entry k k' v) in Hf; [done| |done].
    rewrite Forall_forall in Hne. apply Hne. rewrite !elem_of_app. left. right. by left. }
  rewrite orb_false_r. generalize (concat (map (new_entry vars base) done_)). intros before.
  unfold new_entry. destruct (existsb _ base); [by rewrite app_nil_r|].
  destruct (vars !! k); [by rewrite app_assoc|by rewrite app_nil_r].
Qed.

Lemma env_keys_late : late_prefixes env_keys.
Proof.
  assert (forallb (fun i => forallb (fun j => negb (i <? j)%nat ||
    negb (prefixb (default [] (env_keys !! j)) (default [] (env_keys !! i)))) (seq 0 (length env_keys)))
    (seq 0 (length env_keys)) = true) as H by by vm_compute.
  intros i j k k' Hi Hj Hij. rewrite forallb_forall in H.
  assert (forall i k, env_keys !! i = Some k -> In i (seq 0 (length env_keys))) as Hin.
  { intros i' k0 Hi'%lookup_lt_Some. apply in_seq. lia. }
  specialize (H i (Hin i k Hi)). rewrite forallb_forall in H. specialize (H j (Hin j k' Hj)).
  rewrite Hi, Hj, (proj2 (Nat.ltb_lt _ _)) in H by done. by apply negb_true_iff in H.
Qed.

Lemma setup_entries_new vars base :
  foldl (add_variable vars) base env_keys = base ++ concat (map (new_entry vars base) env_keys).
Proof.
  pose proof (foldl_add_variable vars base env_keys [] keys_no_eq env_keys_late) as H. cbn [map concat app] in H.
  by rewrite app_nil_r in H.
Qed.

(** The entry for a name in what [add_variable] appends. *)
Lemma first_named_new vars base k :
  no_eq k ->
  first_named k (concat (map (new_entry vars base) env_keys)) =
  if decide (k ∈ env_keys) then (if existsb (prefixb k) base then None else entry_of k <$> vars !! k) else None.
Proof.
  intros Hk. pose proof keys_no_eq as Hne. pose proof keys_nodup as Hnd. revert Hne Hnd.
  induction env_keys as [|k' keys IH]; intros Hne Hnd.
  { rewrite decide_False; [done|]. apply not_elem_of_nil. }
  inversion Hne as [|? ? Hk' Hne']; subst. apply NoDup_cons in Hnd as [Hnin Hnd].
  cbn [map concat]. rewrite first_named_app, (IH Hne' Hnd).
  destruct (decide (k = k')) as [->|Hkk].
  - rewrite (decide_True (P := k' ∈ k' :: keys)) by left. rewrite (decide_False (P := k' ∈ keys)) by done.
    unfold new_entry. destruct (existsb _ base); [done|]. destruct (vars !! k') as [v|]; [|done].
    unfold first_named. rewrite filter_cons, decide_True by apply names_entry. done.
  - rewrite first_named_none.
    + apply decide_ext. rewrite elem_of_cons. naive_solver.
    + apply Forall_forall. intros e He. unfold new_entry in He. destruct (existsb (prefixb k') base); [by apply elem_of_nil in He|].
      destruct (vars !! k') as [v|]; [|by apply elem_of_nil in He]. apply list_elem_of_singleton in He as ->.
      apply not_true_iff_false. intros ?%names_entry_eq; done.
Qed.

(** ** Words and matches *)

Lemma next_word_app l r : 
  next_word (l ++ space :: r) = ((next_word l).1, (next_word l).2 ++ space :: r).
Proof.
  induction l as [|c l IH]; cbn; [done|]. destruct (bool_decide_reflect (c = space)) as [->|Hc]; cbn.
  - done.
  - rewrite IH. by destruct (next_word l).
Qed.

Lemma match_word_app l r : match_word l = None -> match_word (l ++ space :: r) = None.
Proof.
  unfold match_word. rewrite next_word_app. destruct (next_word l) as [w rest]. cbn. by destruct (libpseudo_word w).
Qed.

Lemma match_after_app l r w :
  match_word l = None -> match_after l = None -> match_word r = Some w -> match_after (l ++ space :: r) = Some (l, w).
Proof.
  intros _. induction l as [|c l IH]; cbn [match_after app]; intros Hl Hr.
  { rewrite bool_decide_eq_true_2 by done. cbn [orb]. by rewrite Hr. }
  destruct (bool_decide (c = space) || bool_decide (c = "="%char)).
  - destruct (match_word l) eqn:Hw; [done|]. rewrite (match_word_app l r Hw).
    destruct (match_after l) as [[]|]; [done|]. by rewrite IH.
  - destruct (match_after l) as [[]|]; [done|]. by rewrite IH.
Qed.

Lemma match_name : match_word libpseudo_name = Some [].
Proof. by vm_compute. Qed.

(** A list without libpseudo, and libpseudo after it. *)
Lemma match_appended l : libpseudo_match l = None -> libpseudo_match (l ++ space :: libpseudo_name) = Some (l, []).
Proof.
  unfold libpseudo_match. destruct (match_word l) eqn:Hw; [done|]. intros Ha.
  by rewrite (match_word_app _ _ Hw), (match_after_app _ _ _ Hw Ha match_name).
Qed.

Lemma with_libpseudo_matches l : is_Some (libpseudo_match (with_libpseudo l)).
Proof.
  unfold with_libpseudo. destruct (libpseudo_match l) as [[a b]|] eqn:Hm; [by rewrite Hm|].
  destruct (bool_decide_reflect (l = [])) as [->|Hl]; [eexists; by vm_compute|].
  cbn [app]. rewrite match_appended by done. by eexists.
Qed.

Lemma with_libpseudo_prefix l : exists r, with_libpseudo l = l ++ r.
Proof. unfold with_libpseudo. destruct (libpseudo_match l); [by exists []; rewrite app_nil_r|by eexists]. Qed.

Lemma names_with k l : names k l = true -> names k (with_libpseudo l) = true.
Proof.
  intros [z ->]%prefixb_spec. destruct (with_libpseudo_prefix ((k ++ [eq_sign]) ++ z)) as [r ->].
  apply prefixb_spec. exists (z ++ r). by rewrite <- !app_assoc.
Qed.

(** Removing what was added. *)
Lemma cut_appended n l : libpseudo_match l = None -> cut_matches (S n) false (l ++ space :: libpseudo_name) = l.
Proof.
  intros Hl. cbn [cut_matches]. rewrite match_appended by done. unfold cut_match. rewrite app_nil_r.
  destruct n; cbn [cut_matches]; by rewrite Hl.
Qed.

(** ** The variables kept *)

(** Every variable the environment has was read. *)
Definition settled (s : env_state) : Prop :=
  util_initted s = true /\ forall k, k ∈ env_keys -> is_Some (environ s !! k) -> is_Some (pseudo_env s !! k).

Lemma is_key_true k : k ∈ env_keys -> is_key k = true.
Proof. apply bool_decide_eq_true_2. Qed.

Lemma get_value_settled k s : settled s -> k ∈ env_keys -> pseudo_get_value k s = (s, pseudo_env s !! k).
Proof.
  intros [Hi Hs] Hk. unfold pseudo_get_value, ensure_init. rewrite Hi, is_key_true by done. cbn [negb].
  destruct (pseudo_env s !! k) eqn:Hv; [done|]. destruct (environ s !! k) eqn:He; [|done].
  destruct (Hs k Hk) as [? ?]; [by rewrite He|]. congruence.
Qed.

Lemma set_value_settled k v s :
  settled s -> k ∈ env_keys ->
  (pseudo_set_value k (Some v) s).1 = store_value k (Some v) s /\ settled (store_value k (Some v) s).
Proof.
  intros [Hi Hs] Hk. unfold pseudo_set_value, ensure_init. rewrite Hi, is_key_true by done. split; [done|].
  split; [done|]. intros k' Hk' He. cbn. destruct (decide (k = k')) as [->|].
  - rewrite lookup_partial_alter_eq. by eexists.
  - rewrite lookup_partial_alter_ne by done. by apply Hs.
Qed.

Lemma load_keys_lookup keys s k :
  NoDup keys ->
  pseudo_env (foldl load_key s keys) !! k =
    (if decide (k ∈ keys) then match environ s !! k with Some v => Some v | None => pseudo_env s !! k end
     else pseudo_env s !! k) /\
  environ (foldl load_key s keys) = environ s.
Proof.
  revert s. induction keys as [|k' keys IH]; intros s Hnd; cbn [foldl].
  { rewrite decide_False by apply not_elem_of_nil. done. }
  apply NoDup_cons in Hnd as [Hnin Hnd]. destruct (IH (load_key s k') Hnd) as [-> ->].
  assert (environ (load_key s k') = environ s) as He by (unfold load_key; by destruct (environ s !! k')).
  split; [|done]. rewrite He. unfold load_key. destruct (decide (k = k')) as [->|Hne].
  - rewrite (decide_False (P := k' ∈ keys)) by done. rewrite decide_True by left.
    destruct (environ s !! k'); [|done]. cbn. by rewrite lookup_partial_alter_eq.
  - assert (pseudo_env match environ s !! k' with Some v => store_value k' (Some v) s | None => s end !! k
      = pseudo_env s !! k) as ->.
    { destruct (environ s !! k'); [|done]. cbn. by rewrite lookup_partial_alter_ne by done. }
    apply decide_ext. rewrite elem_of_cons. naive_solver.
Qed.

Lemma init_lookup s k :
  k ∈ env_keys -> k <> $"PSEUDO_DEBUG" -> k <> $"PSEUDO_EVLOG" ->
  pseudo_env (pseudo_init_util s) !! k =
    match environ s !! k with Some v => Some v | None => pseudo_env s !! k end.
Proof.
  intros Hk Hd He. destruct (load_keys_lookup env_keys s k keys_nodup) as [Hl _]. rewrite decide_True in Hl by done.
  rewrite <- Hl. unfold pseudo_init_util. generalize (foldl load_key s env_keys). intros s1. cbv zeta. cbn [pseudo_env].
  assert (forall s2, pseudo_env match pseudo_env s2 !! $"PSEUDO_EVLOG" with
      | Some v => store_value ($"PSEUDO_EVLOG") (Some (flag_letters (pseudo_debug_flags_in v)))
          (mkEnv (environ s2) (pseudo_env s2) true (debug s2) (pseudo_debug_flags_in v))
      | None => s2 end !! k = pseudo_env s2 !! k) as Hev.
  { intros s2. destruct (pseudo_env s2 !! _); [|done]. cbn. by rewrite lookup_partial_alter_ne by done. }
  rewrite Hev. destruct (pseudo_env s1 !! _); [|done]. cbn. by rewrite lookup_partial_alter_ne by done.
Qed.

Lemma init_environ s : environ (pseudo_init_util s) = environ s.
Proof.
  destruct (load_keys_lookup env_keys s [] keys_nodup) as [_ He]. unfold pseudo_init_util.
  revert He. generalize (foldl load_key s env_keys). intros s1 <-. cbv zeta. cbn [pseudo_env].
  assert (forall s2, environ match pseudo_env s2 !! $"PSEUDO_EVLOG" with
      | Some v => store_value ($"PSEUDO_EVLOG") (Some (flag_letters (pseudo_debug_flags_in v)))
          (mkEnv (environ s2) (pseudo_env s2) true (debug s2) (pseudo_debug_flags_in v))
      | None => s2 end = environ s2) as Hev by (intros s2; by destruct (pseudo_env s2 !! _)).
  rewrite Hev. by destruct (pseudo_env s1 !! _).
Qed.

Lemma get_dir_settled {BC : BuildConfig} key dir s s' v :
  settled s -> key ∈ env_keys -> get_dir key dir s = Some (s', v) ->
  settled s' /\ pseudo_env s' !! key = Some v /\ forall k w, pseudo_env s !! k = Some w -> pseudo_env s' !! k = Some w.
Proof.
  intros Hs Hk. unfold get_dir. rewrite get_value_settled by done. destruct (pseudo_env s !! key) as [w|] eqn:Hv.
  - intros [= <- <-]. done.
  - unfold pseudo_prefix_path. rewrite get_value_settled; [|done|by apply (bool_decide_unpack _); vm_compute].
    destruct (pseudo_env s !! $"PSEUDO_PREFIX") as [pre|]; cbn [fmap option_fmap option_map mbind option_bind]; [|done].
    destruct (set_value_settled key (pseudo_append_path pre (Some dir)) s Hs Hk) as [-> ?].
    intros [= <- <-]. split; [done|]. cbn.
    rewrite lookup_partial_alter_eq. split; [done|]. intros k w Hkw.
    rewrite lookup_partial_alter_ne; [done|]. intros ->. congruence.
Qed.

Lemma get_libdir_settled {BC : BuildConfig} s s' v :
  settled s -> pseudo_get_libdir s = Some (s', v) ->
  settled s' /\ forall k w, k <> $"PSEUDO_LIBDIR" -> pseudo_env s !! k = Some w -> pseudo_env s' !! k = Some w.
Proof.
  intros Hs. unfold pseudo_get_libdir. destruct (get_dir _ _ s) as [[s1 d]|] eqn:Hd; cbn [mbind option_bind]; [|done].
  assert ($"PSEUDO_LIBDIR" ∈ env_keys) as Hk by (apply (bool_decide_unpack _); by vm_compute).
  destruct (get_dir_settled _ _ _ _ _ Hs Hk Hd) as (Hs1 & _ & Hkeep). case_match; [done|]. case_match.
  - destruct (set_value_settled ($"PSEUDO_LIBDIR") (take (length d - 2) d) s1 Hs1 Hk) as [-> ?].
    intros [= <- <-]. split; [done|]. intros k w Hne Hw. cbn. rewrite lookup_partial_alter_ne by done. auto.
  - intros [= <- <-]. auto.
Qed.

Lemma eval_dirs_settled {BC : BuildConfig} s s' :
  settled s -> eval_dirs s = Some s' ->
  settled s' /\ forall k w, k <> $"PSEUDO_LIBDIR" -> pseudo_env s !! k = Some w -> pseudo_env s' !! k = Some w.
Proof.
  intros Hs. unfold eval_dirs. rewrite get_value_settled; [|done|by apply (bool_decide_unpack _); vm_compute].
  cbn [fst]. destruct (pseudo_get_bindir s) as [[s1 d1]|] eqn:H1; cbn [mbind option_bind]; [|done].
  apply get_dir_settled in H1 as (Hs1 & _ & Hk1); [|done|by apply (bool_decide_unpack _); vm_compute].
  destruct (pseudo_get_libdir s1) as [[s2 d2]|] eqn:H2; cbn [mbind option_bind]; [|done].
  apply get_libdir_settled in H2 as (Hs2 & Hk2); [|done].
  destruct (pseudo_get_localstatedir s2) as [[s3 d3]|] eqn:H3; cbn [mbind option_bind]; [|done].
  apply get_dir_settled in H3 as (Hs3 & _ & Hk3); [|done|by apply (bool_decide_unpack _); vm_compute].
  intros [= <-]. split; [done|]. eauto.
Qed.

Lemma libdir_path_settled {BC : BuildConfig} s s' d :
  settled s -> pseudo_libdir_path None s = Some (s', d) ->
  settled s' /\ forall k w, k <> $"PSEUDO_LIBDIR" -> pseudo_env s !! k = Some w -> pseudo_env s' !! k = Some w.
Proof.
  intros Hs. unfold pseudo_libdir_path. destruct (pseudo_get_libdir s) as [[s1 d1]|] eqn:H1; cbn; [|done].
  intros [= <- <-]. by eapply get_libdir_settled.
Qed.

(** ** What a child gets *)

Definition variables_set (s : env_state) : nat := length (filter (fun k => is_Some (pseudo_env s !! k)) env_keys).

Lemma new_entries_length s base keys :
  (length (concat (map (new_entry (pseudo_env s) base) keys)) <=
   length (filter (fun k => is_Some (pseudo_env s !! k)) keys))%nat.
Proof.
  induction keys as [|k keys IH]; [done|]. cbn [map concat]. rewrite length_app, filter_cons. unfold new_entry at 1.
  case_decide as Hk; cbn [length].
  - destruct (existsb _ base); [cbn; lia|]. destruct (pseudo_env s !! k); cbn; lia.
  - destruct (existsb _ base); [cbn; lia|]. destruct (pseudo_env s !! k) eqn:E; [|cbn; lia]. destruct Hk. by rewrite ?E.
Qed.

(** The entries before the variables are added. *)
Definition base_entries (libdir : bytes) (envp : list bytes) : list bytes :=
  (match last_named PRELINK_PATH envp with
   | Some old => library_path (Some old) libdir
   | None => entry_of PRELINK_PATH (library_path None libdir)
   end) ::
  (match last_named PRELINK_LIBRARIES envp with
   | Some old => with_libpseudo old
   | None => entry_of PRELINK_LIBRARIES (with_libpseudo [])
   end) :: filter (fun e => names PRELINK_LIBRARIES e || names PRELINK_PATH e = false) envp.

Lemma setup_entries_split s libdir envp :
  setup_entries s libdir envp =
  base_entries libdir envp ++ concat (map (new_entry (pseudo_env s) (base_entries libdir envp)) env_keys).
Proof. unfold setup_entries. apply setup_entries_new. Qed.

Lemma last_named_names k envp e : last_named k envp = Some e -> names k e = true.
Proof.
  unfold last_named. intros H. assert (e ∈ filter (fun e => names k e = true) envp) as Hin.
  { rewrite last_lookup in H. by eapply list_elem_of_lookup_2. }
  by apply list_elem_of_filter in Hin as [? _].
Qed.

Lemma base_path_names libdir envp :
  names PRELINK_PATH (match last_named PRELINK_PATH envp with
    | Some old => library_path (Some old) libdir | None => entry_of PRELINK_PATH (library_path None libdir) end) = true.
Proof.
  destruct (last_named _ _) as [old|] eqn:H; [|apply names_entry]. apply last_named_names in H. unfold library_path.
  destruct (has_infix libdir old); [done|]. apply prefixb_spec in H as [z ->]. apply prefixb_spec.
  rewrite <- app_assoc. by eexists.
Qed.

Lemma base_preload_names envp :
  names PRELINK_LIBRARIES (match last_named PRELINK_LIBRARIES envp with
    | Some old => with_libpseudo old | None => entry_of PRELINK_LIBRARIES (with_libpseudo []) end) = true.
Proof.
  destruct (last_named _ _) as [old|] eqn:H; [|apply names_entry]. by apply last_named_names, names_with in H.
Qed.

(** An entry has one name. *)
Lemma names_unique k k' e : no_eq k -> no_eq k' -> names k e = true -> names k' e = true -> k = k'.
Proof.
  intros Hk Hk' [v Hv]%names_split [w Hw]%names_split; [|done..]. congruence.
Qed.

Lemma linker_names_no_eq : no_eq PRELINK_PATH /\ no_eq PRELINK_LIBRARIES.
Proof. split; apply (bool_decide_unpack _); by vm_compute. Qed.

Lemma base_path_not_preload libdir envp :
  names PRELINK_LIBRARIES (match last_named PRELINK_PATH envp with
    | Some old => library_path (Some old) libdir | None => entry_of PRELINK_PATH (library_path None libdir) end) = false.
Proof.
  apply not_true_iff_false. intros Hn. destruct linker_names_no_eq as [Hp Hlb].
  by pose proof (names_unique _ _ _ Hp Hlb (base_path_names libdir envp) Hn).
Qed.

(** Filtering out entries of other names. *)
Lemma first_named_filter (P : bytes -> bool) k l :
  (forall e, names k e = true -> P e = false) -> first_named k (filter (fun e => P e = false) l) = first_named k l.
Proof.
  intros HP. unfold first_named. induction l as [|e l IH]; [done|]. rewrite !filter_cons.
  destruct (decide (names k e = true)) as [He|He].
  - rewrite (decide_True (P := P e = false)) by auto. rewrite filter_cons, decide_True by done. done.
  - destruct (decide (P e = false)); [|done]. by rewrite filter_cons, decide_False.
Qed.

Lemma first_named_base libdir envp k :
  no_eq k -> k <> PRELINK_PATH -> k <> PRELINK_LIBRARIES ->
  first_named k (base_entries libdir envp) = first_named k envp.
Proof.
  intros Hk Hp Hl. destruct linker_names_no_eq as [Hpe Hle].
  rewrite <- (first_named_filter (fun e => names PRELINK_LIBRARIES e || names PRELINK_PATH e) k envp).
  2: { intros e He. apply orb_false_iff. split; apply not_true_iff_false; intros He'.
       - by apply Hl, (names_unique k PRELINK_LIBRARIES e).
       - by apply Hp, (names_unique k PRELINK_PATH e). }
  unfold base_entries, first_named. rewrite filter_cons, decide_False.
  2: { intros He. apply Hp, (names_unique _ _ _ Hk Hpe He), base_path_names. }
  rewrite filter_cons, decide_False; [done|].
  intros He. apply Hl, (names_unique _ _ _ Hk Hle He), base_preload_names.
Qed.

(** The name of an entry that starts like a variable of pseudo is not the
    linker's. *)
Lemma key_not_linker k e : k ∈ env_keys -> prefixb k e = true ->
  names PRELINK_PATH e = false /\ names PRELINK_LIBRARIES e = false.
Proof.
  intros Hk Hp. assert (prefixb ($"PSEUDO") e = true) as Hpre.
  { assert (Forall (fun k => prefixb ($"PSEUDO") k = true) env_keys) as Hall by (apply (bool_decide_unpack _); by vm_compute).
    rewrite Forall_forall in Hall. apply prefixb_spec in Hp as [z ->]. specialize (Hall k Hk).
    apply prefixb_spec in Hall as [y ->]. rewrite <- app_assoc. apply prefixb_app. }
  apply prefixb_spec in Hpre as [z ->]. done.
Qed.

Lemma existsb_base libdir envp k :
  k ∈ env_keys -> existsb (prefixb k) (base_entries libdir envp) = existsb (prefixb k) envp.
Proof.
  intros Hk. unfold base_entries. cbn [existsb].
  assert (forall e, names PRELINK_PATH e = true \/ names PRELINK_LIBRARIES e = true -> prefixb k e = false) as Hno.
  { intros e He. apply not_true_iff_false. intros Hp. destruct (key_not_linker k e Hk Hp). destruct He; congruence. }
  rewrite (Hno _ (or_introl (base_path_names libdir envp))), (Hno _ (or_intror (base_preload_names envp))). cbn [orb].
  induction envp as [|e envp IH]; [done|]. rewrite filter_cons. cbn [existsb]. rewrite <- IH.
  destruct (decide (names PRELINK_LIBRARIES e || names PRELINK_PATH e = false)) as [He|He]; [done|].
  rewrite Hno; [done|]. apply not_false_is_true, orb_true_iff in He. tauto.
Qed.

Section Child.
Context {BC : BuildConfig}.

Lemma setupenvp_some envp s s1 s' libdir :
  eval_dirs s = Some s1 -> pseudo_libdir_path None s1 = Some (s', libdir) -> (variables_set s' <= 18)%nat ->
  pseudo_setupenvp envp s = Some (s', setup_entries s' libdir envp).
Proof.
  intros He Hl Hcount. unfold pseudo_setupenvp. rewrite He. cbn [mbind option_bind]. rewrite Hl. cbn [mbind option_bind].
  rewrite (proj2 (Nat.leb_le _ _)); [done|]. rewrite setup_entries_split, length_app.
  pose proof (new_entries_length s' (base_entries libdir envp) env_keys) as Hadded.
  assert (length (base_entries libdir envp) <= length envp + 2)%nat as Hbase.
  { unfold base_entries. cbn [length].
    pose proof (length_filter (fun e => names PRELINK_LIBRARIES e || names PRELINK_PATH e = false) envp). lia. }
  unfold variables_set in Hcount. change (length env_keys) with 20%nat. lia.
Qed.

(** What [getenv] finds in a child, for all names but the linker's. *)
Lemma getenv_child envp s libdir k :
  no_eq k -> k <> PRELINK_PATH -> k <> PRELINK_LIBRARIES ->
  environ (started (setup_entries s libdir envp)) !! k =
  match getenv_in envp k with
  | Some w => Some w
  | None => if decide (k ∈ env_keys) then (if existsb (prefixb k) envp then None else pseudo_env s !! k) else None
  end.
Proof.
  intros Hne Hp Hl. cbn [environ started]. rewrite environ_of_lookup by done. rewrite !getenv_first.
  rewrite setup_entries_split, first_named_app, first_named_base by done.
  destruct (first_named k envp); [done|]. rewrite first_named_new by done.
  destruct (decide (k ∈ env_keys)) as [Hk|]; [|done]. rewrite existsb_base by done.
  destruct (existsb _ envp); [done|]. destruct (pseudo_env s !! k) as [v|]; [|done].
  cbn [fmap option_fmap option_map]. f_equal. unfold entry_of. change (eq_sign :: v) with ([eq_sign] ++ v).
  rewrite app_assoc. replace (length k + 1)%nat with (length (k ++ [eq_sign])) by (rewrite length_app; cbn; lia).
  apply drop_app_length.
Qed.

(** Reading a variable for the first time. *)
Lemma started_value new k :
  k ∈ env_keys -> k <> $"PSEUDO_DEBUG" -> k <> $"PSEUDO_EVLOG" ->
  (pseudo_get_value k (started new)).2 = environ (started new) !! k.
Proof.
  intros Hk Hd He. unfold pseudo_get_value, ensure_init. cbn [util_initted started]. fold (started new).
  rewrite is_key_true by done. cbn [negb].
  pose proof (init_lookup (started new) k Hk Hd He) as Hi. cbn [pseudo_env started] in Hi. rewrite lookup_empty in Hi.
  fold (started new) in Hi. rewrite Hi, init_environ. by destruct (environ (started new) !! k).
Qed.

(** C17: what a program that is started finds in its environment.  Of the
    twenty variables pseudo keeps, PSEUDO_DEBUG and PSEUDO_EVLOG included, each
    has the value the environment it is given has, or else the value kept here,
    unless that environment has an entry whose name starts like the variable's:
    then it is not there at all.  All but those two are also what the
    program's own pseudo reads back when it first asks.  The values kept are,
    but for PSEUDO_LIBDIR, which is evaluated again, those from before the
    call, if every variable of the process's own environment had been read
    (otherwise, asking for one that had not sets all of them back to the
    process's environment: see below).  Every other variable but the linker's
    two is passed on as it was given, and the list of libraries to preload has
    libpseudo.  The array the entries are put in has room for them when at most
    eighteen of the twenty variables have values. *)
Theorem variables_reach_child envp s s1 s' libdir :
  eval_dirs s = Some s1 -> pseudo_libdir_path None s1 = Some (s', libdir) -> (variables_set s' <= 18)%nat ->
  exists new, pseudo_setupenvp envp s = Some (s', new) /\
    (forall k, k ∈ env_keys ->
       environ (started new) !! k =
         match getenv_in envp k with
         | Some w => Some w
         | None => if existsb (prefixb k) envp then None else pseudo_env s' !! k
         end /\
       (k <> $"PSEUDO_DEBUG" -> k <> $"PSEUDO_EVLOG" -> (pseudo_get_value k (started new)).2 = environ (started new) !! k)) /\
    (settled s -> forall k v, k <> $"PSEUDO_LIBDIR" -> pseudo_env s !! k = Some v -> pseudo_env s' !! k = Some v) /\
    (forall k, no_eq k -> k ∉ PRELINK_PATH :: PRELINK_LIBRARIES :: env_keys ->
       environ (started new) !! k = getenv_in envp k) /\
    exists e, first_named PRELINK_LIBRARIES new = Some e /\ is_Some (libpseudo_match e).
Proof.
  intros He Hl Hcount. exists (setup_entries s' libdir envp). split; [by eapply setupenvp_some|].
  assert (forall k, k ∈ env_keys -> no_eq k /\ k <> PRELINK_PATH /\ k <> PRELINK_LIBRARIES) as Hkeys.
  { apply Forall_forall, (bool_decide_unpack _). by vm_compute. }
  split; [|split; [|split]].
  - intros k Hk. destruct (Hkeys k Hk) as (Hne & Hp & Hlb). split; [by rewrite getenv_child, decide_True by done|].
    intros. by apply started_value.
  - intros Hs k v Hk Hv. destruct (eval_dirs_settled _ _ Hs He) as [Hs1 Hk1].
    destruct (libdir_path_settled _ _ _ Hs1 Hl) as [_ Hk2]. by apply Hk2, Hk1.
  - intros k Hne Hk. rewrite !not_elem_of_cons in Hk. destruct Hk as (Hp & Hlb & Hk).
    rewrite getenv_child, decide_False by done. by destruct (getenv_in envp k).
  - eexists. rewrite setup_entries_split. split.
    + unfold base_entries, first_named. cbn [app]. rewrite filter_cons, decide_False by (by rewrite base_path_not_preload).
      rewrite filter_cons, decide_True by apply base_preload_names. done.
    + destruct (last_named PRELINK_LIBRARIES envp); [apply with_libpseudo_matches|eexists; by vm_compute].
Qed.

(** Entries of other names are kept as they are. *)
Lemma drop_entry_other e : names PRELINK_LIBRARIES e = false -> drop_entry e = [e].
Proof. unfold drop_entry. by intros ->. Qed.

Lemma drop_entries_other l : Forall (fun e => names PRELINK_LIBRARIES e = false) l -> pseudo_dropenvp l = l.
Proof.
  unfold pseudo_dropenvp. induction 1 as [|e l He Hl IH]; [done|]. cbn [map concat]. by rewrite IH, drop_entry_other.
Qed.

Lemma drop_added old :
  names PRELINK_LIBRARIES old = true -> libpseudo_match old = None ->
  drop_entry (with_libpseudo old) = if bool_decide (old = entry_of PRELINK_LIBRARIES []) then [] else [old].
Proof.
  intros Hn Hm. unfold drop_entry. rewrite names_with by done. unfold with_libpseudo. rewrite Hm.
  apply prefixb_spec in Hn as Hz. destruct Hz as [z Hz].
  assert (without_libpseudo (old ++ space :: libpseudo_name) = old) as Hw.
  { unfold without_libpseudo. rewrite Hz at 1. cbn [app]. by apply cut_appended. }
  rewrite (bool_decide_eq_false_2 (old = [])) by (intros ->; done). cbn [app]. by rewrite Hw.
Qed.

Lemma drop_alone : drop_entry (entry_of PRELINK_LIBRARIES (with_libpseudo [])) = [[]].
Proof. by vm_compute. Qed.

Lemma rest_not_preload libdir envp vars :
  Forall (fun e => names PRELINK_LIBRARIES e = false)
    (filter (fun e => names PRELINK_LIBRARIES e || names PRELINK_PATH e = false) envp ++
     concat (map (new_entry vars (base_entries libdir envp)) env_keys)).
Proof.
  apply Forall_app. split; apply Forall_forall.
  - intros e [He _]%list_elem_of_filter. by apply orb_false_iff in He as [? _].
  - intros e He. apply list_elem_of_In, in_concat in He as (l & (k & <- & Hk)%in_map_iff & Hl).
    apply list_elem_of_In in Hk, Hl. unfold new_entry in Hl.
    destruct (existsb _ _); [by apply elem_of_nil in Hl|]. destruct (vars !! k) as [v|]; [|by apply elem_of_nil in Hl].
    apply list_elem_of_singleton in Hl as ->. apply (key_not_linker k); [done|]. unfold entry_of. apply prefixb_app.
Qed.

(** Only the entry of the libraries changes. *)
Lemma dropenvp_setup s libdir envp :
  exists path rest, pseudo_dropenvp (setup_entries s libdir envp) =
    path :: drop_entry (match last_named PRELINK_LIBRARIES envp with
      | Some old => with_libpseudo old | None => entry_of PRELINK_LIBRARIES (with_libpseudo []) end) ++ rest /\
    names PRELINK_LIBRARIES path = false /\ Forall (fun e => names PRELINK_LIBRARIES e = false) rest.
Proof.
  eexists _, _. split; [|split; [apply (base_path_not_preload libdir envp)|apply (rest_not_preload libdir envp (pseudo_env s))]].
  rewrite setup_entries_split. unfold base_entries at 1, pseudo_dropenvp. cbn [app map concat].
  rewrite drop_entry_other by apply base_path_not_preload. cbn [app]. f_equal. f_equal.
  apply (drop_entries_other _ (rest_not_preload libdir envp (pseudo_env s))).
Qed.

Lemma not_named_filter l :
  Forall (fun e => names PRELINK_LIBRARIES e = false) l -> filter (fun e => names PRELINK_LIBRARIES e = true) l = [].
Proof. induction 1 as [|e l Hne Hall IH]; [done|]. by rewrite filter_cons, decide_False by (by rewrite Hne). Qed.

(** C18: a program started with PSEUDO_UNLOAD gets its list of libraries to
    preload back as it was before pseudo added itself: if it had one without
    libpseudo, that one, and none if it was empty; and if it had none, it gets
    none, though an empty string is left in its environment. *)
Theorem unload_restores_preload envp s s1 s' libdir :
  settled s -> eval_dirs s = Some s1 -> pseudo_libdir_path None s1 = Some (s', libdir) ->
  (variables_set s' <= 18)%nat -> is_Some (pseudo_env s !! $"PSEUDO_UNLOAD") ->
  exists new, exec_environment envp s = Some (s', new) /\
    match last_named PRELINK_LIBRARIES envp with
    | Some old => libpseudo_match old = None ->
        filter (fun e => names PRELINK_LIBRARIES e = true) new =
        if bool_decide (old = entry_of PRELINK_LIBRARIES []) then [] else [old]
    | None => filter (fun e => names PRELINK_LIBRARIES e = true) new = [] /\ [] ∈ new
    end.
Proof.
  intros Hs He Hl Hcount [u Hu]. destruct (eval_dirs_settled _ _ Hs He) as [Hs1 Hk1].
  destruct (libdir_path_settled _ _ _ Hs1 Hl) as [Hs' Hk2].
  unfold exec_environment. rewrite (setupenvp_some _ _ _ _ _ He Hl Hcount). cbn [mbind option_bind].
  assert (pseudo_has_unload (Some (setup_entries s' libdir envp)) s' = (s', true)) as ->.
  { unfold pseudo_has_unload, ensure_init. rewrite (proj1 Hs'). rewrite bool_decide_eq_true_2.
    - by destruct (environ s' !! _).
    - exists u. apply Hk2; [done|]. by apply Hk1. }
  eexists. split; [done|]. destruct (dropenvp_setup s' libdir envp) as (path & rest & -> & Hpath & Hrest).
  rewrite filter_cons, decide_False by (by rewrite Hpath). rewrite filter_app, (not_named_filter rest), app_nil_r by done.
  destruct (last_named PRELINK_LIBRARIES envp) as [old|] eqn:Hold.
  - intros Hm. apply last_named_names in Hold. rewrite drop_added by done. case_bool_decide; [reflexivity|].
    rewrite filter_cons, decide_True by exact Hold. reflexivity.
  - rewrite drop_alone. split; [reflexivity|]. right. apply elem_of_app. left. left.
Qed.
End Child.

(** ** Witnesses *)

#[local] Instance usual_dirs : BuildConfig := {
  PSEUDO_BINDIR := $"bin"; PSEUDO_LIBDIR := $"lib64"; PSEUDO_LOCALSTATEDIR := $"var/pseudo"
}.

(** A process that keeps a prefix, its user ids, and that it is to unload. *)
Definition sample_vars : gmap bytes bytes :=
  {[ $"PSEUDO_PREFIX" := $"/opt/p/"; $"PSEUDO_UIDS" := $"0,0,0,0"; $"PSEUDO_UNLOAD" := $"YES" ]}.

Definition sample_env : env_state := mkEnv ∅ sample_vars true (mkDebug 0 0) 0.

Lemma sample_settled : settled sample_env.
Proof. split; [done|]. intros k _ [v Hv]. cbn in Hv. by rewrite lookup_empty in Hv. Qed.

Definition sample_envp : list bytes := [$"HOME=/root"; $"LD_PRELOAD=libfoo.so"; $"PSEUDO_TAG=t"].

Definition sample_dirs : option (env_state * env_state * bytes) :=
  s1 ← eval_dirs sample_env; '(s, d) ← pseudo_libdir_path None s1; Some (s1, s, d).

Lemma sample_dirs_some : exists s1 s' d, eval_dirs sample_env = Some s1 /\ pseudo_libdir_path None s1 = Some (s', d) /\
  (variables_set s' <= 18)%nat.
Proof.
  assert (match sample_dirs with Some (_, s', _) => (variables_set s' <=? 18)%nat | None => false end = true) as H
    by by vm_compute.
  unfold sample_dirs in H. destruct (eval_dirs sample_env) as [s1|]; [|done]. cbn [mbind option_bind] in H.
  destruct (pseudo_libdir_path None s1) as [[s' d]|] eqn:E; [|done]. exists s1, s', d. split; [done|]. split; [done|].
  by apply Nat.leb_le.
Qed.

Lemma variables_reach_child_witness :
  exists s' new, pseudo_setupenvp sample_envp sample_env = Some (s', new) /\
    (pseudo_get_value ($"PSEUDO_UIDS") (started new)).2 = Some ($"0,0,0,0").
Proof.
  destruct sample_dirs_some as (s1 & s' & d & H1 & H2 & H3).
  destruct (@variables_reach_child usual_dirs sample_envp sample_env s1 s' d H1 H2 H3)
    as (new & Hnew & Hvars & Hkept & _). exists s', new. split; [exact Hnew|].
  destruct (Hvars ($"PSEUDO_UIDS")) as [Hv Hr]; [apply (bool_decide_unpack _); by vm_compute|].
  rewrite Hr, Hv by (apply (bool_decide_unpack _); by vm_compute).
  rewrite (Hkept sample_settled ($"PSEUDO_UIDS") ($"0,0,0,0")); [by vm_compute| |by vm_compute].
  apply (bool_decide_unpack _); by vm_compute.
Defined.

Lemma unload_restores_preload_witness :
  exists s' new, exec_environment sample_envp sample_env = Some (s', new) /\
    filter (fun e => names PRELINK_LIBRARIES e = true) new = [$"LD_PRELOAD=libfoo.so"].
Proof.
  destruct sample_dirs_some as (s1 & s' & d & H1 & H2 & H3).
  assert (is_Some (pseudo_env sample_env !! $"PSEUDO_UNLOAD")) as Hu by (eexists; by vm_compute).
  destruct (@unload_restores_preload usual_dirs sample_envp sample_env s1 s' d sample_settled H1 H2 H3 Hu)
    as (new & Hnew & Hpre). exists s', new. split; [exact Hnew|]. exact (Hpre eq_refl).
Defined.

(** The names around libpseudo are run together when it is in the middle. *)
Example libraries_joined : without_libpseudo ($"liba.so libpseudo.so libb.so") = $"liba.solibb.so".
Proof. by vm_compute. Qed.

(** When it comes first, the entry loses the name of the variable as well. *)
Example entry_without_name : pseudo_dropenvp [$"LD_PRELOAD=libpseudo.so liba.so"] = [$"liba.so"].
Proof. by vm_compute. Qed.

(** A variable is not passed on when the program's own environment has one
    whose name is longer. *)
Example longer_name_hides :
  getenv_in (setup_entries (mkEnv ∅ {[ $"PSEUDO_DEBUG" := $"x" ]} true (mkDebug 0 0) 0) ($"/l") [$"PSEUDO_DEBUG_FILE=f"])
    ($"PSEUDO_DEBUG") = None.
Proof. by vm_compute. Qed.

(** Reading a variable the environment has got since sets every variable back
    to what the environment says. *)
Example recovery_forgets :
  let e : gmap bytes bytes := {[ $"PSEUDO_UIDS" := $"0,0,0,0"; $"PSEUDO_TAG" := $"t" ]} in
  let s := mkEnv e {[ $"PSEUDO_UIDS" := $"1,1,1,1" ]} true (mkDebug 0 0) 0 in
  pseudo_env (pseudo_get_value ($"PSEUDO_TAG") s).1 !! $"PSEUDO_UIDS" = Some ($"0,0,0,0").
Proof. by vm_compute. Qed.
