(* ===== verification/Lock.v ===== *)
(** What every wrapper does around its own work ([templates/wrapfuncs.c],
    [pseudo_wrappers.c]): signals are blocked, a recursive lock is taken, the
    call is emulated or passed on depending on [antimagic] and on its path, the
    lock is dropped and the signals are as before; and what [openat] does with
    the lock and the signals while it waits for the other end of a pipe
    ([ports/linux/guts/openat.c]).

    Threads are interleaved at each access to what they share.  A call is a
    frame on the stack of its thread; calls made by a callback of the program
    while a wrapper runs, and signal handlers, are further frames on top.
    Programs do not change the signal mask inside a callback and do not leave a
    handler by a jump. *)

From stdpp Require Import base gmap list fin_maps fin_sets option.
From Stdlib Require Import ZArith Lia.
From S2P Require Import Prelude.

Open Scope Z_scope.

(** ** State *)

Abbreviation signals := (gset Z).

Definition SIGHUP : Z := 1.
Definition SIGINT : Z := 2.
Definition SIGUSR1 : Z := 10.
Definition SIGUSR2 : Z := 12.
Definition SIGALRM : Z := 14.
Definition SIGTERM : Z := 15.
Definition SIGCHLD : Z := 17.

(** The set [pseudo_sigblock] adds to the mask. *)
Definition blocked : signals :=
  {[SIGALRM; SIGCHLD; SIGHUP; SIGTERM; SIGUSR1; SIGUSR2]}.

(** What is particular to a call: its path is one of those to be ignored, or
    it is an [openat] of a pipe, for only reading or only writing and without
    O_NONBLOCK, that has not been made yet. *)
Inductive kind := Plain | IgnoredPath | PipeOpen.

(** What becomes of a call: it is emulated, or it is passed to the C library
    because [antimagic] is raised or because its path is ignored. *)
Inductive treatment := Emulate | PassOn | PassIgnored.

(** Where a call is.  [Body how raised]: between [pseudo_getlock] and
    [pseudo_droplock]; [raised] counts its own calls of [pseudo_antimagic] that
    [pseudo_magic] has not yet taken back.  The lock is dropped and taken also
    by [openat] around the opening of a pipe: then [inside] is true. *)
Inductive point :=
  | Enter                          (* before pseudo_disabled is looked at *)
  | TestHolder (inside : bool)     (* pthread_equal(pseudo_mutex_holder, pthread_self()) *)
  | CountUp (inside : bool)        (* ++pseudo_mutex_recursion *)
  | Acquire (inside : bool)        (* pthread_mutex_lock *)
  | SetRecursion (inside : bool)   (* pseudo_mutex_recursion = 1 *)
  | SetHolder (inside : bool)      (* pseudo_mutex_holder = pthread_self() *)
  | Choose                         (* antimagic > 0, the path, pseudo_saved_sigmask = saved *)
  | Body (how : treatment) (raised : nat)
  | CountDown (inside : bool)      (* --pseudo_mutex_recursion == 0 *)
  | ClearHolder (inside : bool)    (* pseudo_mutex_holder = 0 *)
  | Unlock (inside : bool)         (* pthread_mutex_unlock *)
  | Unmask                         (* sigprocmask(SIG_SETMASK, &pseudo_saved_sigmask, &local_saved_sigmask) *)
  | Pipe (local : signals)         (* real_openat of the pipe *)
  | Unblock.                       (* sigprocmask(SIG_SETMASK, &saved) *)

Inductive frame :=
  | FCall (p : point) (k : kind) (saved : signals)
  | FHandler (s : Z) (saved : signals).

Record thread := mkThread { t_mask : signals; t_stack : list frame }.

(** [owner] is the state of [pseudo_mutex]: the thread that locked it. *)
Record process := mkProcess {
  owner : option Z;
  recursion : Z;
  holder : Z;
  antimagic : Z;
  disabled : bool;
  pseudo_saved_sigmask : signals;
  threads : gmap Z thread
}.

Definition with_lock (o : option Z) (r h : Z) (P : process) : process :=
  mkProcess o r h (antimagic P) (disabled P) (pseudo_saved_sigmask P) (threads P).
Definition with_antimagic (a : Z) (P : process) : process :=
  mkProcess (owner P) (recursion P) (holder P) a (disabled P) (pseudo_saved_sigmask P) (threads P).
Definition with_sigmask (m : signals) (P : process) : process :=
  mkProcess (owner P) (recursion P) (holder P) (antimagic P) (disabled P) m (threads P).
Definition with_thread (t : Z) (T : thread) (P : process) : process :=
  mkProcess (owner P) (recursion P) (holder P) (antimagic P) (disabled P) (pseudo_saved_sigmask P) (<[t := T]> (threads P)).

(** ** One call *)

Definition pseudo_antimagic (P : process) : process := with_antimagic (antimagic P + 1) P.

Definition pseudo_magic (P : process) : process :=
  if 0 <? antimagic P then with_antimagic (antimagic P - 1) P else P.

Definition pseudo_sigblock (mask : signals) : signals := mask ∪ blocked.

(** The next action of the call on top of the stack of thread [t], which has
    the mask [m]; [rest] is the stack below.  [None]: it has to wait. *)
Definition call_step (t : Z) (p : point) (k : kind) (saved m : signals) (rest : list frame) (P : process) : option process :=
  let go (q : point) (P' : process) := Some (with_thread t (mkThread m (FCall q k saved :: rest)) P') in
  let locked (i : bool) (P' : process) :=
    if i then Some (with_thread t (mkThread m (FCall (Body Emulate 0) Plain saved :: rest)) P') else go Choose P' in
  match p with
  | Enter =>
      if disabled P then Some (with_thread t (mkThread m rest) P)
      else Some (with_thread t (mkThread (pseudo_sigblock m) (FCall (TestHolder false) k m :: rest)) P)
  | TestHolder i => if holder P =? t then go (CountUp i) P else go (Acquire i) P
  | CountUp i => locked i (with_lock (owner P) (recursion P + 1) (holder P) P)
  | Acquire i =>
      match owner P with
      | None => go (SetRecursion i) (with_lock (Some t) (recursion P) (holder P) P)
      | Some _ => None
      end
  | SetRecursion i => go (SetHolder i) (with_lock (owner P) 1 (holder P) P)
  | SetHolder i => locked i (with_lock (owner P) (recursion P) t P)
  | Choose =>
      if 0 <? antimagic P then go (Body PassOn 0) P
      else match k with
           | IgnoredPath => go (Body PassIgnored 0) P
           | _ => go (Body Emulate 0) (with_sigmask saved P)
           end
  | Body how O =>
      match how, k with
      | Emulate, PipeOpen => go (CountDown true) P
      | _, _ => go (CountDown false) P
      end
  | Body _ (S _) => None
  | CountDown i =>
      let P' := with_lock (owner P) (recursion P - 1) (holder P) P in
      if recursion P' =? 0 then go (ClearHolder i) P' else go (if i then Unmask else Unblock) P'
  | ClearHolder i => go (Unlock i) (with_lock (owner P) (recursion P) 0 P)
  | Unlock i => go (if i then Unmask else Unblock) (with_lock None (recursion P) (holder P) P)
  | Unmask => Some (with_thread t (mkThread (pseudo_saved_sigmask P) (FCall (Pipe m) k saved :: rest)) P)
  | Pipe _ => None
  | Unblock => Some (with_thread t (mkThread saved rest) P)
  end.

(** ** Everything that can happen next *)

Inductive event :=
  | Step (t : Z)              (* the top call goes on *)
  | Opened (t : Z)            (* the opening of a pipe returns *)
  | Refused (t : Z)           (* pthread_mutex_lock fails: EBUSY; inside openat that is the end of the process *)
  | Invoke (t : Z) (k : kind) (* the program, a callback or a handler calls a wrapped function *)
  | Raise (t : Z)             (* pseudo_antimagic inside a body *)
  | Lower (t : Z)             (* pseudo_magic inside a body *)
  | Signal (t s : Z)          (* a signal is delivered *)
  | HandlerReturn (t : Z).

Section Events.
(** The signals whose handlers call wrapped functions. *)
Variable calls : Z -> bool.

Definition may_call (st : list frame) : bool :=
  match st with
  | [] => true
  | FHandler s _ :: _ => calls s
  | FCall (Body _ _) _ _ :: _ => true
  | FCall _ _ _ :: _ => false
  end.

Definition step (e : event) (P : process) : option process :=
  match e with
  | Step t =>
      T ← threads P !! t;
      match t_stack T with
      | FCall p k saved :: rest => call_step t p k saved (t_mask T) rest P
      | _ => None
      end
  | Opened t =>
      T ← threads P !! t;
      match t_stack T with
      | FCall (Pipe local) k saved :: rest => Some (with_thread t (mkThread local (FCall (TestHolder true) k saved :: rest)) P)
      | _ => None
      end
  | Refused t =>
      T ← threads P !! t;
      match t_stack T with
      | FCall (Acquire false) k saved :: rest => Some (with_thread t (mkThread (t_mask T) (FCall Unblock k saved :: rest)) P)
      | _ => None
      end
  | Invoke t k =>
      T ← threads P !! t;
      if may_call (t_stack T) then Some (with_thread t (mkThread (t_mask T) (FCall Enter k ∅ :: t_stack T)) P) else None
  | Raise t =>
      T ← threads P !! t;
      match t_stack T with
      | FCall (Body how n) k saved :: rest =>
          Some (pseudo_antimagic (with_thread t (mkThread (t_mask T) (FCall (Body how (S n)) k saved :: rest)) P))
      | _ => None
      end
  | Lower t =>
      T ← threads P !! t;
      match t_stack T with
      | FCall (Body how (S n)) k saved :: rest =>
          Some (pseudo_magic (with_thread t (mkThread (t_mask T) (FCall (Body how n) k saved :: rest)) P))
      | _ => None
      end
  | Signal t s =>
      T ← threads P !! t;
      if decide (s ∈ t_mask T) then None
      else Some (with_thread t (mkThread (t_mask T ∪ {[s]}) (FHandler s (t_mask T) :: t_stack T)) P)
  | HandlerReturn t =>
      T ← threads P !! t;
      match t_stack T with
      | FHandler _ saved :: rest => Some (with_thread t (mkThread saved rest) P)
      | _ => None
      end
  end.

Fixpoint steps (es : list event) (P : process) : option process :=
  match es with
  | [] => Some P
  | e :: es' => P' ← step e P; steps es' P'
  end.

(** A process in which no wrapper runs.  What the recursion count is then does
    not matter, and a forked child starts with another one. *)
Record idle (P : process) : Prop := {
  idle_owner : owner P = None;
  idle_holder : holder P = 0;
  idle_antimagic : antimagic P = 0;
  idle_threads t T : threads P !! t = Some T -> t <> 0 /\ t_stack T = []
}.

Inductive reachable : process -> Prop :=
  | reach_idle P : idle P -> reachable P
  | reach_step e P P' : reachable P -> step e P = Some P' -> reachable P'.

End Events.

(** ** The lock as its callers see it *)

(** [pseudo_getlock] of thread [t] from start to end; [None]: it waits. *)
Definition pseudo_getlock (t : Z) (P : process) : option process :=
  if holder P =? t then Some (with_lock (owner P) (recursion P + 1) (holder P) P)
  else match owner P with
       | None => Some (with_lock (Some t) 1 t P)
       | Some _ => None
       end.

Definition pseudo_droplock (P : process) : process :=
  let r := recursion P - 1 in
  if r =? 0 then with_lock None r 0 P else with_lock (owner P) r (holder P) P.

(** ** Forks *)

Definition libpseudo_atfork_child (P : process) : process := with_lock None 0 0 P.

(** [_libpseudo_init], for a process that was initialised before; the
    initialisations it calls are the argument. *)
Definition libpseudo_init (init : process -> process) (t : Z) (P : process) : option process :=
  P ← pseudo_getlock t P;
  Some (pseudo_droplock (pseudo_magic (init (pseudo_antimagic P)))).

(** [wrap_fork] in the child of thread [t]: the C library runs the handler
    registered with [pthread_atfork], and only the calling thread is left.
    [unload]: what [pseudo_has_unload] says. *)
Definition fork_child (init : process -> process) (unload : bool) (t : Z) (T : thread) (P : process) : option process :=
  let P' := mkProcess (owner P) (recursion P) (holder P) (antimagic P) (disabled P) (pseudo_saved_sigmask P) {[t := T]} in
  let P' := libpseudo_atfork_child P' in
  if unload then Some P' else libpseudo_init init t P'.
