(* ===== verification/LockSpec.v ===== *)
(** What the lock gives the wrappers: one thread at a time emulates calls, a
    call is passed to the C library only by pseudo itself, every call comes to
    its end whatever the others do, and a forked child starts afresh; and what
    goes wrong when a handler of a signal that is not blocked makes a call. *)

From stdpp Require Import base gmap list fin_maps fin_sets option.
From Stdlib Require Import ZArith Lia.
From S2P Require Import Prelude Lock.

Open Scope Z_scope.

#[local] Arguments Z.add : simpl never.
#[local] Arguments Z.sub : simpl never.
#[local] Arguments Z.of_nat : simpl never.
#[local] Arguments blocked : simpl never.

(** ** The state of the lock, read off a stack *)

(** [In k]: the lock is held, [k] calls deep; the other phases are the steps
    of taking it and of giving it back. *)
Inductive phase := Out | Taking | Taken | In (k : nat) | Leaving | Left.

#[export] Instance phase_eq_dec : EqDecision phase.
Proof. solve_decision. Defined.

Definition level (f : phase) : nat := match f with In k => k | _ => O end.

Fixpoint phase_of (st : list frame) : phase :=
  match st with
  | [] => Out
  | FHandler _ _ :: st' => phase_of st'
  | FCall p _ _ :: st' =>
      match p with
      | Enter | TestHolder _ | CountUp _ | Acquire _ | Unmask | Pipe _ | Unblock => phase_of st'
      | SetRecursion _ => Taking
      | SetHolder _ => Taken
      | Choose | Body _ _ | CountDown _ => In (S (level (phase_of st')))
      | ClearHolder _ => Leaving
      | Unlock _ => Left
      end
  end.

Fixpoint raised (st : list frame) : Z :=
  match st with
  | [] => 0
  | FCall (Body _ n) _ _ :: st' => Z.of_nat n + raised st'
  | _ :: st' => raised st'
  end.

Definition settled (f : phase) : Prop := f = Out \/ exists k, f = In (S k).

Definition point_ok (p : point) (k : kind) (st : list frame) : Prop :=
  match p with
  | Acquire _ | SetRecursion _ | SetHolder _ | ClearHolder _ | Unlock _ => phase_of st = Out
  | CountUp _ => exists l, phase_of st = In (S l)
  | Body PassOn _ => settled (phase_of st) /\ 0 < raised st
  | Body PassIgnored _ => settled (phase_of st) /\ k = IgnoredPath
  | _ => settled (phase_of st)
  end.

(** While a pipe is opened the signals are as the program has them, unless
    the lock is still held. *)
Fixpoint mask_ok (m : signals) (st : list frame) : Prop :=
  match st with
  | [] => True
  | FCall Enter _ _ :: st' => mask_ok m st'
  | FCall (Pipe local) _ saved :: st' => (phase_of st' <> Out -> blocked ⊆ m) /\ blocked ⊆ local /\ mask_ok saved st'
  | FCall _ _ saved :: st' => blocked ⊆ m /\ mask_ok saved st'
  | FHandler s saved :: st' => saved ⊆ m /\ s ∉ saved /\ mask_ok saved st'
  end.

(** An emulated call made while another one of its thread runs: from its body
    on, the mask [openat] may go back to is one with the signals blocked. *)
Definition emulated (p : point) : bool :=
  match p with
  | Body Emulate _ | CountDown true | Unmask | Pipe _ | TestHolder true | CountUp true => true
  | _ => false
  end.

Fixpoint deep (st : list frame) : Prop :=
  match st with
  | [] => False
  | FCall p _ _ :: st' => emulated p = true /\ phase_of st' <> Out \/ deep st'
  | FHandler _ _ :: st' => deep st'
  end.

(** What the lock looks like to thread [t] in each phase. *)
Definition lock_view (f : phase) (o : option Z) (r h a t up : Z) : Prop :=
  match f with
  | Out => o <> Some t /\ h <> t
  | Taking => o = Some t /\ h <> t /\ a = up
  | Taken => o = Some t /\ h <> t /\ r = 1 /\ a = up
  | In k => o = Some t /\ h = t /\ r = Z.of_nat k /\ a = up
  | Leaving => o = Some t /\ h = t /\ r = 0 /\ a = up
  | Left => o = Some t /\ h <> t /\ a = up
  end.

Lemma raised_nonneg (st : list frame) : 0 <= raised st.
Proof. induction st as [|[p k sv|s sv] st IH]; simpl; [lia| |done]. destruct p; lia. Qed.

Lemma inside_blocked (m : signals) (st : list frame) :
  mask_ok m st -> phase_of st <> Out -> blocked ⊆ m.
Proof.
  revert m. induction st as [|[p k sv|s sv] st IH]; intros m H Hp; [done| |].
  - destruct p; simpl in *; try (by apply IH); try (by destruct H). destruct H as (H & _). by apply H.
  - destruct H as (Hs & _ & H). etrans; [|exact Hs]. by apply IH.
Qed.

Lemma deep_inside (st : list frame) : deep st -> phase_of st <> Out.
Proof.
  induction st as [|[p k sv|s sv] st IH]; simpl; [done| |done].
  intros [[_ H]|H]; [|apply IH in H]; by destruct p.
Qed.

(** ** The invariant *)

Section Invariant.
Context (calls : Z -> bool).
Hypothesis calls_blocked : forall s, calls s = true -> s ∈ blocked.

Fixpoint stack_ok (st : list frame) : Prop :=
  match st with
  | [] => True
  | FHandler _ _ :: st' => stack_ok st'
  | FCall p k _ :: st' => stack_ok st' /\ may_call calls st' = true /\ point_ok p k st'
  end.

Lemma caller_settled (m : signals) (st : list frame) :
  stack_ok st -> mask_ok m st -> may_call calls st = true -> settled (phase_of st).
Proof.
  destruct st as [|[p k sv|s sv] st]; simpl; intros Hs Hm Hc.
  - by left.
  - destruct p; try done. right. eauto.
  - destruct Hm as (_ & Hns & Hm). destruct (decide (phase_of st = Out)) as [H|H]; [by left|].
    exfalso. apply Hns. eapply inside_blocked; eauto.
Qed.

Lemma raised_out (st : list frame) :
  stack_ok st -> (forall k, phase_of st <> In (S k)) -> raised st = 0.
Proof.
  induction st as [|[p k sv|s sv] st IH]; simpl; intros Hs Hp; [done| |by apply IH].
  destruct Hs as (Hs & _ & Ho).
  destruct p; simpl in *; try (by apply IH; [|intros l E; rewrite E in Ho]);
    try (by apply IH); try (exfalso; by eapply Hp).
Qed.

Definition thread_ok (o : option Z) (r h a : Z) (g : signals) (t : Z) (T : thread) : Prop :=
  t <> 0 /\ stack_ok (t_stack T) /\ mask_ok (t_mask T) (t_stack T) /\
  lock_view (phase_of (t_stack T)) o r h a t (raised (t_stack T)) /\ (deep (t_stack T) -> blocked ⊆ g).

Record inv (P : process) : Prop := {
  inv_holder : holder P = 0 \/ is_Some (threads P !! holder P);
  inv_thread t T : threads P !! t = Some T -> thread_ok (owner P) (recursion P) (holder P) (antimagic P) (pseudo_saved_sigmask P) t T;
  inv_owner t : owner P = Some t -> is_Some (threads P !! t);
  inv_antimagic : owner P = None -> antimagic P = 0
}.

Lemma idle_inv (P : process) : idle P -> inv P.
Proof.
  intros [Ho Hh Ha Ht]. split.
  - by left.
  - intros t T HT. destruct (Ht t T HT) as [Hn Hs]. unfold thread_ok. rewrite Hs, Ho, Hh. simpl.
    split_and!; auto; done.
  - by rewrite Ho.
  - done.
Qed.

Lemma view_owner (f : phase) o r h a t up : f <> Out -> lock_view f o r h a t up -> o = Some t.
Proof. destruct f; simpl; naive_solver. Qed.

(** Only the stack of [t] changes. *)
Lemma inv_stack (P : process) (t : Z) (T' : thread) :
  inv P -> thread_ok (owner P) (recursion P) (holder P) (antimagic P) (pseudo_saved_sigmask P) t T' -> inv (with_thread t T' P).
Proof.
  intros [Hd HT Ho Ha] H. split; simpl; [| |intros u Hu|done].
  - destruct Hd as [|Hd]; [by left|right]. rewrite lookup_insert. case_decide; eauto.
  - intros u U. rewrite lookup_insert. case_decide; naive_solver.
  - rewrite lookup_insert. case_decide; eauto.
Qed.

(** The lock and what it protects change too, which only its owner does, or
    anyone when it is free. *)
Lemma inv_lock (P : process) (t : Z) (T' : thread) (o' : option Z) (r' h' a' : Z) (g' : signals) :
  inv P -> owner P = Some t \/ owner P = None ->
  o' = Some t \/ o' = None /\ a' = 0 -> h' = holder P \/ h' = t \/ h' = 0 ->
  thread_ok o' r' h' a' g' t T' ->
  inv (with_sigmask g' (with_antimagic a' (with_thread t T' (with_lock o' r' h' P)))).
Proof.
  intros [Hd HT Ho Ha] Hown Ho' Hh' H. split; simpl; [| |intros u Hu|].
  - destruct Hh' as [->|[->| ->]]; [|right|by left].
    + destruct Hd as [|Hd]; [by left|right]. rewrite lookup_insert. case_decide; eauto.
    + rewrite lookup_insert_eq. eauto.
  - intros u U. rewrite lookup_insert. case_decide as E; [naive_solver|]. intros HU.
    destruct (HT u U HU) as (Hn & Hs & Hm & Hv & Hdeep). unfold thread_ok.
    destruct (decide (phase_of (t_stack U) = Out)) as [Hout|N].
    + rewrite Hout in *. simpl in *. destruct Hv as [Hv1 Hv2]. split_and!; try done.
      * intros ->. destruct Ho' as [X|[X _]]; congruence.
      * intros ->. destruct Hh' as [X|[X|X]]; congruence.
      * intros X%deep_inside. done.
    + pose proof (view_owner _ _ _ _ _ _ _ N Hv) as X. destruct Hown; congruence.
  - rewrite lookup_insert. case_decide; [eauto|]. destruct Ho' as [X|[X _]]; congruence.
  - intros X. destruct Ho' as [Y|[_ Y]]; congruence.
Qed.

(** ** Every action keeps it *)

Lemma settled_cases (st : list frame) : settled (phase_of st) ->
  phase_of st = Out /\ level (phase_of st) = O \/ exists k, phase_of st = In (S k) /\ level (phase_of st) = S k.
Proof. intros [E|[k E]]; rewrite E; simpl; eauto. Qed.

Lemma point_settled (p : point) (k : kind) (st : list frame) : point_ok p k st -> settled (phase_of st).
Proof. destruct p as [| | | | | | |[] n| | | | | |]; simpl; try done; try (by left); try (by intros [? _]). by intros [l ->]; right; eauto. Qed.

(** The part of [thread_ok] that is about the calling thread itself. *)
Ltac own_part :=
  unfold thread_ok; simpl; split_and!; try done; try tauto; try lia; try congruence; try (intros [[? ?]|?]; try done; tauto).

Ltac change_lock P t o r h a :=
  apply (inv_lock P t _ o r h a (pseudo_saved_sigmask P)); [done|tauto|tauto|tauto|].

Lemma call_step_inv (P P' : process) (t : Z) (p : point) (k : kind) (saved m : signals) (rest : list frame) :
  inv P -> threads P !! t = Some (mkThread m (FCall p k saved :: rest)) ->
  call_step t p k saved m rest P = Some P' -> inv P'.
Proof.
  intros HP HT Hstep. destruct (inv_thread P HP _ _ HT) as (Hn & (Hs & Hc & Hp) & Hm & Hv & Hd).
  simpl in Hm, Hv, Hd.
  pose proof (raised_out rest Hs) as Hout. pose proof (raised_nonneg rest) as Hpos. pose proof (deep_inside rest) as Hdi.
  pose proof (settled_cases rest (point_settled p k rest Hp)) as Hset.
  destruct p as [|i|i|i|i|i| |how n|i|i|i| |local|]; simpl in Hstep, Hp, Hm, Hv, Hd.
  - (* Enter *)
    destruct (disabled P); injection Hstep as <-; (apply inv_stack; [done|]); own_part.
    unfold pseudo_sigblock. set_solver.
  - (* TestHolder *)
    destruct (Z.eqb_spec (holder P) t) as [E|E]; injection Hstep as <-; (apply inv_stack; [done|]); own_part.
    + destruct Hset as [[X _]|[l [X _]]]; rewrite X in *; simpl in *; [tauto|eauto].
    + destruct Hset as [[X _]|[l [X _]]]; rewrite X in *; simpl in *; tauto.
  - (* CountUp *)
    destruct Hp as [l Hp]. rewrite Hp in *. simpl in Hv. destruct Hv as (Ho & Hh & Hr & Ha).
    destruct i; injection Hstep as <-; change_lock P t (owner P) (recursion P + 1) (holder P) (antimagic P);
      own_part; rewrite ?Hp; simpl; try lia; try (right; eauto); try tauto.
  - (* Acquire *)
    destruct (owner P) eqn:Eo; [done|]. injection Hstep as <-. rewrite Hp in *. simpl in Hv.
    change_lock P t (Some t) (recursion P) (holder P) (antimagic P). own_part.
    rewrite (inv_antimagic P HP Eo). symmetry. by apply Hout.
  - (* SetRecursion *)
    destruct Hv as (Ho & Hh & Ha). injection Hstep as <-. change_lock P t (owner P) (1) (holder P) (antimagic P). own_part.
  - (* SetHolder *)
    destruct Hv as (Ho & Hh & Hr & Ha).
    destruct i; injection Hstep as <-; change_lock P t (owner P) (recursion P) t (antimagic P);
      own_part; rewrite ?Hp; try (by left); done.
  - (* Choose *)
    destruct Hv as (Ho & Hh & Hr & Ha). destruct Hm as [Hb Hm].
    assert (phase_of rest <> Out -> blocked ⊆ saved) as Hsv by by apply inside_blocked.
    destruct (0 <? antimagic P) eqn:Ea; [injection Hstep as <-; (apply inv_stack; [done|]); own_part|].
    destruct k; injection Hstep as <-; try ((apply inv_stack; [done|]); own_part).
    + apply (inv_lock P t _ (owner P) (recursion P) (holder P) (antimagic P) saved); [done|tauto|tauto|tauto|]. own_part.
    + apply (inv_lock P t _ (owner P) (recursion P) (holder P) (antimagic P) saved); [done|tauto|tauto|tauto|]. own_part.
  - (* Body *)
    assert (settled (phase_of rest)) as Hps by (destruct how; tauto).
    destruct n; [|done]. destruct how, k; injection Hstep as <-; (apply inv_stack; [done|]); own_part.
  - (* CountDown *)
    destruct Hv as (Ho & Hh & Hr & Ha).
    destruct (Z.eqb_spec (recursion P - 1) 0) as [E|E]; injection Hstep as <-;
      change_lock P t (owner P) (recursion P - 1) (holder P) (antimagic P);
      destruct Hset as [[X Y]|[l [X Y]]]; rewrite Y in Hr; try lia; destruct i; own_part; rewrite X; simpl; try lia; try tauto;
      try (split_and!; tauto || lia); unfold settled; rewrite X; naive_solver.
  - (* ClearHolder *)
    destruct Hv as (Ho & Hh & Hr & Ha). injection Hstep as <-. change_lock P t (owner P) (recursion P) 0 (antimagic P). own_part.
  - (* Unlock *)
    destruct Hv as (Ho & Hh & Ha). injection Hstep as <-. rewrite Hp in *.
    assert (raised rest = 0) by by apply Hout.
    apply (inv_lock P t _ None (recursion P) (holder P) (antimagic P) (pseudo_saved_sigmask P));
      [done|tauto|right; split; [done|lia]|tauto|].
    destruct i; own_part; rewrite ?Hp; simpl; try tauto; try done; by left.
  - (* Unmask *)
    injection Hstep as <-. (apply inv_stack; [done|]). own_part.
  - done.
  - (* Unblock *)
    injection Hstep as <-. (apply inv_stack; [done|]). own_part.
Qed.

Lemma step_inv (e : event) (P P' : process) : inv P -> step calls e P = Some P' -> inv P'.
Proof.
  intros HP H. destruct e as [t|t|t|t k|t|t|t s|t]; cbn [step mbind option_bind] in H;
    destruct (threads P !! t) as [[m st]|] eqn:HT; cbn [mbind option_bind t_stack t_mask] in H; try done;
    pose proof (inv_thread P HP _ _ HT) as (Hn & Hs & Hm & Hv & Hd); cbn [t_stack t_mask] in *.
  - destruct st as [|[p k saved|] rest]; try done. by eapply call_step_inv.
  - destruct st as [|[[] k saved|] rest]; try done. injection H as <-. (apply inv_stack; [done|]).
    simpl in Hs, Hm, Hv, Hd. own_part.
  - destruct st as [|[[|[]|[]|[]|[]|[]| | |[]|[]|[]| | |] k saved|] rest]; try done. injection H as <-. (apply inv_stack; [done|]).
    simpl in Hs, Hm, Hv, Hd. destruct Hs as (Hs & Hc & Hp). own_part. by left.
  - destruct (may_call calls st) eqn:Hc; [|done]. injection H as <-. (apply inv_stack; [done|]).
    own_part. by eapply caller_settled.
  - destruct st as [|[[| | | | | | |how n| | | | | |] k saved|] rest]; try done. injection H as <-.
    simpl in Hs, Hm, Hv, Hd. destruct Hv as (Ho & Hh & Hr & Ha).
    change (inv (with_sigmask (pseudo_saved_sigmask P) (with_antimagic (antimagic P + 1)
      (with_thread t (mkThread m (FCall (Body how (S n)) k saved :: rest)) (with_lock (owner P) (recursion P) (holder P) P))))).
    change_lock P t (owner P) (recursion P) (holder P) (antimagic P + 1). destruct how; own_part.
  - destruct st as [|[[| | | | | | |how n| | | | | |] k saved|] rest]; try done. destruct n as [|n]; [done|].
    simpl in Hs, Hm, Hv, Hd. destruct Hv as (Ho & Hh & Hr & Ha).
    pose proof (raised_nonneg rest). injection H as <-. unfold pseudo_magic. cbn [antimagic with_thread].
    rewrite (proj2 (Z.ltb_lt _ _)) by lia.
    change (inv (with_sigmask (pseudo_saved_sigmask P) (with_antimagic (antimagic P - 1)
      (with_thread t (mkThread m (FCall (Body how n) k saved :: rest)) (with_lock (owner P) (recursion P) (holder P) P))))).
    change_lock P t (owner P) (recursion P) (holder P) (antimagic P - 1). destruct how; own_part.
  - destruct (decide (s ∈ m)) as [|Hin]; [done|]. injection H as <-. (apply inv_stack; [done|]). own_part. set_solver.
  - destruct st as [|[|s saved] rest]; try done. injection H as <-. (apply inv_stack; [done|]). own_part. simpl in Hm. tauto.
Qed.

Lemma reachable_inv (P : process) : reachable calls P -> inv P.
Proof. induction 1; [by apply idle_inv|by eapply step_inv]. Qed.

(** ** Exclusion *)

Lemma stack_ok_app (up st : list frame) : stack_ok (up ++ st) -> stack_ok st.
Proof. induction up as [|[p sv|s sv] up IH]; simpl; tauto. Qed.

(** A call that may be under other frames is in its body. *)
Lemma body_inside (up rest : list frame) (how : treatment) (n : nat) (k : kind) (sv : signals) :
  stack_ok (up ++ FCall (Body how n) k sv :: rest) -> phase_of (up ++ FCall (Body how n) k sv :: rest) <> Out.
Proof.
  induction up as [|[p k' sv'|s sv'] up IH]; simpl; [done| |done].
  intros (Hs & _ & Hp). specialize (IH Hs). by destruct p.
Qed.

Lemma phase_owner (P : process) (t : Z) (T : thread) :
  inv P -> threads P !! t = Some T -> phase_of (t_stack T) <> Out -> owner P = Some t.
Proof.
  intros HP HT H. destruct (inv_thread P HP _ _ HT) as (_ & _ & _ & Hv & _). by eapply view_owner.
Qed.

(** ** Completion *)

(** The longest way a call can still have to go; opening a pipe takes the
    lock a second time. *)
Definition point_weight (p : point) (k : kind) : nat :=
  let pipe := match k with PipeOpen => 11 | _ => 0 end%nat in
  match p with
  | Enter => 12 + pipe | TestHolder i => if i then 11 else 11 + pipe
  | CountUp i | Acquire i => if i then 10 else 10 + pipe
  | SetRecursion i => if i then 9 else 9 + pipe | SetHolder i => if i then 8 else 8 + pipe
  | Choose => 7 + pipe | Body _ n => 6 + n + pipe
  | CountDown i => if i then 16 else 5 | ClearHolder i => if i then 15 else 4 | Unlock i => if i then 14 else 3
  | Unmask => 13 | Pipe _ => 12 | Unblock => 2
  end.

Definition frame_weight (f : frame) : nat :=
  match f with FHandler _ _ => 1 | FCall p k _ => point_weight p k end.

Definition thread_weight (T : thread) : nat := sum_list (frame_weight <$> t_stack T).

Definition weight (m : gmap Z thread) : nat := map_fold (fun _ T n => thread_weight T + n)%nat 0%nat m.

Lemma weight_lookup (m : gmap Z thread) (t : Z) (T : thread) :
  m !! t = Some T -> weight m = (thread_weight T + weight (delete t m))%nat.
Proof. intros H. unfold weight. rewrite (map_fold_delete_L _ _ t T m); [done|lia|done]. Qed.

Lemma weight_insert (m : gmap Z thread) (t : Z) (T : thread) :
  weight (<[t := T]> m) = (thread_weight T + weight (delete t m))%nat.
Proof. rewrite (weight_lookup _ t T) by apply lookup_insert_eq. by rewrite delete_insert_eq. Qed.

(** What brings a call or a handler nearer to its end; a pipe is opened when
    somebody opens its other end. *)
Definition finishing (e : event) : Prop :=
  match e with Step _ | Lower _ | HandlerReturn _ => True | _ => False end.
Definition ending (e : event) : Prop := finishing e \/ exists t, e = Opened t.

Definition waits_for_pipe (T : thread) : Prop :=
  exists local k saved rest, t_stack T = FCall (Pipe local) k saved :: rest.

Lemma with_thread_lighter (P : process) (t : Z) (T T' : thread) :
  threads P !! t = Some T -> (thread_weight T' < thread_weight T)%nat ->
  (weight (threads (with_thread t T' P)) < weight (threads P))%nat.
Proof. intros HT H. simpl. rewrite weight_insert, (weight_lookup _ t T HT). lia. Qed.

Lemma call_step_lighter (t : Z) (p : point) (k : kind) (saved m : signals) (rest : list frame) (P P' : process) :
  threads P !! t = Some (mkThread m (FCall p k saved :: rest)) -> call_step t p k saved m rest P = Some P' ->
  (weight (threads P') < weight (threads P))%nat.
Proof.
  intros HT H.
  assert (exists T', threads P' = <[t := T']> (threads P) /\
    (thread_weight T' < thread_weight (mkThread m (FCall p k saved :: rest)))%nat) as (T' & E & Hw).
  { unfold call_step in H. destruct p as [|[]|[]|[]|[]|[]| |[] [|n]|[]|[]|[]| | |]; repeat case_match; try done;
      injection H as <-; eexists; (split; [reflexivity|]); unfold thread_weight; csimpl; try destruct k; csimpl; lia. }
  rewrite E, weight_insert, (weight_lookup _ t _ HT). lia.
Qed.

Lemma ending_lighter (e : event) (P P' : process) :
  ending e -> step calls e P = Some P' -> (weight (threads P') < weight (threads P))%nat.
Proof.
  intros Hf H. destruct e as [t|t|t|t k|t|t|t s|t]; try (by destruct Hf as [|[? ?]]); cbn [step mbind option_bind] in H;
    destruct (threads P !! t) as [[m st]|] eqn:HT; cbn [mbind option_bind t_stack t_mask] in H; try done.
  - destruct st as [|[p k saved|] rest]; try done. by eapply call_step_lighter.
  - destruct st as [|[[] k saved|] rest]; try done. injection H as <-.
    eapply with_thread_lighter; [done|]. unfold thread_weight. csimpl. lia.
  - destruct st as [|[[| | | | | | |how [|n]| | | | | |] k saved|] rest]; try done. injection H as <-.
    assert (threads (pseudo_magic (with_thread t (mkThread m (FCall (Body how n) k saved :: rest)) P)) =
      threads (with_thread t (mkThread m (FCall (Body how n) k saved :: rest)) P)) as -> by (unfold pseudo_magic; by case_match).
    eapply with_thread_lighter; [done|]. unfold thread_weight. csimpl. lia.
  - destruct st as [|[|s saved] rest]; try done. injection H as <-.
    eapply with_thread_lighter; [done|]. unfold thread_weight. csimpl. lia.
Qed.

(** The top frame of a thread that need not wait for the lock can go on,
    unless it waits for a pipe. *)
Lemma thread_goes_on (P : process) (t : Z) (T : thread) :
  threads P !! t = Some T -> t_stack T <> [] ->
  (owner P = None \/ phase_of (t_stack T) <> Out /\ stack_ok (t_stack T)) ->
  waits_for_pipe T \/ exists e P', finishing e /\ step calls e P = Some P'.
Proof.
  destruct T as [m st]. intros HT Hst Hfree. cbn [t_stack] in *.
  destruct st as [|[p k saved|s saved] rest]; [done| |].
  - assert ((exists local, p = Pipe local) \/ forall local, p <> Pipe local) as [[local ->]|Hpipe] by (destruct p; naive_solver).
    { left. by exists local, k, saved, rest. }
    right. assert ((exists how n, p = Body how (S n)) \/ forall how n, p <> Body how (S n)) as [(how & n & ->)|Hb].
    { destruct p as [| | | | | | |how [|n]| | | | | |]; naive_solver. }
    + exists (Lower t). eexists. split; [done|]. cbn [step]. rewrite HT. reflexivity.
    + exists (Step t). cbn [step]. rewrite HT. cbn [mbind option_bind t_stack t_mask].
      destruct p as [| | | | | | |how [|n]| | | | | |]; simpl; repeat case_match; eauto; try (exfalso; naive_solver).
  - right. exists (HandlerReturn t). eexists. split; [done|]. cbn [step]. rewrite HT. reflexivity.
Qed.

(** A thread that cannot go on waits for a pipe, or for the lock of one that
    does. *)
Lemma progress (P : process) (t : Z) (T : thread) :
  inv P -> threads P !! t = Some T -> t_stack T <> [] ->
  (exists e P', finishing e /\ step calls e P = Some P') \/ waits_for_pipe T \/
  exists u U, threads P !! u = Some U /\ owner P = Some u /\ waits_for_pipe U.
Proof.
  intros HP HT Hst. destruct (owner P) as [u|] eqn:Ho.
  - destruct (inv_owner P HP u Ho) as [U HU]. destruct (inv_thread P HP _ _ HU) as (Hn & Hs & _ & Hv & _).
    assert (phase_of (t_stack U) <> Out) as Hp by (intros E; rewrite E in Hv; by destruct Hv).
    destruct (thread_goes_on P u U) as [|]; eauto 10. intros E. by rewrite E in Hp.
  - destruct (thread_goes_on P t T) as [|]; eauto.
Qed.

Lemma pipe_opens (P : process) (t : Z) (T : thread) :
  threads P !! t = Some T -> waits_for_pipe T -> exists P', step calls (Opened t) P = Some P'.
Proof.
  intros HT (local & k & saved & rest & E). cbn [step]. rewrite HT. cbn [mbind option_bind]. rewrite E. eauto.
Qed.
End Invariant.

(** ** Masks *)

(** The mask a thread has once the calls and handlers on its stack are over. *)
Fixpoint base_mask (m : signals) (st : list frame) : signals :=
  match st with
  | [] => m
  | FCall Enter _ _ :: st' => base_mask m st'
  | FCall _ _ saved :: st' => base_mask saved st'
  | FHandler _ saved :: st' => base_mask saved st'
  end.

Definition thread_mask (T : thread) : signals := base_mask (t_mask T) (t_stack T).

Definition same_masks (P P' : process) : Prop :=
  forall t, thread_mask <$> threads P !! t = thread_mask <$> threads P' !! t.

Lemma same_masks_thread (P Q : process) (t : Z) (T T' : thread) :
  threads Q = threads P -> threads P !! t = Some T -> thread_mask T' = thread_mask T ->
  same_masks P (with_thread t T' Q).
Proof.
  intros HQ HT E u. simpl. rewrite HQ, lookup_insert. case_decide as D; [|done]. subst. rewrite HT. by apply (f_equal Some).
Qed.

Lemma step_masks (calls : Z -> bool) (e : event) (P P' : process) :
  step calls e P = Some P' -> same_masks P P'.
Proof.
  intros H. destruct e as [t|t|t|t k|t|t|t s|t]; cbn [step mbind option_bind] in H;
    destruct (threads P !! t) as [[m st]|] eqn:HT; cbn [mbind option_bind t_stack t_mask] in H; try done.
  - destruct st as [|[p k saved|] rest]; try done. unfold call_step in H.
    destruct p as [|[]|[]|[]|[]|[]| |[] [|n]|[]|[]|[]| | |]; repeat case_match; try done; injection H as <-;
      by eapply same_masks_thread.
  - destruct st as [|[[] k saved|] rest]; try done. injection H as <-. by eapply same_masks_thread.
  - destruct st as [|[[|[]|[]|[]|[]|[]| | |[]|[]|[]| | |] k saved|] rest]; try done. injection H as <-. by eapply same_masks_thread.
  - case_match; [|done]. injection H as <-. by eapply same_masks_thread.
  - destruct st as [|[[] k saved|] rest]; try done. injection H as <-. by eapply same_masks_thread.
  - destruct st as [|[[| | | | | | |how [|n]| | | | | |] k saved|] rest]; try done. injection H as <-.
    unfold pseudo_magic. case_match; by eapply (same_masks_thread P P).
  - case_decide; [done|]. injection H as <-. by eapply same_masks_thread.
  - destruct st as [|[|s saved] rest]; try done. injection H as <-. by eapply same_masks_thread.
Qed.

(** ** The properties *)

(** [T] is in the body of a call of kind [k], treated as [how] says, above the
    frames [below]. *)
Definition in_body (T : thread) (how : treatment) (k : kind) (below : list frame) : Prop :=
  exists up n saved, t_stack T = up ++ FCall (Body how n) k saved :: below.


Lemma inv_idle (calls : Z -> bool) (P : process) :
  inv calls P -> (forall t T, threads P !! t = Some T -> t_stack T = []) -> idle P.
Proof.
  intros [Hd HT Ho Ha] Hst.
  assert (owner P = None) as E.
  { destruct (owner P) as [t|] eqn:E; [|done]. destruct (Ho t eq_refl) as [T HTt].
    destruct (HT t T HTt) as (_ & _ & _ & Hv). rewrite (Hst t T HTt) in Hv. by destruct Hv as [[? _] _]. }
  split; [done| |auto|].
  - destruct Hd as [|[T HTt]]; [done|]. destruct (HT _ T HTt) as (_ & _ & _ & Hv).
    rewrite (Hst _ T HTt) in Hv. by destruct Hv as [[_ ?] _].
  - intros t T HTt. split; [by destruct (HT t T HTt)|eauto].
Qed.

Lemma busy_thread (m : gmap Z thread) :
  (forall t T, m !! t = Some T -> t_stack T = []) \/ exists t T, m !! t = Some T /\ t_stack T <> [].
Proof.
  induction m as [|t T m Hm IH] using map_ind; [left; by intros t T H|].
  destruct (t_stack T) as [|f st] eqn:E.
  - destruct IH as [IH|(u & U & HU & HS)].
    + left. intros u U. rewrite lookup_insert. case_decide; naive_solver.
    + right. exists u, U. rewrite lookup_insert_ne; [done|]. congruence.
  - right. exists t, T. rewrite lookup_insert_eq. by rewrite E.
Qed.

Lemma finish_all (calls : Z -> bool) (n : nat) (P : process) :
  (forall s, calls s = true -> s ∈ blocked) -> inv calls P -> (weight (threads P) <= n)%nat ->
  exists es P', Forall ending es /\ steps calls es P = Some P' /\ idle P' /\ same_masks P P'.
Proof.
  intros Hc. revert P. induction n as [n IH] using lt_wf_ind. intros P HP Hw.
  destruct (busy_thread (threads P)) as [Hid|(t & T & HT & Hst)].
  - exists [], P. split_and!; [constructor|done|by eapply inv_idle|by intros t].
  - assert (exists e P1, ending e /\ step calls e P = Some P1) as (e & P1 & Hf & Hs).
    { destruct (progress calls P t T HP HT Hst) as [(e & P1 & He & H1)|[Hw1|(u & U & HU & _ & Hw1)]].
      - exists e, P1. split; [by left|done].
      - destruct (pipe_opens calls P t T HT Hw1) as [P1 H1]. exists (Opened t), P1. split; [right; eauto|done].
      - destruct (pipe_opens calls P u U HU Hw1) as [P1 H1]. exists (Opened u), P1. split; [right; eauto|done]. }
    pose proof (ending_lighter calls e P P1 Hf Hs) as Hlt.
    destruct (IH (weight (threads P1)) ltac:(lia) P1) as (es & P' & Hfs & Hss & Hid & Hmask); [by eapply step_inv|lia|].
    exists (e :: es), P'. split_and!; [by constructor| |done|].
    + cbn [steps]. by rewrite Hs.
    + intros u. rewrite (step_masks calls e P P1 Hs u). apply Hmask.
Qed.

Lemma ending_bound (calls : Z -> bool) (es : list event) (P P' : process) :
  Forall ending es -> steps calls es P = Some P' -> (length es <= weight (threads P))%nat.
Proof.
  intros Hf. revert P. induction Hf as [|e es He Hes IH]; intros P H; simpl; [lia|].
  cbn [steps mbind option_bind] in H. destruct (step calls e P) as [P1|] eqn:E; [|done].
  cbn [mbind option_bind] in H. apply IH in H. pose proof (ending_lighter _ _ _ _ He E). lia.
Qed.

Lemma steps_inv (calls : Z -> bool) (es : list event) (P P' : process) :
  (forall s, calls s = true -> s ∈ blocked) -> inv calls P -> steps calls es P = Some P' -> inv calls P'.
Proof.
  intros Hc. revert P. induction es as [|e es IH]; intros P Hinv Hs; [by injection Hs as <-|].
  cbn [steps mbind option_bind] in Hs. destruct (step calls e P) as [P1|] eqn:E; [|done].
  eapply IH; [|exact Hs]. by eapply step_inv.
Qed.

(** Whether anything can go on is not decided by looking at all threads: one
    that can is found, or none is. *)
Lemma stuck_or_not (calls : Z -> bool) (P : process) :
  (exists e P'', finishing e /\ step calls e P = Some P'') \/ forall e P'', finishing e -> step calls e P <> Some P''.
Proof.
  assert (forall m : gmap Z thread, m ⊆ threads P ->
    (exists e P'', finishing e /\ step calls e P = Some P'') \/
    forall t, is_Some (m !! t) -> step calls (Step t) P = None /\ step calls (Lower t) P = None /\ step calls (HandlerReturn t) P = None)
    as H.
  { intros m. induction m as [|t T m Hm IH] using map_ind; intros Hsub.
    - right. intros t [? H]. by rewrite lookup_empty in H.
    - destruct IH as [|IH]; [etrans; [by apply insert_subseteq|done]|by left|].
      destruct (step calls (Step t) P) as [P1|] eqn:E1; [left; by exists (Step t), P1|].
      destruct (step calls (Lower t) P) as [P1|] eqn:E2; [left; by exists (Lower t), P1|].
      destruct (step calls (HandlerReturn t) P) as [P1|] eqn:E3; [left; by exists (HandlerReturn t), P1|].
      right. intros u Hu. destruct (decide (u = t)) as [->|]; [done|]. apply IH. by rewrite lookup_insert_ne in Hu. }
  destruct (H (threads P) (reflexivity _)) as [|Hno]; [by left|right].
  intros e P2 He H2.
  assert (forall t, threads P !! t = None -> step calls (Step t) P = None /\ step calls (Lower t) P = None /\
    step calls (HandlerReturn t) P = None) as Hn by (intros t E; cbn [step]; by rewrite E).
  destruct e as [t|t|t|t k|t|t|t s|t]; try done; destruct (threads P !! t) as [T|] eqn:E;
    try (destruct (Hn t E) as (?&?&?); congruence); destruct (Hno t) as (?&?&?); eauto; congruence.
Qed.

(** A call made while the lock is held is made by the body of another. *)
Lemma caller_body (calls : Z -> bool) (m : signals) (st : list frame) :
  (forall s, calls s = true -> s ∈ blocked) -> mask_ok m st -> may_call calls st = true -> phase_of st <> Out ->
  exists how n k saved below, st = FCall (Body how n) k saved :: below.
Proof.
  intros Hc. destruct st as [|[p k sv|s sv] st]; simpl; intros Hm Hcall Hp; [done| |].
  - destruct p; try done. by eexists _, _, _, _, _.
  - destruct Hm as (_ & Hns & Hm). exfalso. apply Hns. eapply inside_blocked; eauto.
Qed.

Lemma pipe_in_body (calls : Z -> bool) (P : process) (u : Z) (U : thread) :
  (forall s, calls s = true -> s ∈ blocked) -> inv calls P -> threads P !! u = Some U -> owner P = Some u -> waits_for_pipe U ->
  exists how k below, in_body U how k below.
Proof.
  intros Hc HP HU Ho (local & k & saved & rest & E). destruct (inv_thread _ P HP _ _ HU) as (_ & Hs & Hm & Hv & _).
  rewrite E in *. simpl in Hs, Hm, Hv. destruct Hs as (_ & Hcall & _), Hm as (_ & _ & Hm).
  destruct (caller_body calls saved rest Hc Hm Hcall) as (how & n & k' & sv & below & ->); [intros X; rewrite X in Hv; by destruct Hv|].
  exists how, k', below. unfold in_body. rewrite E. by exists [FCall (Pipe local) k saved], n, sv.
Qed.


(** ** Forks *)

(** What the initialisation of a process that pseudo already knew does to the
    lock, and to [antimagic] when the child is not disabled or enabled anew. *)
Definition balanced (init : process -> process) : Prop :=
  forall P, owner (init P) = owner P /\ recursion (init P) = recursion P /\ holder (init P) = holder P /\
    antimagic (init P) = antimagic P /\ threads (init P) = threads P.

(** C13: a child forked by a call of the program starts with a free lock, whatever
    the other threads of its parent were doing, and once [fork] has returned
    in it, it is a process like one that never called anything. *)
Theorem fork_child_starts_afresh (calls : Z -> bool) (init : process -> process) (unload : bool)
    (P : process) (t : Z) (m saved : signals) :
  (forall s, calls s = true -> s ∈ blocked) -> balanced init -> reachable calls P ->
  threads P !! t = Some (mkThread m [FCall (Body Emulate 0) Plain saved]) ->
  exists P1 P2, fork_child init unload t (mkThread m [FCall (Body Emulate 0) Plain saved]) P = Some P1 /\
    steps calls [Step t; Step t; Step t] P1 = Some P2 /\
    idle P2 /\ threads P2 = {[t := mkThread saved []]}.
Proof.
  intros Hc Hb HP HT. pose proof (reachable_inv calls Hc P HP) as Hinv.
  destruct (inv_thread _ P Hinv _ _ HT) as (Hn & _ & _ & Hv & _). simpl in Hv. destruct Hv as (Ho & Hh & Hr & Ha).
  set (T := mkThread m [FCall (Body Emulate 0) Plain saved]) in *.
  assert (exists P1 d g, fork_child init unload t T P = Some P1 /\ P1 = mkProcess None 0 0 0 d g {[t := T]}) as (P1 & d & g & E1 & E2).
  { unfold fork_child, libpseudo_atfork_child. destruct unload; [do 3 eexists; split; [done|]; unfold with_lock; simpl; by rewrite Ha|].
    unfold libpseudo_init, pseudo_getlock, with_lock. cbn [holder owner antimagic disabled threads].
    rewrite (proj2 (Z.eqb_neq 0 t)) by done. cbn [mbind option_bind].
    match goal with |- context [init ?Q] => destruct (Hb Q) as (Io & Ir & Ih & Ia & It); destruct (init Q) as [o r h a d g ts] end.
    simpl in *. subst. do 3 eexists. split; [done|]. unfold pseudo_magic, pseudo_droplock. simpl. by rewrite Ha. }
  assert (forall p q r o h m' st' r' o' h',
    call_step t p Plain saved m [] (mkProcess o r h 0 d g {[t := mkThread m [FCall p Plain saved]]}) =
      Some (with_thread t (mkThread m' st') (mkProcess o' r' h' 0 d g {[t := mkThread m [FCall p Plain saved]]})) ->
    q = mkProcess o' r' h' 0 d g {[t := mkThread m' st']} ->
    step calls (Step t) (mkProcess o r h 0 d g {[t := mkThread m [FCall p Plain saved]]}) = Some q) as Hgo.
  { intros p q r o h m' st' r' o' h' Hs ->. cbn [step threads]. rewrite lookup_singleton_eq.
    cbn [mbind option_bind t_stack t_mask]. rewrite Hs. unfold with_thread. simpl. by rewrite insert_singleton_eq. }
  exists P1. eexists. split; [done|]. subst P1. unfold T. cbn [steps].
  rewrite (Hgo (Body Emulate 0) _ 0 None 0 m [FCall (CountDown false) Plain saved] 0 None 0 eq_refl eq_refl). cbn [mbind option_bind].
  rewrite (Hgo (CountDown false) _ 0 None 0 m [FCall Unblock Plain saved] (-1) None 0 eq_refl eq_refl). cbn [mbind option_bind].
  rewrite (Hgo Unblock _ (-1) None 0 saved [] (-1) None 0 eq_refl eq_refl). cbn [mbind option_bind].
  split; [done|]. split; [|done]. split; try done. intros u U. simpl.
  rewrite lookup_singleton. case_decide; naive_solver.
Qed.

(** Taking and dropping the lock in one go, as [pseudo_getlock] and
    [pseudo_droplock] read, is what their steps do when no other thread acts. *)
Section InOneGo.
Context (calls : Z -> bool) (t : Z) (k : kind) (m saved : signals) (rest : list frame).

Definition at_point (p : point) (P : process) : process := with_thread t (mkThread m (FCall p k saved :: rest)) P.

Lemma step_at (p : point) (P : process) :
  step calls (Step t) (at_point p P) = call_step t p k saved m rest (at_point p P).
Proof. cbn [step at_point with_thread threads]. by rewrite lookup_insert_eq. Qed.

Lemma at_point_again (p q : point) (o : option Z) (r h : Z) (P : process) :
  with_thread t (mkThread m (FCall q k saved :: rest)) (with_lock o r h (at_point p P)) = at_point q (with_lock o r h P).
Proof. unfold at_point, with_thread, with_lock. simpl. by rewrite insert_insert_eq. Qed.

Lemma at_point_replaced (p q : point) (P : process) :
  with_thread t (mkThread m (FCall q k saved :: rest)) (at_point p P) = at_point q P.
Proof. unfold at_point, with_thread. simpl. by rewrite insert_insert_eq. Qed.

Lemma getlock_steps (P P' : process) :
  pseudo_getlock t P = Some P' -> exists n, steps calls (replicate n (Step t)) (at_point (TestHolder false) P) = Some (at_point Choose P').
Proof.
  unfold pseudo_getlock. intros H. destruct (holder P =? t) eqn:Eh.
  - injection H as <-. exists 2%nat. cbn [replicate steps]. rewrite step_at. unfold call_step. cbn [at_point holder].
    simpl holder. rewrite Eh, at_point_replaced. cbn [mbind option_bind]. rewrite step_at. unfold call_step.
    rewrite at_point_again. done.
  - destruct (owner P) as [u|] eqn:Eo; [done|]. injection H as <-. exists 4%nat. cbn [replicate steps].
    rewrite step_at. unfold call_step. simpl holder. rewrite Eh, at_point_replaced. cbn [mbind option_bind].
    rewrite step_at. unfold call_step. simpl owner. rewrite Eo, at_point_again. cbn [mbind option_bind].
    rewrite step_at. unfold call_step. rewrite at_point_again. cbn [mbind option_bind].
    rewrite step_at. unfold call_step. rewrite at_point_again. done.
Qed.

Lemma droplock_steps (P : process) :
  exists n, steps calls (replicate n (Step t)) (at_point (CountDown false) P) = Some (at_point Unblock (pseudo_droplock P)).
Proof.
  unfold pseudo_droplock. destruct (recursion P - 1 =? 0) eqn:E.
  - exists 3%nat. cbn [replicate steps]. rewrite step_at. unfold call_step. simpl recursion. rewrite E, at_point_again.
    cbn [mbind option_bind]. rewrite step_at. unfold call_step. rewrite at_point_again.
    cbn [mbind option_bind]. rewrite step_at. unfold call_step. rewrite at_point_again. done.
  - exists 1%nat. cbn [replicate steps]. rewrite step_at. unfold call_step. simpl recursion. rewrite E, at_point_again. done.
Qed.
End InOneGo.

(** ** Examples *)

Section Examples.
(** Two threads; the handler of SIGCHLD, or of SIGINT, calls wrapped functions. *)
Definition two_threads : process :=
  mkProcess None 0 0 0 false ∅ {[1 := mkThread ∅ []; 2 := mkThread ∅ []]}.

Definition only (s : Z) : Z -> bool := fun x => x =? s.

Fixpoint many (n : nat) (t : Z) : list event := match n with O => [] | S k => Step t :: many k t end.

Lemma two_threads_idle : idle two_threads.
Proof.
  split; try done. intros t T H. unfold two_threads in H. simpl in H.
  apply lookup_insert_Some in H as [[<- <-]|[_ H]]; [done|]. by apply lookup_singleton_Some in H as [<- <-].
Qed.

Lemma steps_reachable (calls : Z -> bool) (es : list event) (P P' : process) :
  reachable calls P -> steps calls es P = Some P' -> reachable calls P'.
Proof.
  revert P. induction es as [|e es IH]; intros P HP H; [by injection H as <-|].
  cbn [steps mbind option_bind] in H. destruct (step calls e P) as [P1|] eqn:E; [|done].
  eapply IH; [|exact H]. by eapply reach_step.
Qed.

Lemma sigchld_blocked (s : Z) : only SIGCHLD s = true -> s ∈ blocked.
Proof. unfold only. intros ->%Z.eqb_eq. apply (bool_decide_unpack _). by vm_compute. Qed.

(** Thread 1 is in a body inside a callback, thread 2 waits for the lock. *)
Definition nested_trace : list event :=
  [Invoke 1 Plain] ++ many 6 1 ++ [Invoke 1 Plain] ++ many 4 1 ++ [Raise 1; Invoke 2 Plain] ++ many 2 2.

Definition after (calls : Z -> bool) (es : list event) : process := default two_threads (steps calls es two_threads).

Definition nested_state : process := after (only SIGCHLD) nested_trace.

Lemma nested_reachable : reachable (only SIGCHLD) nested_state.
Proof.
  apply (steps_reachable _ nested_trace two_threads); [by constructor; apply two_threads_idle|by vm_compute].
Qed.



(** Thread 1 is in the body of [fork] while thread 2 waits. *)
Definition fork_trace : list event := [Invoke 1 Plain] ++ many 6 1 ++ [Invoke 2 Plain] ++ many 2 2.
Definition fork_state : process := after (only SIGCHLD) fork_trace.

Lemma fork_child_starts_afresh_witness :
  exists P1 P2, fork_child id false 1 (mkThread blocked [FCall (Body Emulate 0) Plain ∅]) fork_state = Some P1 /\
    steps (only SIGCHLD) [Step 1; Step 1; Step 1] P1 = Some P2 /\ idle P2 /\ threads P2 = {[1 := mkThread ∅ []]}.
Proof.
  apply (@fork_child_starts_afresh (only SIGCHLD) id false fork_state 1 blocked ∅ sigchld_blocked).
  - by intros P.
  - apply (steps_reachable _ fork_trace two_threads); [by constructor; apply two_threads_idle|by vm_compute].
  - by vm_compute.
Defined.

(** A handler of a signal that is not blocked runs between the decrement of
    the recursion count and the reset of the holder: its call takes the lock
    for the holder's own and drops it; the interrupted call then unlocks the
    mutex of another thread, and a third call gets in. *)
Definition sigint_in_drop : list event :=
  [Invoke 1 Plain] ++ many 8 1 ++ [Signal 1 SIGINT; Invoke 1 Plain] ++ many 9 1 ++ [HandlerReturn 1] ++
  [Invoke 2 Plain] ++ many 6 2 ++ many 3 1 ++ [Invoke 1 Plain] ++ many 6 1.

Example unblocked_handler_breaks_exclusion :
  exists T U below, threads (after (only SIGINT) sigint_in_drop) !! 1 = Some T /\
    threads (after (only SIGINT) sigint_in_drop) !! 2 = Some U /\ in_body T Emulate Plain below /\ in_body U Emulate Plain below.
Proof.
  do 2 eexists. exists []. split; [by vm_compute|]. split; [by vm_compute|].
  split; exists [], 0%nat, ∅; reflexivity.
Qed.

(** A handler that runs between [pthread_mutex_lock] and the assignment of the
    holder waits for its own thread, and everyone else with it. *)
Definition sigint_in_get : list event :=
  [Invoke 1 Plain] ++ many 4 1 ++ [Signal 1 SIGINT; Invoke 1 Plain] ++ many 2 1 ++ [Invoke 2 Plain] ++ many 2 2.

Example unblocked_handler_deadlocks :
  forall e, finishing e -> step (only SIGINT) e (after (only SIGINT) sigint_in_get) = None.
Proof.
  assert (forall t, t = 1 \/ t = 2 \/ threads (after (only SIGINT) sigint_in_get) !! t = None) as H.
  { intros t. destruct (decide (t = 1)); [by left|]. destruct (decide (t = 2)); [by right; left|]. right. right.
    assert (dom (threads (after (only SIGINT) sigint_in_get)) = {[1; 2]}) as Hd by (apply (bool_decide_unpack _); by vm_compute).
    apply not_elem_of_dom. rewrite Hd. set_solver. }
  intros [t|t|t|t k|t|t|t s|t] He; try done; destruct (H t) as [->|[->|Hn]];
    try (by vm_compute); cbn [step]; by rewrite Hn.
Qed.

(** While thread 1 waits for a pipe the lock is free, and a call of thread 2
    comes to its end. *)
Definition open_pipe : list event := [Invoke 1 PipeOpen] ++ many 6 1 ++ many 5 1.

Example others_go_on :
  let P := after (only SIGCHLD) (open_pipe ++ [Invoke 2 Plain] ++ many 11 2) in
  owner P = None /\ threads P !! 2 = Some (mkThread ∅ []) /\
  threads P !! 1 = Some (mkThread ∅ [FCall (Pipe blocked) PipeOpen ∅]).
Proof. by vm_compute. Qed.

(** A pipe opened by a callback of another call: [pseudo_droplock] only counts
    down, the lock is held while the thread waits, and nobody else gets in. *)
Definition open_pipe_inside : list event := [Invoke 1 Plain] ++ many 6 1 ++ [Invoke 1 PipeOpen] ++ many 7 1 ++ [Invoke 2 Plain] ++ many 2 2.

Example pipe_in_callback_holds_lock :
  let P := after (only SIGCHLD) open_pipe_inside in
  owner P = Some 1 /\ forall e, finishing e -> step (only SIGCHLD) e P = None.
Proof.
  cbv zeta. split; [by vm_compute|].
  assert (forall t, t = 1 \/ t = 2 \/ threads (after (only SIGCHLD) open_pipe_inside) !! t = None) as H.
  { intros t. destruct (decide (t = 1)); [by left|]. destruct (decide (t = 2)); [by right; left|]. right. right.
    assert (dom (threads (after (only SIGCHLD) open_pipe_inside)) = {[1; 2]}) as Hd by (apply (bool_decide_unpack _); by vm_compute).
    apply not_elem_of_dom. rewrite Hd. set_solver. }
  intros [t|t|t|t k|t|t|t s|t] He; try done; destruct (H t) as [->|[->|Hn]];
    try (by vm_compute); cbn [step]; by rewrite Hn.
Qed.

(** [pseudo_saved_sigmask] is one for all threads: a call that another thread
    makes between the unlocking and the change of the mask leaves its own mask
    there, and thread 1 waits for the pipe with the mask of thread 2. *)
Definition other_mask : process :=
  mkProcess None 0 0 0 false ∅ {[1 := mkThread ∅ []; 2 := mkThread {[SIGINT]} []]}.

Example mask_of_other_thread :
  (P ← steps (only SIGCHLD) (([Invoke 1 PipeOpen] ++ many 6 1 ++ many 4 1) ++ ([Invoke 2 Plain] ++ many 6 2) ++ [Step 1]) other_mask;
   T ← threads P !! 1; Some (bool_decide (SIGINT ∈ t_mask T))) = Some true.
Proof. by vm_compute. Qed.
End Examples.
