(* ===== verification/Passwd.v ===== *)
(** Where the password and group files come from: the list of directories
    ([build_passwd_paths] in [pseudo_client.c]), the search for a file in them
    ([pseudo_etc_file] in [pseudo_util.c]), and the streams and the lock file
    ([pseudo_file_open], [pseudo_pwd_lck_open]).

    [pseudo_passwd] is a block of memory the list of directories points into;
    [pseudo_chroot] is a block that is freed when the root changes, so a
    pointer to it carries the number of the block.  A read of freed memory
    gives [None]. *)

From stdpp Require Import base list option strings.
From Stdlib Require Import ZArith Lia Ascii.
From S2P Require Import Prelude Paths ClientPath.

Open Scope Z_scope.

(** ** The directories *)

(** [PSEUDO_PASSWD_FALLBACK], a constant of the build, NULL if there is none. *)
Class PasswdFallback := { PSEUDO_PASSWD_FALLBACK : option bytes }.

(** An element of [passwd_paths]: what it points to. *)
Inductive passwd_path :=
  | InChroot (block : nat)
  | InPasswd (offset : nat)
  | InFallback.

(** [pseudo_chroot] with the number of its block, [pseudo_passwd] with its
    terminating NUL, and the list; [None] is NULL. *)
Record passwd_state := mkPasswd {
  chroot_dir : option bytes;
  chroot_block : nat;
  passwd_text : option bytes;
  passwd_paths : option (list passwd_path)
}.

Definition colon : ascii := ":"%char.

(** [strchr(s, ':')] for the C string at [s]. *)
Definition strchr_colon (block : bytes) (s : nat) : option nat :=
  '(i, _) ← list_find (fun c => c = colon) (c_str (drop s block)); Some (s + i)%nat.

(** The loop over [pseudo_passwd] from [s]; [fill] is the second pass, in which
    the colons become NULs. *)
Fixpoint add_passwd_paths (fuel : nat) (fill : bool) (block : bytes) (s : nat) : option (bytes * list passwd_path) :=
  match fuel with
  | O => None
  | S fuel =>
      match strchr_colon block s with
      | Some t =>
          block ← (if fill then poke t NUL block else Some block);
          '(block, rest) ← add_passwd_paths fuel fill block (S t);
          Some (block, InPasswd s :: rest)
      | None => Some (block, [InPasswd s])
      end
  end.

Section Passwd.
Context {PF : PasswdFallback}.

(** One pass. *)
Definition passwd_pass (fill : bool) (p : passwd_state) : option (option bytes * list passwd_path) :=
  '(text, mid) ← match passwd_text p with
                 | Some block => '(block, l) ← add_passwd_paths (S (length block)) fill block 0; Some (Some block, l)
                 | None => Some (None, [])
                 end;
  Some (text, (match chroot_dir p with Some _ => [InChroot (chroot_block p)] | None => [] end) ++ mid ++
              (match PSEUDO_PASSWD_FALLBACK with Some _ => [InFallback] | None => [] end)).

(** The first pass counts, the second fills the [np + 1] places of the array. *)
Definition build_passwd_paths (p : passwd_state) : option passwd_state :=
  '(_, counted) ← passwd_pass false p;
  '(text, filled) ← passwd_pass true p;
  if (length filled <=? length counted + 1)%nat
  then Some (mkPasswd (chroot_dir p) (chroot_block p) text (Some filled)) else None.

(** The string an element points to. *)
Definition passwd_dir (p : passwd_state) (d : passwd_path) : option bytes :=
  match d with
  | InChroot block => if (block =? chroot_block p)%nat then chroot_dir p else None
  | InPasswd s => c_str ∘ drop s <$> passwd_text p
  | InFallback => PSEUDO_PASSWD_FALLBACK
  end.

(** The part of [pseudo_client_chroot] these directories depend on: the old
    block is freed first, and for the root directory the list is kept. *)
Definition chroot_passwd (path : bytes) (p : passwd_state) : option passwd_state :=
  if bool_decide (path = $"/") then
    Some (mkPasswd None (S (chroot_block p)) (passwd_text p) (passwd_paths p))
  else build_passwd_paths (mkPasswd (Some path) (S (chroot_block p)) (passwd_text p) (passwd_paths p)).

(** ** Finding a file *)

Definition ENOENT : Z := 2.

(** [open_file] answers [open]: the descriptor, or -1. *)
Class EtcFiles := { open_file : bytes -> Z; etc_path_max : nat }.

Section EtcFile.
Context {EF : EtcFiles}.

(** [snprintf(filename, pseudo_path_max(), "%s/etc/%s", s, file)] *)
Definition etc_filename (s file : bytes) : bytes := take (etc_path_max - 1) (s ++ $"/etc/" ++ file).

Fixpoint etc_search (p : passwd_state) (file : bytes) (dirs : list passwd_path) : option (Z * option bytes) :=
  match dirs with
  | [] => Some (-1, None)
  | d :: dirs =>
      s ← passwd_dir p d;
      let name := etc_filename s file in
      let rc := open_file name in
      if 0 <=? rc then Some (rc, Some name) else etc_search p file dirs
  end.

(** The descriptor, [errno] if it is set here, and what [realname] gets. *)
Definition pseudo_etc_file (p : passwd_state) (file : option bytes) : option (Z * option Z * option bytes) :=
  match file, passwd_paths p with
  | None, _ | _, None | _, Some [] => Some (-1, Some ENOENT, None)
  | Some file, Some dirs => '(rc, name) ← etc_search p file dirs; Some (rc, None, name)
  end.

(** ** Streams and the lock file *)

(** A descriptor and whether the [FILE] on it is open. *)
Record stream := mkStream { s_fd : Z; s_open : bool }.

(** The descriptors closed, in order. *)
Definition pseudo_file_close (s : stream) : stream * list Z :=
  if s_open s then (mkStream (-1) false, [s_fd s])
  else if 0 <=? s_fd s then (mkStream (-1) false, [s_fd s])
  else (s, []).

(** [move] is [pseudo_fd(fd, MOVE_FD)], [fdopen] says whether a stream can be
    made of a descriptor. *)
Definition pseudo_file_open (move : Z -> Z) (fdopen : Z -> bool) (p : passwd_state) (name : bytes) (s : stream) :
    option (stream * list Z) :=
  let '(s, closed) := pseudo_file_close s in
  '(fd, _, _) ← pseudo_etc_file p (Some name);
  if 0 <=? fd then
    let fd := move fd in
    if fdopen fd then Some (mkStream fd true, closed) else Some (mkStream (-1) false, closed ++ [fd])
  else Some (mkStream fd false, closed).

(** [pseudo_pwd_lck_fd] and [pseudo_pwd_lck_name]: [Some None] is a name whose
    memory was never written. *)
Record lock_file := mkLockFile { lck_fd : Z; lck_name : option (option bytes) }.

(** The result, the descriptors closed and the file removed; a name that was
    never written cannot be removed. *)
Definition pseudo_pwd_lck_close (l : lock_file) : option (lock_file * Z * list Z * option bytes) :=
  if lck_fd l =? -1 then Some (l, -1, [], None)
  else
    match lck_name l with
    | Some None => None
    | Some (Some name) => Some (mkLockFile (-1) None, 0, [lck_fd l], Some name)
    | None => Some (mkLockFile (-1) None, 0, [lck_fd l], None)
    end.

Definition pseudo_pwd_lck_open (p : passwd_state) (l : lock_file) : option (lock_file * Z * list Z * option bytes) :=
  '(l, _, closed, removed) ← pseudo_pwd_lck_close l;
  '(fd, _, name) ← pseudo_etc_file p (Some ($".pwd.lock"));
  let buffer := match name with Some n => Some n | None => default None (lck_name l) end in
  Some (mkLockFile fd (Some buffer), fd, closed, removed).
End EtcFile.
End Passwd.
