(* ===== verification/PasswdSpec.v ===== *)
(** The password and group files are looked for in the changed root, in each
    directory of PSEUDO_PASSWD and in the fallback, in this order, as long as
    the root is not changed again. *)

From stdpp Require Import base list option strings.
From Stdlib Require Import ZArith Lia Ascii.
From S2P Require Import Prelude Paths ClientPath Passwd.

Open Scope Z_scope.

(** ** The reference: strings between colons *)

Fixpoint split_colons (s : bytes) : list bytes :=
  match s with
  | [] => [[]]
  | c :: s' =>
      if decide (c = colon) then [] :: split_colons s'
      else match split_colons s' with [] => [[c]] | e :: es => (c :: e) :: es end
  end.

Lemma split_colons_none (s : bytes) : colon ∉ s -> split_colons s = [s].
Proof.
  induction s as [|c s IH]; intros H; [done|]. rewrite not_elem_of_cons in H. simpl.
  rewrite decide_False by naive_solver. by rewrite IH by naive_solver.
Qed.

Lemma split_colons_app (a b : bytes) : colon ∉ a -> split_colons (a ++ colon :: b) = a :: split_colons b.
Proof.
  induction a as [|c a IH]; intros H; simpl; [done|]. rewrite not_elem_of_cons in H.
  rewrite decide_False by naive_solver. by rewrite IH by naive_solver.
Qed.

(** The text once its colons are NULs. *)
Definition cut_colons (s : bytes) : bytes := map (fun c => if decide (c = colon) then NUL else c) s.

Lemma cut_colons_none (s : bytes) : colon ∉ s -> cut_colons s = s.
Proof.
  induction s as [|c s IH]; intros H; [done|]. rewrite not_elem_of_cons in H. simpl.
  rewrite decide_False by naive_solver. f_equal. apply IH. naive_solver.
Qed.

(** The elements of the list and the strings they stand for in a block. *)
Definition points_to (block : bytes) (d : passwd_path) (s : bytes) : Prop :=
  exists off, d = InPasswd off /\ c_str (drop off block) = s.

(** ** One walk over the text *)

Lemma first_colon (s : bytes) : colon ∉ s \/ exists a b, s = a ++ colon :: b /\ colon ∉ a.
Proof.
  induction s as [|c s IH]; [left; apply not_elem_of_nil|].
  destruct (decide (c = colon)) as [->|Hc]; [right; exists [], s; split; [done|apply not_elem_of_nil]|].
  destruct IH as [IH|(a & b & -> & Ha)].
  - left. rewrite not_elem_of_cons. naive_solver.
  - right. exists (c :: a), b. rewrite not_elem_of_cons. naive_solver.
Qed.

Lemma strchr_none (pre text post : bytes) : NUL ∉ text -> colon ∉ text ->
  strchr_colon (pre ++ text ++ NUL :: post) (length pre) = None.
Proof.
  intros Hn Hc. unfold strchr_colon. rewrite drop_app_length, c_str_app_nul by done.
  assert (list_find (fun c => c = colon) text = None) as ->; [|done].
  apply list_find_None, Forall_forall. by intros x Hx ->.
Qed.

Lemma strchr_some (pre a b post : bytes) : NUL ∉ a ++ colon :: b -> colon ∉ a ->
  strchr_colon (pre ++ (a ++ colon :: b) ++ NUL :: post) (length pre) = Some (length pre + length a)%nat.
Proof.
  intros Hn Hc. unfold strchr_colon. rewrite drop_app_length, c_str_app_nul by done.
  rewrite list_find_app_r by (apply list_find_None, Forall_forall; by intros x Hx ->).
  cbn [list_find]. rewrite decide_True by done. cbn. f_equal; lia.
Qed.

Lemma split_colons_nonempty (s : bytes) : split_colons s <> [].
Proof. destruct s as [|c s]; simpl; [done|]. case_decide; [done|]. by destruct (split_colons s). Qed.

Lemma add_paths_walk (fill : bool) (fuel : nat) (pre text post : bytes) :
  NUL ∉ text -> (length text < fuel)%nat ->
  exists ds, add_passwd_paths fuel fill (pre ++ text ++ NUL :: post) (length pre) =
      Some (pre ++ (if fill then cut_colons text else text) ++ NUL :: post, ds) /\
    length ds = length (split_colons text) /\
    (fill = true -> Forall2 (points_to (pre ++ cut_colons text ++ NUL :: post)) ds (split_colons text)).
Proof.
  revert pre text. induction fuel as [|fuel IH]; intros pre text Hn Hf; [lia|]. cbn [add_passwd_paths].
  destruct (first_colon text) as [Hc|(a & b & -> & Hc)].
  - rewrite strchr_none by done. exists [InPasswd (length pre)].
    rewrite split_colons_none, cut_colons_none by done. split; [by destruct fill|]. split; [done|].
    intros _. constructor; [|constructor]. exists (length pre). by rewrite drop_app_length, c_str_app_nul.
  - rewrite strchr_some by done. rewrite elem_of_app, elem_of_cons in Hn. rewrite length_app in Hf. simpl in Hf.
    set (sep := if fill then NUL else colon).
    assert (Hpoke : (if fill then poke (length pre + length a) NUL (pre ++ (a ++ colon :: b) ++ NUL :: post)
        else Some (pre ++ (a ++ colon :: b) ++ NUL :: post)) =
        Some ((pre ++ a ++ [sep]) ++ b ++ NUL :: post)).
    { unfold sep. destruct fill; [|by rewrite <- !app_assoc]. unfold poke. rewrite (proj2 (Nat.ltb_lt _ _)).
      - rewrite <- !app_assoc, insert_app_r. cbn [app].
        by rewrite (insert_app_r_alt a) , Nat.sub_diag by lia.
      - rewrite !length_app; simpl; rewrite ?length_app; simpl; lia. }
    rewrite Hpoke. cbn [mbind option_bind].
    destruct (IH (pre ++ a ++ [sep]) b) as (ds & Hds & Hlen & Hpt); [naive_solver|lia|].
    rewrite !length_app in Hds. cbn [length] in Hds.
    replace (S (length pre + length a)) with (length pre + (length a + 1))%nat by lia.
    rewrite Hds. cbn [mbind option_bind]. rewrite split_colons_app by done.
    assert (Hcut : cut_colons (a ++ colon :: b) = a ++ NUL :: cut_colons b).
    { unfold cut_colons. rewrite map_app. fold (cut_colons a). by rewrite cut_colons_none. }
    assert (E : (pre ++ a ++ [sep]) ++ (if fill then cut_colons b else b) ++ NUL :: post =
      pre ++ (if fill then cut_colons (a ++ colon :: b) else a ++ colon :: b) ++ NUL :: post).
    { unfold sep. rewrite Hcut. destruct fill; by rewrite <- !app_assoc. }
    exists (InPasswd (length pre) :: ds). rewrite E. split; [done|split].
    + simpl. by rewrite Hlen.
    + intros Ef. specialize (Hpt Ef). subst fill. unfold sep in Hpt.
      assert (pre ++ cut_colons (a ++ colon :: b) ++ NUL :: post = (pre ++ a ++ [NUL]) ++ cut_colons b ++ NUL :: post) as ->.
      { rewrite Hcut. by rewrite <- !app_assoc. }
      constructor; [|done]. exists (length pre). split; [done|]. rewrite <- !app_assoc, drop_app_length.
      apply c_str_app_nul. naive_solver.
Qed.

(** ** The whole list *)

Section Spec.
Context {PF : PasswdFallback}.

(** The directories in the order they are searched. *)
Definition passwd_dirs (chroot passwd : option bytes) : list bytes :=
  option_list chroot ++ match passwd with Some text => split_colons text | None => [] end ++
  option_list PSEUDO_PASSWD_FALLBACK.

(** A state whose text was never cut. *)
Definition fresh_passwd (chroot passwd : option bytes) (block : nat) (old : option (list passwd_path)) : passwd_state :=
  mkPasswd chroot block ((fun t => t ++ [NUL]) <$> passwd) old.

Lemma build_exact (chroot passwd : option bytes) (block : nat) (old : option (list passwd_path)) :
  match passwd with Some text => NUL ∉ text | None => True end ->
  exists p ds, build_passwd_paths (fresh_passwd chroot passwd block old) = Some p /\ passwd_paths p = Some ds /\
    map (passwd_dir p) ds = Some <$> passwd_dirs chroot passwd.
Proof.
  intros Hn. unfold build_passwd_paths, passwd_pass, fresh_passwd. cbn [passwd_text chroot_dir chroot_block].
  destruct passwd as [text|]; cbn [fmap option_fmap option_map].
  - pose proof (add_paths_walk false (S (length (text ++ [NUL]))) [] text [] Hn) as (ds1 & H1 & L1 & _);
      [rewrite length_app; simpl; lia|].
    pose proof (add_paths_walk true (S (length (text ++ [NUL]))) [] text [] Hn) as (ds2 & H2 & L2 & F2);
      [rewrite length_app; simpl; lia|].
    cbn [app length] in H1, H2. rewrite H1, H2. cbn [mbind option_bind].
    rewrite (proj2 (Nat.leb_le _ _)) by (rewrite !length_app, L1, L2; lia).
    do 2 eexists. split; [done|]. split; [done|]. specialize (F2 eq_refl). cbn [app] in F2.
    unfold passwd_dirs. rewrite !map_app, ?fmap_app. f_equal; [|f_equal].
    + destruct chroot; [|done]. cbn. by rewrite Nat.eqb_refl.
    + clear -F2. induction F2 as [|d s ds ss (off & -> & Hs) HF IH]; [done|].
      cbn [map fmap list_fmap]. f_equal; [|exact IH]. cbn. by rewrite Hs.
    + by destruct PSEUDO_PASSWD_FALLBACK eqn:E; cbn; rewrite ?E.
  - cbn [mbind option_bind]. rewrite (proj2 (Nat.leb_le _ _)) by lia.
    do 2 eexists. split; [done|]. split; [done|]. unfold passwd_dirs. rewrite !map_app, ?fmap_app. f_equal.
    + destruct chroot; [|done]. cbn. by rewrite Nat.eqb_refl.
    + by destruct PSEUDO_PASSWD_FALLBACK eqn:E; cbn; rewrite ?E.
Qed.

(** The first directory that has the file. *)
Definition found_in {EF : EtcFiles} (file : bytes) (dirs : list bytes) : option bytes :=
  snd <$> list_find (fun d => 0 <= open_file (etc_filename d file)) dirs.

Lemma etc_search_first {EF : EtcFiles} (p : passwd_state) (file : bytes) (ds : list passwd_path) (dirs : list bytes) :
  map (passwd_dir p) ds = Some <$> dirs ->
  etc_search p file ds = Some (match found_in file dirs with
    | Some d => (open_file (etc_filename d file), Some (etc_filename d file))
    | None => (-1, None)
    end).
Proof.
  revert dirs. induction ds as [|d ds IH]; intros [|s dirs] H; try done. cbn in H. injection H as H1 H2.
  cbn [etc_search]. rewrite H1. cbn [mbind option_bind]. unfold found_in. cbn [list_find].
  destruct (Z.leb_spec 0 (open_file (etc_filename s file))) as [E|E].
  - by rewrite decide_True by done.
  - rewrite decide_False by lia. rewrite (IH dirs H2). unfold found_in. by destruct (list_find _ dirs) as [[]|].
Qed.

(** C22: a process that has just read its settings finds a password or group file
    in its changed root if it is there, else in the first directory of
    PSEUDO_PASSWD that has it, else where the build says; and it reads no
    memory but the list's. *)
Theorem passwd_file_found {EF : EtcFiles} (chroot passwd : option bytes) (block : nat)
    (old : option (list passwd_path)) (file : bytes) :
  match passwd with Some text => NUL ∉ text | None => True end ->
  exists p, build_passwd_paths (fresh_passwd chroot passwd block old) = Some p /\
    exists errno, pseudo_etc_file p (Some file) =
      Some (match found_in file (passwd_dirs chroot passwd) with
            | Some d => (open_file (etc_filename d file), errno, Some (etc_filename d file))
            | None => (-1, errno, None)
            end).
Proof.
  intros Hn. destruct (build_exact chroot passwd block old Hn) as (p & ds & Hp & Hds & Hdirs).
  exists p. split; [done|]. unfold pseudo_etc_file. rewrite Hds. destruct ds as [|d ds].
  - destruct (passwd_dirs chroot passwd); [|done]. by eexists.
  - exists None. rewrite (etc_search_first p file (d :: ds) _ Hdirs). cbn [mbind option_bind].
    by destruct (found_in _ _).
Qed.
End Spec.

(** ** Examples *)

Section Examples.
Definition usual_fallback : PasswdFallback := {| PSEUDO_PASSWD_FALLBACK := Some ($"/") |}.

(** A system on which only one directory has the file. *)
Definition files_in (dir : bytes) : EtcFiles :=
  {| open_file := fun name => if bool_decide (name = dir ++ $"/etc/passwd") then 7 else -1; etc_path_max := 4096 |}.

Lemma passwd_file_found_witness :
  exists p errno, @build_passwd_paths usual_fallback (fresh_passwd (Some ($"/c")) (Some ($"/a:/b")) 0 None) = Some p /\
    @pseudo_etc_file usual_fallback (files_in ($"/b")) p (Some ($"passwd")) = Some (7, errno, Some ($"/b/etc/passwd")).
Proof.
  destruct (@passwd_file_found usual_fallback (files_in ($"/b")) (Some ($"/c")) (Some ($"/a:/b")) 0 None ($"passwd"))
    as (p & Hp & errno & H).
  - apply (bool_decide_unpack _). by vm_compute.
  - exists p, errno. split; [exact Hp|]. rewrite H. by vm_compute.
Defined.

(** The list is built again when the root changes, from the text the first
    time cut into pieces: all directories but the first are lost. *)
Example chroot_forgets_passwd :
  (p ← @build_passwd_paths usual_fallback (fresh_passwd None (Some ($"/a:/b")) 0 None);
   p ← @chroot_passwd usual_fallback ($"/c") p;
   mapM (@passwd_dir usual_fallback p) (default [] (passwd_paths p))) = Some [$"/c"; $"/a"; $"/"].
Proof. by vm_compute. Qed.

(** Back in the root directory the list still points to the freed name of the
    root that was left. *)
Example chroot_root_dangles :
  (p ← @build_passwd_paths usual_fallback (fresh_passwd (Some ($"/c")) None 0 None);
   p ← @chroot_passwd usual_fallback ($"/") p;
   @pseudo_etc_file usual_fallback (files_in ($"/")) p (Some ($"passwd"))) = None.
Proof. by vm_compute. Qed.
End Examples.
