(* ===== verification/Startup.v ===== *)
(** The start of a process under pseudo: [pseudo_init_client] and
    [pseudo_client_chroot] of [pseudo_client.c], with the log file and the
    directories they need from [pseudo_util.c].

    [None] is an exit of the program or a memory error.  Allocations succeed.
    What the program's surroundings answer is the class [StartEnv]. *)

From stdpp Require Import base gmap list option strings.
From Stdlib Require Import ZArith Lia Ascii.
From S2P Require Import Prelude Format Tables Debug Env Ids Paths ClientPath Message ClientConn Passwd.

Open Scope Z_scope.

(** ** The log file ([pseudo_logfile]) *)

(** The places of [%d] and [%s] in the name; [None]: the name is refused. *)
Fixpoint scan_log_name (i : nat) (s : bytes) (pid prog : option nat) : option (option nat * option nat) :=
  match s with
  | [] => Some (pid, prog)
  | c :: s' =>
      if bool_decide (c = "%"%char) then
        match s' with
        | [] => None
        | d :: s'' =>
            if bool_decide (d = "%"%char) then scan_log_name (i + 2) s'' pid prog
            else if bool_decide (d = "d"%char) then
              match pid with Some _ => None | None => scan_log_name (i + 1) s' (Some i) prog end
            else if bool_decide (d = "s"%char) then
              match prog with Some _ => None | None => scan_log_name (i + 1) s' pid (Some i) end
            else None
        end
      else scan_log_name (i + 1) s' pid prog
  end.

(** [printf] with a format of [%d], [%s] and [%%]: the arguments, already
    printed, in their order. *)
Fixpoint expand_format (s : bytes) (args : list bytes) : bytes :=
  match s with
  | [] => []
  | c :: s' =>
      if bool_decide (c = "%"%char) then
        match s' with
        | [] => []
        | d :: s'' =>
            if bool_decide (d = "%"%char) then d :: expand_format s'' args
            else match args with
                 | a :: args => a ++ expand_format s'' args
                 | [] => expand_format s'' []
                 end
        end
      else c :: expand_format s' args
  end.

(** [pid] and [name] are [getpid()] and [program_invocation_short_name]. *)
Definition log_path (pid : Z) (name : bytes) (filename : bytes) : option bytes :=
  '(d, s) ← scan_log_name 0 filename None None;
  let len := (length filename + 1 + (match d with Some _ => 8 | None => 0 end)
                                  + (match s with Some _ => length name | None => 0 end))%nat in
  let print args := take (len - 1) (expand_format filename args) in
  Some (match d, s with
        | Some d, Some s => if (d <? s)%nat then print [decimal pid; name] else print [name; decimal pid]
        | Some _, None => print [decimal pid]
        | None, Some _ => print [name]
        | None, None => filename
        end).

(** ** The process *)

Record client_process := mkProc {
  p_env : env_state;
  p_conn : cstate;
  p_ids : ids;
  pseudo_disabled : bool;
  pseudo_inited : bool;
  p_antimagic : Z;
  pseudo_allow_fsync : bool;
  pseudo_nosymlinkexp : Z;
  pseudo_umask : Z;
  p_passwd : passwd_state;
  p_mkdirs : list bytes                  (* directories it tried to make *)
}.

Definition with_penv v (p : client_process) : client_process :=
  match p with mkProc _ c i d n a f x u w m => mkProc v c i d n a f x u w m end.
Definition with_conn v (p : client_process) : client_process :=
  match p with mkProc e _ i d n a f x u w m => mkProc e v i d n a f x u w m end.
Definition with_ids v (p : client_process) : client_process :=
  match p with mkProc e c _ d n a f x u w m => mkProc e c v d n a f x u w m end.
Definition with_state d n a (p : client_process) : client_process :=
  match p with mkProc e c i _ _ _ f x u w m => mkProc e c i d n a f x u w m end.
Definition with_fsync v (p : client_process) : client_process :=
  match p with mkProc e c i d n a _ x u w m => mkProc e c i d n a v x u w m end.
Definition with_nosymlinkexp v (p : client_process) : client_process :=
  match p with mkProc e c i d n a f _ u w m => mkProc e c i d n a f v u w m end.
Definition with_umask v (p : client_process) : client_process :=
  match p with mkProc e c i d n a f x _ w m => mkProc e c i d n a f x v w m end.
Definition with_passwd v (p : client_process) : client_process :=
  match p with mkProc e c i d n a f x u _ m => mkProc e c i d n a f x u v m end.
Definition with_mkdirs v (p : client_process) : client_process :=
  match p with mkProc e c i d n a f x u w _ => mkProc e c i d n a f x u w v end.

Definition set_local_only v (s : cstate) : cstate :=
  match s with mkCS c f a n r m l _ p u g e => mkCS c f a n r m l v p u g e end.
Definition set_new_owner u g (s : cstate) : cstate :=
  match s with mkCS c f a n r m l o p _ _ e => mkCS c f a n r m l o p u g e end.
Definition set_prefix_fd v (f : client_fds) : client_fds :=
  match f with mkFds c d _ l w g => mkFds c d v l w g end.
Definition set_localstate_fd v (f : client_fds) : client_fds :=
  match f with mkFds c d p _ w g => mkFds c d p v w g end.
(** The root, which ClientPath and the password directories share. *)
Definition set_root v (p : client_process) : client_process :=
  let c := c_paths (p_conn p) in
  with_conn (with_paths (mkClient (fd_paths c) (linked_fd_paths c) (pseudo_cwd c) (pseudo_cwd_rel c) v) (p_conn p)) p.

Class StartEnv := {
  (** [open(path, O_RDONLY)], before and after the directory was made: the
      descriptor, and whether [errno] is ENOENT. *)
  open_dir : bytes -> bool -> Z * bool;
  (** The mask [umask] returns. *)
  process_umask : Z
}.

Section Startup.
Context {BC : BuildConfig} {PF : PasswdFallback} {CE : ClientEnv} {SE : StartEnv}.

Definition pseudo_localstatedir_path (file : option bytes) (s : env_state) : option (env_state * bytes) :=
  '(s, dir) ← pseudo_get_localstatedir s; Some (s, pseudo_append_path dir file).

(** [getenv], which [pseudo_get_value] answers when the environment has none. *)
Definition get_setting (key : bytes) (s : env_state) : env_state * option bytes :=
  match environ s !! key with
  | Some v => (s, Some v)
  | None => pseudo_get_value key s
  end.

(** The directories [mkdir_p] makes, from the outermost. *)
Definition mkdir_p (path : bytes) : list bytes :=
  (fun i => take i path) <$> filter (fun i => path !! i = Some slash) (seq 1 (length path - 1)) ++ [length path].

(** The first character decides. *)
Definition says_no (v : bytes) : bool := bool_decide (char_at v 0 ∈ ["0"; "f"; "F"; "n"; "N"]%char).
Definition says_local (v : bytes) : bool := bool_decide (char_at v 0 ∈ ["s"; "S"]%char).

Definition antimagic_down (a : Z) : Z := if 0 <? a then a - 1 else a.

Definition PSEUDO_DISABLED_ : bytes := $"PSEUDO_DISABLED".

(** PSEUDO_DISABLED *)
Definition init_disabled (p : client_process) : client_process :=
  let '(e, v) := get_setting PSEUDO_DISABLED_ (p_env p) in
  let p := with_penv e p in
  let set b p := with_penv (pseudo_set_value PSEUDO_DISABLED_ (Some b) (p_env p)).1 p in
  match v with
  | None => set ($"0") p
  | Some v =>
      let p := if says_local v then with_conn (set_local_only true (p_conn p)) p else p in
      if says_no v || says_local v then
        set ($"0") (if pseudo_disabled p then with_state false false (antimagic_down (p_antimagic p)) p else p)
      else
        set ($"1") (if pseudo_disabled p then p else with_state true (pseudo_inited p) (p_antimagic p + 1) p)
  end.

(** PSEUDO_ALLOW_FSYNC *)
Definition init_fsync (p : client_process) : client_process :=
  match environ (p_env p) !! $"PSEUDO_ALLOW_FSYNC" with
  | Some v => with_fsync true (with_penv (pseudo_set_value ($"PSEUDO_ALLOW_FSYNC") (Some v) (p_env p)).1 p)
  | None =>
      let '(e, v) := pseudo_get_value ($"PSEUDO_ALLOW_FSYNC") (p_env p) in
      with_fsync (bool_decide (is_Some v)) (with_penv e p)
  end.

(** PSEUDO_UNLOAD *)
Definition init_unload (p : client_process) : client_process :=
  match environ (p_env p) !! $"PSEUDO_UNLOAD" with
  | Some v =>
      with_state true (pseudo_inited p) (p_antimagic p)
        (with_penv (pseudo_set_value ($"PSEUDO_UNLOAD") (Some v) (p_env p)).1 p)
  | None => p
  end.

Definition reset_conn (s : cstate) : cstate :=
  let f := c_fds s in
  with_server_pid 0 (with_fds (mkFds (connect_fd f) (pseudo_util_debug_fd f) (-1) (-1) (-1) (-1))
    (with_paths (mkClient (fd_paths (c_paths s)) (linked_fd_paths (c_paths s)) None None None) s)).

Definition init_reset (p : client_process) : client_process :=
  if pseudo_inited p then p
  else with_nosymlinkexp 0
         (with_passwd (mkPasswd None (S (chroot_block (p_passwd p))) None (passwd_paths (p_passwd p)))
            (with_conn (reset_conn (p_conn p)) p)).

(** A directory of pseudo's own, made if it is missing; the descriptor is
    moved out of the way. *)
Definition init_dir (path : bytes) (p : client_process) : option (Z * client_process) :=
  let '(fd, missing) := open_dir path false in
  let '(fd, made) := if (fd =? -1) && missing then ((open_dir path true).1, mkdir_p path) else (fd, []) in
  let '(fd, conn) := pseudo_fd fd true (p_conn p) in
  let p := with_mkdirs (p_mkdirs p ++ made) (with_conn conn p) in
  if fd =? -1 then None else Some (fd, p).

(** The value [strtol] gives, as an [int]; 1 for what is not a number. *)
Definition strtol_int (v : bytes) : Z :=
  match scan_int v with
  | Some (_, []) =>
      let l := skip_space v in
      let neg := bool_decide (head l = Some "-"%char) in
      let digits := if neg || bool_decide (head l = Some "+"%char) then tail l else l in
      let n := (scan_digits 0 digits).1 in
      int32 (if neg then Z.max (- n) (- 2 ^ 63) else Z.min n (2 ^ 63 - 1))
  | _ => 1
  end.

Definition nosymlinkexp_of (v : option bytes) : Z :=
  match v with
  | None => 0
  | Some [] => 1
  | Some v => strtol_int v
  end.

(** A value of [pseudo_env], as the process reads it. *)
Definition read_value (key : bytes) (p : client_process) : client_process * option bytes :=
  let '(e, v) := pseudo_get_value key (p_env p) in (with_penv e p, v).

(** The settings read when the process is not disabled. *)
Definition init_settings (p : client_process) : option client_process :=
  let p := with_umask process_umask p in
  '(e, path) ← pseudo_prefix_path None (p_env p);
  '(fd, p) ← init_dir path (with_penv e p);
  let p := with_conn (with_fds (set_prefix_fd fd (c_fds (p_conn p))) (p_conn p)) p in
  '(e, path) ← pseudo_localstatedir_path None (p_env p);
  '(fd, p) ← init_dir path (with_penv e p);
  let p := with_conn (with_fds (set_localstate_fd fd (c_fds (p_conn p))) (p_conn p)) p in
  let '(p, v) := read_value ($"PSEUDO_NOSYMLINKEXP") p in
  let p := with_nosymlinkexp (nosymlinkexp_of v) p in
  let '(p, uids) := read_value ($"PSEUDO_UIDS") p in
  let '(p, gids) := read_value ($"PSEUDO_GIDS") p in
  let i := p_ids p in
  let i := read_gids (read_uids (mkIds (pseudo_ruid i) (pseudo_euid i) (pseudo_suid i) (id_fuid i)
                                   (pseudo_rgid i) (pseudo_egid i) (pseudo_sgid i) (id_fgid i) uids gids)) in
  let p := with_conn (set_new_owner (id_fuid i) (id_fgid i) (p_conn p)) (with_ids i p) in
  let '(p, root) := read_value ($"PSEUDO_CHROOT") p in
  let p := match root with Some r => set_root (Some r) p | None => p end in
  let '(p, passwd) := read_value ($"PSEUDO_PASSWD") p in
  let w := p_passwd p in
  w ← build_passwd_paths (mkPasswd root (chroot_block w) ((fun t => t ++ [NUL]) <$> passwd) (passwd_paths w));
  Some (with_state (pseudo_disabled p) true (p_antimagic p) (with_passwd w p)).

Definition init_cwd (p : client_process) : client_process :=
  with_conn (with_paths (pseudo_client_getcwd real_getcwd (c_paths (p_conn p))).1 (p_conn p)) p.

Definition raise_antimagic (p : client_process) : client_process :=
  with_state (pseudo_disabled p) (pseudo_inited p) (p_antimagic p + 1) p.
Definition lower_antimagic (p : client_process) : client_process :=
  with_state (pseudo_disabled p) (pseudo_inited p) (antimagic_down (p_antimagic p)) p.

Definition pseudo_init_client (p : client_process) : option client_process :=
  let p := raise_antimagic p in
  let p := if connect_fd (c_fds (p_conn p)) =? -1 then p else with_conn (drop_connection (p_conn p)) p in
  let p := init_reset (init_unload (init_fsync (init_disabled p))) in
  p ← (if negb (pseudo_disabled p) && negb (pseudo_inited p) then init_settings p else Some p);
  let p := if pseudo_disabled p then p else init_cwd p in
  Some (lower_antimagic p).

(** ** Changing the root *)

Definition client_chroot (path : bytes) (p : client_process) : option client_process :=
  let root := if bool_decide (path = $"/") then None else Some path in
  let p := set_root root p in
  let p := with_penv (pseudo_set_value ($"PSEUDO_CHROOT") root (p_env p)).1 p in
  w ← chroot_passwd path (p_passwd p);
  Some (with_passwd w p).

(** ** Setting ids ([pseudo_client_touchuid], [pseudo_client_touchgid])

    The variables of the model of ids are those of [pseudo_env]. *)
Definition set_process_ids (i : ids) (p : client_process) : client_process :=
  let e := (pseudo_set_value ($"PSEUDO_UIDS") (PSEUDO_UIDS i) (p_env p)).1 in
  let e := (pseudo_set_value ($"PSEUDO_GIDS") (PSEUDO_GIDS i) e).1 in
  with_ids i (with_penv e p).

(** ** A new process *)

(** [_libpseudo_init]: the variables first, then the client. *)
Definition fresh_conn : cstate :=
  mkCS (mkClient [] [] None None None) (mkFds (-1) 2 (-1) (-1) (-1) (-1)) None 0 (mkRx None 0) false true false 0 0 0 [].

Definition fresh_process (e : env_state) : client_process :=
  mkProc e fresh_conn (mkIds 0 0 0 0 0 0 0 0 None None) false false 0 false 0 18 (mkPasswd None 0 None None) [].

Definition start_process (envp : list bytes) : option client_process :=
  pseudo_init_client (fresh_process (pseudo_init_util (started envp))).

(** A process replaces itself by a program with an environment. *)
Definition exec_process (envp : list bytes) (p : client_process) : option client_process :=
  '(_, new) ← exec_environment envp (p_env p); start_process new.
End Startup.
