(* ===== verification/StartupSpec.v ===== *)
(** A program that is started is where its parent was: the same ids, the same
    root and the same directories to look for password files, in a state in
    which it can start others; and the name of the log file is what its
    pattern says. *)

From stdpp Require Import base gmap list option strings.
From Stdlib Require Import ZArith Lia Ascii.
From S2P Require Import Prelude Format Tables Debug Env EnvSpec Ids IdsSpec Paths ClientPath Message ClientConn Passwd PasswdSpec Startup.

Open Scope Z_scope.

(** ** Steps that keep the variables *)

(** The variables of the directories, which are set when they are first asked
    for. *)
Definition dir_keys : list bytes := [$"PSEUDO_BINDIR"; $"PSEUDO_LIBDIR"; $"PSEUDO_LOCALSTATEDIR"].

Record env_kept (s s' : env_state) : Prop := {
  kept_settled : settled s';
  kept_environ : environ s' = environ s;
  kept_vars k : k ∉ dir_keys -> pseudo_env s' !! k = pseudo_env s !! k
}.

Lemma env_kept_refl s : settled s -> env_kept s s.
Proof. by split. Qed.

Lemma env_kept_trans s1 s2 s3 : env_kept s1 s2 -> env_kept s2 s3 -> env_kept s1 s3.
Proof. intros [A1 B1 C1] [A2 B2 C2]. split; [done|congruence|]. intros k Hk. rewrite C2, C1 by done. done. Qed.

Lemma store_kept k v s : settled s -> k ∈ env_keys -> k ∈ dir_keys \/ pseudo_env s !! k = Some v ->
  env_kept s (store_value k (Some v) s).
Proof.
  intros Hs Hk Hd. destruct (set_value_settled k v s Hs Hk) as [_ Hst]. split; [done|done|].
  intros k' Hk'. cbn. destruct (decide (k = k')) as [->|].
  - rewrite lookup_partial_alter_eq. by destruct Hd.
  - by rewrite lookup_partial_alter_ne.
Qed.



Lemma get_dir_kept {BC : BuildConfig} key dir s s' v :
  settled s -> key ∈ env_keys -> key ∈ dir_keys -> get_dir key dir s = Some (s', v) -> env_kept s s'.
Proof.
  intros Hs Hk Hd. unfold get_dir. rewrite get_value_settled by done. destruct (pseudo_env s !! key) as [w|] eqn:Hv.
  - intros [= <- <-]. by apply env_kept_refl.
  - unfold pseudo_prefix_path. rewrite get_value_settled; [|done|key].
    destruct (pseudo_env s !! $"PSEUDO_PREFIX") as [pre|]; cbn [fmap option_fmap option_map mbind option_bind]; [|done].
    destruct (set_value_settled key (pseudo_append_path pre (Some dir)) s Hs Hk) as [-> ?].
    intros [= <- <-]. apply store_kept; auto.
Qed.

Lemma get_libdir_kept {BC : BuildConfig} s s' v : settled s -> pseudo_get_libdir s = Some (s', v) -> env_kept s s'.
Proof.
  intros Hs. unfold pseudo_get_libdir. destruct (get_dir _ _ s) as [[s1 d]|] eqn:Hd; cbn [mbind option_bind]; [|done].
  apply get_dir_kept in Hd as Hk1; [|done|key|key]. pose proof (kept_settled _ _ Hk1) as Hs1. case_match; [done|]. case_match.
  - destruct (set_value_settled ($"PSEUDO_LIBDIR") (take (length d - 2) d) s1 Hs1) as [-> ?]; [key|].
    intros [= <- <-]. eapply env_kept_trans; [done|]. apply store_kept; [done|key|left; key].
  - by intros [= <- <-].
Qed.

Lemma eval_dirs_kept {BC : BuildConfig} s s' : settled s -> eval_dirs s = Some s' -> env_kept s s'.
Proof.
  intros Hs. unfold eval_dirs. rewrite get_value_settled; [|done|key].
  cbn [fst]. destruct (pseudo_get_bindir s) as [[s1 d1]|] eqn:H1; cbn [mbind option_bind]; [|done].
  apply get_dir_kept in H1; [|done|key|key].
  destruct (pseudo_get_libdir s1) as [[s2 d2]|] eqn:H2; cbn [mbind option_bind]; [|done].
  apply get_libdir_kept in H2; [|by destruct H1].
  destruct (pseudo_get_localstatedir s2) as [[s3 d3]|] eqn:H3; cbn [mbind option_bind]; [|done].
  apply get_dir_kept in H3; [|by destruct H2|key|key].
  intros [= <-]. eauto using env_kept_trans.
Qed.

Lemma libdir_path_kept {BC : BuildConfig} s s' d : settled s -> pseudo_libdir_path None s = Some (s', d) -> env_kept s s'.
Proof.
  intros Hs. unfold pseudo_libdir_path. destruct (pseudo_get_libdir s) as [[s1 d1]|] eqn:H1; cbn; [|done].
  intros [= <- <-]. by eapply get_libdir_kept.
Qed.

(** A directory that defaults to one below the prefix is found when there is a
    prefix. *)
Lemma get_dir_total {BC : BuildConfig} key dir s :
  settled s -> key ∈ env_keys -> is_Some (pseudo_env s !! $"PSEUDO_PREFIX") -> is_Some (get_dir key dir s).
Proof.
  intros Hs Hk [pre Hp]. unfold get_dir. rewrite get_value_settled by done. destruct (pseudo_env s !! key); [eauto|].
  unfold pseudo_prefix_path. rewrite get_value_settled; [|done|key]. rewrite Hp. cbn. eauto.
Qed.

(** ** The environment of a program that is started *)

(** What a variable of pseudo is in a program started with [envp], when it is
    [v] here. *)
Definition passed (envp : list bytes) (k : bytes) (v : option bytes) : option bytes :=
  match getenv_in envp k with
  | Some w => Some w
  | None => if existsb (prefixb k) envp then None else v
  end.

(** An environment that does not name pseudo's variables. *)
Definition plain_envp (envp : list bytes) : Prop := Forall (fun e => prefixb ($"PSEUDO") e = false) envp.

Lemma plain_no_key envp k : plain_envp envp -> k ∈ env_keys ->
  existsb (prefixb k) envp = false /\ getenv_in envp k = None.
Proof.
  intros Hp Hk. assert (forall e, prefixb ($"PSEUDO") e = false -> prefixb k e = false) as Hno.
  { intros e He. apply not_true_iff_false. intros H. apply not_true_iff_false in He. apply He.
    assert (Forall (fun k => prefixb ($"PSEUDO") k = true) env_keys) as Hall by key.
    rewrite Forall_forall in Hall. specialize (Hall k Hk). apply prefixb_spec in Hall as [r ->].
    by apply prefixb_app_l in H. }
  split.
  - induction Hp as [|e l He Hl IH]; [done|]. cbn [existsb]. by rewrite IH, Hno.
  - unfold getenv_in. assert (filter (fun e => names k e = true) envp = []) as ->; [|done].
    induction Hp as [|e l He Hl IH]; [done|]. rewrite filter_cons, decide_False; [done|].
    intros H%names_prefix. by rewrite Hno in H.
Qed.

Lemma key_names k : k ∈ env_keys -> no_eq k /\ k <> PRELINK_PATH /\ k <> PRELINK_LIBRARIES.
Proof. revert k. apply Forall_forall. key. Qed.

Lemma passed_plain envp k v : plain_envp envp -> k ∈ env_keys -> passed envp k v = v.
Proof. intros Hp Hk. unfold passed. by destruct (plain_no_key envp k Hp Hk) as [-> ->]. Qed.

Lemma child_environ {BC : BuildConfig} s libdir envp k : k ∈ env_keys ->
  environ (started (setup_entries s libdir envp)) !! k = passed envp k (pseudo_env s !! k).
Proof.
  intros Hk. destruct (key_names k Hk) as (Hne & H1 & H2). rewrite getenv_child by done. by rewrite decide_True.
Qed.

(** The variables the child has read. *)
Definition child_env {BC : BuildConfig} (s : env_state) (libdir : bytes) (envp : list bytes) : env_state :=
  pseudo_init_util (started (setup_entries s libdir envp)).

Lemma init_settled s : settled (pseudo_init_util s).
Proof.
  split; [unfold pseudo_init_util; cbv zeta; repeat case_match; done|].
  intros k Hk He. rewrite init_environ in He.
  destruct (load_keys_lookup env_keys s k keys_nodup) as [Hl _]. rewrite decide_True in Hl by done.
  assert (is_Some (pseudo_env (foldl load_key s env_keys) !! k)) as Hs by (destruct He as [v Hv]; rewrite Hl, Hv; eauto).
  revert Hs. unfold pseudo_init_util. generalize (foldl load_key s env_keys). intros s1 Hs. cbv zeta. cbn [pseudo_env].
  assert (forall k' v s2, is_Some (pseudo_env s2 !! k) -> is_Some (pseudo_env (store_value k' (Some v) s2) !! k)) as Hst.
  { intros k' v s2 H. cbn. destruct (decide (k' = k)) as [->|]; [rewrite lookup_partial_alter_eq; eauto|by rewrite lookup_partial_alter_ne]. }
  repeat case_match; try apply Hst; cbn [pseudo_env]; try apply Hst; done.
Qed.

Lemma child_env_lookup {BC : BuildConfig} s libdir envp k : k ∈ env_keys ->
  k <> $"PSEUDO_DEBUG" -> k <> $"PSEUDO_EVLOG" ->
  pseudo_env (child_env s libdir envp) !! k = passed envp k (pseudo_env s !! k) /\
  environ (child_env s libdir envp) !! k = passed envp k (pseudo_env s !! k).
Proof.
  intros Hk Hd He. unfold child_env. rewrite init_environ, init_lookup, child_environ by done. cbn [pseudo_env started].
  rewrite lookup_empty. by destruct (passed _ _ _).
Qed.

Lemma started_environ new k : no_eq k -> environ (started new) !! k = getenv_in new k.
Proof. apply environ_of_lookup. Qed.

Lemma not_named k l : getenv_in l k = None -> existsb (names k) l = false.
Proof.
  unfold getenv_in. intros H. apply not_true_iff_false. intros (e & He1 & He2)%existsb_exists.
  apply list_elem_of_In in He1. assert (e ∈ filter (fun e => names k e = true) l) as Hin by by apply list_elem_of_filter.
  destruct (filter _ l); [by apply not_elem_of_nil in Hin|done].
Qed.

Lemma no_unload envp s :
  util_initted s = true -> environ s !! $"PSEUDO_UNLOAD" = None -> pseudo_env s !! $"PSEUDO_UNLOAD" = None ->
  existsb (names ($"PSEUDO_UNLOAD")) envp = false -> pseudo_has_unload (Some envp) s = (s, false).
Proof.
  intros Hi H1 H2 H3. unfold pseudo_has_unload, ensure_init. rewrite H1, Hi, H2, H3.
  by rewrite bool_decide_eq_false_2 by (intros [? ?]; done).
Qed.

Lemma exec_passes {BC : BuildConfig} envp s s1 s' libdir :
  settled s -> eval_dirs s = Some s1 -> pseudo_libdir_path None s1 = Some (s', libdir) -> (variables_set s' <= 18)%nat ->
  getenv_in envp ($"PSEUDO_UNLOAD") = None -> environ s !! $"PSEUDO_UNLOAD" = None -> pseudo_env s !! $"PSEUDO_UNLOAD" = None ->
  exec_environment envp s = Some (s', setup_entries s' libdir envp) /\ env_kept s s'.
Proof.
  intros Hs He Hl Hc Hp Hu1 Hu2.
  assert (env_kept s s') as Hk.
  { eapply env_kept_trans; [by eapply eval_dirs_kept|]. eapply libdir_path_kept; [|done]. by eapply kept_settled, eval_dirs_kept. }
  split; [|done]. destruct Hk as [[Hi _] Henv Hvars].
  assert (pseudo_env s' !! $"PSEUDO_UNLOAD" = None) as Hu3 by (rewrite Hvars by key; done).
  unfold exec_environment. rewrite (setupenvp_some envp s s1 s' libdir) by done.
  pose proof (child_environ s' libdir envp ($"PSEUDO_UNLOAD") ltac:(key)) as H.
  unfold passed in H. rewrite started_environ, Hu3, Hp in H by key.
  assert (getenv_in (setup_entries s' libdir envp) ($"PSEUDO_UNLOAD") = None) as H0 by (rewrite H; by destruct (existsb _ _)). clear H. rename H0 into H. apply not_named in H. revert H. generalize (setup_entries s' libdir envp).
  intros new Hnew. cbn [mbind option_bind]. by rewrite no_unload by (done || by rewrite Henv).
Qed.

(** ** Reading the settings *)

Section Init.
Context {BC : BuildConfig} {PF : PasswdFallback} {CE : ClientEnv} {SE : StartEnv}.

(** pseudo's own directories can be opened. *)
Definition dirs_open : Prop := (forall path made, 0 <= (open_dir path made).1) /\ forall fd, dupfd fd <> -1.

(** What opening the directories leaves alone. *)
Record dir_frame (p p' : client_process) : Prop := {
  df_env : p_env p' = p_env p;
  df_ids : p_ids p' = p_ids p;
  df_disabled : pseudo_disabled p' = pseudo_disabled p;
  df_inited : pseudo_inited p' = pseudo_inited p;
  df_antimagic : p_antimagic p' = p_antimagic p;
  df_passwd : p_passwd p' = p_passwd p;
  df_paths : c_paths (p_conn p') = c_paths (p_conn p)
}.

Lemma init_dir_ok path p : dirs_open -> exists fd p', init_dir path p = Some (fd, p') /\ dir_frame p p'.
Proof.
  intros [Ho Hd]. unfold init_dir. pose proof (Ho path false) as H0.
  destruct (open_dir path false) as [fd missing]. cbn [fst] in H0.
  rewrite (proj2 (Z.eqb_neq fd (-1))) by lia. cbn [andb]. unfold pseudo_fd. rewrite (proj2 (Z.ltb_ge fd 0)) by lia.
  destruct p as [e c i d n a f x u w m]. cbn [p_conn with_conn with_mkdirs p_mkdirs].
  destruct (true && (PSEUDO_MIN_FD <=? fd)).
  - rewrite (proj2 (Z.eqb_neq fd (-1))) by lia. do 2 eexists. split; [done|]. by split.
  - rewrite (proj2 (Z.eqb_neq (dupfd fd) (-1))) by apply Hd. do 2 eexists. split; [done|]. split; try done. by destruct c.
Qed.

(** The ids a process reads. *)
Definition ids_read (i : ids) (uids gids : option bytes) : ids :=
  read_gids (read_uids (mkIds (pseudo_ruid i) (pseudo_euid i) (pseudo_suid i) (id_fuid i)
    (pseudo_rgid i) (pseudo_egid i) (pseudo_sgid i) (id_fgid i) uids gids)).

Lemma read_value_settled k p : settled (p_env p) -> k ∈ env_keys ->
  read_value k p = (with_penv (p_env p) p, pseudo_env (p_env p) !! k).
Proof. intros Hs Hk. unfold read_value. by rewrite get_value_settled. Qed.

Lemma with_penv_same p : with_penv (p_env p) p = p.
Proof. by destruct p. Qed.

Lemma init_settings_ok p :
  settled (p_env p) -> is_Some (pseudo_env (p_env p) !! $"PSEUDO_PREFIX") -> dirs_open ->
  match pseudo_env (p_env p) !! $"PSEUDO_PASSWD" with Some text => NUL ∉ text | None => True end ->
  exists p' ds, init_settings p = Some p' /\ env_kept (p_env p) (p_env p') /\
    p_ids p' = ids_read (p_ids p) (pseudo_env (p_env p) !! $"PSEUDO_UIDS") (pseudo_env (p_env p) !! $"PSEUDO_GIDS") /\
    pseudo_chroot (c_paths (p_conn p')) =
      match pseudo_env (p_env p) !! $"PSEUDO_CHROOT" with Some r => Some r | None => pseudo_chroot (c_paths (p_conn p)) end /\
    pseudo_disabled p' = pseudo_disabled p /\ pseudo_inited p' = true /\ p_antimagic p' = p_antimagic p /\
    passwd_paths (p_passwd p') = Some ds /\
    map (passwd_dir (p_passwd p')) ds =
      Some <$> passwd_dirs (pseudo_env (p_env p) !! $"PSEUDO_CHROOT") (pseudo_env (p_env p) !! $"PSEUDO_PASSWD").
Proof.
  intros Hs [pre Hpre] Ho Hn. unfold init_settings.
  set (p0 := with_umask process_umask p).
  assert (p_env p0 = p_env p) as E0 by (by destruct p). rewrite E0.
  unfold pseudo_prefix_path at 1. rewrite get_value_settled; [|done|key]. rewrite Hpre.
  cbn [fmap option_fmap option_map mbind option_bind].
  destruct (init_dir_ok (pseudo_append_path pre None) (with_penv (p_env p) p0) Ho) as (fd1 & p1 & -> & F1).
  cbn [mbind option_bind].
  set (p2 := with_conn _ p1). assert (dir_frame (with_penv (p_env p) p0) p2) as F2.
  { destruct F1. unfold p2. destruct p1 as [e c i d n a f x u w m]. split; try done. cbn in *. by destruct c. }
  clearbody p2. clear F1 p1 fd1.
  assert (p_env p2 = p_env p) as E2 by (rewrite (df_env _ _ F2); by destruct p).
  unfold pseudo_localstatedir_path. rewrite E2.
  destruct (get_dir_total ($"PSEUDO_LOCALSTATEDIR") PSEUDO_LOCALSTATEDIR (p_env p) Hs ltac:(key) (mk_is_Some _ _ Hpre)) as [[e3 dir] Hdir].
  unfold pseudo_get_localstatedir. rewrite Hdir. cbn [mbind option_bind].
  apply get_dir_kept in Hdir as Hk; [|done|key|key].
  destruct (init_dir_ok (pseudo_append_path dir None) (with_penv e3 p2) Ho) as (fd3 & p3 & -> & F3). cbn [mbind option_bind].
  set (p4 := with_conn _ p3). assert (dir_frame (with_penv e3 p2) p4) as F4.
  { destruct F3. unfold p4. destruct p3 as [e c i d n a f x u w m]. split; try done. cbn in *. by destruct c. }
  clearbody p4. clear F3 p3 fd3.
  assert (p_env p4 = e3) as E4 by (rewrite (df_env _ _ F4); by destruct p2).
  assert (settled (p_env p4)) as Hs4 by (rewrite E4; by destruct Hk).
  assert (forall k, k ∉ dir_keys -> pseudo_env (p_env p4) !! k = pseudo_env (p_env p) !! k) as Hv by (rewrite E4; by destruct Hk).
  assert (p_ids p4 = p_ids p /\ pseudo_disabled p4 = pseudo_disabled p /\ p_antimagic p4 = p_antimagic p /\
    c_paths (p_conn p4) = c_paths (p_conn p)) as (Ei & Ed & Ea & Ec).
  { rewrite (df_ids _ _ F4), (df_disabled _ _ F4), (df_antimagic _ _ F4), (df_paths _ _ F4).
    destruct F2 as [_ A B _ C _ D]. destruct p2 as [e c i d n a f x u w m]. cbn in *. rewrite A, B, C, D. by destruct p. }
  clear F2 F4 E0 E2 p2 p0. rewrite <- E4 in Hk. clear E4 Hdir e3 dir.
  rewrite read_value_settled, with_penv_same by (done || key). cbv beta zeta iota. rewrite (Hv ($"PSEUDO_NOSYMLINKEXP")) by key.
  set (p5 := with_nosymlinkexp _ p4).
  assert (p_env p5 = p_env p4 /\ p_ids p5 = p_ids p4 /\ pseudo_disabled p5 = pseudo_disabled p4 /\ p_antimagic p5 = p_antimagic p4 /\
    p_conn p5 = p_conn p4) as (X1 & X2 & X3 & X4 & X5) by (unfold p5; by destruct p4).
  rewrite <- X1 in Hk, Hs4, Hv. rewrite <- X2 in Ei. rewrite <- X3 in Ed. rewrite <- X4 in Ea. rewrite <- X5 in Ec.
  clearbody p5. clear X1 X2 X3 X4 X5 p4.
  rewrite read_value_settled, with_penv_same by (done || key). cbv beta zeta iota.
  rewrite read_value_settled, with_penv_same by (done || key). cbv beta zeta iota.
  rewrite !Hv by key. rewrite Ei. fold (ids_read (p_ids p) (pseudo_env (p_env p) !! $"PSEUDO_UIDS") (pseudo_env (p_env p) !! $"PSEUDO_GIDS")).
  set (i := ids_read _ _ _). clearbody i.
  set (p6 := with_conn _ _).
  assert (p_env p6 = p_env p5 /\ p_ids p6 = i /\ pseudo_disabled p6 = pseudo_disabled p5 /\ p_antimagic p6 = p_antimagic p5 /\
    c_paths (p_conn p6) = c_paths (p_conn p5)) as (X1 & X2 & X3 & X4 & X5)
    by (unfold p6; destruct p5 as [e c j d n a f x u w m]; by destruct c).
  rewrite <- X1 in Hk, Hs4, Hv. rewrite <- X3 in Ed. rewrite <- X4 in Ea. rewrite <- X5 in Ec.
  clearbody p6. clear X1 X3 X4 X5 Ei p5.
  rewrite read_value_settled, with_penv_same by (done || key). cbv beta zeta iota. rewrite (Hv ($"PSEUDO_CHROOT")) by key.
  set (root := pseudo_env (p_env p) !! $"PSEUDO_CHROOT").
  set (p7 := match root with Some r => set_root (Some r) p6 | None => p6 end).
  assert (p_env p7 = p_env p6 /\ p_ids p7 = i /\ pseudo_disabled p7 = pseudo_disabled p6 /\ p_antimagic p7 = p_antimagic p6 /\
    pseudo_chroot (c_paths (p_conn p7)) = match root with Some r => Some r | None => pseudo_chroot (c_paths (p_conn p6)) end)
    as (X1 & X3 & X4 & X5 & X6)
    by (unfold p7; destruct p6 as [e c j d n a f x u w m], root; cbn in *; subst; destruct c; done).
  rewrite <- X1 in Hk, Hs4, Hv. rewrite Ec in X6. rewrite <- X4 in Ed. rewrite <- X5 in Ea. clearbody p7. clear X1 X2 X4 X5 Ec p6.
  rewrite read_value_settled, with_penv_same by (done || key). cbv beta zeta iota. rewrite (Hv ($"PSEUDO_PASSWD")) by key.
  destruct (build_exact root (pseudo_env (p_env p) !! $"PSEUDO_PASSWD") (chroot_block (p_passwd p7))
    (passwd_paths (p_passwd p7)) Hn) as (w & ds & Hb & Hw & Hdirs).
  unfold fresh_passwd in Hb. rewrite Hb. cbn [mbind option_bind].
  exists (with_state (pseudo_disabled p7) true (p_antimagic p7) (with_passwd w p7)), ds.
  destruct p7 as [e c j d n a f x u w' m]. cbn in *. by split_and!.
Qed.

(** What the settings read before the rest do to a process that is enabled and
    stays so. *)
Lemma init_disabled_no p :
  settled (p_env p) -> environ (p_env p) !! PSEUDO_DISABLED_ = Some ($"0") ->
  pseudo_env (p_env p) !! PSEUDO_DISABLED_ = Some ($"0") -> pseudo_disabled p = false ->
  exists e, init_disabled p = with_penv e p /\ env_kept (p_env p) e.
Proof.
  intros Hs H1 H2 Hd. unfold init_disabled, get_setting. rewrite H1. cbv zeta iota beta.
  rewrite with_penv_same. change (says_local ($"0")) with false. change (says_no ($"0")) with true. cbv iota.
  cbn [orb]. rewrite Hd. destruct (set_value_settled PSEUDO_DISABLED_ ($"0") (p_env p) Hs ltac:(key)) as [-> _].
  eexists. split; [done|]. apply store_kept; [done|key|by right].
Qed.

Lemma init_fsync_kept p :
  settled (p_env p) ->
  (forall v, environ (p_env p) !! $"PSEUDO_ALLOW_FSYNC" = Some v -> pseudo_env (p_env p) !! $"PSEUDO_ALLOW_FSYNC" = Some v) ->
  exists b e, init_fsync p = with_fsync b (with_penv e p) /\ env_kept (p_env p) e.
Proof.
  intros Hs Hv. unfold init_fsync. destruct (environ (p_env p) !! $"PSEUDO_ALLOW_FSYNC") as [v|].
  - destruct (set_value_settled ($"PSEUDO_ALLOW_FSYNC") v (p_env p) Hs ltac:(key)) as [-> _].
    do 2 eexists. split; [done|]. apply store_kept; [done|key|right; by apply Hv].
  - rewrite get_value_settled by (done || key). do 2 eexists. split; [done|]. by apply env_kept_refl.
Qed.

(** What holds of a process that has started, as far as its children depend on
    it: its variables say what its ids and its root are. *)
Record consistent (p : client_process) : Prop := {
  con_settled : settled (p_env p);
  con_prefix : is_Some (pseudo_env (p_env p) !! $"PSEUDO_PREFIX");
  con_enabled : pseudo_env (p_env p) !! PSEUDO_DISABLED_ = Some ($"0") /\ pseudo_disabled p = false /\ pseudo_inited p = true;
  con_unload : environ (p_env p) !! $"PSEUDO_UNLOAD" = None /\ pseudo_env (p_env p) !! $"PSEUDO_UNLOAD" = None;
  con_uids : PSEUDO_UIDS (p_ids p) = pseudo_env (p_env p) !! $"PSEUDO_UIDS";
  con_gids : PSEUDO_GIDS (p_ids p) = pseudo_env (p_env p) !! $"PSEUDO_GIDS";
  con_root : pseudo_chroot (c_paths (p_conn p)) = pseudo_env (p_env p) !! $"PSEUDO_CHROOT";
  con_passwd : match pseudo_env (p_env p) !! $"PSEUDO_PASSWD" with Some text => NUL ∉ text | None => True end
}.

Lemma ids_read_vars i u g : PSEUDO_UIDS (ids_read i u g) = u /\ PSEUDO_GIDS (ids_read i u g) = g.
Proof. by destruct i, u, g. Qed.

(** A fresh process with variables that are [V]. *)
Lemma init_client_fresh e :
  settled e -> dirs_open ->
  (forall k, k ∈ env_keys -> k <> $"PSEUDO_DEBUG" -> k <> $"PSEUDO_EVLOG" -> environ e !! k = pseudo_env e !! k) ->
  is_Some (pseudo_env e !! $"PSEUDO_PREFIX") -> pseudo_env e !! PSEUDO_DISABLED_ = Some ($"0") ->
  pseudo_env e !! $"PSEUDO_UNLOAD" = None ->
  match pseudo_env e !! $"PSEUDO_PASSWD" with Some text => NUL ∉ text | None => True end ->
  exists c ds, pseudo_init_client (fresh_process e) = Some c /\ consistent c /\ env_kept e (p_env c) /\
    p_ids c = start_ids (pseudo_env e !! $"PSEUDO_UIDS") (pseudo_env e !! $"PSEUDO_GIDS") /\ p_antimagic c = 0 /\
    passwd_paths (p_passwd c) = Some ds /\
    map (passwd_dir (p_passwd c)) ds = Some <$> passwd_dirs (pseudo_env e !! $"PSEUDO_CHROOT") (pseudo_env e !! $"PSEUDO_PASSWD").
Proof.
  intros Hs Ho Hsame Hpre Hdis Hunl Hpw. unfold pseudo_init_client. set (p0 := raise_antimagic (fresh_process e)).
  change (connect_fd (c_fds (p_conn p0)) =? -1) with true. cbv zeta iota.
  destruct (init_disabled_no p0) as (e1 & E1 & K1); [done|cbn; by rewrite Hsame by key|done|done|]. rewrite E1. cbn [p_env p0] in K1.
  destruct (init_fsync_kept (with_penv e1 p0)) as (b & e2 & E2 & K2).
  { by destruct K1. }
  { cbn [p_env with_penv p0 raise_antimagic with_state fresh_process]. intros v Hv. destruct K1 as [_ Henv Hvars].
    rewrite Hvars by key. rewrite Henv in Hv. cbn in Hv. rewrite <- Hv. symmetry. apply Hsame; key. }
  rewrite E2. change (p_env (with_penv e1 p0)) with e1 in K2. change (p_env p0) with e in K1.
  pose proof (env_kept_trans _ _ _ K1 K2) as K. clear K1 K2 E1 E2.
  set (p2 := with_fsync b (with_penv e2 (with_penv e1 p0))).
  assert (init_unload p2 = p2) as ->.
  { unfold init_unload. change (p_env p2) with e2. rewrite (kept_environ _ _ K), Hsame, Hunl by key. done. }
  unfold init_reset. change (pseudo_inited p2) with false. cbv iota.
  set (p3 := with_nosymlinkexp _ _). change (pseudo_disabled p3) with false. change (pseudo_inited p3) with false. cbn [negb andb].
  destruct K as [Ks Kenv Kv].
  destruct (init_settings_ok p3) as (p4 & ds & -> & K4 & Hids & Hroot & Hd & Hi & Ha & Hw & Hdirs).
  { done. }
  { change (p_env p3) with e2. by rewrite Kv by key. }
  { done. }
  { change (p_env p3) with e2. by rewrite Kv by key. }
  change (p_env p3) with e2 in *. change (p_ids p3) with (mkIds 0 0 0 0 0 0 0 0 None None) in Hids.
  change (p_antimagic p3) with 1 in Ha. change (pseudo_disabled p3) with false in Hd.
  change (pseudo_chroot (c_paths (p_conn p3))) with (@None bytes) in Hroot.
  rewrite !Kv in Hids by key. rewrite Kv in Hroot by key. rewrite !Kv in Hdirs by key.
  assert (env_kept e (p_env p4)) as K by (eapply env_kept_trans; [|exact K4]; by split).
  cbn [mbind option_bind]. rewrite Hd. eexists _, ds. split; [done|].
  set (c := lower_antimagic (init_cwd p4)).
  assert (p_env c = p_env p4 /\ p_ids c = p_ids p4 /\ pseudo_disabled c = false /\ pseudo_inited c = true /\ p_antimagic c = 0 /\
    p_passwd c = p_passwd p4 /\ pseudo_chroot (c_paths (p_conn c)) = pseudo_chroot (c_paths (p_conn p4)))
    as (X1 & X2 & X3 & X4 & X5 & X6 & X7).
  { clear -Hd Hi Ha. unfold c, lower_antimagic, init_cwd. destruct p4 as [e4 [cp cf ca cn cr cm cl co cpi cu cg cev] j d n a f x u w m].
    cbn [pseudo_disabled pseudo_inited p_antimagic] in *. subst. split_and!; try done.
    cbn [p_conn with_state with_conn c_paths with_paths]. unfold pseudo_client_getcwd. by destruct real_getcwd. }
  clearbody c. destruct K as [Hs4 He4 Hv4].
  split; [|rewrite X1, X2, X6; by split_and!].
  destruct (ids_read_vars (mkIds 0 0 0 0 0 0 0 0 None None) (pseudo_env e !! $"PSEUDO_UIDS") (pseudo_env e !! $"PSEUDO_GIDS")) as [Y1 Y2].
  split; rewrite ?X1, ?X2, ?X7, ?Hids, ?Y1, ?Y2, ?He4, ?Hv4 by key; try done.
  - rewrite Hsame by key. done.
  - rewrite Hroot. by destruct (pseudo_env e !! $"PSEUDO_CHROOT").
Qed.
End Init.

(** ** What keeps a process consistent *)

Lemma set_value_lookup k v s k' :
  settled s -> k ∈ env_keys ->
  pseudo_env (pseudo_set_value k v s).1 !! k' = (if decide (k' = k) then v else pseudo_env s !! k') /\
  environ (pseudo_set_value k v s).1 = environ s /\ util_initted (pseudo_set_value k v s).1 = true.
Proof.
  intros [Hi _] Hk. unfold pseudo_set_value, ensure_init. rewrite Hi, is_key_true by done. cbn. split_and!; try done.
  case_decide; [subst; apply lookup_partial_alter_eq|by apply lookup_partial_alter_ne].
Qed.

(** A value is stored; a variable of the environment keeps one. *)
Lemma set_value_still_settled k v s :
  settled s -> k ∈ env_keys -> (is_Some (environ s !! k) -> is_Some v) -> settled (pseudo_set_value k v s).1.
Proof.
  intros Hs Hk Hv. destruct (set_value_lookup k v s k Hs Hk) as (_ & He & Hi). split; [done|].
  intros k' Hk'. rewrite He. intros H. destruct (set_value_lookup k v s k' Hs Hk) as (-> & _).
  case_decide as E; [subst; auto|]. by apply (proj2 Hs).
Qed.

(** Ids change with the variables that carry them. *)
Lemma set_process_ids_consistent i p :
  consistent p -> (PSEUDO_UIDS i = None -> environ (p_env p) !! $"PSEUDO_UIDS" = None) ->
  (PSEUDO_GIDS i = None -> environ (p_env p) !! $"PSEUDO_GIDS" = None) ->
  consistent (set_process_ids i p) /\ p_ids (set_process_ids i p) = i.
Proof.
  intros [Hs Hp (Hd1 & Hd2 & Hd3) (Hu1 & Hu2) Hu Hg Hr Hpw] H1 H2. unfold set_process_ids.
  set (e1 := (pseudo_set_value ($"PSEUDO_UIDS") (PSEUDO_UIDS i) (p_env p)).1).
  set (e2 := (pseudo_set_value ($"PSEUDO_GIDS") (PSEUDO_GIDS i) e1).1).
  assert (Hs1 : settled e1).
  { apply set_value_still_settled; [done|key|]. destruct (PSEUDO_UIDS i); [eauto|]. rewrite H1 by done. by intros [? ?]. }
  pose proof (fun k => set_value_lookup ($"PSEUDO_UIDS") (PSEUDO_UIDS i) (p_env p) k Hs ltac:(key)) as V1.
  pose proof (fun k => set_value_lookup ($"PSEUDO_GIDS") (PSEUDO_GIDS i) e1 k Hs1 ltac:(key)) as V2.
  fold e1 in V1. fold e2 in V2.
  assert (Hs2 : settled e2).
  { apply set_value_still_settled; [done|key|]. destruct (V1 []) as (_ & -> & _).
    destruct (PSEUDO_GIDS i); [eauto|]. rewrite H2 by done. by intros [? ?]. }
  assert (forall k, k <> $"PSEUDO_UIDS" -> k <> $"PSEUDO_GIDS" -> pseudo_env e2 !! k = pseudo_env (p_env p) !! k) as Hk.
  { intros k K1 K2. destruct (V2 k) as (-> & _), (V1 k) as (E & _). rewrite decide_False by done. by rewrite E, decide_False. }
  assert (environ e2 = environ (p_env p)) as He by (destruct (V2 []) as (_ & -> & _), (V1 []) as (_ & -> & _); done).
  destruct p as [e [cp cf ca cn cr cm cl co cpi cu cg cev] j d n a f x u w m]. cbn [p_env p_conn p_ids pseudo_disabled pseudo_inited with_ids with_penv with_passwd with_conn set_root with_paths c_paths ClientPath.pseudo_chroot] in *.
  split; [|done]. split; cbn [p_env p_conn p_ids pseudo_disabled pseudo_inited with_ids with_penv with_passwd with_conn set_root with_paths c_paths ClientPath.pseudo_chroot]; try done; rewrite ?Hk, ?He by key; try done.
  - destruct (V2 ($"PSEUDO_UIDS")) as (-> & _), (V1 ($"PSEUDO_UIDS")) as (E & _). rewrite decide_False by key.
    by rewrite E, decide_True.
  - destruct (V2 ($"PSEUDO_GIDS")) as (-> & _). by rewrite decide_True.
Qed.

(** The root changes with its variable. *)
Lemma client_chroot_consistent {PF : PasswdFallback} path p p' :
  consistent p -> (path = $"/" -> environ (p_env p) !! $"PSEUDO_CHROOT" = None) -> client_chroot path p = Some p' ->
  consistent p' /\ p_ids p' = p_ids p /\
  pseudo_chroot (c_paths (p_conn p')) = if bool_decide (path = $"/") then None else Some path.
Proof.
  intros [Hs Hp (Hd1 & Hd2 & Hd3) (Hu1 & Hu2) Hu Hg Hr Hpw] Hroot. unfold client_chroot.
  set (root := if bool_decide (path = $"/") then None else Some path).
  assert (p_env (set_root root p) = p_env p) as -> by (by destruct p).
  set (e1 := (pseudo_set_value ($"PSEUDO_CHROOT") root (p_env p)).1).
  assert (Hs1 : settled e1).
  { apply set_value_still_settled; [done|key|]. unfold root. case_bool_decide; [|eauto]. rewrite Hroot by done. by intros [? ?]. }
  pose proof (fun k => set_value_lookup ($"PSEUDO_CHROOT") root (p_env p) k Hs ltac:(key)) as V1. fold e1 in V1.
  assert (environ e1 = environ (p_env p)) as He by (destruct (V1 []) as (_ & -> & _); done).
  assert (forall k, k <> $"PSEUDO_CHROOT" -> pseudo_env e1 !! k = pseudo_env (p_env p) !! k) as Hk.
  { intros k K. destruct (V1 k) as (-> & _). by rewrite decide_False. }
  destruct (chroot_passwd path _) as [w|]; cbn [mbind option_bind]; [|done]. intros H. apply (inj Some) in H. subst p'.
  destruct p as [e [cp cf ca cn cr cm cl co cpi cu cg cev] j d n a f x u w' m]. cbn [p_env p_conn p_ids pseudo_disabled pseudo_inited with_ids with_penv with_passwd with_conn set_root with_paths c_paths ClientPath.pseudo_chroot] in *.
  split; [|by split; destruct cp]. split; cbn [p_env p_conn p_ids pseudo_disabled pseudo_inited with_ids with_penv with_passwd with_conn set_root with_paths c_paths ClientPath.pseudo_chroot]; try done; rewrite ?Hk, ?He by key; try done.
  destruct (V1 ($"PSEUDO_CHROOT")) as (-> & _). by rewrite decide_True.
Qed.

Lemma start_child {BC : BuildConfig} {PF : PasswdFallback} {CE : ClientEnv} {SE : StartEnv} s libdir envp :
  start_process (setup_entries s libdir envp) = pseudo_init_client (fresh_process (child_env s libdir envp)).
Proof. unfold start_process, child_env. generalize (pseudo_init_util (started (setup_entries s libdir envp))). done. Qed.

(** What the environment [envp] must leave as it is for the program to run
    under pseudo like its parent [p]. *)
Record stays_under (envp : list bytes) (p : client_process) : Prop := {
  su_prefix : is_Some (passed envp ($"PSEUDO_PREFIX") (pseudo_env (p_env p) !! $"PSEUDO_PREFIX"));
  su_enabled : passed envp PSEUDO_DISABLED_ (pseudo_env (p_env p) !! PSEUDO_DISABLED_) = Some ($"0");
  su_unload : getenv_in envp ($"PSEUDO_UNLOAD") = None;
  su_passwd : match passed envp ($"PSEUDO_PASSWD") (pseudo_env (p_env p) !! $"PSEUDO_PASSWD") with
              | Some text => NUL ∉ text | None => True end
}.

Lemma plain_stays_under envp p : consistent p -> plain_envp envp -> stays_under envp p.
Proof.
  intros [_ Hp (Hd1 & _) _ _ _ _ Hpw] He.
  split; rewrite ?passed_plain by (done || key); try done. by destruct (plain_no_key envp ($"PSEUDO_UNLOAD") He ltac:(key)).
Qed.

(** C19: a program started by a process of pseudo, with an environment that
    does not turn pseudo off, reads its ids, its root and its directories of
    passwd files from the variables, which are those of the environment, or
    else those of the process; it is enabled, no call of it is passed on for
    want of [pseudo_magic], and it can start programs in the same way.  When
    the environment names none of pseudo's variables it is where the process
    was: with the ids PSEUDO_UIDS and PSEUDO_GIDS carry, which are the real,
    effective and saved ids of the process when its calls wrote the variables,
    in the same root, with all the directories of PSEUDO_PASSWD to search.  An
    environment that still has the values of before a [setuid] or a [chroot]
    takes the program back to them: see [old_environment] below. *)
Theorem child_is_where_parent_was {BC : BuildConfig} {PF : PasswdFallback} {CE : ClientEnv} {SE : StartEnv}
    envp p s1 s' libdir :
  consistent p -> dirs_open -> stays_under envp p ->
  eval_dirs (p_env p) = Some s1 -> pseudo_libdir_path None s1 = Some (s', libdir) -> (variables_set s' <= 18)%nat ->
  exists c ds, exec_process envp p = Some c /\ consistent c /\ p_antimagic c = 0 /\
    passwd_paths (p_passwd c) = Some ds /\
    (let var k := passed envp k (pseudo_env (p_env p) !! k) in
     p_ids c = start_ids (var ($"PSEUDO_UIDS")) (var ($"PSEUDO_GIDS")) /\
     pseudo_chroot (c_paths (p_conn c)) = var ($"PSEUDO_CHROOT") /\
     map (passwd_dir (p_passwd c)) ds = Some <$> passwd_dirs (var ($"PSEUDO_CHROOT")) (var ($"PSEUDO_PASSWD"))) /\
    (plain_envp envp ->
     p_ids c = exec_ids (p_ids p) /\
     (mirrored (p_ids p) -> uids_of (p_ids c) = uids_of (p_ids p) /\ gids_of (p_ids c) = gids_of (p_ids p)) /\
     pseudo_chroot (c_paths (p_conn c)) = pseudo_chroot (c_paths (p_conn p)) /\
     map (passwd_dir (p_passwd c)) ds =
       Some <$> passwd_dirs (pseudo_chroot (c_paths (p_conn p))) (pseudo_env (p_env p) !! $"PSEUDO_PASSWD")).
Proof.
  intros [Hs Hp (Hd1 & Hd2 & Hd3) (Hu1 & Hu2) Hu Hg Hr Hpw] Ho [Sp Sd Su Spw] He Hl Hc.
  destruct (exec_passes envp (p_env p) s1 s' libdir Hs He Hl Hc Su Hu1 Hu2) as [Hx [Hs' He' Hv']].
  unfold exec_process. rewrite Hx. cbn [mbind option_bind]. rewrite start_child.
  pose proof (child_env_lookup s' libdir envp) as Hlk.
  assert (forall k, k ∈ env_keys -> k <> $"PSEUDO_DEBUG" -> k <> $"PSEUDO_EVLOG" -> k ∉ dir_keys ->
    pseudo_env (child_env s' libdir envp) !! k = passed envp k (pseudo_env (p_env p) !! k)) as Hk.
  { intros k K1 K2 K3 K4. destruct (Hlk k K1 K2 K3) as [-> _]. by rewrite Hv'. }
  destruct (init_client_fresh (child_env s' libdir envp)) as (c & ds & Hi & Hcon & Hkept & Hids & Ha & Hw & Hdirs).
  - apply init_settled.
  - done.
  - intros k K1 K2 K3. by destruct (Hlk k K1 K2 K3) as [-> ->].
  - by rewrite Hk by key.
  - by rewrite Hk by key.
  - rewrite Hk by key. unfold passed. rewrite Su, Hu2. by destruct (existsb _ _).
  - by rewrite Hk by key.
  - pose proof (con_root c Hcon) as Hroot. rewrite (kept_vars _ _ Hkept) in Hroot by key.
    rewrite !Hk in Hids, Hdirs by key. rewrite Hk in Hroot by key.
    exists c, ds. split_and!; try done. intros Hplain. rewrite !passed_plain in Hids, Hdirs by (done || key).
    rewrite passed_plain in Hroot by (done || key). rewrite <- Hr in Hroot, Hdirs.
    assert (p_ids c = exec_ids (p_ids p)) as Hex by (rewrite Hids; unfold exec_ids; by rewrite Hu, Hg).
    split_and!; try done. intros Hm. rewrite Hex. destruct (exec_mirrored (p_ids p) Hm) as (? & ? & _). done.
Qed.

(** ** The name of the log file *)

Section LogName.
Context (pid : Z) (name : bytes).

(** What the pattern means. *)
Fixpoint log_name (s : bytes) : bytes :=
  match s with
  | [] => []
  | c :: s' =>
      if bool_decide (c = "%"%char) then
        match s' with
        | [] => []
        | d :: s'' => (if bool_decide (d = "%"%char) then [d] else if bool_decide (d = "d"%char) then decimal pid else name)
                      ++ log_name s''
        end
      else c :: log_name s'
  end.

(** The arguments it takes, in their order. *)
Fixpoint log_args (s : bytes) : list bytes :=
  match s with
  | [] => []
  | c :: s' =>
      if bool_decide (c = "%"%char) then
        match s' with
        | [] => []
        | d :: s'' => (if bool_decide (d = "%"%char) then [] else if bool_decide (d = "d"%char) then [decimal pid] else [name])
                      ++ log_args s''
        end
      else log_args s'
  end.

Lemma two_step_ind (P : bytes -> Prop) :
  P [] -> (forall c, P [c]) -> (forall c d s, P s -> P (d :: s) -> P (c :: d :: s)) -> forall s, P s.
Proof.
  intros H0 H1 H2 s. assert (P s /\ forall c, P (c :: s)) as [H _]; [|done].
  induction s as [|d s [IH1 IH2]]; [by split|]. split; [apply IH2|]. intros c. apply H2; [done|apply IH2].
Qed.

Lemma expand_log (s : bytes) : expand_format s (log_args s) = log_name s.
Proof.
  induction s as [|c|c d s IH1 IH2] using two_step_ind; [done|cbn; by case_bool_decide|].
  cbn [expand_format log_args log_name]. case_bool_decide; [|f_equal; exact IH2].
  destruct (bool_decide_reflect (d = "%"%char)); [cbn [app]; by rewrite IH1|].
  destruct (bool_decide_reflect (d = "d"%char)); cbn [app]; by rewrite IH1.
Qed.

Definition in_order (d q : option nat) (pd pr : option nat) : list bytes :=
  match d, q with
  | Some x, Some y =>
      match pd, pr with
      | None, None => if (x <? y)%nat then [decimal pid; name] else [name; decimal pid]
      | None, Some _ => [decimal pid]
      | Some _, None => [name]
      | Some _, Some _ => []
      end
  | Some _, None => match pd with None => [decimal pid] | Some _ => [] end
  | None, Some _ => match pr with None => [name] | Some _ => [] end
  | None, None => []
  end.

(** What was found before is kept, what is found lies further on. *)
Definition found_at (i : nat) (before after : option nat) : Prop :=
  match before with Some x => after = Some x | None => match after with Some y => (i <= y)%nat | None => True end end.

Lemma found_later i j before after : (i <= j)%nat -> found_at j before after -> found_at i before after.
Proof. unfold found_at. destruct before, after; try done. lia. Qed.

Ltac later := eapply found_later; [|eassumption]; lia.

Lemma scan_args (s : bytes) i pd pr d q :
  scan_log_name i s pd pr = Some (d, q) ->
  log_args s = in_order d q pd pr /\ found_at i pd d /\ found_at i pr q.
Proof.
  revert i pd pr. induction s as [|c|c e s IH1 IH2] using two_step_ind; intros i pd pr H.
  - cbn in H. injection H as <- <-. unfold in_order, found_at. by destruct pd, pr.
  - cbn in H |- *. case_bool_decide; [done|]. injection H as <- <-. unfold in_order, found_at. by destruct pd, pr.
  - cbn [scan_log_name log_args] in H |- *. case_bool_decide as Hc.
    + destruct (bool_decide_reflect (e = "%"%char)) as [He|He].
      { apply IH1 in H as (-> & H1 & H2). split; [done|]. split; later. }
      destruct (bool_decide_reflect (e = "d"%char)) as [Hd|Hd].
      * destruct pd; [done|]. subst e.
        cbn in H. replace (i + 1 + 1)%nat with (i + 2)%nat in H by lia.
        apply IH1 in H as (-> & H1 & H2). cbn [found_at] in H1. subst d.
        split; [|split; [cbn; lia|later]].
        unfold in_order. destruct q as [y|]; [|done]. destruct pr; [done|]. cbn in H2.
        by rewrite (proj2 (Nat.ltb_lt _ _)) by lia.
      * destruct (bool_decide_reflect (e = "s"%char)) as [Hq|Hq]; [|done]. destruct pr; [done|]. subst e.
        cbn in H. replace (i + 1 + 1)%nat with (i + 2)%nat in H by lia.
        apply IH1 in H as (-> & H1 & H2). cbn [found_at] in H2. subst q.
        split; [|split; [later|cbn; lia]].
        unfold in_order. destruct d as [x|]; [|done]. destruct pd; [done|]. cbn in H1.
        by rewrite (proj2 (Nat.ltb_ge _ _)) by lia.
    + apply IH2 in H as (E & H1 & H2). split; [exact E|]. split; later.
Qed.

Lemma log_name_length (s : bytes) :
  (length (log_name s) + 2 * length (log_args s) <= length s + sum_list (length <$> log_args s))%nat.
Proof.
  induction s as [|c|c d s IH1 IH2] using two_step_ind; [done|cbn; case_bool_decide; cbn; lia|].
  cbn [log_name log_args] in IH2 |- *. destruct (bool_decide_reflect (c = "%"%char)); [|cbn [length] in *; lia].
  destruct (bool_decide_reflect (d = "%"%char)); [cbn [app length] in *; lia|].
  destruct (bool_decide_reflect (d = "d"%char)); cbn [app]; rewrite length_app; csimpl; cbn [length] in *; lia.
Qed.

Lemma digits_length_fuel f n acc : (length (digits f n acc) <= f + length acc)%nat.
Proof.
  revert n acc. induction f as [|f IH]; intros n acc; cbn [digits]; [lia|]. cbv zeta.
  case_match; [simpl; lia|]. pose proof (IH (n / 10) (ascii_of_N (Z.to_N (48 + n mod 10)) :: acc)). simpl in *. lia.
Qed.

(** A pattern that is accepted gives the name it describes, in full; one
    without a directive is the name itself, with a doubled percent sign left
    as it is. *)
Theorem log_path_exact (filename : bytes) :
  0 <= pid ->
  match scan_log_name 0 filename None None with
  | None => log_path pid name filename = None
  | Some (None, None) => log_path pid name filename = Some filename
  | Some _ => log_path pid name filename = Some (log_name filename)
  end.
Proof.
  intros Hpid. destruct (scan_log_name 0 filename None None) as [[d q]|] eqn:Hs;
    [|unfold log_path; by rewrite Hs]. destruct (scan_args _ _ _ _ _ _ Hs) as (Ha & _ & _).
  pose proof (log_name_length filename) as Hlen. pose proof (expand_log filename) as He. rewrite Ha in Hlen, He.
  assert (length (decimal pid) <= 10)%nat as Hd.
  { unfold decimal. rewrite (proj2 (Z.ltb_ge _ _)) by lia. etrans; [apply digits_length_fuel|simpl; lia]. }
  unfold log_path. rewrite Hs. cbn [mbind option_bind]. unfold in_order in *.
  destruct d as [d|], q as [q|]; [destruct (d <? q)%nat| | |done]; rewrite He, take_ge; try done; csimpl in Hlen; lia.
Qed.
End LogName.

(** ** A process to start from *)

Definition sample_ids : ids := mkIds 0 1000 0 1000 0 0 0 0 (Some (four_ints 0 1000 0 1000)) None.

Definition sample_process : client_process :=
  mkProc (mkEnv ∅ {[ $"PSEUDO_PREFIX" := $"/opt/p"; $"PSEUDO_DISABLED" := $"0"; $"PSEUDO_UIDS" := four_ints 0 1000 0 1000;
                     $"PSEUDO_CHROOT" := $"/c"; $"PSEUDO_PASSWD" := $"/a:/b" ]} true (mkDebug 0 0) 0)
    (with_paths (mkClient [] [] (Some ($"/c/d")) (Some ($"/d")) (Some ($"/c"))) fresh_conn)
    sample_ids false true 0 false 0 18 (mkPasswd (Some ($"/c")) 1 None None) [].

Lemma sample_consistent : consistent sample_process.
Proof.
  split; try (by vm_compute); try (by split; vm_compute).
  - split; [done|]. intros k _ [v Hv]. cbn in Hv. by rewrite lookup_empty in Hv.
  - eexists. by vm_compute.
  - assert (bool_decide (NUL ∉ $"/a:/b") = true) as H by by vm_compute. by apply bool_decide_eq_true_1 in H.
Qed.

Lemma sample_mirrored : mirrored (p_ids sample_process).
Proof. constructor; repeat split; vm_compute; congruence. Qed.

Definition sample_client_env : ClientEnv :=
  {| getpid := 100; ignore_paths := None; program_invocation_name := $"sh"; pseudo_tag := [];
     dupfd := fun _ => 20; real_getcwd := Some ($"/c/d"); chunk := fun _ => None |}.

Definition sample_start_env : StartEnv := {| open_dir := fun _ _ => (3, false); process_umask := 18 |}.

Lemma sample_process_dirs : exists s1 s' d, @eval_dirs usual_dirs (p_env sample_process) = Some s1 /\
  @pseudo_libdir_path usual_dirs None s1 = Some (s', d) /\ (variables_set s' <= 18)%nat.
Proof.
  assert (match s1 ← @eval_dirs usual_dirs (p_env sample_process); '(s', d) ← @pseudo_libdir_path usual_dirs None s1;
    Some (s1, s', d) with Some (_, s', _) => (variables_set s' <=? 18)%nat | None => false end = true) as H by by vm_compute.
  destruct (eval_dirs _) as [s1|]; [|done]. cbn [mbind option_bind] in H.
  destruct (pseudo_libdir_path None s1) as [[s' d]|] eqn:E; [|done]. exists s1, s', d. split; [done|]. split; [done|].
  by apply Nat.leb_le.
Qed.

Lemma child_is_where_parent_was_witness :
  exists c, @exec_process usual_dirs usual_fallback sample_client_env sample_start_env [$"HOME=/root"] sample_process = Some c /\
    uids_of (p_ids c) = [0; 1000; 0] /\ pseudo_chroot (c_paths (p_conn c)) = Some ($"/c") /\ consistent c.
Proof.
  destruct sample_process_dirs as (s1 & s' & d & H1 & H2 & H3).
  destruct (@child_is_where_parent_was usual_dirs usual_fallback sample_client_env sample_start_env
    [$"HOME=/root"] sample_process s1 s' d sample_consistent) as (c & ds & Hc & Hcon & _ & _ & _ & Hplain).
  - by split.
  - apply plain_stays_under; [exact sample_consistent|]. repeat constructor.
  - exact H1.
  - exact H2.
  - exact H3.
  - destruct Hplain as (_ & Hm & Hr & _); [repeat constructor|].
    exists c. split; [exact Hc|]. split; [exact (proj1 (Hm sample_mirrored))|]. split; [exact Hr|exact Hcon].
Defined.

(** A program that hands on the environment it was started with, after it took
    another id and another root: the child has the old ones. *)
Example old_environment :
  match @exec_process usual_dirs usual_fallback sample_client_env sample_start_env
    [$"PSEUDO_UIDS=0,0,0,0"; $"PSEUDO_CHROOT=/old"] sample_process with
  | Some c => uids_of (p_ids c) = [0; 0; 0] /\ pseudo_chroot (c_paths (p_conn c)) = Some ($"/old")
  | None => False
  end /\ uids_of (p_ids sample_process) = [0; 1000; 0].
Proof. vm_compute. by split. Qed.

Lemma log_path_exact_witness : log_path 1234 ($"sh") ($"/tmp/%s-%d.log") = Some ($"/tmp/sh-1234.log").
Proof. pose proof (@log_path_exact 1234 ($"sh") ($"/tmp/%s-%d.log") ltac:(lia)) as H. vm_compute in H. exact H. Defined.

(** A doubled percent sign is one only if there is a directive. *)
Example log_path_percent :
  log_path 1 ($"sh") ($"100%%") = Some ($"100%%") /\ log_path 1 ($"sh") ($"100%%-%d") = Some ($"100%-1").
Proof. by split; vm_compute. Qed.
