(* ===== verification/Migrate.v ===== *)
(** Setting up the databases ([pseudo_db.c]): the tables and indexes a new
    database gets, the migrations that bring an older one up to date, and
    opening the databases ([make_tables], [get_db], [get_dbs], [pdb_restore]).

    A schema is what SQLite keeps of a database: its tables, each with its
    columns and rows, and its indexes.  SQLite is the class [SetupEngine]; the
    documented effect of the statements is [run], and [SetupLaws] says that a
    database follows it. *)

From stdpp Require Import base gmap list fin_maps option strings.
From Stdlib Require Import ZArith Lia Ascii.
From S2P Require Import Prelude.

Open Scope Z_scope.

(** ** Databases *)

Inductive cell := CInt (z : Z) | CText (s : bytes).

#[export] Instance cell_eq_dec : EqDecision cell.
Proof. solve_decision. Defined.

(** A column without a cell is NULL. *)
Abbreviation row := (gmap bytes cell).

Record table := mkTable { t_columns : list bytes; t_rows : list row }.
Record index := mkIndex { i_table : bytes; i_keys : list bytes; i_unique : bool }.
Record schema := mkSchema { s_tables : gmap bytes table; s_indexes : gmap bytes index }.

Definition no_schema : schema := mkSchema ∅ ∅.

Definition set_table (name : bytes) (t : table) (d : schema) : schema :=
  mkSchema (<[name := t]> (s_tables d)) (s_indexes d).

(** ** Statements *)

Inductive statement :=
  | CreateTable (name : bytes) (columns : list bytes)
  | CreateIndex (unique : bool) (name table : bytes) (keys : list bytes)
  | InsertInto (table : bytes) (columns : list bytes) (values : list cell)
  | AddColumn (table column : bytes)
  | CarryXattrs                  (* the INSERT ... SELECT of the fifth migration *)
  | DropTable (name : bytes)
  | RenameTable (old new : bytes).

Definition cell_int (c : option cell) : option Z := match c with Some (CInt z) => Some z | _ => None end.

(** [INTEGER PRIMARY KEY]: one more than the largest. *)
Definition next_id (rows : list row) : Z := foldl (fun m (r : row) => Z.max m (default 0 (cell_int (r !! $"id")))) 0 rows + 1.

Definition insert_row (r : row) (rows : list row) : list row := rows ++ [<[$"id" := CInt (next_id rows)]> r].

(** [(SELECT column FROM files WHERE id = file_id)] *)
Definition of_file (files : list row) (column : bytes) (x : row) : option cell :=
  '(_, f) ← list_find (fun f : row => is_Some (f !! $"id") /\ f !! $"id" = x !! $"file_id") files; f !! column.

Definition put (column : bytes) (c : option cell) (r : row) : row := partial_alter (fun _ => c) column r.

(** An attribute with the device and inode of its file in place of its id. *)
Definition carried (files : list row) (x : row) : row :=
  put ($"dev") (of_file files ($"dev") x) (put ($"ino") (of_file files ($"ino") x)
    (put ($"name") (x !! $"name") (put ($"value") (x !! $"value") ∅))).

Definition carry_all (files xattrs new : list row) : list row :=
  foldl (fun rows x => insert_row (carried files x) rows) new xattrs.

Definition key_of (keys : list bytes) (r : row) : option (list cell) := mapM (fun k => r !! k) keys.

(** Rows with a NULL among the keys differ from all others. *)
Definition unique_keys (keys : list bytes) (rows : list row) : bool := bool_decide (NoDup (omap (key_of keys) rows)).

Definition has_columns (columns : list bytes) (t : table) : bool := forallb (fun c => bool_decide (c ∈ t_columns t)) columns.

Definition name_taken (name : bytes) (d : schema) : bool :=
  bool_decide (is_Some (s_tables d !! name)) || bool_decide (is_Some (s_indexes d !! name)).

(** What a statement does; [None] is an error. *)
Definition run (s : statement) (d : schema) : option schema :=
  match s with
  | CreateTable name columns =>
      if name_taken name d then None else Some (set_table name (mkTable columns []) d)
  | CreateIndex unique name table keys =>
      t ← s_tables d !! table;
      if name_taken name d || negb (has_columns keys t) || (unique && negb (unique_keys keys (t_rows t))) then None
      else Some (mkSchema (s_tables d) (<[name := mkIndex table keys unique]> (s_indexes d)))
  | InsertInto table columns values =>
      t ← s_tables d !! table;
      if has_columns columns t && (length columns =? length values)%nat
      then Some (set_table table (mkTable (t_columns t) (insert_row (list_to_map (zip columns values)) (t_rows t))) d)
      else None
  | AddColumn table column =>
      t ← s_tables d !! table;
      if bool_decide (column ∈ t_columns t) then None
      else Some (set_table table (mkTable (t_columns t ++ [column]) (t_rows t)) d)
  | CarryXattrs =>
      f ← s_tables d !! $"files"; x ← s_tables d !! $"xattrs"; n ← s_tables d !! $"xattrs_new";
      if has_columns [$"id"; $"dev"; $"ino"] f && has_columns [$"file_id"; $"name"; $"value"] x &&
         has_columns [$"dev"; $"ino"; $"name"; $"value"] n
      then Some (set_table ($"xattrs_new") (mkTable (t_columns n) (carry_all (t_rows f) (t_rows x) (t_rows n))) d)
      else None
  | DropTable name =>
      _ ← s_tables d !! name;
      Some (mkSchema (delete name (s_tables d)) (filter (fun i => i_table i.2 <> name) (s_indexes d)))
  | RenameTable old new =>
      t ← s_tables d !! old;
      if name_taken new d then None
      else Some (mkSchema (<[new := t]> (delete old (s_tables d)))
                  ((fun i => if bool_decide (i_table i = old) then mkIndex new (i_keys i) (i_unique i) else i) <$> s_indexes d))
  end.

(** [SELECT MAX(version) FROM migrations] has one row, NULL if the table has
    none. *)
Definition versions (rows : list row) : list Z := omap (fun r : row => cell_int (r !! $"version")) rows.

Definition max_version (rows : list row) : option Z :=
  match versions rows with [] => None | v :: l => Some (foldl Z.max v l) end.

(** ** SQLite *)

Class SetupEngine (D : Type) := {
  (** [sqlite3_exec], or [sqlite3_prepare_v2] and [sqlite3_step]: whether it
      succeeded. *)
  db_exec : statement -> D -> D * bool;
  (** The names in sqlite_master; [None] is an error. *)
  db_tables : D -> option (list bytes);
  (** The answer to the query for the version: [None] is an error, [Some None]
      no row, [Some (Some None)] a row with NULL. *)
  db_version : D -> option (option (option Z));
  (** A pragma, or VACUUM. *)
  db_pragma : bytes -> D -> D
}.

Class SetupLaws (D : Type) `{SetupEngine D} := {
  view : D -> schema;
  exec_run s d : view (db_exec s d).1 = default (view d) (run s (view d)) /\
                 (db_exec s d).2 = bool_decide (is_Some (run s (view d)));
  tables_view d : exists l, db_tables d = Some l /\ forall n, n ∈ l <-> is_Some (s_tables (view d) !! n);
  version_view d : db_version d =
    match s_tables (view d) !! $"migrations" with
    | Some t => if has_columns [$"version"] t then Some (Some (max_version (t_rows t))) else None
    | None => None
    end;
  pragma_view p d : view (db_pragma p d) = view d
}.

#[export] Instance mem_setup : SetupEngine schema := {|
  db_exec s d := match run s d with Some d' => (d', true) | None => (d, false) end;
  db_tables d := Some (fst <$> map_to_list (s_tables d));
  db_version d := match s_tables d !! $"migrations" with
                  | Some t => if has_columns [$"version"] t then Some (Some (max_version (t_rows t))) else None
                  | None => None
                  end;
  db_pragma p d := d
|}.

#[export] Program Instance mem_setup_laws : SetupLaws schema := {| view d := d |}.
Next Obligation. intros s d. simpl. destruct (run s d); simpl; by split. Qed.
Next Obligation.
  intros d. eexists. split; [done|]. intros n. rewrite list_elem_of_fmap. split.
  - intros ([k v] & -> & Hk%elem_of_map_to_list). by exists v.
  - intros [v Hv]. exists (n, v). by rewrite elem_of_map_to_list.
Qed.
Next Obligation. done. Qed.
Next Obligation. done. Qed.

(** ** The tables the code declares *)

(** [values] are the rows a new table gets, in the columns [names]. *)
Record sql_table := mkSqlTable { tab_name : bytes; tab_columns : list bytes; tab_names : list bytes; tab_values : list (list cell) }.
Record sql_index := mkSqlIndex { idx_name : bytes; idx_table : bytes; idx_keys : list bytes }.

Definition migration_names : list bytes := [$"version"; $"stamp"; $"sql"].
Definition migration_columns : list bytes := $"id" :: migration_names.
Definition initial_setup (version : Z) : list (list cell) := [[CInt version; CInt (-1); CText ($"N/A (initial setup)")]].

Definition file_columns : list bytes :=
  [$"id"; $"path"; $"dev"; $"ino"; $"uid"; $"gid"; $"mode"; $"rdev"; $"deleting"].
Definition xattr_columns : list bytes := [$"id"; $"dev"; $"ino"; $"name"; $"value"].
Definition log_columns : list bytes :=
  [$"id"; $"stamp"; $"op"; $"client"; $"fd"; $"dev"; $"ino"; $"mode"; $"path"; $"result"; $"severity"; $"text"; $"tag";
   $"uid"; $"gid"; $"access"; $"program"; $"type"].

Definition file_tables : list sql_table :=
  [mkSqlTable ($"files") file_columns [] []; mkSqlTable ($"xattrs") xattr_columns [] [];
   mkSqlTable ($"migrations") migration_columns migration_names (initial_setup 8)].
Definition log_tables : list sql_table :=
  [mkSqlTable ($"logs") log_columns [] []; mkSqlTable ($"migrations") migration_columns migration_names (initial_setup 7)].

Definition migration_index : sql_index := mkSqlIndex ($"migration__version") ($"migrations") [$"version"].
Definition file_indexes : list sql_index :=
  [mkSqlIndex ($"files__path_dev_ino") ($"files") [$"path"; $"dev"; $"ino"];
   mkSqlIndex ($"files__dev_ino") ($"files") [$"dev"; $"ino"];
   migration_index;
   mkSqlIndex ($"xattrs_dev_ino") ($"xattrs") [$"dev"; $"ino"];
   mkSqlIndex ($"xattrs_dev_ino_name") ($"xattrs") [$"dev"; $"ino"; $"name"]].
Definition log_indexes : list sql_index := [migration_index].

Definition create_migration_table : statement := CreateTable ($"migrations") migration_columns.
Definition index_migration_table : statement := CreateIndex false ($"migration__version") ($"migrations") [$"version"].

Definition file_migrations : list statement :=
  [create_migration_table; index_migration_table; AddColumn ($"files") ($"deleting");
   CreateTable ($"xattrs_new") xattr_columns; CarryXattrs; DropTable ($"xattrs"); RenameTable ($"xattrs_new") ($"xattrs");
   CreateIndex false ($"xattrs__dev_ino") ($"xattrs") [$"dev"; $"ino"];
   CreateIndex true ($"xattrs__dev_ino_name") ($"xattrs") [$"dev"; $"ino"; $"name"]].
Definition log_migrations : list statement :=
  [create_migration_table; index_migration_table; AddColumn ($"logs") ($"tag"); AddColumn ($"logs") ($"uid");
   AddColumn ($"logs") ($"gid"); AddColumn ($"logs") ($"access"); AddColumn ($"logs") ($"program"); AddColumn ($"logs") ($"type")].

(** ** [make_tables] *)

Section MakeTables.
Context {D : Type} {SE : SetupEngine D}.

(** Statements in order up to the first that fails. *)
Fixpoint exec_all (l : list statement) (d : D) : D * bool :=
  match l with
  | [] => (d, true)
  | s :: l => let '(d, ok) := db_exec s d in if ok then exec_all l d else (d, false)
  end.

(** A table that is missing, its first rows and its indexes. *)
Definition table_statements (indexes : list sql_index) (t : sql_table) : list statement :=
  CreateTable (tab_name t) (tab_columns t) ::
  map (InsertInto (tab_name t) (tab_names t)) (tab_values t) ++
  map (fun i => CreateIndex false (idx_name i) (idx_table i) (idx_keys i))
    (filter (fun i => idx_table i = tab_name t) indexes).

(** [existing] are the names read when the database was opened. *)
Definition missing_statements (tables : list sql_table) (indexes : list sql_index) (existing : list bytes) : list statement :=
  @concat _ (map (table_statements indexes) (filter (fun t => tab_name t ∉ existing) tables)).

(** The version found: an [int], never below -1 and never above the last
    migration. *)
Definition clamp_version (available : Z) (v : Z) : Z :=
  let v := if v <? -1 then -1 else v in if available <? v then available else v.

(** Migration number [n] and the row that says it was done. *)
Definition migrate_one (now : Z) (text : statement -> bytes) (n : Z) (m : statement) (d : D) : D * bool :=
  exec_all [m; InsertInto ($"migrations") migration_names [CInt n; CInt now; CText (text m)]] d.

Fixpoint migrate_from (now : Z) (text : statement -> bytes) (n : Z) (l : list statement) (d : D) : D * bool :=
  match l with
  | [] => (d, true)
  | m :: l => let '(d, ok) := migrate_one now text n m d in if ok then migrate_from now text (n + 1) l d else (d, false)
  end.

(** The result 0 is success.  [text] is the SQL of a migration. *)
Definition make_tables (now : Z) (text : statement -> bytes) (tables : list sql_table) (indexes : list sql_index)
    (migrations : list statement) (existing : list bytes) (d : D) : D * Z :=
  let '(d, ok) := exec_all (missing_statements tables indexes existing) d in
  if negb ok then (d, 1)
  else
    match db_version d with
    | None => (d, 1)
    | Some r =>
        let version := match r with Some v => int32 (default 0 v) | None => -1 end in
        let version := clamp_version (Z.of_nat (length migrations) - 1) version in
        let '(d, ok) := migrate_from now text (version + 1) (drop (Z.to_nat (version + 1)) migrations) d in
        (d, if ok then 0 else 1)
    end.

(** The lines it prints on standard output. *)
Definition considered (tables : list sql_table) : list bytes := map (fun t => $"considering table " ++ tab_name t) tables.

(** ** Opening *)

Record database_info := mkInfo {
  info_tables : list sql_table; info_indexes : list sql_index; info_migrations : list statement;
  info_pragmas : list bytes; info_setups : list bytes
}.

(** [open] is what [sqlite3_open] gives, [opened] the connection if there is
    one already. *)
Definition get_db (now : Z) (text : statement -> bytes) (info : database_info) (open : option D) (opened : option D) :
    option D * Z :=
  match opened, open with
  | Some d, _ => (Some d, 0)
  | None, None => (None, 1)
  | None, Some d =>
      let d := foldl (fun d p => db_pragma p d) d (info_pragmas info) in
      let '(d, rc) := match db_tables d with
                      | None => (d, 1)
                      | Some names => make_tables now text (info_tables info) (info_indexes info) (info_migrations info) names d
                      end in
      (Some (foldl (fun d p => db_pragma p d) d (info_setups info)), rc)
  end.
End MakeTables.

Definition log_info : database_info := mkInfo log_tables log_indexes log_migrations
  [$"PRAGMA legacy_file_format = OFF;"; $"PRAGMA journal_mode = OFF;"; $"PRAGMA locking_mode = EXCLUSIVE;";
   $"PRAGMA synchronous = OFF;"] [].
Definition file_info : database_info := mkInfo file_tables file_indexes file_migrations
  [$"PRAGMA legacy_file_format = OFF;"; $"PRAGMA page_size = 8192;"; $"PRAGMA journal_mode = OFF;";
   $"PRAGMA locking_mode = EXCLUSIVE;"; $"PRAGMA synchronous = OFF;"; $"PRAGMA foreign_keys = ON;"] [$"VACUUM;"].

(** The three connections of a build with the database in memory. *)
Record connections (D : Type) := mkConns { log_db : option D; real_file_db : option D; file_db : option D }.
Arguments mkConns {D}.
Arguments log_db {D}.
Arguments real_file_db {D}.
Arguments file_db {D}.

Section GetDbs.
Context {D : Type} {SE : SetupEngine D}.

(** [pdb_restore]: the backup interface copies the whole database.  [backup]
    says whether it could be started and finished. *)
Definition pdb_restore (backup : bool) (c : connections D) : connections D :=
  match file_db c, real_file_db c with
  | Some _, Some real => if backup then mkConns (log_db c) (Some real) (Some real) else c
  | _, _ => c
  end.

(** [logs], [files] and [memory] are what the three calls of [sqlite3_open]
    give. *)
Definition get_dbs (now : Z) (text : statement -> bytes) (backup : bool) (logs files memory : option D)
    (c : connections D) : connections D * Z :=
  let '(l, e1) := get_db now text log_info logs (log_db c) in
  let '(r, e2) := get_db now text file_info files (real_file_db c) in
  let '(f, e3) := get_db now text file_info memory (file_db c) in
  let err := if (e1 =? 0) && (e2 =? 0) && (e3 =? 0) then 0 else 1 in
  let c' := mkConns l r f in
  (match file_db c with Some _ => c' | None => pdb_restore backup c' end, err).
End GetDbs.
