(* ===== verification/MigrateSpec.v ===== *)
(** Opening a database leaves it with the tables of the current version: a new
    one gets them, one that is current is not touched, and an older one is
    migrated with its rows, each attribute moving to the device and inode of
    its file.  And where an upgrade does not work. *)

From stdpp Require Import base gmap list fin_maps option strings.
From Stdlib Require Import ZArith Lia Ascii.
From S2P Require Import Prelude Migrate.

Open Scope Z_scope.



(** ** Statements in a row *)

Fixpoint run_all (l : list statement) (d : schema) : option schema :=
  match l with
  | [] => Some d
  | s :: l => d ← run s d; run_all l d
  end.

Lemma run_all_app l1 l2 d : run_all (l1 ++ l2) d = d ← run_all l1 d; run_all l2 d.
Proof. revert d. induction l1 as [|s l1 IH]; intros d; [done|].
  cbn [app run_all]. destruct (run s d); cbn [mbind option_bind]; [apply IH|done].
Qed.

(** The statements that migrate and record, as a list. *)
Fixpoint migration_statements (now : Z) (text : statement -> bytes) (n : Z) (l : list statement) : list statement :=
  match l with
  | [] => []
  | m :: l => m :: InsertInto ($"migrations") migration_names [CInt n; CInt now; CText (text m)]
              :: migration_statements now text (n + 1) l
  end.

Section Laws.
Context {D : Type} {SE : SetupEngine D} {SL : SetupLaws D}.

Lemma exec_all_run l d :
  match run_all l (view d) with
  | Some v => exists d', exec_all l d = (d', true) /\ view d' = v
  | None => exists d', exec_all l d = (d', false)
  end.
Proof.
  revert d. induction l as [|s l IH]; intros d; [by exists d|]. cbn [run_all exec_all].
  destruct (exec_run s d) as [Hv Hok]. destruct (db_exec s d) as [d1 ok]. cbn [fst snd] in *. subst ok.
  destruct (run s (view d)) as [v|]; cbn [default from_option id] in Hv; cbn [mbind option_bind].
  - rewrite bool_decide_eq_true_2 by eauto. rewrite <- Hv. apply IH.
  - rewrite bool_decide_eq_false_2 by (by intros [? ?]). eauto.
Qed.

Lemma migrate_from_exec now text n l d : migrate_from now text n l d = exec_all (migration_statements now text n l) d.
Proof.
  revert n d. induction l as [|m l IH]; intros n d; [done|]. cbn [migrate_from migration_statements exec_all].
  unfold migrate_one. cbn [exec_all]. destruct (db_exec m d) as [d1 []]; [|done].
  destruct (db_exec _ d1) as [d2 []]; [|done]. apply IH.
Qed.

(** Tables that are not there. *)
Definition missing_in (tables : list sql_table) (d : schema) : list sql_table :=
  filter (fun t => s_tables d !! tab_name t = None) tables.

Definition setup_list (tables : list sql_table) (indexes : list sql_index) (d : schema) : list statement :=
  @concat _ (map (table_statements indexes) (missing_in tables d)).

(** The version the migrations start from. *)
Definition version_of (available : Z) (d : schema) : option Z :=
  t ← s_tables d !! $"migrations";
  if has_columns [$"version"] t then Some (clamp_version available (int32 (default 0 (max_version (t_rows t))))) else None.

(** What opening does, on schemas. *)
Definition set_up (now : Z) (text : statement -> bytes) (info : database_info) (d : schema) : option schema :=
  d ← run_all (setup_list (info_tables info) (info_indexes info) d) d;
  v ← version_of (Z.of_nat (length (info_migrations info)) - 1) d;
  run_all (migration_statements now text (v + 1) (drop (Z.to_nat (v + 1)) (info_migrations info))) d.

Lemma pragmas_view l d : view (foldl (fun d p => db_pragma p d) d l) = view d.
Proof. revert d. induction l as [|p l IH]; intros d; [done|]. cbn [foldl]. by rewrite IH, pragma_view. Qed.

Lemma missing_same tables (l : list bytes) d :
  (forall n, n ∈ l <-> is_Some (s_tables d !! n)) -> filter (fun t => tab_name t ∉ l) tables = missing_in tables d.
Proof.
  intros H. unfold missing_in. induction tables as [|t tables IH]; [done|]. rewrite !filter_cons, IH.
  apply decide_ext. rewrite H. by rewrite eq_None_not_Some.
Qed.

Lemma get_db_set_up now text info d v :
  set_up now text info (view d) = Some v -> exists d', get_db now text info (Some d) None = (Some d', 0) /\ view d' = v.
Proof.
  unfold set_up. intros H. unfold get_db. set (d0 := foldl _ d (info_pragmas info)).
  assert (view d0 = view d) as Hd0 by apply pragmas_view. rewrite <- Hd0 in H. clearbody d0.
  destruct (tables_view d0) as (l & Hl & Hin). rewrite Hl. unfold make_tables, missing_statements.
  rewrite (missing_same _ l (view d0)) by done. fold (setup_list (info_tables info) (info_indexes info) (view d0)).
  pose proof (exec_all_run (setup_list (info_tables info) (info_indexes info) (view d0)) d0) as H1.
  destruct (run_all (setup_list _ _ _) _) as [v1|]; cbn [mbind option_bind] in H; [|done]. destruct H1 as (d1 & -> & Hv1).
  cbn [negb]. pose proof (version_view d1) as Hver. rewrite Hv1 in Hver. unfold version_of in H.
  destruct (s_tables v1 !! $"migrations") as [t|]; cbn [mbind option_bind] in H; [|done].
  destruct (has_columns _ t); cbn [mbind option_bind] in H; [|done]. rewrite Hver.
  rewrite migrate_from_exec. set (ms := migration_statements _ _ _ _) in *.
  pose proof (exec_all_run ms d1) as H2. rewrite Hv1, H in H2. destruct H2 as (d2 & -> & Hv2).
  eexists. split; [done|]. by rewrite pragmas_view.
Qed.

Lemma get_db_fails now text info d :
  set_up now text info (view d) = None -> exists d', get_db now text info (Some d) None = (Some d', 1).
Proof.
  unfold set_up. intros H. unfold get_db. set (d0 := foldl _ d (info_pragmas info)).
  assert (view d0 = view d) as Hd0 by apply pragmas_view. rewrite <- Hd0 in H. clearbody d0.
  destruct (tables_view d0) as (l & Hl & Hin). rewrite Hl. unfold make_tables, missing_statements.
  rewrite (missing_same _ l (view d0)) by done. fold (setup_list (info_tables info) (info_indexes info) (view d0)).
  pose proof (exec_all_run (setup_list (info_tables info) (info_indexes info) (view d0)) d0) as H1.
  destruct (run_all (setup_list _ _ _) _) as [v1|]; cbn [mbind option_bind] in H; [|destruct H1 as [d1 ->]; eauto].
  destruct H1 as (d1 & -> & Hv1).
  cbn [negb]. pose proof (version_view d1) as Hver. rewrite Hv1 in Hver. unfold version_of in H.
  destruct (s_tables v1 !! $"migrations") as [t|]; cbn [mbind option_bind] in H; [|rewrite Hver; eauto].
  destruct (has_columns _ t); cbn [mbind option_bind] in H; [|rewrite Hver; eauto]. rewrite Hver.
  rewrite migrate_from_exec. set (ms := migration_statements _ _ _ _) in *.
  pose proof (exec_all_run ms d1) as H2. rewrite Hv1, H in H2. destruct H2 as (d2 & ->). eauto.
Qed.
End Laws.

(** ** Versions *)

Lemma versions_insert (n now : Z) (s : bytes) (rows : list row) :
  versions (insert_row (list_to_map (zip migration_names [CInt n; CInt now; CText s])) rows) = versions rows ++ [n].
Proof.
  unfold versions, insert_row. rewrite omap_app. f_equal.
Qed.

Lemma foldl_max_app (v n : Z) (l : list Z) : foldl Z.max v (l ++ [n]) = Z.max (foldl Z.max v l) n.
Proof. by rewrite foldl_app. Qed.

Lemma max_version_insert (n now : Z) (s : bytes) (rows : list row) :
  max_version (insert_row (list_to_map (zip migration_names [CInt n; CInt now; CText s])) rows) =
  Some (match max_version rows with Some m => Z.max m n | None => n end).
Proof.
  unfold max_version. rewrite versions_insert. destruct (versions rows) as [|v l]; [done|]. cbn [app].
  by rewrite foldl_max_app.
Qed.

(** ** Single statements *)

Lemma name_free (n : bytes) (T : gmap bytes table) (I : gmap bytes index) : T !! n = None -> I !! n = None -> name_taken n (mkSchema T I) = false.
Proof. intros H1 H2. unfold name_taken. simpl. by rewrite H1, H2, !bool_decide_eq_false_2 by (by intros [? ?]). Qed.

Lemma run_index (u : bool) (n t : bytes) (k : list bytes) (T : gmap bytes table) (I : gmap bytes index) (tab : table) :
  T !! t = Some tab -> T !! n = None -> I !! n = None -> has_columns k tab = true ->
  (u = true -> unique_keys k (t_rows tab) = true) ->
  run (CreateIndex u n t k) (mkSchema T I) = Some (mkSchema T (<[n := mkIndex t k u]> I)).
Proof.
  intros Ht Hn Hi Hc Hu. cbn [run s_tables]. rewrite Ht. cbn [mbind option_bind]. rewrite name_free, Hc by done. cbn [orb negb].
  destruct u; [by rewrite Hu by done|done].
Qed.

Lemma run_create (n : bytes) (cols : list bytes) (T : gmap bytes table) (I : gmap bytes index) : T !! n = None -> I !! n = None ->
  run (CreateTable n cols) (mkSchema T I) = Some (mkSchema (<[n := mkTable cols []]> T) I).
Proof. intros. cbn [run]. by rewrite name_free. Qed.

Lemma run_add (t c : bytes) (T : gmap bytes table) (I : gmap bytes index) (tab : table) : T !! t = Some tab -> bool_decide (c ∈ t_columns tab) = false ->
  run (AddColumn t c) (mkSchema T I) = Some (mkSchema (<[t := mkTable (t_columns tab ++ [c]) (t_rows tab)]> T) I).
Proof. intros Ht Hc. cbn [run s_tables]. rewrite Ht. cbn [mbind option_bind]. by rewrite Hc. Qed.

Lemma run_drop (t : bytes) (T : gmap bytes table) (I : gmap bytes index) (tab : table) : T !! t = Some tab ->
  run (DropTable t) (mkSchema T I) = Some (mkSchema (delete t T) (filter (fun i => i_table i.2 <> t) I)).
Proof. intros Ht. cbn [run s_tables]. by rewrite Ht. Qed.

Definition moved (old new : bytes) (i : index) : index :=
  if bool_decide (i_table i = old) then mkIndex new (i_keys i) (i_unique i) else i.

Lemma run_rename (old new : bytes) (T : gmap bytes table) (I : gmap bytes index) (tab : table) : T !! old = Some tab -> T !! new = None -> I !! new = None ->
  run (RenameTable old new) (mkSchema T I) = Some (mkSchema (<[new := tab]> (delete old T)) (moved old new <$> I)).
Proof. intros Ht Hn Hi. cbn [run s_tables]. rewrite Ht. cbn [mbind option_bind]. by rewrite name_free. Qed.

Lemma run_carry (T : gmap bytes table) (I : gmap bytes index) (f x n : table) : T !! $"files" = Some f -> T !! $"xattrs" = Some x -> T !! $"xattrs_new" = Some n ->
  has_columns [$"id"; $"dev"; $"ino"] f && has_columns [$"file_id"; $"name"; $"value"] x &&
    has_columns [$"dev"; $"ino"; $"name"; $"value"] n = true ->
  run CarryXattrs (mkSchema T I) =
    Some (mkSchema (<[ $"xattrs_new" := mkTable (t_columns n) (carry_all (t_rows f) (t_rows x) (t_rows n))]> T) I).
Proof.
  intros Hf Hx Hn Hc. cbn [run s_tables]. rewrite Hf. cbn [mbind option_bind]. rewrite Hx. cbn [mbind option_bind].
  rewrite Hn. cbn [mbind option_bind]. by rewrite Hc.
Qed.

(** The row that records a migration. *)
Definition recorded (n now : Z) (s : bytes) (rows : list row) : list row :=
  insert_row (list_to_map (zip migration_names [CInt n; CInt now; CText s])) rows.

Lemma run_record (n now : Z) (s : bytes) (T : gmap bytes table) (I : gmap bytes index) (rows : list row) : T !! $"migrations" = Some (mkTable migration_columns rows) ->
  run (InsertInto ($"migrations") migration_names [CInt n; CInt now; CText s]) (mkSchema T I) =
    Some (mkSchema (<[ $"migrations" := mkTable migration_columns (recorded n now s rows)]> T) I).
Proof. intros Ht. cbn [run s_tables]. rewrite Ht. cbn [mbind option_bind]. done. Qed.

(** ** Migrations one after the other *)

Section Steps.
Context (now : Z) (text : statement -> bytes) (migrations : list statement).

Definition one_migration (v : Z) : list statement :=
  match migrations !! Z.to_nat v with
  | Some m => [m; InsertInto ($"migrations") migration_names [CInt v; CInt now; CText (text m)]]
  | None => []
  end.

(** A step whose migration is done and recorded. *)
Lemma step_done (v : Z) (m : statement) (T1 T2 T3 : gmap bytes table) (I I' : gmap bytes index) (mr : list row) :
  migrations !! Z.to_nat v = Some m ->
  run m (mkSchema T1 I) = Some (mkSchema T2 I') -> T2 !! $"migrations" = Some (mkTable migration_columns mr) ->
  <[ $"migrations" := mkTable migration_columns (recorded v now (text m) mr)]> T2 = T3 ->
  run_all (one_migration v) (mkSchema T1 I) = Some (mkSchema T3 I').
Proof.
  intros Hm Hr Ht <-. unfold one_migration. rewrite Hm. cbn [run_all]. rewrite Hr. cbn [mbind option_bind].
  by rewrite (run_record _ _ _ _ _ mr) by done.
Qed.

(** [tables v mr] is a database of version [v], [free] what its indexes must
    leave free; [top] is the last version. *)
Context (tables : Z -> list row -> gmap bytes table) (free : Z -> gmap bytes index -> Prop) (top : Z).
Hypothesis Htop : Z.of_nat (length migrations) - 1 = top.
Hypothesis int_top : 0 <= top < 1000.
Hypothesis Hrecord : forall v mr, 0 <= v <= top -> tables v mr !! $"migrations" = Some (mkTable migration_columns mr).
Hypothesis Hstep : forall (v : Z) (mr : list row) (I : gmap bytes index), 0 <= v < top -> free v I ->
  exists s I', run_all (one_migration (v + 1)) (mkSchema (tables v mr) I) =
    Some (mkSchema (tables (v + 1) (recorded (v + 1) now s mr)) I') /\ free (v + 1) I'.

Lemma migration_statements_step (v : Z) : 0 <= v < top ->
  migration_statements now text (v + 1) (drop (Z.to_nat (v + 1)) migrations) =
  one_migration (v + 1) ++ migration_statements now text (v + 1 + 1) (drop (Z.to_nat (v + 1 + 1)) migrations).
Proof.
  intros Hv. unfold one_migration. destruct (lookup_lt_is_Some_2 migrations (Z.to_nat (v + 1))) as [m Hm]; [lia|].
  rewrite Hm. rewrite (drop_S _ m) by done. cbn [migration_statements app].
  replace (Z.to_nat (v + 1 + 1)) with (S (Z.to_nat (v + 1))) by lia. done.
Qed.

(** The steps still to do. *)
Lemma upgrade_steps (v : Z) (mr : list row) (I : gmap bytes index) : 0 <= v <= top -> free v I -> max_version mr = Some v ->
  exists mr' I', run_all (migration_statements now text (v + 1) (drop (Z.to_nat (v + 1)) migrations))
      (mkSchema (tables v mr) I) = Some (mkSchema (tables top mr') I') /\
    max_version mr' = Some top /\ mr `prefix_of` mr'.
Proof.
  intros Hv. remember (Z.to_nat (top - v)) as k eqn:Hk. revert v mr I Hv Hk.
  induction k as [|k IH]; intros v mr I Hv Hk Hn Hm.
  - assert (v = top) as -> by lia. exists mr, I. rewrite drop_ge by lia. done.
  - rewrite migration_statements_step by lia. rewrite run_all_app.
    destruct (Hstep v mr I) as (s & I1 & Hs & Hn1); [lia|done|]. rewrite Hs. cbn [mbind option_bind].
    destruct (IH (v + 1) (recorded (v + 1) now s mr) I1) as (mr' & I' & Hr & Hv' & Hp); [lia|lia|done| |].
    + unfold recorded. rewrite max_version_insert, Hm. f_equal. lia.
    + exists mr', I'. split; [exact Hr|]. split; [done|]. etransitivity; [|done]. unfold recorded, insert_row.
      by apply prefix_app_r.
Qed.

Lemma version_found (v : Z) (mr : list row) (I : gmap bytes index) : 0 <= v <= top -> max_version mr = Some v ->
  version_of top (mkSchema (tables v mr) I) = Some v.
Proof.
  intros Hv Hm. unfold version_of. cbn [s_tables]. rewrite Hrecord by done. cbn [mbind option_bind t_rows].
  change (has_columns _ _) with true. rewrite Hm. cbn [default from_option id]. f_equal.
  rewrite wrap_signed_small by lia. unfold clamp_version. destruct (Z.ltb_spec v (-1)); [lia|]. destruct (Z.ltb_spec top v); lia.
Qed.

Lemma set_up_upgrades (info : database_info) (v : Z) (mr : list row) (I : gmap bytes index) :
  info_migrations info = migrations -> setup_list (info_tables info) (info_indexes info) (mkSchema (tables v mr) I) = [] ->
  0 <= v <= top -> free v I -> max_version mr = Some v ->
  exists mr' I', set_up now text info (mkSchema (tables v mr) I) = Some (mkSchema (tables top mr') I') /\
    max_version mr' = Some top /\ mr `prefix_of` mr'.
Proof.
  intros Hi Hs Hv Hn Hm. unfold set_up. rewrite Hs, Hi, Htop. cbn [run_all mbind option_bind].
  rewrite version_found by done. cbn [mbind option_bind]. by apply upgrade_steps.
Qed.
End Steps.

(** ** The files *)

Definition old_xattr_columns : list bytes := [$"id"; $"file_id"; $"name"; $"value"].

(** What version [v] made of the rows [fr] of the files and [xr] of the
    attributes as they were before the change of their table: from 3 on the
    new table exists, from 4 on it has the attributes, 5 has lost the old one
    and 6 renamed the new one. *)
Definition version_tables (v : Z) (fr xr mr : list row) : gmap bytes table :=
  let files := mkTable (if v <? 2 then take 8 file_columns else file_columns) fr in
  let migrations := mkTable migration_columns mr in
  let carried := mkTable xattr_columns (carry_all fr xr []) in
  if v <? 3 then {[ $"files" := files; $"xattrs" := mkTable old_xattr_columns xr; $"migrations" := migrations ]}
  else if v <? 4 then {[ $"files" := files; $"xattrs" := mkTable old_xattr_columns xr; $"migrations" := migrations;
                         $"xattrs_new" := mkTable xattr_columns [] ]}
  else if v <? 5 then {[ $"files" := files; $"xattrs" := mkTable old_xattr_columns xr; $"migrations" := migrations;
                         $"xattrs_new" := carried ]}
  else if v <? 6 then {[ $"files" := files; $"migrations" := migrations; $"xattrs_new" := carried ]}
  else {[ $"files" := files; $"xattrs" := carried; $"migrations" := migrations ]}.

(** The names the migrations still need. *)
Record names_free (v : Z) (I : gmap bytes index) : Prop := {
  nf_version : v < 1 -> I !! $"migration__version" = None;
  nf_index : v < 7 -> I !! $"xattrs__dev_ino" = None;
  nf_unique : v < 8 -> I !! $"xattrs__dev_ino_name" = None;
  nf_xattrs : I !! $"xattrs" = None;
  nf_new : I !! $"xattrs_new" = None
}.

Lemma names_free_insert (v v' : Z) (I : gmap bytes index) (n : bytes) (i : index) : names_free v I -> v <= v' ->
  n <> $"xattrs" -> n <> $"xattrs_new" -> (v' < 8 -> n <> $"xattrs__dev_ino_name") ->
  (v' < 7 -> n <> $"xattrs__dev_ino") -> (v' < 1 -> n <> $"migration__version") -> names_free v' (<[n := i]> I).
Proof.
  intros [H1 H2 H3 H4 H5] Hv N1 N2 N3 N4 N5. split; intros; rewrite lookup_insert_ne; auto with lia.
Qed.

Lemma names_free_later v v' I : names_free v I -> v <= v' -> names_free v' I.
Proof. intros [] ?. split; auto with lia. Qed.

Section Upgrade.
Context (now : Z) (text : statement -> bytes) (fr xr : list row).
Hypothesis distinct : unique_keys [$"dev"; $"ino"; $"name"] (carry_all fr xr []) = true.

Lemma upgrade_step (v : Z) (mr : list row) (I : gmap bytes index) : 0 <= v < 8 -> names_free v I ->
  exists s I', run_all (one_migration now text file_migrations (v + 1)) (mkSchema (version_tables v fr xr mr) I) =
    Some (mkSchema (version_tables (v + 1) fr xr (recorded (v + 1) now s mr)) I') /\ names_free (v + 1) I'.
Proof.
  intros Hv Hn. pose proof Hn as [H1 H2 H3 H4 H5].
  assert (v = 0 \/ v = 1 \/ v = 2 \/ v = 3 \/ v = 4 \/ v = 5 \/ v = 6 \/ v = 7) as Hcase by lia.
  revert distinct. unfold version_tables. remember (carry_all fr xr []) as cr eqn:Hcarry. intros Hcr.
  assert (forall (P : bytes * index -> Prop) `{forall x, Decision (P x)} n, I !! n = None -> filter P I !! n = None) as Hfil.
  { intros P ? n Hn'. apply map_lookup_filter_None_2. by left. }
  destruct Hcase as [->|[->|[->|[->|[->|[->|[->| ->]]]]]]]; do 2 eexists; split.
  - eapply step_done; [reflexivity|eapply run_index; [reflexivity|reflexivity|auto with lia|reflexivity|done]|reflexivity|reflexivity].
  - apply (names_free_insert 0); [done|lia|key|key|intros; key|intros; key|intros; exfalso; lia].
  - eapply step_done; [reflexivity|eapply run_add; [reflexivity|reflexivity]|reflexivity|reflexivity].
  - apply (names_free_later _ _ _ Hn). lia.
  - eapply step_done; [reflexivity|eapply run_create; [reflexivity|done]|reflexivity|reflexivity].
  - apply (names_free_later _ _ _ Hn). lia.
  - rewrite Hcarry. eapply step_done; [reflexivity|eapply run_carry; [reflexivity|reflexivity|reflexivity|reflexivity]|reflexivity|reflexivity].
  - apply (names_free_later _ _ _ Hn). lia.
  - eapply step_done; [reflexivity|eapply run_drop; reflexivity|reflexivity|reflexivity].
  - split; intros; apply Hfil; auto with lia.
  - eapply step_done; [reflexivity|eapply run_rename; [reflexivity|reflexivity|done]|reflexivity|reflexivity].
  - split; intros; rewrite lookup_fmap, ?H1, ?H2, ?H3, ?H4, ?H5 by lia; done.
  - eapply step_done; [reflexivity|eapply run_index; [reflexivity|reflexivity|auto with lia|reflexivity|done]|reflexivity|reflexivity].
  - apply (names_free_insert 6); [done|lia|key|key|intros; key|intros; exfalso; lia|intros; exfalso; lia].
  - eapply step_done; [reflexivity|eapply run_index; [reflexivity|reflexivity|auto with lia|reflexivity|done]|reflexivity|reflexivity].
  - apply (names_free_insert 7); [done|lia|key|key|intros; exfalso; lia|intros; exfalso; lia|intros; exfalso; lia].
Qed.

Lemma nothing_missing (v : Z) (mr : list row) (I : gmap bytes index) : 0 <= v <= 8 -> v <> 5 ->
  setup_list file_tables file_indexes (mkSchema (version_tables v fr xr mr) I) = [].
Proof.
  intros Hv H5. unfold setup_list. replace (missing_in _ _) with (@nil sql_table); [done|]. symmetry.
  assert (v = 0 \/ v = 1 \/ v = 2 \/ v = 3 \/ v = 4 \/ v = 6 \/ v = 7 \/ v = 8) as Hcase by lia.
  unfold version_tables. generalize (carry_all fr xr []) as cr. intros cr.
  destruct Hcase as [->|[->|[->|[->|[->|[->|[->| ->]]]]]]]; vm_compute; reflexivity.
Qed.

Lemma files_record (v : Z) (mr : list row) : 0 <= v <= 8 ->
  version_tables v fr xr mr !! $"migrations" = Some (mkTable migration_columns mr).
Proof.
  intros Hv.
  assert (v = 0 \/ v = 1 \/ v = 2 \/ v = 3 \/ v = 4 \/ v = 5 \/ v = 6 \/ v = 7 \/ v = 8) as Hcase by lia.
  unfold version_tables. generalize (carry_all fr xr []) as cr. intros cr. clear Hv.
  destruct Hcase as [->|[->|[->|[->|[->|[->|[->|[->| ->]]]]]]]]; reflexivity.
Qed.

Lemma files_upgrade (v : Z) (mr : list row) (I : gmap bytes index) : 0 <= v <= 8 -> v <> 5 -> names_free v I ->
  max_version mr = Some v ->
  exists mr' I', set_up now text file_info (mkSchema (version_tables v fr xr mr) I) =
      Some (mkSchema (version_tables 8 fr xr mr') I') /\ max_version mr' = Some 8 /\ mr `prefix_of` mr'.
Proof.
  intros Hv H5 Hn Hm.
  apply (set_up_upgrades now text file_migrations (fun v => version_tables v fr xr) names_free 8); try done.
  - intros. by apply files_record.
  - intros. by apply upgrade_step.
  - by apply nothing_missing.
Qed.
End Upgrade.

(** ** The log *)

(** Each version from the second on added a column. *)
Definition log_version_tables (v : Z) (lr mr : list row) : gmap bytes table :=
  {[ $"logs" := mkTable (take (if v <? 2 then 12 else Z.to_nat (11 + v)) log_columns) lr;
     $"migrations" := mkTable migration_columns mr ]}.

Definition log_free (v : Z) (I : gmap bytes index) : Prop := v < 1 -> I !! $"migration__version" = None.

Section LogUpgrade.
Context (now : Z) (text : statement -> bytes) (lr : list row).

Lemma log_step (v : Z) (mr : list row) (I : gmap bytes index) : 0 <= v < 7 -> log_free v I ->
  exists s I', run_all (one_migration now text log_migrations (v + 1)) (mkSchema (log_version_tables v lr mr) I) =
    Some (mkSchema (log_version_tables (v + 1) lr (recorded (v + 1) now s mr)) I') /\ log_free (v + 1) I'.
Proof.
  intros Hv Hn.
  assert (v = 0 \/ v = 1 \/ v = 2 \/ v = 3 \/ v = 4 \/ v = 5 \/ v = 6) as Hcase by lia.
  assert (0 < v -> log_free (v + 1) I) as Hf by (intros ??; lia).
  destruct Hcase as [->|Hcase].
  { do 2 eexists; split; [|intros ?; exfalso; lia].
    eapply step_done; [reflexivity|eapply run_index; [reflexivity|reflexivity|by apply Hn|reflexivity|done]|reflexivity|reflexivity]. }
  exists (text (default CarryXattrs (log_migrations !! Z.to_nat (v + 1)))), I.
  split; [|apply Hf; lia]. clear Hf Hn Hv. revert Hcase. 
  intros [->|[->|[->|[->|[->| ->]]]]];
    (eapply step_done; [reflexivity|eapply run_add; [reflexivity|reflexivity]|reflexivity|reflexivity]).
Qed.

Lemma log_upgrade (v : Z) (mr : list row) (I : gmap bytes index) : 0 <= v <= 7 -> log_free v I -> max_version mr = Some v ->
  exists mr' I', set_up now text log_info (mkSchema (log_version_tables v lr mr) I) =
      Some (mkSchema (log_version_tables 7 lr mr') I') /\ max_version mr' = Some 7 /\ mr `prefix_of` mr'.
Proof.
  intros Hv Hn Hm.
  apply (set_up_upgrades now text log_migrations (fun v => log_version_tables v lr) log_free 7); try done.
  - intros. by apply log_step.
Qed.
End LogUpgrade.

(** ** Attributes *)

Lemma carried_no_id (fr : list row) (x : row) : carried fr x !! $"id" = None.
Proof.
  unfold carried, put. rewrite !lookup_partial_alter_ne by key. apply lookup_empty.
Qed.

Lemma insert_row_rows (r : row) (rows : list row) : r !! $"id" = None ->
  delete ($"id") <$> insert_row r rows = (delete ($"id") <$> rows) ++ [r].
Proof. intros Hr. unfold insert_row. rewrite fmap_app. f_equal. cbn [fmap list_fmap]. by rewrite delete_insert_id. Qed.

(** The new table has one row for each of the old, in order. *)
Lemma carry_rows (fr xr new : list row) :
  delete ($"id") <$> carry_all fr xr new = (delete ($"id") <$> new) ++ (carried fr <$> xr).
Proof.
  revert new. unfold carry_all. induction xr as [|x xr IH]; intros new; cbn [foldl fmap list_fmap].
  - by rewrite app_nil_r.
  - rewrite IH, insert_row_rows by apply carried_no_id. by rewrite <- app_assoc.
Qed.

(** ** New databases, current ones, and all three *)

Lemma new_files now text : exists I mr, set_up now text file_info no_schema = Some (mkSchema (version_tables 8 [] [] mr) I) /\
  max_version mr = Some 8.
Proof. do 2 eexists. split; [vm_compute; reflexivity|reflexivity]. Qed.

Lemma new_log now text : exists I mr, set_up now text log_info no_schema = Some (mkSchema (log_version_tables 7 [] mr) I) /\
  max_version mr = Some 7.
Proof. do 2 eexists. split; [vm_compute; reflexivity|reflexivity]. Qed.

(** A database of files as one of the versions left it, with the rows of its
    three tables; version -1 is a new one. *)
Definition files_at (v : Z) (fr xr mr : list row) (d : schema) : Prop :=
  (v = -1 /\ d = no_schema /\ fr = [] /\ xr = [] /\ mr = []) \/
  (0 <= v <= 8 /\ v <> 5 /\ max_version mr = Some v /\ unique_keys [$"dev"; $"ino"; $"name"] (carry_all fr xr []) = true /\
   exists I, d = mkSchema (version_tables v fr xr mr) I /\ names_free v I).

Definition log_at (v : Z) (lr mr : list row) (d : schema) : Prop :=
  (v = -1 /\ d = no_schema /\ lr = [] /\ mr = []) \/
  (0 <= v <= 7 /\ max_version mr = Some v /\ exists I, d = mkSchema (log_version_tables v lr mr) I /\ log_free v I).

(** The tables of the current version. *)
Definition current_files (fr ar mr : list row) : gmap bytes table :=
  {[ $"files" := mkTable file_columns fr; $"xattrs" := mkTable xattr_columns ar; $"migrations" := mkTable migration_columns mr ]}.

Definition current_log (lr mr : list row) : gmap bytes table :=
  {[ $"logs" := mkTable log_columns lr; $"migrations" := mkTable migration_columns mr ]}.

Lemma files_at_set_up now text v fr xr mr d : files_at v fr xr mr d ->
  exists mr' I, set_up now text file_info d = Some (mkSchema (current_files fr (carry_all fr xr []) mr') I) /\
    max_version mr' = Some 8 /\ mr `prefix_of` mr'.
Proof.
  intros [(-> & -> & -> & -> & ->)|(Hv & H5 & Hm & Hu & I & -> & Hf)].
  - destruct (new_files now text) as (I & mr & H & Hm). exists mr, I. split; [exact H|]. split; [done|apply prefix_nil].
  - destruct (files_upgrade now text fr xr Hu v mr I Hv H5 Hf Hm) as (mr' & I' & H & Hr). exists mr', I'. split; [exact H|done].
Qed.

Lemma log_at_set_up now text v lr mr d : log_at v lr mr d ->
  exists mr' I, set_up now text log_info d = Some (mkSchema (current_log lr mr') I) /\ max_version mr' = Some 7 /\ mr `prefix_of` mr'.
Proof.
  intros [(-> & -> & -> & ->)|(Hv & Hm & I & -> & Hf)].
  - destruct (new_log now text) as (I & mr & H & Hm). exists mr, I. split; [exact H|]. split; [done|apply prefix_nil].
  - destruct (log_upgrade now text lr v mr I Hv Hf Hm) as (mr' & I' & H & Hr). exists mr', I'. split; [exact H|done].
Qed.

(** A current database is left alone. *)
Lemma current_files_set_up now text fr ar mr I : max_version mr = Some 8 ->
  set_up now text file_info (mkSchema (current_files fr ar mr) I) = Some (mkSchema (current_files fr ar mr) I).
Proof.
  intros Hm. unfold set_up. change (setup_list _ _ _) with (@nil statement). cbn [run_all mbind option_bind].
  unfold version_of. change (s_tables _ !! $"migrations") with (Some (mkTable migration_columns mr)).
  cbn [mbind option_bind t_rows]. change (has_columns _ _) with true. by rewrite Hm.
Qed.


Definition sample_version (n : Z) : row := {[ $"id" := CInt (n + 1); $"version" := CInt n ]}.
Definition sample_versions (n : nat) : list row := map (fun k => sample_version (Z.of_nat k)) (seq 0 (S n)).
Definition sample_file (id ino : Z) (path : bytes) : row :=
  {[ $"id" := CInt id; $"path" := CText path; $"dev" := CInt 7; $"ino" := CInt ino ]}.
Definition sample_attribute (id file : Z) (name : bytes) : row :=
  {[ $"id" := CInt id; $"file_id" := CInt file; $"name" := CText name; $"value" := CText ($"v") ]}.
Definition sample_indexes : gmap bytes index := {[ $"migration__version" := mkIndex ($"migrations") [$"version"] false ]}.

Definition sample_files (v : Z) (mr : list row) (xr : list row) : schema :=
  mkSchema (version_tables v [sample_file 1 70 ($"/a"); sample_file 2 71 ($"/b"); sample_file 3 71 ($"/c")] xr mr) sample_indexes.


(** ** Where opening does not work *)

(** A database without a table of migrations gets one that says version 8, and
    no migration is run: its files have no [deleting] column. *)
Example without_migrations :
  match set_up 1000 (fun _ => []) file_info (mkSchema {[ $"files" := mkTable (take 8 file_columns) [sample_file 1 70 ($"/a")] ]} ∅) with
  | Some d => max_version (default [] (t_rows <$> s_tables d !! $"migrations")) = Some 8 /\
              (t_columns <$> s_tables d !! $"files") = Some (take 8 file_columns)
  | None => False
  end.
Proof. vm_compute. by split. Qed.

(** Killed after the sixth migration (number 5) was recorded, before the
    seventh: the missing table is created, and the new one cannot take its
    name. *)
Example upgrade_cut_short : set_up 1000 (fun _ => []) file_info (sample_files 5 (sample_versions 5) []) = None.
Proof. vm_compute. reflexivity. Qed.

(** Killed after a migration was done, before it was recorded: it is run again
    and fails, for ever. *)
Example upgrade_unrecorded : set_up 1000 (fun _ => []) file_info (sample_files 2 (sample_versions 1) []) = None.
Proof. vm_compute. reflexivity. Qed.

(** An attribute on each of two names of one file: the last migration asks for
    a unique index and fails. *)
Example upgrade_hard_links : set_up 1000 (fun _ => []) file_info
  (sample_files 2 (sample_versions 2) [sample_attribute 1 2 ($"user.x"); sample_attribute 2 3 ($"user.x")]) = None.
Proof. vm_compute. reflexivity. Qed.

(** Before the migrations, there was no table of attributes: the one that is
    created has the new columns, and the fifth migration reads the old. *)
Example upgrade_without_attributes : set_up 1000 (fun _ => []) file_info
  (mkSchema {[ $"files" := mkTable file_columns []; $"migrations" := mkTable migration_columns (sample_versions 2) ]} sample_indexes) = None.
Proof. vm_compute. reflexivity. Qed.

(** An error leaves the connection in place, so the next call takes it for
    good. *)
Lemma failed_open_is_used {D} `{SetupLaws D} now text d now2 open :
  set_up now text file_info (view d) = None ->
  exists d', get_db now text file_info (Some d) None = (Some d', 1) /\ get_db now2 text file_info open (Some d') = (Some d', 0).
Proof. intros Hs. destruct (get_db_fails now text file_info d Hs) as [d' ->]. by exists d'. Qed.
