(* ===== verification/Exec.v ===== *)
(** Starting programs ([ports/common/pseudo_wrappers.c] and its guts): the
    arguments of [execl], the search of PATH by [pseudo_exec_path]
    ([pseudo_client.c]), and the wrappers of the exec family and of
    [posix_spawn], which tell the server which program is meant, set up the
    environment and hand the call on.

    The environment is that of [Env], the lock that of [Lock], paths are made
    canonical as in [Paths]. *)

From stdpp Require Import base gmap list fin_maps fin_sets option strings.
From Stdlib Require Import ZArith Lia Ascii.
From S2P Require Import Prelude Tables Modes Message Paths ClientPath Debug Env Io Lock Passwd.

Open Scope Z_scope.

Definition ENOMEM : Z := 12.
Definition EBUSY : Z := 16.
Definition ENOSYS : Z := 38.

(** ** Variable arguments ([execl_to_v]) *)

(** A variable argument: a string ([None] is NULL) or an environment. *)
Inductive va := VaStr (s : option bytes) | VaEnv (e : option (list bytes)).

Section ExeclToV.
(** Is there memory for so many pointers? *)
Variable malloc_ok : nat -> bool.

(** [argv] holds the [i] slots written so far of [alloc]; a write past the end
    and reading an argument that is not there give [None].  The result is NULL
    if memory runs out, else [argv] and the arguments left. *)
Fixpoint copy_args (args : list va) (alloc : nat) (argv : list (option bytes)) : option (option (list (option bytes) * list va)) :=
  match last argv with
  | None => None
  | Some None => Some (Some (argv, args))
  | Some (Some _) =>
      match args with
      | VaStr a :: args =>
          if (length argv <? alloc)%nat then
            let argv := argv ++ [a] in
            if (alloc - 1 <? length argv)%nat then
              if malloc_ok (alloc + 256) then copy_args args (alloc + 256) argv else Some None
            else copy_args args alloc argv
          else None
      | _ => None
      end
  end.

Definition execl_to_v (args : list va) (argv0 : option bytes) (want_env : bool) :
    option (option (list (option bytes) * option (list bytes))) :=
  if negb (malloc_ok 256) then Some None
  else
    r ← copy_args args 256 [argv0];
    match r with
    | None => Some None
    | Some (argv, rest) =>
        if want_env then match rest with VaEnv e :: _ => Some (Some (argv, e)) | _ => None end
        else Some (Some (argv, None))
    end.
End ExeclToV.

(** ** The search of PATH *)

(** [previous_path] with its terminating NUL, and in it the offsets of its
    segments with their lengths ([path_segs], [path_lens]). *)
Record path_cache := mkCache { previous_path : option bytes; path_segs : option (list (nat * nat)) }.

(** The second loop over the path: every colon becomes a NUL.  [start] and
    [len] are the segment being read, [s] the position. *)
Fixpoint cut_segs (text : bytes) (s start len : nat) : bytes * list (nat * nat) :=
  match text with
  | [] => ([NUL], [(start, len)])
  | c :: text =>
      if decide (c = colon) then
        let '(m, l) := cut_segs text (S s) (S s) 0 in (NUL :: m, (start, len) :: l)
      else let '(m, l) := cut_segs text (S s) start (S len) in (c :: m, l)
  end.

(** Which of the blocks asked for in turn there is memory for: the copy of the
    path, the segments, their lengths, the copy that is not used. *)
Record path_memory := mkPathMem { pm_path : bool; pm_segs : bool; pm_lens : bool; pm_copy : bool }.

Definition populate_path_segs (pm : path_memory) (path : option bytes) : path_cache :=
  match path with
  | None => mkCache None None
  | Some text =>
      if pm_segs pm && pm_lens pm && pm_copy pm then
        let '(m, l) := cut_segs text 0 0 0 in mkCache (Some m) (Some l)
      else mkCache (Some (text ++ [NUL])) None
  end.

(** The part at the start of [pseudo_exec_path] that follows PATH. *)
Definition refresh_path (pm : path_memory) (path : option bytes) (c : path_cache) : path_cache :=
  match path with
  | None => mkCache None None
  | Some path =>
      match previous_path c with
      | Some p => if decide (c_str p = path) then c
                  else populate_path_segs pm (if pm_path pm then Some path else None)
      | None => populate_path_segs pm (if pm_path pm then Some path else None)
      end
  end.

(** [stat]: the mode. *)
Class ExecFiles := exec_stat : bytes -> option Z.

Definition dot : ascii := "."%char.

Section ExecPath.
Context {PM : PathMax} {PE : PathEnv} {EF : ExecFiles}.

Definition fixed (r : option (path_bufs * fixed_path)) (path : bytes) : option (path_bufs * option bytes) :=
  '(b, f) ← r; Some (b, fixed_str b path f).

(** [pseudo_fix_path(pseudo_cwd, path, 0, pseudo_cwd_len, NULL, 0)] *)
Definition in_cwd (cwd : option bytes) (path : bytes) (b : path_bufs) : option (path_bufs * option bytes) :=
  fixed (pseudo_fix_path b (default [] cwd) (Some path) 0 (length (default [] cwd)) false) path.

(** The file a segment of PATH leads to.  [None] also stands for the length of
    a directory that [pseudo_fix_path] left unset. *)
Definition candidate (cwd : option bytes) (seg : bytes) (len : nat) (filename : bytes) (b : path_bufs) :
    option (path_bufs * option bytes) :=
  if bool_decide (seg = []) || bool_decide (head seg = Some dot) && (len =? 1)%nat then in_cwd cwd filename b
  else if bool_decide (head seg = Some slash) then fixed (pseudo_fix_path b seg (Some filename) 0 len false) filename
  else
    '(b, f) ← pseudo_fix_path b (default [] cwd) (Some seg) 0 (length (default [] cwd)) false;
    match f with
    | FixFailed => Some (b, None)
    | FixSame => None
    | FixBuf i dirlen =>
        dir ← mjoin (pathbufs b !! i);
        fixed (pseudo_fix_path b dir (Some filename) 0 dirlen false) filename
    end.

Definition executable (path : bytes) : bool :=
  match exec_stat path with Some m => negb (S_ISDIR m) && negb (Z.land m 73 =? 0) | None => false end.

Fixpoint search_segs (cwd : option bytes) (block : bytes) (segs : list (nat * nat)) (filename : bytes) (b : path_bufs) :
    option (path_bufs * bytes) :=
  match segs with
  | [] => Some (b, filename)
  | (o, len) :: segs =>
      '(b, c) ← candidate cwd (c_str (drop o block)) len filename b;
      match c with
      | Some c => if executable c then Some (b, c) else search_segs cwd block segs filename b
      | None => search_segs cwd block segs filename b
      end
  end.

(** [path] is [getenv("PATH")]. *)
Definition pseudo_exec_path (pm : path_memory) (path cwd filename : option bytes) (search_path : bool) (c : path_cache)
    (b : path_bufs) : option (path_cache * path_bufs * option bytes) :=
  match filename with
  | None => Some (c, b, None)
  | Some filename =>
      let c := refresh_path pm path c in
      if bool_decide (head filename = Some slash) then
        '(b, r) ← fixed (pseudo_fix_path b [] (Some filename) 0 0 false) filename; Some (c, b, r)
      else
        match (if search_path then path_segs c else None) with
        | None => '(b, r) ← in_cwd cwd filename b; Some (c, b, r)
        | Some segs => '(b, r) ← search_segs cwd (default [] (previous_path c)) segs filename b; Some (c, b, Some r)
        end
  end.
End ExecPath.

(** ** The wrappers *)

(** The environment a program is started with: the caller's own, or the array
    that was made. *)
Inductive exec_env := OwnEnv (e : gmap bytes bytes) | EnvArray (l : list bytes).

(** What [posix_spawn] has besides: where the process id goes, the file actions
    and the attributes.  They are pointers that pseudo hands on. *)
Record spawn_args := mkSpawn { sp_pid : Z; sp_file_actions : Z; sp_attrp : Z }.

(** A call of the C library, with the signal mask of the thread at that time;
    [x_spawn] is [None] for the exec family. *)
Record exec_call := mkCall {
  x_spawn : option spawn_args;
  x_search : bool;
  x_file : option bytes;
  x_argv : list (option bytes);
  x_env : exec_env;
  x_mask : signals
}.

(** Its result: [None] if the process was replaced, else what it returned and
    [errno] if it was set.  [lock_fails]: [pthread_mutex_lock] returns an
    error. *)
Class ExecKernel := { sys_exec : exec_call -> option (Z * option Z); lock_fails : bool }.

(** What the wrappers use: the thread that calls, its signal mask, the lock,
    the environment, the paths, the connection, and the calls made so far. *)
Record exec_state (S : Type) := mkXS {
  x_thread : Z;
  x_sigmask : signals;
  saved_sigmask : signals;
  x_inited : bool;
  x_process : process;
  x_vars : env_state;
  x_cwd : option bytes;
  x_cache : path_cache;
  x_bufs : path_bufs;
  x_errno : Z;
  x_session : S;
  x_calls : list exec_call
}.
Arguments mkXS {S}.
Arguments x_thread {S}.
Arguments x_sigmask {S}.
Arguments saved_sigmask {S}.
Arguments x_inited {S}.
Arguments x_process {S}.
Arguments x_vars {S}.
Arguments x_cwd {S}.
Arguments x_cache {S}.
Arguments x_bufs {S}.
Arguments x_errno {S}.
Arguments x_session {S}.
Arguments x_calls {S}.

Inductive exec_outcome := Returned (rc : Z) | Replaced | Aborted | Waits.

Section Wrappers.
Context {S : Type} {SS : Session S} {PM : PathMax} {PE : PathEnv} {EF : ExecFiles} {BC : BuildConfig} {EK : ExecKernel}.
(** [pseudo_reinit_libpseudo], and what memory there is. *)
Context (reinit : exec_state S -> exec_state S) (malloc_ok : nat -> bool) (pm : path_memory).
Implicit Types x : exec_state S.

Definition with_xerrno e x : exec_state S :=
  mkXS (x_thread x) (x_sigmask x) (saved_sigmask x) (x_inited x) (x_process x) (x_vars x) (x_cwd x) (x_cache x) (x_bufs x) e
    (x_session x) (x_calls x).
Definition with_masks m s x : exec_state S :=
  mkXS (x_thread x) m s (x_inited x) (x_process x) (x_vars x) (x_cwd x) (x_cache x) (x_bufs x) (x_errno x) (x_session x) (x_calls x).
Definition with_process P x : exec_state S :=
  mkXS (x_thread x) (x_sigmask x) (saved_sigmask x) (x_inited x) P (x_vars x) (x_cwd x) (x_cache x) (x_bufs x) (x_errno x)
    (x_session x) (x_calls x).
Definition with_vars v x : exec_state S :=
  mkXS (x_thread x) (x_sigmask x) (saved_sigmask x) (x_inited x) (x_process x) v (x_cwd x) (x_cache x) (x_bufs x) (x_errno x)
    (x_session x) (x_calls x).
Definition with_xpaths c b x : exec_state S :=
  mkXS (x_thread x) (x_sigmask x) (saved_sigmask x) (x_inited x) (x_process x) (x_vars x) (x_cwd x) c b (x_errno x)
    (x_session x) (x_calls x).
Definition with_session s x : exec_state S :=
  mkXS (x_thread x) (x_sigmask x) (saved_sigmask x) (x_inited x) (x_process x) (x_vars x) (x_cwd x) (x_cache x) (x_bufs x)
    (x_errno x) s (x_calls x).
Definition add_call c x : exec_state S :=
  mkXS (x_thread x) (x_sigmask x) (saved_sigmask x) (x_inited x) (x_process x) (x_vars x) (x_cwd x) (x_cache x) (x_bufs x)
    (x_errno x) (x_session x) (x_calls x ++ [c]).

Definition pseudo_check_wrappers x : exec_state S * bool :=
  let x := if x_inited x then x else reinit x in (x, x_inited x).

Definition pseudo_enosys x : exec_state S * exec_outcome :=
  let '(v, value) := pseudo_get_value ($"PSEUDO_ENOSYS_ABORT") (x_vars x) in
  let x := with_vars v x in
  match value with
  | Some _ => (x, Aborted)
  | None => (with_xerrno ENOSYS x, Returned (-1))
  end.

(** *** The guts *)

(** The server is told which program is meant, unless [antimagic] is set. *)
Definition tell_exec (file : option bytes) (search : bool) x : option (exec_state S) :=
  if antimagic (x_process x) =? 0 then
    '(c, b, guess) ← pseudo_exec_path pm (environ (x_vars x) !! $"PATH") (x_cwd x) file search (x_cache x) (x_bufs x);
    let x := with_xpaths c b x in
    '(s, _) ← client_op OP_EXEC PSA_EXEC (-1) (-1) guess None None None (x_session x);
    Some (with_session s x)
  else Some x.

Definition real_exec (c : exec_call) x : exec_state S * exec_outcome :=
  let x := add_call c x in
  match sys_exec c with
  | None => (x, Replaced)
  | Some (rc, e) => (with_xerrno (default (x_errno x) e) x, Returned rc)
  end.

(** [sigprocmask(SIG_SETMASK, &pseudo_saved_sigmask, NULL)] *)
Definition unblock x : exec_state S := with_masks (saved_sigmask x) (saved_sigmask x) x.

(** [wrap_execv]; [wrap_execvp] differs in that PATH is searched. *)
Definition wrap_execv (search : bool) (file : option bytes) (argv : list (option bytes)) x :
    option (exec_state S * exec_outcome) :=
  x ← tell_exec file search x;
  v ← own_environment (x_vars x);
  let x := unblock (with_vars v x) in
  Some (real_exec (mkCall None search file argv (OwnEnv (environ v)) (x_sigmask x)) x).

Definition wrap_execvp (file : option bytes) (argv : list (option bytes)) := wrap_execv true file argv.

(** [wrap_execve]; the [posix_spawn] family differs in the call at the end. *)
Definition wrap_execve (spawn : option spawn_args) (search : bool) (file : option bytes) (argv : list (option bytes)) (envp : list bytes) x :
    option (exec_state S * exec_outcome) :=
  x ← tell_exec file search x;
  '(v, new) ← exec_environment envp (x_vars x);
  let x := unblock (with_vars v x) in
  Some (real_exec (mkCall spawn search file argv (EnvArray new) (x_sigmask x)) x).

Definition wrap_posix_spawn (a : spawn_args) (path : option bytes) (argv : list (option bytes)) (envp : list bytes) :=
  wrap_execve (Some a) false path argv envp.
Definition wrap_posix_spawnp (a : spawn_args) (file : option bytes) (argv : list (option bytes)) (envp : list bytes) :=
  wrap_execve (Some a) true file argv envp.

(** *** Around them *)

(** From [pseudo_sigblock] to the end. *)
Definition locked (body : exec_state S -> option (exec_state S * exec_outcome)) x : option (exec_state S * exec_outcome) :=
  let saved := x_sigmask x in
  let x := with_masks (pseudo_sigblock saved) (saved_sigmask x) x in
  if lock_fails && negb (holder (x_process x) =? x_thread x) then
    Some (with_masks saved (saved_sigmask x) (with_xerrno EBUSY x), Returned (-1))
  else
    match pseudo_getlock (x_thread x) (x_process x) with
    | None => Some (x, Waits)
    | Some P =>
        '(x, o) ← body (with_masks (x_sigmask x) saved (with_process P x));
        match o with
        | Returned rc => Some (with_masks saved (saved_sigmask x) (with_process (pseudo_droplock (x_process x)) x), Returned rc)
        | _ => Some (x, o)
        end
    end.

(** [found]: the real function was found when the library was initialised. *)
Definition exec_wrapper (found : bool) (body : exec_state S -> option (exec_state S * exec_outcome)) x :
    option (exec_state S * exec_outcome) :=
  let '(x, ok) := pseudo_check_wrappers x in
  if negb (ok && found) then Some (pseudo_enosys x) else locked body x.

(** The variants with variable arguments make the array first. *)
Definition execl_wrapper (want_env : bool) (arg : option bytes) (args : list va)
    (body : list (option bytes) -> option (list bytes) -> exec_state S -> option (exec_state S * exec_outcome)) x :
    option (exec_state S * exec_outcome) :=
  let '(x, ok) := pseudo_check_wrappers x in
  if negb ok then Some (pseudo_enosys x)
  else
    r ← execl_to_v malloc_ok args arg want_env;
    match r with
    | None => Some (with_xerrno ENOMEM x, Returned (-1))
    | Some (argv, env) => locked (body argv env) x
    end.

Definition execl (file arg : option bytes) (args : list va) := execl_wrapper false arg args (fun argv _ => wrap_execv false file argv).
Definition execlp (file arg : option bytes) (args : list va) := execl_wrapper false arg args (fun argv _ => wrap_execvp file argv).
(** No environment is an empty one to [pseudo_setupenvp]. *)
Definition execle (file arg : option bytes) (args : list va) :=
  execl_wrapper true arg args (fun argv env => wrap_execve None false file argv (default [] env)).
Definition execv (found : bool) (file : option bytes) (argv : list (option bytes)) :=
  exec_wrapper found (wrap_execv false file argv).
Definition execvp (found : bool) (file : option bytes) (argv : list (option bytes)) :=
  exec_wrapper found (wrap_execvp file argv).
Definition execve (found : bool) (file : option bytes) (argv : list (option bytes)) (envp : list bytes) :=
  exec_wrapper found (wrap_execve None false file argv envp).
Definition posix_spawn (found : bool) (a : spawn_args) (path : option bytes) (argv : list (option bytes)) (envp : list bytes) :=
  exec_wrapper found (wrap_posix_spawn a path argv envp).
Definition posix_spawnp (found : bool) (a : spawn_args) (file : option bytes) (argv : list (option bytes)) (envp : list bytes) :=
  exec_wrapper found (wrap_posix_spawnp a file argv envp).
End Wrappers.
