(* ===== verification/ExecSpec.v ===== *)
(** Starting programs: [execl] copies its arguments, whatever their number;
    [pseudo_exec_path] finds the first file of PATH that can be executed; and
    every wrapper hands the call on with the caller's signal mask and an
    environment that keeps pseudo in the child, and leaves no trace when it
    fails. *)

From stdpp Require Import base gmap list fin_maps fin_sets option strings.
From Stdlib Require Import ZArith Lia Ascii.
From S2P Require Import Prelude Tables Modes Message Paths PathsSpec ClientPath Debug Env Io Lock Passwd Exec.

Open Scope Z_scope.

(** ** Variable arguments *)

Lemma copy_args_all malloc_ok l rest alloc argv : (forall n, malloc_ok n = true) -> (length argv < alloc)%nat ->
  is_Some (mjoin (last argv)) ->
  copy_args malloc_ok (map VaStr (map Some l) ++ VaStr None :: rest) alloc argv = Some (Some (argv ++ map Some l ++ [None], rest)).
Proof.
  intros Hm. revert alloc argv. induction l as [|a l IH]; intros alloc argv Hlen [s Hs]; cbn [map app copy_args].
  - destruct (last argv) as [[s'|]|]; [|done|done]. rewrite (proj2 (Nat.ltb_lt _ _)) by done. cbv zeta.
    assert (forall al, copy_args malloc_ok rest al (argv ++ [None]) = Some (Some (argv ++ [None], rest))) as He
      by (intros al; destruct rest; cbn [copy_args]; by rewrite last_snoc).
    rewrite Hm, !He. by case_match.
  - destruct (last argv) as [[s'|]|]; [|done|done]. rewrite (proj2 (Nat.ltb_lt _ _)) by done. cbv zeta.
    rewrite Hm. replace (argv ++ Some a :: map Some l ++ [None]) with ((argv ++ [Some a]) ++ map Some l ++ [None])
      by (by rewrite <- app_assoc).
    case_match; apply IH; rewrite ?last_snoc; rewrite ?length_app; cbn [length mjoin option_join]; eauto.
    + lia.
    + destruct (Nat.ltb_spec (alloc - 1) (length (argv ++ [Some a]))); [done|]. rewrite length_app in *. cbn [length] in *. lia.
Qed.

(** The arguments a call of [execl] passes: strings, a NULL, and for [execle]
    an environment. *)
Definition va_args (l : list bytes) (env : list va) : list va := map VaStr (map Some l) ++ VaStr None :: env.

Lemma execl_to_v_exact malloc_ok arg l env want : (forall n, malloc_ok n = true) ->
  (want = true -> exists e rest, env = VaEnv e :: rest) ->
  execl_to_v malloc_ok (va_args l env) (Some arg) want =
    Some (Some (map Some (arg :: l) ++ [None], match env with VaEnv e :: _ => if want then e else None | _ => None end)).
Proof.
  intros Hm He. unfold execl_to_v, va_args. rewrite Hm. cbn [negb].
  rewrite copy_args_all by (done || (cbn; lia) || (by eexists)). cbn [mbind option_bind app map].
  destruct want; [destruct (He eq_refl) as (e & rest & ->); done|]. by destruct env as [|[]].
Qed.

(** With little memory it may fail, but it reads no argument that was not
    passed and writes nothing past its array. *)
Lemma execl_to_v_safe malloc_ok arg l env want :
  (want = true -> exists e rest, env = VaEnv e :: rest) -> execl_to_v malloc_ok (va_args l env) (Some arg) want <> None.
Proof.
  intros He. unfold execl_to_v. destruct (malloc_ok _); cbn [negb]; [|done].
  assert (forall alloc argv, argv <> [] -> (length argv < alloc)%nat -> last argv <> Some None ->
    match copy_args malloc_ok (va_args l env) alloc argv with
    | Some (Some (_, rest)) => rest = env | Some None => True | None => False end) as H.
  { unfold va_args. induction l as [|a l IH]; intros alloc argv Hne Hlen Hla; cbn [map app copy_args].
    - destruct (last argv) as [[s|]|] eqn:Hl; [|done|by apply last_None in Hl].
      rewrite (proj2 (Nat.ltb_lt _ _)) by done. cbv zeta.
      assert (forall al, copy_args malloc_ok env al (argv ++ [None]) = Some (Some (argv ++ [None], env))) as Hn
        by (intros al; destruct env; cbn [copy_args]; by rewrite last_snoc).
      rewrite !Hn. destruct (_ <? _)%nat; [|done]. by destruct (malloc_ok _).
    - destruct (last argv) as [[s|]|] eqn:Hl; [|done|by apply last_None in Hl].
      rewrite (proj2 (Nat.ltb_lt _ _)) by done. cbv zeta. rewrite length_app. cbn [length].
      destruct (Nat.ltb_spec (alloc - 1) (length argv + 1)).
      + destruct (malloc_ok _); [|done]. apply IH; rewrite ?last_snoc, ?length_app; [by destruct argv|cbn [length]; lia|done].
      + apply IH; rewrite ?last_snoc, ?length_app; [by destruct argv|cbn [length]; lia|done]. }
  specialize (H 256%nat [Some arg] ltac:(done) ltac:(cbn; lia) ltac:(done)).
  destruct (copy_args _ _ _ _) as [[[argv rest]|]|]; cbn [mbind option_bind]; [|done|done]. subst rest.
  destruct want; [|done]. by destruct (He eq_refl) as (e & r & ->).
Qed.

(** ** The segments of PATH *)

(** The parts of a string between separators; there is always one. *)
Fixpoint split_on (c : ascii) (s : bytes) : list bytes :=
  match s with
  | [] => [[]]
  | x :: s => if decide (x = c) then [] :: split_on c s
              else match split_on c s with e :: es => (x :: e) :: es | [] => [[x]] end
  end.

Lemma split_on_cons c s : exists e es, split_on c s = e :: es.
Proof. induction s as [|x s (e & es & IH)]; cbn [split_on]; [eauto|]. case_decide; [eauto|]. rewrite IH. eauto. Qed.

Lemma split_on_Forall c s (P : ascii -> Prop) : Forall P s -> Forall (Forall P) (split_on c s).
Proof.
  induction s as [|x s IH]; cbn [split_on]; intros H; [repeat constructor|]. inversion H as [|? ? Hx Hs]; subst.
  specialize (IH Hs). case_decide; [by constructor|]. destruct (split_on c s) as [|e es]; [by repeat constructor|].
  inversion IH. constructor; [by constructor|done].
Qed.

Lemma split_on_no_sep c s : Forall (fun e => c ∉ e) (split_on c s).
Proof.
  induction s as [|x s IH]; cbn [split_on]; [constructor; [apply not_elem_of_nil|constructor]|].
  case_decide as Hx; [constructor; [apply not_elem_of_nil|done]|]. destruct (split_on c s) as [|e es].
  - constructor; [|constructor]. rewrite list_elem_of_singleton. naive_solver.
  - inversion IH. constructor; [|done]. rewrite not_elem_of_cons. naive_solver.
Qed.

(** [seg] gives a segment and its recorded length. *)
Definition seg_of (block : bytes) (x : nat * nat) : bytes * nat := (c_str (drop x.1 block), x.2).

(** The copy of the path cut at its colons, and what the segments then are.
    [pre] is what was read before, [cur] the segment being read. *)
Lemma cut_segs_split text : forall pre cur m l, NUL ∉ text -> NUL ∉ cur ->
  cut_segs text (length pre + length cur) (length pre) (length cur) = (m, l) ->
  map (seg_of (pre ++ cur ++ m)) l =
    match split_on colon text with e :: es => (cur ++ e, length (cur ++ e)) :: map (fun e => (e, length e)) es | [] => [] end.
Proof.
  induction text as [|c text IH]; intros pre cur m l Hn Hc; cbn [cut_segs split_on].
  - intros [= <- <-]. cbn [map seg_of]. unfold seg_of. cbn [fst snd]. rewrite drop_app_length, c_str_app_nul by done.
    by rewrite app_nil_r.
  - apply not_elem_of_cons in Hn as [Hnc Hn]. case_decide as Hcol.
    + replace (S (length pre + length cur)) with (length (pre ++ cur ++ [NUL]) + length (@nil ascii))%nat
        by (rewrite !length_app; simpl; lia).
      destruct (cut_segs text _ _ _) as [m' l'] eqn:Hcut. intros [= <- <-].
      assert (length (pre ++ cur ++ [NUL]) + length (@nil ascii) = length (pre ++ cur ++ [NUL]))%nat as Hz by (simpl; lia).
      rewrite Hz in Hcut at 2. apply IH in Hcut; [|done|apply not_elem_of_nil].
      cbn [map]. f_equal.
      * unfold seg_of. cbn [fst snd]. by rewrite drop_app_length, c_str_app_nul, app_nil_r by done.
      * destruct (split_on_cons colon text) as (e & es & He). rewrite He in Hcut |- *. cbn [app map] in *.
        rewrite <- Hcut. do 2 f_equal. by rewrite <- !app_assoc.
    + destruct (cut_segs text _ _ _) as [m' l'] eqn:Hcut. intros [= <- <-].
      replace (S (length pre + length cur)) with (length pre + length (cur ++ [c]))%nat in Hcut by (rewrite length_app; simpl; lia).
      replace (S (length cur)) with (length (cur ++ [c])) in Hcut by (rewrite length_app; simpl; lia).
      apply IH in Hcut; [|done|rewrite elem_of_app, list_elem_of_singleton; naive_solver].
      destruct (split_on_cons colon text) as (e & es & He). rewrite He in Hcut |- *.
      rewrite <- !app_assoc in Hcut. cbn [app] in Hcut. exact Hcut.
Qed.

(** Memory for everything. *)
Definition all_memory : path_memory := mkPathMem true true true true.

Lemma populated text : NUL ∉ text -> exists m l, populate_path_segs all_memory (Some text) = mkCache (Some m) (Some l) /\
  map (seg_of m) l = map (fun e => (e, length e)) (split_on colon text).
Proof.
  intros Hn. unfold populate_path_segs. cbn [pm_segs pm_lens pm_copy all_memory andb].
  destruct (cut_segs text 0 0 0) as [m l] eqn:Hcut. exists m, l. split; [done|].
  pose proof (cut_segs_split text [] [] m l Hn (not_elem_of_nil _) Hcut) as H. cbn [app] in H. rewrite H.
  by destruct (split_on_cons colon text) as (e & es & ->).
Qed.

Lemma populated_first text m l : NUL ∉ text -> populate_path_segs all_memory (Some text) = mkCache (Some m) (Some l) ->
  head (split_on colon text) = Some (c_str m).
Proof.
  intros Hn H. destruct (populated text Hn) as (m' & l' & H' & Hmap). rewrite H in H'. injection H' as <- <-.
  destruct (split_on_cons colon text) as (e & es & He). rewrite He in Hmap |- *. destruct l as [|[o n] l]; [done|].
  cbn [map] in Hmap. injection Hmap as Hc Hl Hr. cbn [head]. f_equal. cbn [fst] in Hc. rewrite <- Hc.
  assert (o = 0)%nat as ->; [|done].
  unfold populate_path_segs in H. cbn in H. destruct (cut_segs text 0 0 0) as [m2 l2] eqn:Hcut. injection H as <- Hl2. subst l2.
  assert (forall t s st len m o n l, cut_segs t s st len = (m, (o, n) :: l) -> o = st) as Hst; [|by eapply Hst].
  clear. intros t. induction t as [|c t IH]; intros s st len m o n l; cbn [cut_segs].
  - by intros [= <- <- <- <-].
  - case_decide; destruct (cut_segs t _ _ _) as [m' l'] eqn:Hc; intros Heq; injection Heq; intros; subst; [done|].
    by eapply IH.
Qed.

(** ** What the search finds *)

(** An absolute directory as a list of components. *)
Definition dir_stack (dir : bytes) : list bytes := if (length dir <=? 1)%nat then [] else tail (split_on slash dir).

Lemma render_split s : render (split_on slash s) = slash :: s.
Proof.
  induction s as [|c s IH]; cbn [split_on]; [done|]. case_decide as Hc.
  - subst c. unfold render in *. cbn [map concat app]. by rewrite IH.
  - destruct (split_on slash s) as [|e es]; [by destruct (split_on_cons slash s) as (? & ? & ?)|].
    unfold render in *. cbn [map concat app] in *. injection IH as ->. done.
Qed.

Lemma dir_base_ok dir : head dir = Some slash -> NUL ∉ dir -> base_ok dir 0 (length dir) [] (dir_stack dir).
Proof.
  intros Hh Hn. destruct dir as [|c dir]; [done|]. injection Hh as ->. unfold dir_stack.
  destruct dir as [|d dir].
  { constructor; cbn; try done; by apply not_elem_of_nil. }
  cbn [length Nat.leb]. set (s := d :: dir) in *.
  assert (split_on slash (slash :: s) = [] :: split_on slash s) as -> by (cbn [split_on]; by rewrite decide_True).
  cbn [tail]. assert (path_text [] (split_on slash s) = slash :: s) as Ht
    by (unfold path_text; rewrite app_nil_l; apply render_split).
  assert (len_or_root (S (S (length dir))) = S (S (length dir))) as Hl by done.
  constructor; rewrite ?Ht, ?Hl; try done.
  - cbn [take]. do 2 f_equal. exact (firstn_all s).
  - apply split_on_no_sep.
Qed.

Section Search.
Context {PM : PathMax} {PE : PathEnv} {EF : ExecFiles}.

(** [filename] in a directory: the argument itself if it is too long for the
    buffer, NULL if it gets too long. *)
Definition in_dir (dir filename : bytes) : option bytes :=
  if too_long filename (length dir) then Some filename else resolved [] filename (dir_stack dir) false.

(** What a segment of PATH stands for. *)
Definition segment_dir (cwd seg : bytes) : option bytes :=
  if bool_decide (seg = []) || bool_decide (seg = [dot]) then Some cwd
  else if bool_decide (head seg = Some slash) then Some seg
  else resolved [] seg (dir_stack cwd) false.

Definition file_in_segment (cwd filename seg : bytes) : option bytes := dir ← segment_dir cwd seg; in_dir dir filename.

(** The first file that can be executed, else the name as it is. *)
Definition search_spec (cwd filename : bytes) (segs : list bytes) : bytes :=
  default filename (head (filter (fun c => executable c = true) (omap (file_in_segment cwd filename) segs))).

Lemma resolved_absolute path stack leave s : NUL ∉ path ->
  resolved [] path stack leave = Some s -> head s = Some slash.
Proof.
  intros _. unfold resolved. destruct (resolve _ _ _) as [[st m]|]; [|done]. intros [= <-].
  unfold finish, path_text. cbn [app]. destruct st as [|e st]; [|done].
  rewrite bool_decide_eq_true_2 by done. by rewrite orb_true_r.
Qed.

Lemma fixed_in_dir b dir filename : bufs_ok b -> malloc_ok -> head dir = Some slash -> NUL ∉ dir ->
  NUL ∉ filename -> filename <> [] ->
  exists b', fixed (pseudo_fix_path b dir (Some filename) 0 (length dir) false) filename = Some (b', in_dir dir filename) /\ bufs_ok b'.
Proof.
  intros Hb Hm Hh Hd Hf Hne.
  destruct (pseudo_fix_path_resolves b dir filename 0 (length dir) [] (dir_stack dir) false Hb Hm (dir_base_ok dir Hh Hd) Hf Hne)
    as (b' & r & Hr & Hb' & Hs).
  exists b'. split; [|done]. unfold fixed. rewrite Hr. cbn [mbind option_bind]. by rewrite Hs.
Qed.

(** A base may have more behind it than its length says. *)
Lemma fixed_in_block b block dir filename : bufs_ok b -> malloc_ok -> take (length dir) block = dir -> head dir = Some slash ->
  NUL ∉ dir -> NUL ∉ filename -> filename <> [] ->
  exists b', fixed (pseudo_fix_path b block (Some filename) 0 (length dir) false) filename = Some (b', in_dir dir filename) /\ bufs_ok b'.
Proof.
  intros Hb Hm Ht Hh Hd Hf Hne. destruct (dir_base_ok dir Hh Hd) as [H1 H2 H3 H4 H5].
  assert (base_ok block 0 (length dir) [] (dir_stack dir)) as Hok.
  { constructor; try done. rewrite <- H2. unfold len_or_root. case_match; [done|]. by rewrite Ht, firstn_all. }
  destruct (pseudo_fix_path_resolves b block filename 0 (length dir) [] (dir_stack dir) false Hb Hm Hok Hf Hne)
    as (b' & r & Hr & Hb' & Hs).
  exists b'. split; [|done]. unfold fixed. rewrite Hr. cbn [mbind option_bind]. by rewrite Hs.
Qed.

(** A segment that is not absolute is not too long to be put below the current
    directory. *)
Definition segment_fits (cwd seg : bytes) : Prop := head seg = Some slash \/ too_long seg (length cwd) = false.

Lemma candidate_exact b cwd seg filename : bufs_ok b -> malloc_ok -> head cwd = Some slash -> NUL ∉ cwd -> NUL ∉ seg ->
  NUL ∉ filename -> filename <> [] -> segment_fits cwd seg ->
  exists b', candidate (Some cwd) seg (length seg) filename b = Some (b', file_in_segment cwd filename seg) /\ bufs_ok b'.
Proof.
  intros Hb Hm Hh Hc Hs Hf Hne Hfit. unfold candidate, file_in_segment, segment_dir.
  assert (bool_decide (head seg = Some dot) && (length seg =? 1)%nat = bool_decide (seg = [dot])) as ->.
  { destruct seg as [|c [|d seg]]; cbn [head length Nat.eqb]; rewrite ?andb_true_r, ?andb_false_r; [by rewrite bool_decide_eq_false_2| |by rewrite bool_decide_eq_false_2].
    apply bool_decide_ext. naive_solver. }
  destruct (bool_decide (seg = []) || bool_decide (seg = [dot])) eqn:Hdot.
  { cbn [mbind option_bind]. unfold in_cwd. cbn [default from_option id]. by apply fixed_in_dir. }
  destruct (bool_decide_reflect (head seg = Some slash)) as [Habs|Habs].
  { cbn [mbind option_bind]. by apply fixed_in_dir. }
  apply orb_false_iff in Hdot as [Hn0%bool_decide_eq_false _].
  destruct Hfit as [?|Hfit]; [done|]. cbn [default from_option id].
  destruct (fix_path_resolves b cwd seg 0 (length cwd) [] (dir_stack cwd) false Hb Hm (dir_base_ok cwd Hh Hc) Hs Hn0)
    as (b1 & r & -> & Hb1 & H). rewrite Hfit in H. destruct H as (_ & _ & H). cbn [mbind option_bind].
  destruct (resolved [] seg (dir_stack cwd) false) as [d|] eqn:Hd; cbn [mbind option_bind].
  2:{ subst r. by exists b1. }
  destruct H as [-> Hstr]. unfold fixed_str in Hstr.
  destruct (mjoin (pathbufs b1 !! pathbuf b)) as [mem|]; [|done]. injection Hstr as Hstr. cbn [mbind option_bind].
  assert (NUL ∉ d) as Hdn by (rewrite <- Hstr; apply c_str_no_nul).
  apply fixed_in_block; try done; [|exact (resolved_absolute _ _ _ _ Hs Hd)].
  rewrite <- Hstr. clear. induction mem as [|c mem IH]; [done|]. cbn [c_str]. case_decide; [done|]. cbn [length take]. by f_equal.
Qed.

Lemma search_exact cwd block filename : malloc_ok -> head cwd = Some slash -> NUL ∉ cwd -> NUL ∉ filename -> filename <> [] ->
  forall l segs b, map (seg_of block) l = map (fun e => (e, length e)) segs -> bufs_ok b ->
  Forall (fun seg => NUL ∉ seg /\ segment_fits cwd seg) segs ->
  exists b', search_segs (Some cwd) block l filename b = Some (b', search_spec cwd filename segs) /\ bufs_ok b'.
Proof.
  intros Hm Hh Hc Hf Hne. induction l as [|[o n] l IH]; intros [|seg segs] b Hmap Hb Hall; try done; [by exists b|].
  cbn [map] in Hmap. injection Hmap as Hseg Hlen Hrest. cbn [fst snd] in *. subst n.
  inversion Hall as [|? ? [Hs Hfit] Hall']; subst. set (seg := c_str (drop o block)) in *.
  destruct (candidate_exact b cwd seg filename Hb Hm Hh Hc Hs Hf Hne Hfit) as (b1 & Hcand & Hb1).
  cbn [search_segs]. fold seg. rewrite Hcand. cbn [mbind option_bind]. unfold search_spec. cbn [omap list_omap].
  destruct (file_in_segment cwd filename seg) as [c|].
  - rewrite filter_cons. destruct (executable c) eqn:He.
    + rewrite decide_True by done. cbn [head default from_option id]. by exists b1.
    + rewrite decide_False by done. by apply IH.
  - by apply IH.
Qed.
End Search.

(** ** The path that is guessed *)

(** What [pseudo_exec_path] is meant to return. *)
Definition exec_guess {PM : PathMax} {PE : PathEnv} {EF : ExecFiles} (path : option bytes) (cwd filename : bytes) (search : bool) : option bytes :=
  if bool_decide (head filename = Some slash) then in_dir [] filename
  else match (if search then path else None) with
       | Some p => Some (search_spec cwd filename (split_on colon p))
       | None => in_dir cwd filename
       end.

(** The cache was made from the path [kept], if there is one. *)
Definition cache_of (kept : option bytes) (c : path_cache) : Prop :=
  match kept with
  | None => previous_path c = None
  | Some p => NUL ∉ p /\ c = populate_path_segs all_memory (Some p)
  end.

(** The path that is searched.  What is compared with PATH is the first
    directory of the path kept, so a longer path that begins with all of PATH
    is searched in its place. *)
Definition searched_path (kept path : option bytes) : option bytes :=
  match path, kept with
  | Some path, Some p => if decide (head (split_on colon p) = Some path) then kept else Some path
  | _, _ => path
  end.

Lemma searched_self path : searched_path path path = path.
Proof. destruct path as [p|]; [|done]. cbn. by case_decide. Qed.

Lemma refresh_exact kept path c : cache_of kept c -> (forall p, path = Some p -> NUL ∉ p) ->
  refresh_path all_memory path c = populate_path_segs all_memory (searched_path kept path).
Proof.
  destruct path as [path|]; [|done]. intros Hc Hn. specialize (Hn path eq_refl). unfold refresh_path. cbn [pm_path all_memory].
  destruct kept as [p|]; cbn [cache_of searched_path] in *; [|by rewrite Hc]. destruct Hc as [Hp ->].
  destruct (populated p Hp) as (m & l & Hc & _). pose proof (populated_first p m l Hp Hc) as Hfirst.
  rewrite Hc. cbn [previous_path]. rewrite Hfirst. case_decide as H1; case_decide as H2; try done; congruence.
Qed.

Lemma populated_cache_of path : (forall p, path = Some p -> NUL ∉ p) -> cache_of path (populate_path_segs all_memory path).
Proof. intros Hn. destruct path as [p|]; [|done]. split; [by apply Hn|done]. Qed.

Lemma searched_no_nul kept path c : cache_of kept c -> (forall p, path = Some p -> NUL ∉ p) ->
  forall p, searched_path kept path = Some p -> NUL ∉ p.
Proof.
  intros Hc Hn p. destruct path as [q|]; [|done]. destruct kept as [k|]; cbn; [case_decide|]; intros [= <-]; try by apply Hn.
  by destruct Hc.
Qed.

Theorem exec_path_exact {PM : PathMax} {PE : PathEnv} {EF : ExecFiles} kept env_path cwd filename search c b :
  let path := searched_path kept env_path in
  bufs_ok b -> malloc_ok -> head cwd = Some slash -> NUL ∉ cwd -> NUL ∉ filename -> filename <> [] ->
  (forall p, env_path = Some p -> NUL ∉ p) -> (forall p, path = Some p -> Forall (segment_fits cwd) (split_on colon p)) ->
  cache_of kept c ->
  exists b', pseudo_exec_path all_memory env_path (Some cwd) (Some filename) search c b =
      Some (populate_path_segs all_memory path, b', exec_guess path cwd filename search) /\
    bufs_ok b' /\ cache_of path (populate_path_segs all_memory path).
Proof.
  intros path0 Hb Hm Hh Hc Hf Hne Henv Hfits Hs.
  pose proof (searched_no_nul kept env_path c Hs Henv) as Hpn.
  unfold pseudo_exec_path, exec_guess. rewrite (refresh_exact kept) by done.
  fold path0 in Hpn |- *. clearbody path0. rename path0 into path.
  pose proof (populated_cache_of path Hpn) as Hns.
  destruct (bool_decide_reflect (head filename = Some slash)) as [Habs|Hrel].
  { assert (base_ok [] 0 0 [] []) as Hok by (constructor; cbn; try done; by apply not_elem_of_nil).
    destruct (pseudo_fix_path_resolves b [] filename 0 0 [] [] false Hb Hm Hok Hf Hne) as (b' & r & Hr & Hb' & Hst).
    exists b'. unfold fixed. rewrite Hr. cbn [mbind option_bind]. by rewrite Hst. }
  destruct path as [p|].
  2:{ cbn [populate_path_segs path_segs]. destruct (fixed_in_dir b cwd filename Hb Hm Hh Hc Hf Hne) as (b' & Hfix & Hb').
      exists b'. unfold in_cwd. cbn [default from_option id]. destruct search; rewrite Hfix; done. }
  pose proof (Hpn p eq_refl) as Hp. pose proof (Hfits p eq_refl) as Hfit. destruct (populated p Hp) as (m & l & Hpop & Hmap). rewrite Hpop in *.
  cbn [path_segs previous_path default from_option id]. destruct search.
  - destruct (search_exact cwd m filename Hm Hh Hc Hf Hne l (split_on colon p) b Hmap Hb) as (b' & Hsearch & Hb').
    { apply Forall_and. split; [|done]. pose proof (split_on_Forall colon p (fun x => x <> NUL)) as H.
      eapply Forall_impl; [apply H|].
      - apply Forall_forall. intros x Hx ->. done.
      - intros e He Hin. rewrite Forall_forall in He. by apply (He NUL Hin). }
    exists b'. rewrite Hsearch. cbn [mbind option_bind]. by split_and!.
  - destruct (fixed_in_dir b cwd filename Hb Hm Hh Hc Hf Hne) as (b' & Hfix & Hb').
    exists b'. unfold in_cwd. cbn [default from_option id]. rewrite Hfix. cbn [mbind option_bind]. by split_and!.
Qed.

(** PATH is shortened from two directories to the first of them, and both are
    still searched. *)
Example stale_segments :
  path_segs (refresh_path all_memory (Some ($"/a")) (refresh_path all_memory (Some ($"/a:/b")) (mkCache None None))) =
  Some [(0, 2); (3, 2)]%nat.
Proof. reflexivity. Qed.


(** ** The wrappers *)

(** The calls, with the arguments they are meant to have. *)
Inductive request :=
  | Execl (search : bool) (file arg : bytes) (args : list bytes)
  | Execle (file arg : bytes) (args : list bytes) (envp : list bytes)
  | Execv (search : bool) (file : bytes) (argv : list (option bytes))
  | Execve (file : bytes) (argv : list (option bytes)) (envp : list bytes)
  | Spawn (search : bool) (a : spawn_args) (file : bytes) (argv : list (option bytes)) (envp : list bytes).

Definition req_file (r : request) : bytes :=
  match r with Execl _ f _ _ | Execle f _ _ _ | Execv _ f _ | Execve f _ _ | Spawn _ _ f _ _ => f end.
Definition req_search (r : request) : bool :=
  match r with Execl s _ _ _ | Execv s _ _ | Spawn s _ _ _ _ => s | _ => false end.
Definition req_spawn (r : request) : option spawn_args := match r with Spawn _ a _ _ _ => Some a | _ => None end.
Definition req_argv (r : request) : list (option bytes) :=
  match r with
  | Execl _ _ a l | Execle _ a l _ => map Some (a :: l) ++ [None]
  | Execv _ _ v | Execve _ v _ | Spawn _ _ _ v _ => v
  end.
Definition req_env (r : request) : option (list bytes) :=
  match r with Execle _ _ _ e | Execve _ _ e | Spawn _ _ _ _ e => Some e | _ => None end.

(** The environment of the program that is started. *)
Definition child_env {BC : BuildConfig} (env : option (list bytes)) (v : env_state) : option (env_state * exec_env) :=
  match env with
  | Some e => '(v, new) ← exec_environment e v; Some (v, EnvArray new)
  | None => v ← own_environment v; Some (v, OwnEnv (environ v))
  end.

Section Perform.
Context {S : Type} {SS : Session S} {PM : PathMax} {PE : PathEnv} {EF : ExecFiles} {BC : BuildConfig} {EK : ExecKernel}.
Context (reinit : exec_state S -> exec_state S).
Implicit Types x : exec_state S.

Definition perform (r : request) (x : exec_state S) : option (exec_state S * exec_outcome) :=
  let ok := fun _ : nat => true in
  match r with
  | Execl false f a l => execl reinit ok all_memory (Some f) (Some a) (va_args l []) x
  | Execl true f a l => execlp reinit ok all_memory (Some f) (Some a) (va_args l []) x
  | Execle f a l e => execle reinit ok all_memory (Some f) (Some a) (va_args l [VaEnv (Some e)]) x
  | Execv false f v => execv reinit all_memory true (Some f) v x
  | Execv true f v => execvp reinit all_memory true (Some f) v x
  | Execve f v e => execve reinit all_memory true (Some f) v e x
  | Spawn false a f v e => posix_spawn reinit all_memory true a (Some f) v e x
  | Spawn true a f v e => posix_spawnp reinit all_memory true a (Some f) v e x
  end.

(** The guts all do the same. *)
Definition guts (r : request) x : option (exec_state S * exec_outcome) :=
  x ← tell_exec all_memory (Some (req_file r)) (req_search r) x;
  '(v, e) ← child_env (req_env r) (x_vars x);
  let x := unblock (with_vars v x) in
  Some (real_exec (mkCall (req_spawn r) (req_search r) (Some (req_file r)) (req_argv r) e (x_sigmask x)) x).

Lemma guts_execv search f argv r x : req_env r = None -> req_file r = f -> req_search r = search -> req_spawn r = None ->
  req_argv r = argv -> wrap_execv all_memory search (Some f) argv x = guts r x.
Proof.
  intros He <- <- Hs <-. unfold wrap_execv, guts. rewrite He, Hs. destruct (tell_exec _ _ _ _) as [x1|]; [|done].
  cbn [mbind option_bind child_env]. by destruct (own_environment _).
Qed.

Lemma guts_execve spawn search f argv e r x : req_env r = Some e -> req_file r = f -> req_search r = search ->
  req_spawn r = spawn -> req_argv r = argv -> wrap_execve all_memory spawn search (Some f) argv e x = guts r x.
Proof.
  intros He <- <- <- <-. unfold wrap_execve, guts. rewrite He. destruct (tell_exec _ _ _ _) as [x1|]; [|done].
  cbn [mbind option_bind child_env]. by destruct (exec_environment _ _) as [[v new]|].
Qed.

Lemma locked_ext body body' x : (forall x, body x = body' x) -> locked body x = locked body' x.
Proof. intros H. unfold locked. destruct (_ && _); [done|]. destruct (pseudo_getlock _ _); [|done]. by rewrite H. Qed.

Lemma perform_locked r x : x_inited x = true -> perform r x = locked (guts r) x.
Proof.
  intros Hi. assert (pseudo_check_wrappers reinit x = (x, true)) as Hck by (unfold pseudo_check_wrappers; rewrite Hi; by rewrite Hi).
  destruct r as [[] f a l|f a l e|[] f v|f v e|[] sa f v e]; cbn [perform];
    unfold execl, execlp, execle, execv, execvp, execve, posix_spawn, posix_spawnp, wrap_execvp, wrap_posix_spawn, wrap_posix_spawnp, execl_wrapper, exec_wrapper; rewrite Hck; cbn [negb andb];
    rewrite ?execl_to_v_exact by (done || intros; eauto); cbn [mbind option_bind default from_option id];
    apply locked_ext; intros x'; (apply guts_execv || apply guts_execve); done.
Qed.

(** The lock is free, or the thread holds it already. *)
Definition lock_ready (t : Z) (P : process) : Prop :=
  (owner P = None /\ holder P = 0 /\ recursion P = 0 /\ t <> 0) \/ (holder P = t /\ 1 <= recursion P).

Lemma lock_round_trip t P : lock_ready t P -> exists P', pseudo_getlock t P = Some P' /\ antimagic P' = antimagic P /\
  pseudo_droplock P' = P.
Proof.
  intros H. destruct P as [o rec h a d th]. unfold lock_ready, pseudo_getlock in *. cbn [holder owner recursion] in *.
  destruct H as [(-> & -> & -> & Ht)|[-> Hr]].
  - rewrite (proj2 (Z.eqb_neq _ _)) by done. eexists. split; [done|]. split; done.
  - rewrite Z.eqb_refl. eexists. split; [done|]. split; [done|]. unfold pseudo_droplock. cbn [recursion with_lock holder owner].
    replace (rec + 1 - 1) with rec by lia. by rewrite (proj2 (Z.eqb_neq _ _)) by lia.
Qed.

(** What a call needs: a thread that can have the lock, the library and the
    paths in order, an environment that can be made, and a connection that
    does not break memory. *)
Record exec_ready (kept : option bytes) (r : request) x (v : env_state) (e : exec_env) : Prop := {
  er_inited : x_inited x = true;
  er_lock : lock_ready (x_thread x) (x_process x);
  er_mutex : lock_fails = false;
  er_bufs : bufs_ok (x_bufs x);
  er_malloc : malloc_ok;
  er_cwd : exists cwd, x_cwd x = Some cwd /\ head cwd = Some slash /\ NUL ∉ cwd /\
    (forall p, environ (x_vars x) !! $"PATH" = Some p -> NUL ∉ p) /\
    forall p, searched_path kept (environ (x_vars x) !! $"PATH") = Some p -> Forall (segment_fits cwd) (split_on colon p);
  er_file : NUL ∉ req_file r /\ req_file r <> [];
  er_cache : cache_of kept (x_cache x);
  er_session : forall guess, is_Some (client_op OP_EXEC PSA_EXEC (-1) (-1) guess None None None (x_session x));
  er_env : child_env (req_env r) (x_vars x) = Some (v, e)
}.

(** The server is told the guess, and nothing else changes but the paths. *)
Lemma tell_exec_exact kept r x v e P m s : exec_ready kept r x v e -> antimagic P = antimagic (x_process x) ->
  exists x1, tell_exec all_memory (Some (req_file r)) (req_search r) (with_masks m s (with_process P x)) = Some x1 /\
    x_thread x1 = x_thread x /\ x_sigmask x1 = m /\ saved_sigmask x1 = s /\ x_process x1 = P /\ x_vars x1 = x_vars x /\
    x_calls x1 = x_calls x /\ x_errno x1 = x_errno x /\
    (if antimagic (x_process x) =? 0 then
       exists cwd msg, x_cwd x = Some cwd /\
         client_op OP_EXEC PSA_EXEC (-1) (-1) (exec_guess (searched_path kept (environ (x_vars x) !! $"PATH")) cwd (req_file r) (req_search r))
           None None None (x_session x) = Some (x_session x1, msg)
     else x_session x1 = x_session x).
Proof.
  intros [] Ha. destruct er_cwd0 as (cwd & Hcwd & Hh & Hn & Hp & Hfit). unfold tell_exec.
  cbn [with_masks with_process x_process x_vars x_cwd x_cache x_bufs]. rewrite Ha, Hcwd.
  destruct (antimagic (x_process x) =? 0); [|eexists; split; [done|]; by split_and!].
  destruct (exec_path_exact kept (environ (x_vars x) !! $"PATH") cwd (req_file r) (req_search r) (x_cache x) (x_bufs x))
    as (b' & -> & _); try done; [apply er_file0|apply er_file0|].
  cbn [mbind option_bind with_xpaths with_masks with_process x_session]. destruct (er_session0 (exec_guess (searched_path kept (environ (x_vars x) !! $"PATH")) cwd (req_file r) (req_search r)))
    as [[s' msg] Hs]. rewrite Hs. cbn [mbind option_bind]. eexists. split; [done|]. split_and!; try done. by exists cwd, msg.
Qed.
End Perform.

(** C20: whichever function of the exec family or of [posix_spawn] is called
    (in a process that is set up, with memory for the copies and room for
    pseudo's variables in the environment, by a thread that can have the lock,
    with the name of a program, and with directories to search that fit in the
    buffers for paths), the C library is called once, with the caller's
    program, arguments and file actions, an environment made from the caller's
    and pseudo's, and the signal mask the caller had; and if the call comes
    back, its result and [errno] are returned, and the lock and the mask are as
    before.  The server is told, except inside pseudo itself, the first program
    that can be executed of the path that is searched: that is PATH, but when
    an earlier search left a longer path in the cache, of which all of PATH is
    the first directory, it is that path. *)
Theorem exec_handed_on {S : Type} {SS : Session S} {PM : PathMax} {PE : PathEnv} {EF : ExecFiles} {BC : BuildConfig}
    {EK : ExecKernel} (reinit : exec_state S -> exec_state S) (kept : option bytes) (r : request) (x : exec_state S) v e :
  exec_ready kept r x v e ->
  let c := mkCall (req_spawn r) (req_search r) (Some (req_file r)) (req_argv r) e (x_sigmask x) in
  exists x' o, perform reinit r x = Some (x', o) /\ x_calls x' = x_calls x ++ [c] /\ x_vars x' = v /\
    x_sigmask x' = x_sigmask x /\
    (if antimagic (x_process x) =? 0 then
       exists cwd msg, x_cwd x = Some cwd /\
         client_op OP_EXEC PSA_EXEC (-1) (-1) (exec_guess (searched_path kept (environ (x_vars x) !! $"PATH")) cwd (req_file r) (req_search r))
           None None None (x_session x) = Some (x_session x', msg)
     else x_session x' = x_session x) /\
    match sys_exec c with
    | None => o = Replaced
    | Some (rc, err) => o = Returned rc /\ x_errno x' = default (x_errno x) err /\ x_process x' = x_process x
    end.
Proof.
  intros Hr c. rewrite perform_locked by apply Hr. unfold locked. rewrite (er_mutex _ _ _ _ _ Hr). cbn [andb].
  destruct (lock_round_trip _ _ (er_lock _ _ _ _ _ Hr)) as (P' & HP & Ha & Hd).
  cbn [with_masks x_thread x_process]. rewrite HP.
  destruct (tell_exec_exact kept r x v e P' (pseudo_sigblock (x_sigmask x)) (x_sigmask x) Hr Ha)
    as (x1 & Ht & Hth & Hm & Hs & Hp & Hv & Hc & He & Hsess).
  unfold guts. change (with_masks _ _ (with_process P' (with_masks _ _ x))) with (with_masks (pseudo_sigblock (x_sigmask x)) (x_sigmask x) (with_process P' x)).
  rewrite Ht. cbn [mbind option_bind]. rewrite Hv, (er_env _ _ _ _ _ Hr). cbn [mbind option_bind].
  unfold real_exec, unblock. cbn [with_masks with_vars add_call x_sigmask saved_sigmask x_errno]. rewrite Hs. fold c.
  destruct (sys_exec c) as [[rc err]|]; cbn [mbind option_bind]; eexists _, _; (split; [done|]);
    cbn [with_xerrno with_masks with_process with_vars add_call x_calls x_vars x_sigmask x_session x_process x_errno];
    rewrite ?Hc, ?He, ?Hp, ?Hd; by split_and!.
Qed.

(** A failed [execv] has changed the caller's environment: the variables of
    pseudo stay in it ([own_environment] in the conclusion above); [execve]
    leaves it alone. *)

(** ** A concrete call *)

#[local] Instance sample_exec_max : PathMax := {| pseudo_path_max := 64; malloc_path_max := replicate 64 NUL |}.
#[local] Instance sample_exec_tree : PathEnv := {|
  real_lstat := fun p => if bool_decide (p = $"/bin" \/ p = $"/usr" \/ p = $"/home") then Some (S_IFDIR + 493) else None;
  readlink := fun _ => None;
  malloc_pathbuf := Some (replicate 64 NUL)
|}.
#[local] Instance sample_exec_files : ExecFiles := fun p => if bool_decide (p = $"/bin/ls") then Some (S_IFREG + 493) else None.
#[local] Instance sample_exec_build : BuildConfig := {| PSEUDO_BINDIR := $"bin"; PSEUDO_LIBDIR := $"lib"; PSEUDO_LOCALSTATEDIR := $"var" |}.
#[local] Instance sample_exec_kernel : ExecKernel := {| sys_exec := fun _ => Some (-1, Some 2); lock_fails := false |}.
#[local] Instance sample_told : Session (list (option bytes)) := fun _ _ _ _ path _ _ _ s => Some (s ++ [path], None).

Definition sample_exec_state : exec_state (list (option bytes)) :=
  mkXS 7 ∅ ∅ true (mkProcess None 0 0 0 false ∅ ∅)
    (mkEnv {[ $"PATH" := $"/usr:.:/bin"; $"PSEUDO_PREFIX" := $"/p" ]} {[ $"PSEUDO_PREFIX" := $"/p" ]} true (mkDebug 0 0) 0)
    (Some ($"/home")) (mkCache None None) no_bufs 0 [] [].

Definition sample_request : request := Execl true ($"ls") ($"ls") [$"-l"].

Lemma exec_handed_on_witness : exists v e x' o,
  child_env None (x_vars sample_exec_state) = Some (v, e) /\
  perform (fun x => x) sample_request sample_exec_state = Some (x', o) /\
  x_session x' = [Some ($"/bin/ls")] /\ o = Returned (-1).
Proof.
  assert (exists ve, child_env None (x_vars sample_exec_state) = Some ve) as [[v e] He] by (vm_compute; by eexists).
  destruct (@exec_handed_on (list (option bytes)) _ _ _ _ _ _ (fun x => x) None sample_request sample_exec_state v e)
    as (x' & o & Hx & _ & _ & _ & Ht & Ho).
  - split; [reflexivity| |reflexivity| | | | | | |exact He].
    + left. by split_and!.
    + split; [reflexivity|]. split; [vm_compute; lia|]. intros i mem Hi. apply lookup_replicate in Hi as [[=] _].
    + eexists. split; [reflexivity|]. vm_compute. reflexivity.
    + exists ($"/home"). split; [reflexivity|]. split; [reflexivity|]. split; [key|].
      split; intros p Hp; vm_compute in Hp; injection Hp as <-; [key|].
      change (split_on colon _) with [$"/usr"; $"."; $"/bin"].
      constructor; [left; vm_compute; reflexivity|]. constructor; [right; vm_compute; reflexivity|].
      constructor; [left; vm_compute; reflexivity|constructor].
    + split; [key|discriminate].
    + reflexivity.
    + intros guess. eexists. reflexivity.
  - exists v, e, x', o. split; [done|]. split; [exact Hx|]. split.
    + destruct Ht as (cwd & msg & [= <-] & Hs).
      change (Some ([exec_guess (Some ($"/usr:.:/bin")) ($"/home") ($"ls") true], @None pseudo_msg_t) = Some (x_session x', msg)) in Hs.
      injection Hs as Hs _. rewrite <- Hs. vm_compute. reflexivity.
    + apply Ho.
Defined.
