(* ===== verification/Daemon.v ===== *)
(** Starting the server ([pseudo_server_start] in [pseudo_server.c]): the
    parent that waits until its child is ready, and the steps of the child: the
    lock file, the socket, the pid file.

    Any number of servers are started, by clients that do not know of each
    other, and are killed at any time.  What they share is a [host]: who has
    the lock on the lock file, which process bound the socket in the data
    directory, and the text of the pid file. *)

From stdpp Require Import base gmap list fin_maps option strings.
From Stdlib Require Import ZArith Lia Ascii.
From S2P Require Import Prelude Format Tables Startup.

Open Scope Z_scope.

(** ** Exit statuses ([enums/exit_status.in]) *)

Definition exit_names : list bytes :=
  [$"none"; $"general"; $"fork_failed"; $"lock_path"; $"lock_held"; $"lock_failed"; $"timeout"; $"waitpid"; $"socket_create";
   $"socket_fd"; $"socket_path"; $"socket_unlink"; $"socket_bind"; $"socket_listen"; $"listen_fd"; $"pseudo_loaded";
   $"pseudo_prefix"; $"pseudo_invocation"; $"epoll_create"; $"epoll_ctl"].

Definition PSEUDO_EXIT_GENERAL : Z := 1.
Definition PSEUDO_EXIT_FORK_FAILED : Z := 2.
Definition PSEUDO_EXIT_LOCK_PATH : Z := 3.
Definition PSEUDO_EXIT_LOCK_HELD : Z := 4.
Definition PSEUDO_EXIT_LOCK_FAILED : Z := 5.
Definition PSEUDO_EXIT_TIMEOUT : Z := 6.
Definition PSEUDO_EXIT_WAITPID : Z := 7.
Definition PSEUDO_EXIT_SOCKET_CREATE : Z := 8.
Definition PSEUDO_EXIT_SOCKET_FD : Z := 9.
Definition PSEUDO_EXIT_SOCKET_PATH : Z := 10.
Definition PSEUDO_EXIT_SOCKET_UNLINK : Z := 11.
Definition PSEUDO_EXIT_SOCKET_BIND : Z := 12.
Definition PSEUDO_EXIT_SOCKET_LISTEN : Z := 13.
Definition PSEUDO_EXIT_PSEUDO_LOADED : Z := 15.
Definition PSEUDO_EXIT_PSEUDO_PREFIX : Z := 16.
Definition PSEUDO_EXIT_PSEUDO_INVOCATION : Z := 17.

Example exit_ids : map (fun n => enum_id exit_names (Some n)) [$"lock_held"; $"timeout"; $"socket_listen"; $"pseudo_invocation"] =
  [PSEUDO_EXIT_LOCK_HELD; PSEUDO_EXIT_TIMEOUT; PSEUDO_EXIT_SOCKET_LISTEN; PSEUDO_EXIT_PSEUDO_INVOCATION].
Proof. reflexivity. Qed.

(** ** The child *)

Inductive point :=
  | AtLockPath          (* pseudo_localstatedir_path(NULL), mkdir_p *)
  | AtLockOpen          (* open(lockname) and the move above descriptor 2 *)
  | AtLock              (* fcntl(lockfd, F_SETLK) *)
  | AtSocket            (* socket() and the move above descriptor 2 *)
  | AtChdir
  | AtUnlink
  | AtBind
  | AtListen
  | AtPid               (* pseudo_server_write_pid *)
  | AtReady             (* signal handlers, SIGUSR1 to the parent *)
  | InLoop
  | Finished (status : Z)
  | Killed.

(** [lock_fd] and [listen_fd] are the descriptors; [wrote_pid]: the pid file
    could be written; [told]: the parent was sent SIGUSR1. *)
Record server_proc := mkServerProc {
  sp_point : point; sp_lock_fd : Z; sp_listen_fd : Z; sp_daemonize : bool; sp_ppid : Z; sp_wrote_pid : bool; sp_told : bool
}.

Record host := mkHost {
  lock_owner : option Z;
  socket_owner : option Z;       (* [None]: there is no such file *)
  pid_file : option bytes;
  servers : gmap Z server_proc
}.

(** What the system answers to the calls of a step: a descriptor, the
    descriptor [F_DUPFD] gives, whether another call succeeds. *)
Record answer := mkAnswer { a_fd : Z; a_dup : Z; a_ok : bool }.

Definition at_point q (s : server_proc) : server_proc :=
  mkServerProc q (sp_lock_fd s) (sp_listen_fd s) (sp_daemonize s) (sp_ppid s) (sp_wrote_pid s) (sp_told s).
Definition with_lock_fd fd (s : server_proc) : server_proc :=
  mkServerProc (sp_point s) fd (sp_listen_fd s) (sp_daemonize s) (sp_ppid s) (sp_wrote_pid s) (sp_told s).
Definition with_listen_fd fd (s : server_proc) : server_proc :=
  mkServerProc (sp_point s) (sp_lock_fd s) fd (sp_daemonize s) (sp_ppid s) (sp_wrote_pid s) (sp_told s).
Definition with_wrote b (s : server_proc) : server_proc :=
  mkServerProc (sp_point s) (sp_lock_fd s) (sp_listen_fd s) (sp_daemonize s) (sp_ppid s) b (sp_told s).
Definition with_told b (s : server_proc) : server_proc :=
  mkServerProc (sp_point s) (sp_lock_fd s) (sp_listen_fd s) (sp_daemonize s) (sp_ppid s) (sp_wrote_pid s) b.

(** A process that ends leaves its lock, and nothing else. *)
Definition release (pid : Z) (o : option Z) : option Z := if decide (o = Some pid) then None else o.

Definition put_server (pid : Z) (s : server_proc) (h : host) : host :=
  mkHost (lock_owner h) (socket_owner h) (pid_file h) (<[pid := s]> (servers h)).
Definition end_server (pid : Z) (q : point) (s : server_proc) (h : host) : host :=
  mkHost (release pid (lock_owner h)) (socket_owner h) (pid_file h) (<[pid := at_point q s]> (servers h)).

(** [fprintf(fp, "%lld\n", pid)] *)
Definition pid_text (pid : Z) : bytes := decimal pid ++ [byte_of_Z 10].

(** [pseudo_server_write_pid]: a file that cannot be opened is left as it is. *)
Definition pseudo_server_write_pid (pid : Z) (a : answer) (h : host) : host * Z :=
  if a_ok a then (mkHost (lock_owner h) (socket_owner h) (Some (pid_text pid)) (servers h), 0) else (h, 1).

(** The next step of the server [pid]. *)
Definition server_step (pid : Z) (a : answer) (s : server_proc) (h : host) : option host :=
  let go q := Some (put_server pid (at_point q s) h) in
  let quit status := Some (end_server pid (Finished status) s h) in
  match sp_point s with
  | AtLockPath => if a_ok a then go AtLockOpen else quit PSEUDO_EXIT_LOCK_PATH
  | AtLockOpen =>
      if a_fd a <? 0 then quit PSEUDO_EXIT_LOCK_FAILED
      else
        let fd := if a_fd a <=? 2 then (if a_dup a <? 0 then a_fd a else a_dup a) else a_fd a in
        Some (put_server pid (at_point AtLock (with_lock_fd fd s)) h)
  | AtLock =>
      match lock_owner h with
      | Some _ => quit PSEUDO_EXIT_LOCK_HELD
      | None => if a_ok a then Some (mkHost (Some pid) (socket_owner h) (pid_file h) (<[pid := at_point AtSocket s]> (servers h)))
                else quit PSEUDO_EXIT_LOCK_HELD
      end
  | AtSocket =>
      if a_fd a <? 0 then quit PSEUDO_EXIT_SOCKET_CREATE
      else if a_fd a <=? 2 then
        if a_dup a <? 0 then quit PSEUDO_EXIT_SOCKET_FD
        else Some (put_server pid (at_point AtChdir (with_listen_fd (a_dup a) s)) h)
      else Some (put_server pid (at_point AtChdir (with_listen_fd (a_fd a) s)) h)
  | AtChdir => if a_ok a then go AtUnlink else quit PSEUDO_EXIT_SOCKET_PATH
  | AtUnlink =>
      match socket_owner h with
      | None => go AtBind
      | Some _ => if a_ok a then Some (mkHost (lock_owner h) None (pid_file h) (<[pid := at_point AtBind s]> (servers h)))
                  else quit PSEUDO_EXIT_SOCKET_UNLINK
      end
  | AtBind =>
      match socket_owner h with
      | Some _ => quit PSEUDO_EXIT_SOCKET_BIND
      | None => if a_ok a then Some (mkHost (lock_owner h) (Some pid) (pid_file h) (<[pid := at_point AtListen s]> (servers h)))
                else quit PSEUDO_EXIT_SOCKET_BIND
      end
  | AtListen => if a_ok a then go AtPid else quit PSEUDO_EXIT_SOCKET_LISTEN
  | AtPid =>
      let '(h, rc) := pseudo_server_write_pid pid a h in
      Some (put_server pid (at_point AtReady (with_wrote (rc =? 0) s)) h)
  | AtReady =>
      let told := sp_daemonize s && negb (sp_ppid s =? 1) in
      Some (put_server pid (at_point InLoop (with_told told s)) h)
  | InLoop => quit 0
  | Finished _ | Killed => None
  end.

Definition finished (q : point) : bool := match q with Finished _ | Killed => true | _ => false end.

Inductive event :=
  | Start (pid ppid : Z) (daemonize : bool)
  | Step (pid : Z) (a : answer)
  | Kill (pid : Z).

Definition host_step (e : event) (h : host) : option host :=
  match e with
  | Start pid ppid d =>
      if (0 <? pid) && match servers h !! pid with Some s => finished (sp_point s) | None => true end
      then Some (put_server pid (mkServerProc AtLockPath (-1) (-1) d ppid false false) h) else None
  | Step pid a => s ← servers h !! pid; server_step pid a s h
  | Kill pid => s ← servers h !! pid; if finished (sp_point s) then None else Some (end_server pid Killed s h)
  end.

(** A host on which no server runs, whatever earlier ones left behind. *)
Record quiet (h : host) : Prop := {
  quiet_lock : lock_owner h = None;
  quiet_servers pid s : servers h !! pid = Some s -> finished (sp_point s) = true
}.

Inductive reachable : host -> Prop :=
  | reach_quiet h : quiet h -> reachable h
  | reach_step e h h' : reachable h -> host_step e h = Some h' -> reachable h'.

Fixpoint host_steps (es : list event) (h : host) : option host :=
  match es with
  | [] => Some h
  | e :: es => h ← host_step e h; host_steps es h
  end.

(** ** The parent *)

(** One round of the loop: what [waitpid] returns, and the flags as they are
    when the loop is left or not. *)
Record poll := mkPoll { pl_rc : Z; pl_usr1 : bool; pl_alrm : bool }.

(** The round in which the loop ends. *)
Fixpoint parent_wait (child : Z) (l : list poll) : option poll :=
  match l with
  | [] => None
  | p :: l => if pl_usr1 p || pl_alrm p || (pl_rc p =? child) then Some p else parent_wait child l
  end.

Inductive wait_status := WExited (code : Z) | WSignaled (sig : Z) | WOther.

Inductive parent_end := ExitWith (status : Z) | KillSelf (sig status : Z).

Definition parent_exit (p : poll) (st : wait_status) : parent_end :=
  if pl_usr1 p then ExitWith 0
  else if pl_alrm p then ExitWith PSEUDO_EXIT_TIMEOUT
  else if pl_rc p =? -1 then ExitWith PSEUDO_EXIT_WAITPID
  else match st with
       | WSignaled sig => KillSelf sig (sig + 64)
       | WExited code => ExitWith code
       | WOther => ExitWith PSEUDO_EXIT_GENERAL
       end.

(** [child] is what [fork] returned; [None]: the parent still waits. *)
Definition server_parent (child : Z) (polls : list poll) (st : wait_status) : option parent_end :=
  if child =? -1 then Some (ExitWith PSEUDO_EXIT_FORK_FAILED)
  else p ← parent_wait child polls; Some (parent_exit p st).
