(* ===== verification/DaemonSpec.v ===== *)
(** However many servers are started, at most one gets past the lock; once it
    says it is ready, the socket in the data directory is its own and the pid
    file names it.  A parent reports what became of its child. *)

From stdpp Require Import base gmap list fin_maps option strings.
From Stdlib Require Import ZArith Lia Ascii.
From S2P Require Import Prelude Format ClientConn Daemon.

Open Scope Z_scope.

(** ** Where a server is *)

(** Past [fcntl(lockfd, F_SETLK)]. *)
Definition has_lock (q : point) : bool :=
  match q with AtSocket | AtChdir | AtUnlink | AtBind | AtListen | AtPid | AtReady | InLoop => true | _ => false end.

Definition has_socket (q : point) : bool :=
  match q with AtListen | AtPid | AtReady | InLoop => true | _ => false end.

Definition past_pid (q : point) : bool := match q with AtReady | InLoop => true | _ => false end.

Record server_ok (h : host) (pid : Z) (s : server_proc) : Prop := {
  so_pid : 0 < pid;
  so_lock : has_lock (sp_point s) = true -> lock_owner h = Some pid;
  so_unbound : sp_point s = AtBind -> socket_owner h = None;
  so_socket : has_socket (sp_point s) = true -> socket_owner h = Some pid;
  so_pid_file : past_pid (sp_point s) = true -> sp_wrote_pid s = true -> pid_file h = Some (pid_text pid);
  so_told : sp_told s = true -> finished (sp_point s) = false -> sp_point s = InLoop
}.

Record host_ok (h : host) : Prop := {
  ho_servers pid s : servers h !! pid = Some s -> finished (sp_point s) = false -> server_ok h pid s;
  ho_lock pid : lock_owner h = Some pid -> exists s, servers h !! pid = Some s /\ has_lock (sp_point s) = true
}.

Lemma quiet_ok h : quiet h -> host_ok h.
Proof.
  intros [Hl Hs]. split; [|congruence]. intros pid s Hp Hf. specialize (Hs pid s Hp). congruence.
Qed.

Lemma has_lock_alive q : has_lock q = true -> finished q = false.
Proof. by destruct q. Qed.

(** A step of one server that leaves what is shared alone, or holds the lock:
    the others hold nothing that could change. *)
Lemma one_server_changes h h' pid s s' : host_ok h -> servers h !! pid = Some s ->
  servers h' = <[pid := s']> (servers h) ->
  (lock_owner h' = lock_owner h /\ socket_owner h' = socket_owner h /\ pid_file h' = pid_file h \/
   has_lock (sp_point s) = true /\ lock_owner h' = lock_owner h \/
   lock_owner h = None /\ lock_owner h' = Some pid /\ has_lock (sp_point s') = true) ->
  (finished (sp_point s') = false -> server_ok h' pid s') ->
  (lock_owner h' = Some pid -> has_lock (sp_point s') = true) -> host_ok h'.
Proof.
  intros [Hservers Hlock] Hp Hins Hshared Hok Hl'. split.
  - intros q t Hq Hf. rewrite Hins in Hq. apply lookup_insert_Some in Hq as [[<- <-]|[Hne Hq]]; [by apply Hok|].
    pose proof (Hservers q t Hq Hf) as [H1 H2 H3 H4 H5 H6].
    destruct Hshared as [(E1 & E2 & E3)|[(Hh & E1)|(E1 & E2 & E3)]].
    + split; rewrite ?E1, ?E2, ?E3; done.
    + assert (lock_owner h = Some pid) as Ho.
      { apply (Hservers pid s Hp); [by apply has_lock_alive|done]. }
      assert (has_lock (sp_point t) = false) as Hnl.
      { destruct (has_lock (sp_point t)) eqn:E; [|done]. specialize (H2 eq_refl). congruence. }
      split; [done| | | | |done]; destruct (sp_point t); done.
    + assert (has_lock (sp_point t) = false) as Hnl.
      { destruct (has_lock (sp_point t)) eqn:E; [|done]. specialize (H2 eq_refl). congruence. }
      split; [done| | | | |done]; destruct (sp_point t); done.
  - intros q Hq. rewrite Hins. destruct (decide (q = pid)) as [->|Hne].
    + rewrite lookup_insert_eq. eauto.
    + rewrite lookup_insert_ne by done. apply Hlock. destruct Hshared as [(E1 & _)|[(_ & E1)|(_ & E1 & _)]]; congruence.
Qed.

Lemma end_server_ok h pid s q : host_ok h -> servers h !! pid = Some s -> finished q = true -> host_ok (end_server pid q s h).
Proof.
  intros [Hservers Hlock] Hp Hq. split.
  - cbn [end_server servers]. intros p t Ht Hf. apply lookup_insert_Some in Ht as [[<- <-]|[Hne Ht]]; [by cbn in Hf; congruence|].
    pose proof (Hservers p t Ht Hf) as [H1 H2 H3 H4 H5 H6]. split; try done. cbn [end_server lock_owner].
    intros Hh. unfold release. specialize (H2 Hh). rewrite decide_False; [done|congruence].
  - cbn [end_server lock_owner servers]. unfold release. intros p Hp'. case_decide; [done|].
    rewrite lookup_insert_ne by congruence. by apply Hlock.
Qed.

Lemma put_server_ok h pid s s' : host_ok h -> servers h !! pid = Some s ->
  (finished (sp_point s') = false -> server_ok h pid s') -> has_lock (sp_point s') = has_lock (sp_point s) ->
  finished (sp_point s) = false -> host_ok (put_server pid s' h).
Proof.
  intros Hh Hp Hok Hl Hf. eapply (one_server_changes h _ pid s s'); try done; [by left| |].
  - intros Hf'. destruct (Hok Hf'). by split.
  - cbn [put_server lock_owner]. intros Ho. destruct (ho_lock _ Hh _ Ho) as (t & Ht & Htl). rewrite Hp in Ht. injection Ht as <-. congruence.
Qed.

(** The fields of a server after a step, from those before it. *)
Ltac fields := intros; split; cbn; intros;
  first [done | by auto | match goal with
    | H : sp_told _ = true -> _, Ht : sp_told _ = true, Hf : finished _ = false |- _ => by specialize (H Ht Hf) end].

Lemma server_step_ok pid a s h h' : host_ok h -> servers h !! pid = Some s -> server_step pid a s h = Some h' -> host_ok h'.
Proof.
  intros Hh Hp Hstep. assert (finished (sp_point s) = false) as Hf by (unfold server_step in Hstep; by destruct (sp_point s)).
  pose proof (ho_servers _ Hh pid s Hp Hf) as Hs. pose proof Hs as [H1 H2 H3 H4 H5 H6].
  assert (forall q, finished q = true -> host_ok (end_server pid q s h)) as Hend by (intros; by apply end_server_ok).
  assert (forall s', (finished (sp_point s') = false -> server_ok h pid s') -> has_lock (sp_point s') = has_lock (sp_point s) ->
    host_ok (put_server pid s' h)) as Hput by (intros s' ? ?; by apply (put_server_ok h pid s s')).
  unfold server_step in Hstep. destruct (sp_point s) eqn:Hq; try done.
  - destruct (a_ok a); injection Hstep as <-; [|by apply Hend]. apply Hput; [|done]. fields.
  - destruct (a_fd a <? 0); injection Hstep as <-; [by apply Hend|]. apply Hput; [|done]. fields.
  - destruct (lock_owner h) eqn:Ho; [injection Hstep as <-; by apply Hend|].
    destruct (a_ok a); injection Hstep as <-; [|by apply Hend].
    eapply (one_server_changes h _ pid s (at_point AtSocket s)); [done|done|reflexivity|by right; right| |done].
    fields.
  - destruct (a_fd a <? 0); [injection Hstep as <-; by apply Hend|].
    destruct (a_fd a <=? 2); [destruct (a_dup a <? 0); [injection Hstep as <-; by apply Hend|]|]; injection Hstep as <-;
      (apply Hput; [|done]; fields).
  - destruct (a_ok a); injection Hstep as <-; [|by apply Hend].
    apply Hput; [|done]; fields.
  - destruct (socket_owner h) eqn:Hso.
    + destruct (a_ok a); injection Hstep as <-; [|by apply Hend].
      eapply (one_server_changes h _ pid s (at_point AtBind s)); [done|done|reflexivity|right; left; by rewrite Hq| |done].
      fields.
    + injection Hstep as <-. apply Hput; [|done].
      fields.
  - destruct (socket_owner h) eqn:Hso; [injection Hstep as <-; by apply Hend|].
    destruct (a_ok a); injection Hstep as <-; [|by apply Hend].
    eapply (one_server_changes h _ pid s (at_point AtListen s)); [done|done|reflexivity|right; left; by rewrite Hq| |done].
    fields.
  - destruct (a_ok a); injection Hstep as <-; [|by apply Hend].
    apply Hput; [|done]; fields.
  - unfold pseudo_server_write_pid in Hstep. destruct (a_ok a); injection Hstep as <-.
    + eapply (one_server_changes h _ pid s); [done|done|reflexivity|right; left; by rewrite Hq| |done].
      fields.
    + apply Hput; [|done]; fields.
  - injection Hstep as <-. apply Hput; [|done]; fields.
  - injection Hstep as <-. by apply Hend.
Qed.

Lemma host_step_ok e h h' : host_ok h -> host_step e h = Some h' -> host_ok h'.
Proof.
  intros Hh. destruct e as [pid ppid d|pid a|pid]; cbn [host_step].
  - intros Hstep. destruct (0 <? pid) eqn:Hpos; cbn [andb] in Hstep; [|done]. apply Z.ltb_lt in Hpos.
    set (s' := mkServerProc AtLockPath _ _ _ _ _ _) in *.
    assert (forall s, servers h !! pid = Some s -> finished (sp_point s) = true) as Hdead.
    { intros s Hs. rewrite Hs in Hstep. by destruct (finished (sp_point s)). }
    assert (h' = put_server pid s' h) as ->.
    { destruct (servers h !! pid) as [s|]; [destruct (finished (sp_point s))|]; congruence. }
    clear Hstep. destruct Hh as [Hservers Hlock]. split.
    + cbn [put_server servers]. intros q t Hq Hf. apply lookup_insert_Some in Hq as [[<- <-]|[Hne Hq]].
      * split; cbn; try done.
      * destruct (Hservers q t Hq Hf). by split.
    + cbn [put_server servers lock_owner]. intros q Hq. destruct (Hlock q Hq) as (s & Hs & Hl).
      destruct (decide (q = pid)) as [->|Hne]; [|rewrite lookup_insert_ne by done; by exists s].
      specialize (Hdead s Hs). by apply has_lock_alive in Hl as Hl2; rewrite Hdead in Hl2.
  - destruct (servers h !! pid) as [s|] eqn:Hs; [|done]. cbn [mbind option_bind]. by apply server_step_ok.
  - destruct (servers h !! pid) as [s|] eqn:Hs; [|done]. cbn [mbind option_bind].
    destruct (finished (sp_point s)); [done|]. intros [= <-]. by apply end_server_ok.
Qed.

Lemma reachable_ok h : reachable h -> host_ok h.
Proof. induction 1 as [h Hq|e h h' _ IH Hstep]; [by apply quiet_ok|by eapply host_step_ok]. Qed.

Lemma pid_read_back pid : 0 < pid < 2 ^ 31 -> scan_int (pid_text pid) = Some (pid, [byte_of_Z 10]).
Proof. intros Hp. unfold pid_text. rewrite scan_int_decimal; [done|lia|done]. Qed.

(** A host without a server that holds the lock: the next one gets it. *)
Lemma lock_free h : host_ok h -> (forall pid s, servers h !! pid = Some s -> has_lock (sp_point s) = false) -> lock_owner h = None.
Proof.
  intros Hh Hno. destruct (lock_owner h) as [pid|] eqn:Ho; [|done]. destruct (ho_lock _ Hh pid Ho) as (s & Hs & Hl).
  rewrite (Hno pid s Hs) in Hl. done.
Qed.

(** C28: of all servers that clients start on a data directory, at most one is
    past the lock.  When it is in its loop, the socket that clients connect to
    is the one it listens on, and if it could write the pid file, the number a
    client reads there is its own.  It is in its loop when its parent hears of
    it.  Once it is gone, however it went, the next one gets the lock. *)
Theorem one_server h : reachable h ->
  (forall p q s t, servers h !! p = Some s -> servers h !! q = Some t ->
     has_lock (sp_point s) = true -> has_lock (sp_point t) = true -> p = q) /\
  (forall pid s, servers h !! pid = Some s -> sp_point s = InLoop \/ (sp_told s = true /\ finished (sp_point s) = false) ->
     socket_owner h = Some pid /\ sp_point s = InLoop /\
     (sp_wrote_pid s = true -> pid < 2 ^ 31 -> exists text rest, pid_file h = Some text /\ scan_int text = Some (pid, rest))) /\
  ((forall pid s, servers h !! pid = Some s -> has_lock (sp_point s) = false) -> lock_owner h = None).
Proof.
  intros Hr. pose proof (reachable_ok h Hr) as Hh. split; [|split].
  - intros p q s t Hs Ht Hls Hlt.
    pose proof (so_lock _ _ _ (ho_servers _ Hh p s Hs (has_lock_alive _ Hls)) Hls).
    pose proof (so_lock _ _ _ (ho_servers _ Hh q t Ht (has_lock_alive _ Hlt)) Hlt). congruence.
  - intros pid s Hs Hloop.
    assert (finished (sp_point s) = false) as Hf by (destruct Hloop as [->|[_ ?]]; done).
    destruct (ho_servers _ Hh pid s Hs Hf) as [H1 H2 H3 H4 H5 H6].
    assert (sp_point s = InLoop) as Hq by (destruct Hloop as [?|[Ht _]]; [done|by apply H6]).
    rewrite Hq in *. split; [by apply H4|]. split; [done|]. intros Hw Hlt. exists (pid_text pid), [byte_of_Z 10].
    split; [by apply H5|]. apply pid_read_back. lia.
  - by apply lock_free.
Qed.

(** ** The parent *)

Lemma parent_wait_ends child l p : parent_wait child l = Some p ->
  p ∈ l /\ (pl_usr1 p = true \/ pl_alrm p = true \/ pl_rc p = child).
Proof.
  induction l as [|q l IH]; cbn [parent_wait]; [done|]. destruct (pl_usr1 q || pl_alrm q || (pl_rc q =? child)) eqn:He.
  - intros [= <-]. split; [left|]. apply orb_true_iff in He as [[?|?]%orb_true_iff|?%Z.eqb_eq]; auto.
  - intros Hw. destruct (IH Hw) as [Hin Hp]. split; [by right|done].
Qed.

(** The parent ends with 0 exactly when it was told that the server is ready,
    or the server ended with 0 by itself; the alarm ends every wait; and the
    status for a failed [waitpid] is never used. *)
Theorem parent_reports child polls st : 0 < child ->
  (Exists (fun p => pl_alrm p = true) polls -> is_Some (server_parent child polls st)) /\
  (forall p, parent_wait child polls = Some p ->
    server_parent child polls st = Some (ExitWith 0) <->
      pl_usr1 p = true \/ (pl_alrm p = false /\ st = WExited 0)) /\
  (st <> WExited PSEUDO_EXIT_WAITPID -> server_parent child polls st <> Some (ExitWith PSEUDO_EXIT_WAITPID)).
Proof.
  intros Hc. unfold server_parent. rewrite (proj2 (Z.eqb_neq _ _)) by lia. split; [|split].
  - intros Hex. assert (is_Some (parent_wait child polls)) as [p ->]; [|by eexists].
    induction Hex as [p l Hp|p l _ IH]; cbn [parent_wait]; [by rewrite Hp, orb_true_r|]. case_match; [by eexists|done].
  - intros p Hp. rewrite Hp. cbn [mbind option_bind]. destruct (parent_wait_ends _ _ _ Hp) as [_ Hend]. unfold parent_exit.
    destruct (pl_usr1 p); [naive_solver|]. destruct (pl_alrm p); [naive_solver|].
    assert (pl_rc p = child) as -> by naive_solver. rewrite (proj2 (Z.eqb_neq _ _)) by lia.
    destruct st; naive_solver.
  - intros Hst. destruct (parent_wait child polls) as [p|] eqn:Hp; [|done]. cbn [mbind option_bind].
    destruct (parent_wait_ends _ _ _ Hp) as [_ Hend]. unfold parent_exit.
    destruct (pl_usr1 p); [done|]. destruct (pl_alrm p); [done|].
    assert (pl_rc p = child) as -> by naive_solver. rewrite (proj2 (Z.eqb_neq _ _)) by lia.
    destruct st; [|done|done]. intros [= ->]. done.
Qed.

(** ** Two servers *)

Definition fine : answer := mkAnswer 5 6 true.

(** An earlier server left its socket and its pid file; the second of two new
    ones is stopped by the lock. *)
Definition left_behind : host := mkHost None (Some 40) (Some (pid_text 40)) ∅.
Definition two_starts : list event :=
  [Start 100 99 true; Start 101 98 true; Step 100 fine; Step 101 fine; Step 100 fine; Step 101 fine; Step 100 fine; Step 101 fine;
   Step 100 fine; Step 100 fine; Step 100 fine; Step 100 fine; Step 100 fine; Step 100 fine; Step 100 fine].

Lemma host_steps_reachable es h h' : reachable h -> host_steps es h = Some h' -> reachable h'.
Proof.
  revert h. induction es as [|e es IH]; intros h Hr; cbn [host_steps]; [by intros [= <-]|].
  destruct (host_step e h) as [h1|] eqn:He; [|done]. cbn [mbind option_bind]. apply IH. by eapply reach_step.
Qed.

Lemma two_starts_run : exists h, host_steps two_starts left_behind = Some h /\
  (sp_point <$> servers h !! 100) = Some InLoop /\ (sp_point <$> servers h !! 101) = Some (Finished PSEUDO_EXIT_LOCK_HELD) /\
  (sp_wrote_pid <$> servers h !! 100) = Some true.
Proof. eexists. split; [vm_compute; reflexivity|]. split; [|split]; vm_compute; reflexivity. Qed.

Lemma one_server_witness : exists h, host_steps two_starts left_behind = Some h /\ socket_owner h = Some 100.
Proof.
  destruct two_starts_run as (h & Hh & H100 & _). exists h. split; [exact Hh|].
  assert (reachable h) as Hr.
  { eapply host_steps_reachable; [|exact Hh]. apply reach_quiet. split; [reflexivity|]. intros pid s Hs. unfold left_behind in Hs; cbn [servers] in Hs. by rewrite lookup_empty in Hs. }
  destruct (servers h !! 100) as [s|] eqn:Hs; [|discriminate H100]. injection H100 as Hq.
  destruct (one_server h Hr) as (_ & Hloop & _). destruct (Hloop 100 s Hs (or_introl Hq)) as [Ho _]. exact Ho.
Defined.

(** A wait that fails at once goes on until the alarm and is reported as a
    time-out. *)
Example failed_wait : server_parent 100 [mkPoll (-1) false false; mkPoll (-1) false false; mkPoll (-1) false true] WOther =
  Some (ExitWith PSEUDO_EXIT_TIMEOUT).
Proof. reflexivity. Qed.
