(* ===== verification/ServerSelect.v ===== *)
(** The loop of the server with [select] ([pseudo_server_loop] in
    [pseudo_server.c]), which is what a build without [--enable-epoll] gets:
    the sets of descriptors, one round over the table of clients, and the
    client that is dropped when there are no more descriptors.

    Clients, messages and the variables of the loop are those of
    [ServerLoop]. *)

From stdpp Require Import base gmap list option fin_sets strings.
From Stdlib Require Import ZArith Lia Ascii.
From S2P Require Import Prelude Tables Modes Message Sql FileDb Xattr LogDb ServerOp ServerLoop.

Open Scope Z_scope.

Definition FD_SETSIZE : Z := 1024.

(** An [fd_set]; a descriptor it has no bit for is an access outside it. *)
Abbreviation fd_set := (gset Z).

Definition FD_SET (fd : Z) (set : fd_set) : option fd_set :=
  if (0 <=? fd) && (fd <? FD_SETSIZE) then Some ({[fd]} ∪ set) else None.
Definition FD_ISSET (fd : Z) (set : fd_set) : option bool :=
  if (0 <=? fd) && (fd <? FD_SETSIZE) then Some (bool_decide (fd ∈ set)) else None.

Section ServerSelect.
Context {E : SqlEngine} {PM : PathMax} {SC : ServerConfig} {M : Malloc}.

(** What happened: the sets [select] returned; for a client what waits on its
    socket ([None]: nothing), how its sends go and the memory a list of clients
    is written to; what [accept] returns, and whether it failed with EMFILE. *)
Record select_answer := mkSelect {
  sa_reads : fd_set;
  sa_events : fd_set;
  sa_stream : Z -> option sock;
  sa_kernel : Z -> bytes -> send_result;
  sa_scratch : Z -> Z -> bytes;
  sa_accepted : option Z;
  sa_emfile : bool;
  sa_malloc_ok : bool
}.

Inductive select_result := SelectTimeout | SelectFailed | SelectReady (a : select_answer).

(** The server, the descriptors asked for ([reads]), the largest, and
    [hitmaxfiles]. *)
Record select_state := mkSelState { sel_server : server; sel_reads : fd_set; sel_max_fd : Z; hitmaxfiles : bool }.

(** The loop over the clients, from the [i]-th. *)
Fixpoint scan_clients (n : nat) (i : Z) (a : select_answer) (hit : bool) (s : server) : option (server * bool) :=
  match n with
  | O => Some (s, hit)
  | S n =>
      if highest_client s <? i then Some (s, hit)
      else
        let fd := c_fd (slot s i) in
        if fd =? -1 then scan_clients n (i + 1) a hit s
        else
          readable ← FD_ISSET fd (sa_reads a);
          r ←
            ((if (readable : bool) then
               match sa_stream a i with
               | None => Some (close_client i s, hit)
               | Some stream => s ← serve_client i stream (sa_kernel a i) (sa_scratch a i) s; Some (s, hit)
               end
             else if hit then Some (close_client i s, false)
             else Some (s, hit)) : option (server * bool));
          let '(s, hit) := (r : server * bool) in
          if die_forcefully s then Some (s, hit) else scan_clients n (i + 1) a hit s
  end.

(** The new client, if the listening socket is ready. *)
Definition select_accept (dupfd : Z -> Z) (a : select_answer) (s : server) : option (server * bool) :=
  if negb (die_forcefully s) then
    ready ← FD_ISSET (c_fd (slot s 0)) (sa_events a ∪ sa_reads a);
    if (ready : bool) then
      match sa_accepted a with
      | Some fd =>
          let s := if fd =? 2 then emit (Closed fd) s else s in
          let s := (open_client (not_stderr dupfd fd) (sa_malloc_ok a) s).1 in
          Some (with_peace false (with_timeouts DEFAULT_PSEUDO_SERVER_TIMEOUT (loop_timeout s) s), false)
      | None => Some (s, sa_emfile a)
      end
    else Some (s, false)
  else Some (s, false).

(** The sets for the next round. *)
Fixpoint rebuild_from (n : nat) (i : Z) (s : server) (reads : fd_set) (max_fd : Z) : option (fd_set * Z) :=
  match n with
  | O => Some (reads, max_fd)
  | S n =>
      let fd := c_fd (slot s i) in
      if negb (fd =? -1) then
        reads ← FD_SET fd reads;
        rebuild_from n (i + 1) s reads (if max_fd <? fd then fd else max_fd)
      else rebuild_from n (i + 1) s reads max_fd
  end.

Definition rebuild (s : server) : option (fd_set * Z) :=
  let fd := c_fd (slot s 0) in
  reads ← FD_SET fd ∅;
  rebuild_from (Z.to_nat (highest_client s)) 1 s reads fd.

(** One round; the [bool] says that the server ends. *)
Definition select_round (dupfd : Z -> Z) (r : select_result) (st : select_state) : option (select_state * bool) :=
  let s := sel_server st in
  match r with
  | SelectFailed => Some (st, true)
  | _ =>
      '(s, hit) ←
        match r with
        | SelectReady a =>
            let s := with_timeouts (server_timeout s) (server_timeout s) s in
            '(s, _) ← scan_clients (Z.to_nat (highest_client s)) 1 a (hitmaxfiles st) s;
            select_accept dupfd a s
        | _ =>
            Some (if active_clients s =? 1 then
                    let s := with_timeouts (server_timeout s) (loop_timeout s - LOOP_DELAY) s in
                    let s := pdb_maybe_backup s in
                    if loop_timeout s <=? 0 then with_peace true s else s
                  else s, hitmaxfiles st)
        end;
      if die_peacefully s || die_forcefully s
      then Some (mkSelState (emit (Closed (c_fd (slot s 0))) s) (sel_reads st) (sel_max_fd st) hit, true)
      else '(reads, max_fd) ← rebuild s; Some (mkSelState s reads max_fd hit, false)
  end.

(** The state when the loop begins. *)
Definition select_start (listen_fd pid : Z) (d : pdb) : option select_state :=
  reads ← FD_SET listen_fd ∅; Some (mkSelState (server_start listen_fd pid d) reads listen_fd false).

(** ** The same round as events *)

(** The clients in the order of the table, from the [i]-th; after an [accept]
    that had no descriptor the first one that says nothing is taken to have
    hung up. *)
Fixpoint ready_from (n : nat) (i : Z) (a : select_answer) (hit : bool) (s : server) : list ready :=
  match n with
  | O => []
  | S n =>
      let fd := c_fd (slot s i) in
      if fd =? -1 then ready_from n (i + 1) a hit s
      else if bool_decide (fd ∈ sa_reads a) then Client i (sa_stream a i) (sa_kernel a i) (sa_scratch a i) :: ready_from n (i + 1) a hit s
      else if hit then Client i None (sa_kernel a i) (sa_scratch a i) :: ready_from n (i + 1) a false s
      else ready_from n (i + 1) a false s
  end.

Definition listening_events (a : select_answer) (s : server) : list ready :=
  if bool_decide (c_fd (slot s 0) ∈ sa_events a ∪ sa_reads a) then [Listening (sa_accepted a) (sa_malloc_ok a) true] else [].

(** The clients, and the listening socket last. *)
Definition ready_events (a : select_answer) (hit : bool) (s : server) : list ready :=
  ready_from (Z.to_nat (highest_client s)) 1 a hit s ++ listening_events a s.

(** What [epoll_wait] says when [select] says [r]. *)
Definition as_epoll (r : select_result) (hit : bool) (s : server) : wait_result :=
  match r with
  | SelectTimeout => WaitTimeout
  | SelectFailed => WaitFailed
  | SelectReady a => WaitReady (ready_events a hit s)
  end.
End ServerSelect.
