(* ===== verification/ServerSelectSpec.v ===== *)
(** A round of the loop with [select] does what the loop with [epoll] does for
    the same ready descriptors, clients in the order of the table and the
    listening socket last; every client that is connected is among the
    descriptors asked for; and where the sets are too small. *)

From stdpp Require Import base gmap list option fin_sets strings.
From Stdlib Require Import ZArith Lia Ascii.
From S2P Require Import Prelude Tables Modes Message Sql FileDb FileDbSpec Xattr LogDb ServerOp ServerLoop OpInvariant ServerLoopSpec ServerSelect.

Open Scope Z_scope.

Section Slots.
Context {E : SqlEngine} {L : SqlLaws E} {PM : PathMax} {SC : ServerConfig} {M : Malloc} {ML : MallocLaws}.
Implicit Types (s : server).

(** ** What an event does to the table *)

(** Only slot [i] has changed, and its descriptor is gone or as it was. *)
Definition only_slot (i : nat) s s' : Prop :=
  (forall k, k <> i -> clients s' !! k = clients s !! k) /\
  (forall c', clients s' !! i = Some c' -> c_fd c' = -1 \/ exists c, clients s !! i = Some c /\ c_fd c' = c_fd c).

Lemma only_slot_refl i s s' : clients s' = clients s -> only_slot i s s'.
Proof. intros H. split; rewrite H; [done|]. intros c' Hc. right. by exists c'. Qed.

Lemma only_slot_trans i s1 s2 s3 : only_slot i s1 s2 -> only_slot i s2 s3 -> only_slot i s1 s3.
Proof.
  intros [H1 H2] [H3 H4]. split.
  - intros k Hk. by rewrite H3, H1.
  - intros c' Hc. destruct (H4 c' Hc) as [?|(c & Hc2 & He)]; [by left|]. destruct (H2 c Hc2) as [?|(c1 & Hc1 & He1)].
    + left. congruence.
    + right. exists c1. split; [done|congruence].
Qed.

Lemma close_only_slot i s : 0 < i -> only_slot (Z.to_nat i) s (close_client i s).
Proof.
  intros Hi. unfold close_client. destruct (_ || _); [by apply only_slot_refl|]. split; cbn [with_clients clients emit].
  - intros k Hk. by rewrite list_lookup_insert_ne.
  - intros c' [(_ & <- & _)|[? _]]%list_lookup_insert_Some; [by left|done].
Qed.

Lemma register_only_slot i m s : only_slot (Z.to_nat i) s (register_client i m s).
Proof.
  assert (forall c', c_fd c' = c_fd (slot s i) -> only_slot (Z.to_nat i) s (set_slot i c' s)) as H.
  { intros c' Hc'. split; cbn [set_slot with_clients clients].
    - intros k Hk. by rewrite list_lookup_insert_ne.
    - intros c [(_ & <- & Hlt)|[? _]]%list_lookup_insert_Some; [|done]. right. apply lookup_lt_is_Some_2 in Hlt as [c Hc].
      exists c. split; [done|]. rewrite Hc'. unfold slot. by rewrite Hc. }
  unfold register_client. destruct (_ && _); [|by apply only_slot_refl]. destruct (negb _); by apply H.
Qed.

Lemma shutdown_clients i m scratch s s' m' p : serve_shutdown i m scratch s = Some (s', m', p) -> clients s' = clients s.
Proof.
  unfold serve_shutdown. destruct (2 <? active_clients s); [|by intros [= <- _ _]].
  destruct (list_clients _ _ _ _ _ _) as [[buf off]|]; cbn [mbind option_bind]; [|done]. by intros [= <- _ _].
Qed.

Lemma request_clients i m s : clients (serve_request i m s).1.1 = clients s.
Proof. unfold serve_request. destruct (pseudo_server_response _ _ _ _) as [o rc]. by destruct (response o) as [[]|]. Qed.

Lemma reply_clients i m p kernel s : clients (send_reply i m p kernel s) = clients s.
Proof. unfold send_reply. by destruct (pseudo_msg_send _ _ _ _ _) as [[? ?] ?]. Qed.

Lemma serve_only_slot i stream kernel scratch s s' : 0 < i -> serve_client i stream kernel scratch s = Some s' ->
  only_slot (Z.to_nat i) s s'.
Proof.
  intros Hi. unfold serve_client. destruct (pseudo_msg_receive _ _ _) as [[[|m|] r] rest]; [| |done].
  - intros [= <-]. by apply (only_slot_trans _ _ (with_rx r s)); [apply only_slot_refl|apply close_only_slot].
  - intros H. apply (only_slot_trans _ _ (register_client i m (with_rx r s))).
    { apply (only_slot_trans _ _ (with_rx r s)); [by apply only_slot_refl|apply register_only_slot]. }
    set (s1 := register_client i m (with_rx r s)) in *. apply only_slot_refl. destruct (m_type m =? PSEUDO_MSG_SHUTDOWN).
    + destruct (serve_shutdown i _ scratch s1) as [[[s2 m2] p]|] eqn:Hsh; [|done]. cbn [mbind option_bind] in H.
      injection H as <-. rewrite reply_clients. by apply shutdown_clients in Hsh.
    + pose proof (request_clients i m s1) as Hrc. destruct (serve_request i m s1) as [[s2 m2] p]. cbn [fst] in Hrc.
      destruct (m_type m2 =? PSEUDO_MSG_FASTOP); injection H as <-; rewrite reply_clients; exact Hrc.
Qed.

Lemma slot_fd_other i s s' k : only_slot (Z.to_nat i) s s' -> 0 < i -> 0 <= k -> k <> i -> slot s' k = slot s k.
Proof. intros [H _] Hi Hk Hne. unfold slot. rewrite H; [done|lia]. Qed.

(** ** Descriptors fit in the sets *)

Definition fd_fits (fd : Z) : Prop := 0 <= fd < FD_SETSIZE.

Definition slots_fit s : Prop := forall k c, clients s !! k = Some c -> c_fd c = -1 \/ fd_fits (c_fd c).

Lemma slots_fit_only i s s' : slots_fit s -> only_slot i s s' -> slots_fit s'.
Proof.
  intros Hs [H1 H2] k c Hc. destruct (decide (k = i)) as [->|Hne].
  - destruct (H2 c Hc) as [?|(c0 & Hc0 & He)]; [by left|]. rewrite He. by apply (Hs i).
  - rewrite H1 in Hc by done. by apply (Hs k).
Qed.

Lemma slots_fit_open fd mok s : slots_fit s -> fd_fits fd -> slots_fit (open_client fd mok s).1.
Proof.
  intros Hs Hf. unfold open_client. destruct (first_free (clients s) 0) as [i|]; [|destruct mok]; cbn [fst].
  - intros k c Hc. cbn [with_clients clients] in Hc. apply list_lookup_insert_Some in Hc as [(_ & <- & _)|[_ Hc]]; [by right|by apply (Hs k)].
  - intros k c Hc. cbn [with_clients clients] in Hc. apply list_lookup_insert_Some in Hc as [(_ & <- & _)|[_ Hc]]; [by right|].
    apply lookup_app_Some in Hc as [Hc|[_ Hc]]; [by apply (Hs k)|]. apply lookup_replicate in Hc as [-> _]. by left.
  - exact Hs.
Qed.

Lemma fd_isset_fits fd set : fd_fits fd -> FD_ISSET fd set = Some (bool_decide (fd ∈ set)).
Proof.
  intros [H1 H2]. unfold FD_ISSET. by rewrite (proj2 (Z.leb_le _ _) H1), (proj2 (Z.ltb_lt _ _) H2).
Qed.

Lemma fd_set_fits fd set : fd_fits fd -> FD_SET fd set = Some ({[fd]} ∪ set).
Proof.
  intros [H1 H2]. unfold FD_SET. by rewrite (proj2 (Z.leb_le _ _) H1), (proj2 (Z.ltb_lt _ _) H2).
Qed.

Lemma slot_fits s i : slots_fit s -> c_fd (slot s i) = -1 \/ fd_fits (c_fd (slot s i)).
Proof. intros Hs. unfold slot. destruct (clients s !! Z.to_nat i) as [c|] eqn:Hc; [by apply (Hs (Z.to_nat i))|by left]. Qed.

(** ** The scan is a list of events *)

Lemma client_event_ok dupfd i st kernel scratch s : server_ok s -> event_ok dupfd s (Client i st kernel scratch) ->
  exists s', loop_event dupfd (Client i st kernel scratch) s = Some (s', false) /\ server_ok s' /\ only_slot (Z.to_nat i) s s' /\
    die_forcefully s' = die_forcefully s /\ highest_client s' = highest_client s.
Proof.
  intros Hs (Hi & Hscr & Hst). cbn [loop_event]. destruct st as [stream|].
  - destruct (serve_client_ok s i stream kernel scratch Hs Hi Hst Hscr) as (s' & Hs' & Hok & _ & Hf & Hh).
    exists s'. rewrite Hs'. split; [done|]. split; [done|]. split; [|done]. apply serve_only_slot in Hs'; [done|apply Hi].
  - destruct (loop_event_ok dupfd (Client i None kernel scratch) s Hs) as (s' & b & Hs' & _ & Hok & _ & Hf & _); [by split|].
    cbn [loop_event] in Hs'. injection Hs' as <- _. eexists. split; [done|]. split; [done|].
    split; [apply close_only_slot, Hi|]. split; [done|]. destruct Hi as [Hi Ho].
    by destruct (close_client_table i s (ok_table _ Hs) Hi Ho) as (_ & _ & Hh & _).
Qed.

(** What the kernel and the clients may do in a round. *)
Definition answer_ok (dupfd : Z -> Z) (a : select_answer) : Prop :=
  (forall i n, 0 <= n -> Z.of_nat (length (sa_scratch a i n)) = n) /\
  (forall i stream, sa_stream a i = Some stream -> stream_ok stream) /\
  (forall fd, sa_accepted a = Some fd -> fd_fits (not_stderr dupfd fd)).

Lemma slot_open s i : 0 <= i -> c_fd (slot s i) <> -1 -> open_at (clients s) (Z.to_nat i) = true.
Proof. intros Hi Hne. unfold open_at, is_open. apply negb_true_iff, Z.eqb_neq. exact Hne. Qed.

Lemma ready_event_ok dupfd a s i : answer_ok dupfd a -> 0 < i -> c_fd (slot s i) <> -1 ->
  event_ok dupfd s (Client i (sa_stream a i) (sa_kernel a i) (sa_scratch a i)).
Proof.
  intros (H1 & H2 & H3) Hi Hne. split; [split; [done|apply slot_open; [lia|done]]|]. split; [by apply H1|].
  destruct (sa_stream a i) as [st|] eqn:Hst; [by eapply H2|done].
Qed.

(** [s0] is the server when the round began: the slots not yet visited are as
    they were then. *)
Lemma scan_is_events dupfd a s0 : answer_ok dupfd a -> forall n i hit s, server_ok s -> slots_fit s -> die_forcefully s = false -> 0 < i ->
  i + Z.of_nat n <= Z.max i (highest_client s + 1) -> (forall j, i <= j -> slot s j = slot s0 j) ->
  exists s' hit', loop_events dupfd (ready_from n i a hit s0) s = Some (s', false) /\
    scan_clients n i a hit s = Some (s', hit') /\ server_ok s' /\ slots_fit s' /\ slot s' 0 = slot s 0 /\
    highest_client s' = highest_client s /\ die_forcefully s' = die_forcefully s.
Proof.
  intros Ha. induction n as [|n IH]; intros i hit s Hs Hfit Hdie Hi Hn Hslots; [by exists s, hit|].
  cbn [ready_from scan_clients]. destruct (Z.ltb_spec (highest_client s) i) as [?|Hhi]; [lia|].
  rewrite <- (Hslots i) by lia.
  assert (forall s' hit1, server_ok s' -> slots_fit s' -> highest_client s' = highest_client s ->
    (forall j, i + 1 <= j -> slot s' j = slot s j) -> slot s' 0 = slot s 0 -> die_forcefully s' = die_forcefully s ->
    exists s2 hit', loop_events dupfd (ready_from n (i + 1) a hit1 s0) s' = Some (s2, false) /\
      scan_clients n (i + 1) a hit1 s' = Some (s2, hit') /\ server_ok s2 /\ slots_fit s2 /\ slot s2 0 = slot s 0 /\
      highest_client s2 = highest_client s /\ die_forcefully s2 = die_forcefully s) as Hrest.
  { intros s' hit1 Hs' Hf' Hh' Hsl' H0 Hd. destruct (IH (i + 1) hit1 s') as (s2 & hit2 & H); [done|done|congruence|lia|lia| |].
    - intros j Hj. rewrite Hsl' by done. apply Hslots. lia.
    - exists s2, hit2. destruct H as (?&?&?&?&?&?&?). split_and!; (done || congruence). }
  destruct (Z.eqb_spec (c_fd (slot s i)) (-1)) as [Hcl|Hop]; [by apply Hrest|].
  destruct (slot_fits s i Hfit) as [?|Hff]; [done|]. rewrite fd_isset_fits by done. cbn [mbind option_bind].
  assert (forall st hit1, event_ok dupfd s (Client i st (sa_kernel a i) (sa_scratch a i)) ->
    exists s1, loop_event dupfd (Client i st (sa_kernel a i) (sa_scratch a i)) s = Some (s1, false) /\ die_forcefully s1 = false /\
    exists s2 hit', loop_events dupfd (Client i st (sa_kernel a i) (sa_scratch a i) :: ready_from n (i + 1) a hit1 s0) s = Some (s2, false) /\
      scan_clients n (i + 1) a hit1 s1 = Some (s2, hit') /\ server_ok s2 /\ slots_fit s2 /\ slot s2 0 = slot s 0 /\
      highest_client s2 = highest_client s /\ die_forcefully s2 = die_forcefully s) as Hev.
  { intros st hit1 Hok. destruct (client_event_ok dupfd i st _ _ s Hs Hok) as (s1 & Hev & Hs1 & Honly & Hd1 & Hh1).
    exists s1. split; [done|]. split; [congruence|]. cbn [loop_events]. rewrite Hev. cbn [mbind option_bind]. assert (die_forcefully s1 = false) as -> by congruence.
    apply Hrest; [done|by eapply slots_fit_only|done| |eapply slot_fd_other; [exact Honly|lia|lia|lia]|done].
    intros j Hj. eapply slot_fd_other; [exact Honly|lia|lia|lia]. }
  case_bool_decide as Hin; [|destruct hit].
  - destruct (Hev (sa_stream a i) hit (ready_event_ok _ _ _ _ Ha Hi Hop)) as (s1 & He & Hd1 & s2 & hit' & HL & HS & Hok).
    exists s2, hit'. split; [exact HL|]. split; [|exact Hok]. cbn [loop_event] in He. destruct (sa_stream a i) as [st|].
    + destruct (serve_client i st _ _ s); [|done]. cbn [mbind option_bind] in He |- *. injection He as ->. cbv zeta. by rewrite Hd1.
    + injection He as ->. cbn [mbind option_bind]. cbv zeta. by rewrite Hd1.
  - destruct (Hev None false) as (s1 & He & Hd1 & s2 & hit' & HL & HS & Hok).
    { split; [split; [lia|apply slot_open; [lia|done]]|]. by split; [apply Ha|]. }
    exists s2, hit'. split; [exact HL|]. split; [|exact Hok]. cbn [loop_event] in He. injection He as ->.
    cbn [mbind option_bind]. cbv zeta. by rewrite Hd1.
  - cbn [mbind option_bind]. cbv zeta. rewrite Hdie in Hrest |- *. by apply Hrest.
Qed.

Lemma loop_events_snoc dupfd l1 l2 s s1 : die_forcefully s = false -> loop_events dupfd l1 s = Some (s1, false) -> die_forcefully s1 = false ->
  loop_events dupfd (l1 ++ l2) s = loop_events dupfd l2 s1.
Proof.
  revert s. induction l1 as [|e l1 IH]; intros s Hds; cbn [app loop_events]; [by intros [= ->]|].
  destruct (loop_event dupfd e s) as [[s2 []]|]; [done| |done]. cbn [mbind option_bind]. destruct (die_forcefully s2) eqn:Hd.
  - intros [= ->]. congruence.
  - by apply IH.
Qed.

(** Accepting before or after the variables are set is the same. *)
Lemma open_client_with fd mok b t s :
  (open_client fd mok (with_peace b (with_timeouts t (loop_timeout s) s))).1 =
  with_peace b (with_timeouts t (loop_timeout (open_client fd mok s).1) (open_client fd mok s).1).
Proof.
  unfold open_client. cbn [with_peace with_timeouts clients]. destruct (first_free (clients s) 0); [done|]. by destruct mok.
Qed.

Lemma listening_event dupfd fd mok s : die_forcefully s = false ->
  loop_event dupfd (Listening (Some fd) mok true) s =
    let s2 := (open_client (not_stderr dupfd fd) mok (if fd =? 2 then emit (Closed fd) s else s)).1 in
    Some (with_peace false (with_timeouts DEFAULT_PSEUDO_SERVER_TIMEOUT (loop_timeout s2) s2), false).
Proof.
  intros Hd. cbn [loop_event]. rewrite Hd. cbn [negb]. cbv zeta. rewrite <- open_client_with.
  set (s1 := if fd =? 2 then emit (Closed fd) s else s).
  assert ((if fd =? 2 then emit (Closed fd) (with_peace false (with_timeouts DEFAULT_PSEUDO_SERVER_TIMEOUT (loop_timeout s) s))
           else with_peace false (with_timeouts DEFAULT_PSEUDO_SERVER_TIMEOUT (loop_timeout s) s)) =
          with_peace false (with_timeouts DEFAULT_PSEUDO_SERVER_TIMEOUT (loop_timeout s1) s1)) as ->
    by (unfold s1; by destruct (fd =? 2)).
  destruct (open_client _ _ _) as [s2 i]. by rewrite andb_false_r.
Qed.

Lemma accept_is_event dupfd a s : die_forcefully s = false -> fd_fits (c_fd (slot s 0)) ->
  exists hit s', select_accept dupfd a s = Some (s', hit) /\ loop_events dupfd (listening_events a s) s = Some (s', false).
Proof.
  intros Hd Hf. unfold select_accept, listening_events. rewrite Hd, fd_isset_fits by done. cbn [negb mbind option_bind].
  case_bool_decide; [|by exists false, s]. cbn [loop_events]. destruct (sa_accepted a) as [fd|].
  - exists false. eexists. split; [done|]. rewrite listening_event by done. cbv zeta. cbn [mbind option_bind]. by case_match.
  - exists (sa_emfile a), s. split; [done|]. cbn [loop_event]. rewrite Hd. cbn [negb mbind option_bind]. by rewrite Hd.
Qed.

(** ** The sets for the next round *)

Lemma rebuild_from_all n i s reads m : slots_fit s -> fd_fits m -> (forall x, x ∈ reads -> x <= m) ->
  exists reads' m', rebuild_from n i s reads m = Some (reads', m') /\ fd_fits m' /\ m <= m' /\ (forall x, x ∈ reads' -> x <= m') /\
    (forall x, x ∈ reads' <-> x ∈ reads \/ exists j, i <= j < i + Z.of_nat n /\ c_fd (slot s j) = x /\ x <> -1).
Proof.
  intros Hs. revert i reads m. induction n as [|n IH]; intros i reads m Hm Hr; cbn [rebuild_from].
  - exists reads, m. split; [done|]. split; [done|]. split; [lia|]. split; [done|]. intros x. split; [by left|]. intros [?|(j & ? & _)]; [done|lia].
  - destruct (Z.eqb_spec (c_fd (slot s i)) (-1)) as [Hc|Ho]; cbn [negb].
    + destruct (IH (i + 1) reads m Hm Hr) as (r' & m' & Heq & Hf & Hle & Hx & Hin). exists r', m'. split; [done|]. split_and!; try done.
      intros x. rewrite Hin. split; intros [?|(j & Hj & He & Hne)]; auto; right; exists j; (split; [|done]); [lia|].
      destruct (decide (j = i)) as [->|?]; [congruence|lia].
    + destruct (slot_fits s i Hs) as [?|Hfit]; [done|]. rewrite fd_set_fits by done. cbn [mbind option_bind].
      set (fd := c_fd (slot s i)) in *. set (m1 := if m <? fd then fd else m).
      assert (fd_fits m1 /\ m <= m1 /\ fd <= m1) as (Hm1 & Hmm & Hfm) by (unfold m1, fd_fits in *; destruct (Z.ltb_spec m fd); lia).
      destruct (IH (i + 1) ({[fd]} ∪ reads) m1 Hm1) as (r' & m' & Heq & Hf & Hle & Hx & Hin).
      { intros x [->%elem_of_singleton|Hin]%elem_of_union; [done|]. specialize (Hr x Hin). lia. }
      exists r', m'. split; [done|]. split; [done|]. split; [lia|]. split; [done|]. intros x. rewrite Hin, elem_of_union, elem_of_singleton.
      split.
      * intros [[->|?]|(j & Hj & He)]; [right; exists i; by split; [lia|]|by left|right; exists j; by split; [lia|]].
      * intros [?|(j & Hj & He & Hne)]; [by left; right|]. destruct (decide (j = i)) as [->|?]; [by left; left|].
        right. exists j. split; [lia|done].
Qed.

(** What is asked for: the listening socket and every client, nothing else. *)
Definition asked_for (s : server) (reads : fd_set) (m : Z) : Prop :=
  (forall x, x ∈ reads -> x <= m) /\
  (forall x, x ∈ reads <-> x <> -1 /\ exists j, 0 <= j /\ c_fd (slot s j) = x).

Lemma rebuild_all s : server_ok s -> slots_fit s -> exists reads m, rebuild s = Some (reads, m) /\ asked_for s reads m.
Proof.
  intros Hs Hfit. unfold rebuild. destruct (ok_table _ Hs) as [Hl _ [Hh0 Hh] Hopen _].
  assert (c_fd (slot s 0) <> -1) as H0 by (unfold open_at, is_open in Hl; by apply negb_true_iff, Z.eqb_neq in Hl).
  destruct (slot_fits s 0 Hfit) as [?|Hf0]; [done|]. rewrite fd_set_fits by done. cbn [mbind option_bind].
  destruct (rebuild_from_all (Z.to_nat (highest_client s)) 1 s ({[c_fd (slot s 0)]} ∪ ∅) (c_fd (slot s 0)) Hfit Hf0)
    as (r & m & Heq & Hf & Hle & Hx & Hin); [set_solver by lia|].
  exists r, m. split; [done|]. split; [done|]. intros x. rewrite Hin, elem_of_union, elem_of_singleton. split.
  - intros [[->|?%elem_of_empty]|(j & Hj & He & Hne)]; [|done|].
    + split; [done|]. by exists 0.
    + split; [done|]. exists j. split; [lia|done].
  - intros [Hne (j & Hj & He)]. destruct (decide (j = 0)) as [->|?]; [by left; left|]. right. exists j. split; [|done].
    assert (open_at (clients s) (Z.to_nat j) = true) as Ho by (apply slot_open; [lia|congruence]). specialize (Hopen _ Ho). lia.
Qed.
(** ** A whole round *)

(** The scan keeps the table in order, also when a client is dropped or a
    signal has come. *)
Lemma scan_safe dupfd a : answer_ok dupfd a -> forall n i hit s, server_ok s -> slots_fit s -> 0 < i ->
  exists s' hit', scan_clients n i a hit s = Some (s', hit') /\ server_ok s' /\ slots_fit s' /\ slot s' 0 = slot s 0 /\
    die_forcefully s' = die_forcefully s.
Proof.
  intros Ha. induction n as [|n IH]; intros i hit s Hs Hfit Hi; cbn [scan_clients]; [by exists s, hit|].
  destruct (highest_client s <? i); [by exists s, hit|].
  destruct (Z.eqb_spec (c_fd (slot s i)) (-1)) as [Hcl|Hop]; [apply IH; (done || lia)|].
  destruct (slot_fits s i Hfit) as [?|Hff]; [done|]. rewrite fd_isset_fits by done. cbn [mbind option_bind].
  assert (forall s1 hit1, server_ok s1 -> only_slot (Z.to_nat i) s s1 -> die_forcefully s1 = die_forcefully s ->
    exists s' hit', (if die_forcefully s1 then Some (s1, hit1) else scan_clients n (i + 1) a hit1 s1) = Some (s', hit') /\
      server_ok s' /\ slots_fit s' /\ slot s' 0 = slot s 0 /\ die_forcefully s' = die_forcefully s) as Hnext.
  { intros s1 hit1 Hs1 Honly Hd. assert (slots_fit s1) as Hf1 by (by eapply slots_fit_only).
    assert (slot s1 0 = slot s 0) as H01 by (eapply slot_fd_other; [exact Honly|lia|lia|lia]).
    destruct (die_forcefully s1) eqn:Hdie; [exists s1, hit1; split_and!; (done || congruence)|].
    destruct (IH (i + 1) hit1 s1 Hs1 Hf1) as (s' & hit' & H & H1 & H2 & H3 & H4); [lia|].
    exists s', hit'. split_and!; (done || congruence). }
  assert (forall st, (forall stream, st = Some stream -> stream_ok stream) -> exists s1,
    loop_event dupfd (Client i st (sa_kernel a i) (sa_scratch a i)) s = Some (s1, false) /\ server_ok s1 /\ only_slot (Z.to_nat i) s s1 /\
    die_forcefully s1 = die_forcefully s) as Hev.
  { intros st Hst. destruct (client_event_ok dupfd i st (sa_kernel a i) (sa_scratch a i) s Hs) as (s1 & H1 & H2 & H3 & H4 & _); [|by exists s1].
    split; [split; [done|apply slot_open; [lia|done]]|]. split; [apply Ha|]. destruct st; [by apply Hst|done]. }
  case_bool_decide as Hin.
  - destruct (Hev (sa_stream a i)) as (s1 & He & Hs1 & Honly & Hd); [intros stream Hst; by apply (proj1 (proj2 Ha) i)|].
    cbn [loop_event] in He. destruct (sa_stream a i) as [st|].
    + destruct (serve_client i st _ _ s); [|done]. cbn [mbind option_bind] in He |- *. injection He as ->. cbv zeta. by apply Hnext.
    + injection He as ->. cbn [mbind option_bind]. cbv zeta. by apply Hnext.
  - destruct hit; cbn [mbind option_bind]; cbv zeta.
    + destruct (Hev None) as (s1 & He & Hs1 & Honly & Hd); [done|]. cbn [loop_event] in He. injection He as ->. by apply Hnext.
    + by apply Hnext; [|apply only_slot_refl|].
Qed.

Lemma accept_safe dupfd a s : answer_ok dupfd a -> server_ok s -> slots_fit s ->
  exists s' hit, select_accept dupfd a s = Some (s', hit) /\ server_ok s' /\ slots_fit s' /\ die_forcefully s' = die_forcefully s.
Proof.
  intros Ha Hs Hfit. unfold select_accept. destruct (die_forcefully s) eqn:Hd; cbn [negb]; [exists s, false; by split_and!|].
  assert (fd_fits (c_fd (slot s 0))) as H0.
  { destruct (slot_fits s 0 Hfit) as [Hc|?]; [|done]. pose proof (table_listen _ _ _ (ok_table _ Hs)) as Hl.
    unfold open_at, is_open in Hl. by apply negb_true_iff, Z.eqb_neq in Hl. }
  rewrite fd_isset_fits by done. cbn [mbind option_bind]. case_bool_decide; [|exists s, false; by split_and!].
  destruct (sa_accepted a) as [fd|] eqn:Hacc; [|exists s, (sa_emfile a); by split_and!].
  pose proof (proj2 (proj2 Ha) fd Hacc) as Hff. eexists _, false. split; [done|]. cbv zeta.
  destruct (loop_event_ok dupfd (Listening (Some fd) (sa_malloc_ok a) true) s Hs) as (s' & b & He & _ & Hok & _ & Hd' & _).
  { intros fd' [= <-]. unfold fd_fits in Hff. lia. }
  rewrite listening_event in He by done. cbv zeta in He. injection He as <- _. split; [done|]. split; [|by rewrite Hd'].
  assert (slots_fit (open_client (not_stderr dupfd fd) (sa_malloc_ok a) (if fd =? 2 then emit (Closed fd) s else s)).1) as Hf2; [|exact Hf2].
  apply slots_fit_open; [by destruct (fd =? 2)|done].
Qed.

(** The loop is in order: the server is, all descriptors fit, and every client
    is asked for. *)
Definition select_ok (st : select_state) : Prop :=
  server_ok (sel_server st) /\ slots_fit (sel_server st) /\ asked_for (sel_server st) (sel_reads st) (sel_max_fd st).

Definition result_ok (dupfd : Z -> Z) (r : select_result) : Prop :=
  match r with SelectReady a => answer_ok dupfd a | _ => True end.

(** A round in which nothing is ready. *)
Lemma timeout_ok s : server_ok s -> slots_fit s ->
  let s' := if active_clients s =? 1 then
      let s := with_timeouts (server_timeout s) (loop_timeout s - LOOP_DELAY) s in
      let s := pdb_maybe_backup s in
      if loop_timeout s <=? 0 then with_peace true s else s
    else s in
  server_ok s' /\ slots_fit s'.
Proof.
  intros Hs Hfit. cbv zeta. split.
  - destruct (Z.eqb_spec (active_clients s) 1) as [Hac|]; [|done].
    destruct (loop_round_ok (fun fd => fd) WaitTimeout s Hs I) as (s' & b & Heq & Hok & _).
    unfold loop_round in Heq. rewrite (proj2 (Z.eqb_eq _ _) Hac) in Heq. cbn [mbind option_bind] in Heq. cbv zeta in Heq |- *.
    set (s0 := if _ <=? 0 then _ else _) in *. destruct (_ || _); injection Heq as <- _; [|done]. by destruct Hok.
  - destruct (_ =? 1); [|done]. set (s0 := with_timeouts _ _ _). assert (clients (pdb_maybe_backup s0) = clients s) as Hc.
    { unfold pdb_maybe_backup. destruct (file_db_open _); [|done]. cbv zeta. by destruct (_ =? 0). }
    destruct (_ <=? 0); unfold slots_fit in *; cbn [with_peace clients]; by rewrite Hc.
Qed.

Lemma select_round_ok dupfd r st : select_ok st -> result_ok dupfd r ->
  exists st' ex, select_round dupfd r st = Some (st', ex) /\ (ex = false -> select_ok st').
Proof.
  intros (Hs & Hfit & Hask) Hr. unfold select_round.
  assert (forall s hit, server_ok s -> slots_fit s -> exists st' ex,
    (if die_peacefully s || die_forcefully s
     then Some (mkSelState (emit (Closed (c_fd (slot s 0))) s) (sel_reads st) (sel_max_fd st) hit, true)
     else '(reads, max_fd) ← rebuild s; Some (mkSelState s reads max_fd hit, false)) = Some (st', ex) /\
    (ex = false -> select_ok st')) as Hend.
  { intros s hit Hs1 Hf1. destruct (_ || _); [by eexists _, _|]. destruct (rebuild_all s Hs1 Hf1) as (reads & m & -> & Ha).
    cbn [mbind option_bind]. eexists _, _. split; [done|]. intros _. by split_and!. }
  destruct r as [| |a]; [| by exists st, true|].
  - destruct (timeout_ok (sel_server st) Hs Hfit). cbn [mbind option_bind]. by apply Hend.
  - set (s0 := with_timeouts _ _ (sel_server st)). assert (server_ok s0) as Hs0 by (by destruct Hs).
    destruct (scan_safe dupfd a Hr (Z.to_nat (highest_client (sel_server st))) 1 (hitmaxfiles st) s0 Hs0 Hfit) as (s1 & h1 & H1 & Hs1 & Hf1 & _ & Hd1); [lia|].
    change (highest_client s0) with (highest_client (sel_server st)). rewrite H1. cbn [mbind option_bind].
    destruct (accept_safe dupfd a s1 Hr Hs1 Hf1) as (s2 & h2 & H2 & Hs2 & Hf2 & _). rewrite H2. cbn [mbind option_bind]. by apply Hend.
Qed.

(** ** A round of each loop *)

Lemma ready_from_ok dupfd a s : answer_ok dupfd a -> forall n i hit, 0 < i ->
  Forall (fun e => event_ok dupfd s e /\ exists j st k sc, e = Client j st k sc) (ready_from n i a hit s).
Proof.
  intros Ha. induction n as [|n IH]; intros i hit Hi; cbn [ready_from]; [constructor|].
  destruct (Z.eqb_spec (c_fd (slot s i)) (-1)) as [|Hop]; [by apply IH; lia|].
  case_bool_decide; [constructor; [split; [by apply ready_event_ok|eauto]|apply IH; lia]|].
  destruct hit; [constructor; [split; [|eauto]|apply IH; lia]|apply IH; lia].
  split; [split; [lia|apply slot_open; [lia|done]]|]. by split; [apply Ha|].
Qed.

(** After a signal an event more or less is dealt with, and the loop ends. *)
Lemma signalled_events dupfd a hit s : answer_ok dupfd a -> server_ok s -> die_forcefully s = true ->
  forall s0, server_ok s0 -> clients s0 = clients s -> die_forcefully s0 = true ->
  exists s', loop_events dupfd (ready_events a hit s) s0 = Some (s', false) /\ die_forcefully s' = true.
Proof.
  intros Ha Hs Hd s0 Hs0 Hc Hd0.
  assert (match ready_events a hit s with [] => True | e :: _ => event_ok dupfd s0 e /\ ~ ctl_fails e end) as Hhd.
  { pose proof (ready_from_ok dupfd a s Ha (Z.to_nat (highest_client s)) 1 hit ltac:(lia)) as Hall. unfold ready_events.
    destruct (ready_from _ _ _ _ _) as [|e es]; cbn [app].
    - unfold listening_events. case_bool_decide; [|done]. split; [|intros Hc1; by destruct (sa_accepted a)].
      intros fd Hfd. pose proof (proj2 (proj2 Ha) fd Hfd) as Hff. unfold fd_fits in Hff. lia.
    - inversion Hall as [|? ? (He & j & st & k & sc & ->) _]; subst. split; [|intros []].
      destruct He as ([Hi Ho] & He). split; [|done]. split; [done|]. by rewrite Hc. }
  destruct (ready_events a hit s) as [|e es]; [by exists s0|]. destruct Hhd as [He Hctl]. cbn [loop_events].
  destruct (loop_event_ok dupfd e s0 Hs0 He) as (s1 & failed & -> & Hf & _ & _ & Hd1 & _). cbn [mbind option_bind].
  destruct failed; [by destruct (Hctl (Hf eq_refl))|]. rewrite Hd1, Hd0. exists s1. split; [done|congruence].
Qed.

(** A round of both loops, whatever is ready. *)
Lemma rounds_agree dupfd r st : select_ok st -> result_ok dupfd r ->
  exists s' st' e ends, loop_round dupfd (as_epoll r (hitmaxfiles st) (sel_server st)) (sel_server st) = Some (s', e) /\
    select_round dupfd r st = Some (st', ends) /\ (ends = true <-> e <> NextRound) /\
    (die_forcefully (sel_server st) = false -> sel_server st' = s').
Proof.
  intros (Hs & Hfit & Hask) Hr. unfold select_round, loop_round. set (s := sel_server st) in *.
  assert (forall s2 hit, server_ok s2 -> slots_fit s2 -> exists s' st' e ends,
    (if die_peacefully s2 || die_forcefully s2 then Some (emit (Closed (c_fd (slot s2 0))) s2, Quits) else Some (s2, NextRound)) = Some (s', e) /\
    (if die_peacefully s2 || die_forcefully s2
     then Some (mkSelState (emit (Closed (c_fd (slot s2 0))) s2) (sel_reads st) (sel_max_fd st) hit, true)
     else '(reads, max_fd) ← rebuild s2; Some (mkSelState s2 reads max_fd hit, false)) = Some (st', ends) /\
    (ends = true <-> e <> NextRound) /\ (die_forcefully s = false -> sel_server st' = s')) as Hend.
  { intros s2 hit Hs2 Hf2. destruct (_ || _); [by eexists _, _, _, _|].
    destruct (rebuild_all s2 Hs2 Hf2) as (reads & m & -> & _). cbn [mbind option_bind]. by eexists _, _, _, _. }
  destruct r as [| |a]; cbn [as_epoll]; [|by exists s, st, LoopBroken, true|].
  - destruct (timeout_ok s Hs Hfit) as [Hs1 Hf1]. destruct (active_clients s =? 1); cbn [mbind option_bind]; cbv zeta in *; by apply Hend.
  - set (s0 := with_timeouts _ _ s). assert (server_ok s0) as Hs0 by (by destruct Hs).
    change (highest_client s0) with (highest_client s).
    pose proof (table_highest _ _ _ (ok_table _ Hs)) as Hhi.
    assert (fd_fits (c_fd (slot s 0))) as H0.
    { destruct (slot_fits s 0 Hfit) as [Hc|?]; [|done]. pose proof (table_listen _ _ _ (ok_table _ Hs)) as Hl.
      unfold open_at, is_open in Hl. by apply negb_true_iff, Z.eqb_neq in Hl. }
    destruct (die_forcefully s) eqn:Hdie.
    + destruct (signalled_events dupfd a (hitmaxfiles st) s Hr Hs Hdie s0 Hs0 eq_refl Hdie) as (s1 & -> & Hd1).
      destruct (scan_safe dupfd a Hr (Z.to_nat (highest_client s)) 1 (hitmaxfiles st) s0 Hs0 Hfit) as (s2 & h2 & -> & Hs2 & Hf2 & _ & Hd2); [lia|].
      cbn [mbind option_bind]. change (die_forcefully s0) with (die_forcefully s) in Hd2. unfold select_accept. rewrite Hd2, Hdie. cbn [negb mbind option_bind].
      rewrite Hd1, Hd2, Hdie, !orb_true_r. by eexists _, _, _, _.
    + destruct (scan_is_events dupfd a s Hr (Z.to_nat (highest_client s)) 1 (hitmaxfiles st) s0 Hs0 Hfit Hdie)
        as (s1 & h1 & HL & -> & Hs1 & Hf1 & H01 & Hh1 & Hd1); [lia|change (highest_client s0) with (highest_client s); lia|done|].
      change (die_forcefully s0) with (die_forcefully s) in Hd1. rewrite Hdie in Hd1. change (slot s0 0) with (slot s 0) in H01.
      destruct (accept_is_event dupfd a s1 Hd1) as (hit & s2 & Hacc & Hlast); [by rewrite H01|].
      destruct (accept_safe dupfd a s1 Hr Hs1 Hf1) as (s2' & hit' & Hacc' & Hs2 & Hf2 & _). rewrite Hacc in Hacc'. injection Hacc' as <- <-.
      unfold ready_events. rewrite (loop_events_snoc dupfd _ _ s0 s1 Hdie HL Hd1).
      assert (listening_events a s = listening_events a s1) as -> by (unfold listening_events; by rewrite H01).
      rewrite Hlast. cbn [mbind option_bind]. rewrite Hacc. cbn [mbind option_bind]. by apply Hend.
Qed.

Lemma select_start_ok listen_fd pid d st : tables_ok (pdb_tables d) -> select_start listen_fd pid d = Some st -> select_ok st.
Proof.
  unfold select_start, FD_SET. intros Hd H. destruct ((0 <=? listen_fd) && (listen_fd <? FD_SETSIZE)) eqn:Hf; [|done].
  cbn [mbind option_bind] in H. injection H as <-. apply andb_true_iff in Hf as [H1%Z.leb_le H2%Z.ltb_lt].
  assert (slots_fit (server_start listen_fd pid d)) as Hfit.
  { intros [|k] c Hc; [injection Hc as <-; by right|]. change (replicate 15 free_slot !! k = Some c) in Hc.
    apply lookup_replicate in Hc as [-> _]. by left. }
  split; [apply server_start_ok; [lia|done]|]. split; [done|]. cbn [sel_reads sel_max_fd sel_server]. split.
  - intros x [->%elem_of_singleton|?%elem_of_empty]%elem_of_union; [lia|done].
  - intros x. rewrite elem_of_union, elem_of_singleton. split.
    + intros [->|?%elem_of_empty]; [|done]. split; [lia|]. by exists 0.
    + intros [Hne (j & Hj & He)]. left. unfold slot in He. destruct (Z.to_nat j) as [|k]; [by rewrite <- He|].
      destruct (clients (server_start listen_fd pid d) !! S k) as [c|] eqn:Hc; [|by rewrite <- He in Hne].
      change (replicate 15 free_slot !! k = Some c) in Hc. apply lookup_replicate in Hc as [-> _]. by rewrite <- He in Hne.
Qed.

(** The states the loop goes through. *)
Inductive select_run (dupfd : Z -> Z) : select_state -> select_state -> Prop :=
| select_here st : select_run dupfd st st
| select_next st r st1 st' : result_ok dupfd r -> select_round dupfd r st = Some (st1, false) -> select_run dupfd st1 st' ->
    select_run dupfd st st'
| select_signal st st' :
    select_run dupfd (mkSelState (quit_now (sel_server st)) (sel_reads st) (sel_max_fd st) (hitmaxfiles st)) st' -> select_run dupfd st st'.

Lemma select_run_ok dupfd st st' : select_ok st -> select_run dupfd st st' -> select_ok st'.
Proof.
  intros Hok Hr. induction Hr as [|st r st1 st' Hres Heq _ IH|st st' _ IH]; [done| |].
  - destruct (select_round_ok dupfd r st Hok Hres) as (st2 & ex & Heq2 & Hok2). rewrite Heq in Heq2. injection Heq2 as <- <-. auto.
  - apply IH. destruct Hok as (Hs & Hf & Ha). split; [by destruct Hs|]. by split.
Qed.
End Slots.

(** C32: the loop with [select], which a build has unless it asks for [epoll]:
    in every state it reaches it waits for the listening socket and for every
    client, nothing else; no access leaves the table of clients or the sets, as
    long as the system hands out descriptors below FD_SETSIZE; and a round,
    whether it times out, fails or finds some descriptors ready, does exactly
    what the loop with [epoll] does when the same clients are ready, in the
    order of the table, and the listening socket after them, and ends the loop
    when that one ends.  After an [accept] that found no descriptor left, the
    first client that says nothing is to the [epoll] loop one that hangs up.
    When a shutdown signal has come before the round, both loops end with it,
    but they may have dealt with different clients; and [epoll_ctl], which
    has no counterpart, is taken not to fail. *)
Theorem select_is_epoll {E : SqlEngine} {L : SqlLaws E} {PM : PathMax} {SC : ServerConfig} {M : Malloc} {ML : MallocLaws}
    dupfd listen_fd pid d st0 st : tables_ok (pdb_tables d) -> select_start listen_fd pid d = Some st0 -> select_run dupfd st0 st ->
  server_ok (sel_server st) /\ asked_for (sel_server st) (sel_reads st) (sel_max_fd st) /\
  forall r, result_ok dupfd r ->
    exists s' st' e ends, loop_round dupfd (as_epoll r (hitmaxfiles st) (sel_server st)) (sel_server st) = Some (s', e) /\
      select_round dupfd r st = Some (st', ends) /\ (ends = true <-> e <> NextRound) /\
      (die_forcefully (sel_server st) = false -> sel_server st' = s').
Proof.
  intros Hd Hstart Hrun. pose proof (select_run_ok dupfd st0 st (select_start_ok _ _ _ _ Hd Hstart) Hrun) as Hok.
  split; [apply Hok|]. split; [apply Hok|]. intros r. by apply rounds_agree.
Qed.

(** ** A new client, and too many *)

#[local] Existing Instance mem_engine.
#[local] Existing Instance zero_malloc.
#[local] Existing Instance sample_path_max.
#[local] Existing Instance sample_config.

(** [accept] gives the descriptor [fd], or fails for want of descriptors. *)
Definition arrival (fd : option Z) : select_answer :=
  mkSelect {[3]} ∅ (fun _ => None) (fun _ wire => SendBytes (Z.of_nat (length wire))) (fun _ n => replicate (Z.to_nat n) NUL)
    fd (bool_decide (fd = None)) true.

Definition sample_select : select_state := mkSelState (server_start 3 100 (sample_pdb [] [])) ({[3]} ∪ ∅) 3 false.

Lemma select_is_epoll_witness : exists s' st' e ends,
  loop_round (fun fd => fd) (as_epoll (SelectReady (arrival (Some 5))) false (sel_server sample_select)) (sel_server sample_select) = Some (s', e) /\
  select_round (fun fd => fd) (SelectReady (arrival (Some 5))) sample_select = Some (st', ends) /\ (ends = true <-> e <> NextRound) /\ sel_server st' = s'.
Proof.
  destruct (@select_is_epoll mem_engine mem_engine_laws sample_path_max sample_config zero_malloc zero_malloc_laws
    (fun fd => fd) 3 100 (sample_pdb [] []) sample_select sample_select sample_tables_ok eq_refl (select_here _ _)) as (_ & _ & H).
  destruct (H (SelectReady (arrival (Some 5)))) as (s' & st' & e & ends & H1 & H2 & H3 & H4); [split; [|split]|].
  - intros i n Hn. cbn [arrival sa_scratch]. rewrite length_replicate. lia.
  - intros i stream Hst. discriminate Hst.
  - intros fd Hfd. injection Hfd as <-. vm_compute. by split.
  - exists s', st', e, ends. split; [exact H1|]. split; [exact H2|]. split; [exact H3|]. apply H4. reflexivity.
Defined.

(** A client whose descriptor is as large as the sets cannot be asked for. *)
Example select_sets_too_small :
  match select_round (fun fd => fd) (SelectReady (arrival (Some FD_SETSIZE))) sample_select with Some _ => false | None => true end = true.
Proof. vm_compute. reflexivity. Qed.

(** When [accept] has no descriptor left, the next round drops the first client
    that says nothing, whoever it is. *)
Example silent_client_dropped :
  (('(st, _) ← select_round (fun fd => fd) (SelectReady (arrival (Some 5))) sample_select;
    '(st, _) ← select_round (fun fd => fd) (SelectReady (arrival None)) st;
    '(st, _) ← select_round (fun fd => fd) (SelectReady (arrival None)) st;
    Some (c_fd (slot (sel_server st) 1), outputs (sel_server st))) : option (Z * list output)) = Some (-1, [Closed 5]).
Proof. vm_compute. reflexivity. Qed.
