(* ===== verification/Main.v ===== *)
(** The program pseudo itself ([main] in [pseudo.c]): its options, what it
    does to the database, the program it runs and how it stops a server
    ([pseudo_client_shutdown]); and how a client starts a server with the
    options of the pseudo that started the client ([client_spawn_server] in
    [pseudo_client.c]).

    [getopt] is that of POSIX, which stops at the first argument that is no
    option.  [None] is a memory error, or an exit for lack of a prefix.
    Diagnostics and the texts of the help are not modelled. *)

From stdpp Require Import base gmap list option strings.
From Stdlib Require Import ZArith Lia Ascii.
From S2P Require Import Prelude Format Tables Modes Message Paths ClientPath Sql FileDb ServerOp ServerLoop Debug Env ClientConn Passwd Startup PseudoLog Daemon.

Open Scope Z_scope.

(** ** [getopt] *)

(** Does the option take an argument?  [None]: there is no such option. *)
Fixpoint opt_wants (optstring : bytes) (c : ascii) : option bool :=
  match optstring with
  | [] => None
  | x :: l =>
      if bool_decide (x = c) && negb (bool_decide (c = ":"%char)) then Some (bool_decide (head l = Some ":"%char))
      else opt_wants l c
  end.

(** The options of one argument, and the one that has its argument in the
    next. *)
Fixpoint getopt_word (optstring l : bytes) : list getopt_result * option ascii :=
  match l with
  | [] => ([], None)
  | c :: l' =>
      match opt_wants optstring c with
      | None => let '(r, w) := getopt_word optstring l' in (GotError :: r, w)
      | Some false => let '(r, w) := getopt_word optstring l' in (GotOpt c [] :: r, w)
      | Some true => if decide (l' = []) then ([], Some c) else ([GotOpt c l'], None)
      end
  end.

(** The options, and the arguments from [optind] on. *)
Fixpoint getopt (optstring : bytes) (argv : list bytes) : list getopt_result * list bytes :=
  match argv with
  | [] => ([], [])
  | a :: rest =>
      if decide (a = $"--") then ([], rest)
      else
        match a with
        | "-"%char :: c :: word =>
            let '(r, w) := getopt_word optstring (c :: word) in
            match w, rest with
            | None, _ => let '(r', args) := getopt optstring rest in (r ++ r', args)
            | Some c, arg :: rest => let '(r', args) := getopt optstring rest in (r ++ GotOpt c arg :: r', args)
            | Some _, [] => (r ++ [GotError], [])
            end
        | _ => ([], argv)
        end
  end.

Definition main_optstring : bytes := $"BCdfhi:lm:M:p:P:r:R:St:vVx:".

Example getopt_stops : getopt main_optstring [$"-lt"; $"30"; $"-Pxy"; $"ls"; $"-l"] =
  ([GotOpt "l" []; GotOpt "t" ($"30"); GotOpt "P" ($"xy")], [$"ls"; $"-l"]).
Proof. vm_compute. reflexivity. Qed.

Example getopt_missing : getopt main_optstring [$"-z"; $"-t"] = ([GotError; GotError], []).
Proof. vm_compute. reflexivity. Qed.

(** ** The options *)

(** The program ends, or goes on. *)
Inductive run (A : Type) := Exits (status : Z) | Goes (a : A).
Arguments Exits {A} _.
Arguments Goes {A} _.

Record main_flags := mkFlags { opt_B : bool; opt_C : bool; opt_d : bool; opt_f : bool; opt_l : bool; opt_S : bool }.
Record main_paths := mkPaths { opt_i : option bytes; opt_m : option bytes; opt_M : option bytes; opt_r : option bytes }.

(** [opts] is what was printed to the buffer of that name, whose end is
    [optptr]: what did not fit is not in the buffer. *)
Record main_state := mkMain {
  m_flags : main_flags;
  m_paths : main_paths;
  opts : bytes;
  m_timeout : Z;                         (* pseudo_server_timeout *)
  m_env : env_state;
  m_bufs : path_bufs
}.

Definition set_flags v (m : main_state) := mkMain v (m_paths m) (opts m) (m_timeout m) (m_env m) (m_bufs m).
Definition set_paths v (m : main_state) := mkMain (m_flags m) v (opts m) (m_timeout m) (m_env m) (m_bufs m).
Definition set_opts v (m : main_state) := mkMain (m_flags m) (m_paths m) v (m_timeout m) (m_env m) (m_bufs m).
Definition set_timeout v (m : main_state) := mkMain (m_flags m) (m_paths m) (opts m) v (m_env m) (m_bufs m).
Definition set_menv v (m : main_state) := mkMain (m_flags m) (m_paths m) (opts m) (m_timeout m) v (m_bufs m).
Definition set_bufs v (m : main_state) := mkMain (m_flags m) (m_paths m) (opts m) (m_timeout m) (m_env m) v.

Definition flag_on (o : ascii) (f : main_flags) : main_flags :=
  match f, o with
  | mkFlags _ _ d g l q, "B"%char => mkFlags true true d g l q
  | mkFlags b _ d g l q, "C"%char => mkFlags b true d g l q
  | mkFlags b c _ g l q, "d"%char => mkFlags b c true g l q
  | mkFlags b c d _ l q, "f"%char => mkFlags b c d true l q
  | mkFlags b c d g _ q, "l"%char => mkFlags b c d g true q
  | mkFlags b c d g l _, "S"%char => mkFlags b c d g l true
  | f, _ => f
  end.

Definition path_to (o : ascii) (s : bytes) (p : main_paths) : main_paths :=
  match p, o with
  | mkPaths _ m n r, "i"%char => mkPaths (Some s) m n r
  | mkPaths i _ n r, "m"%char => mkPaths i (Some s) n r
  | mkPaths i m _ r, "M"%char => mkPaths i m (Some s) r
  | mkPaths i m n _, "r"%char => mkPaths i m n (Some s)
  | p, _ => p
  end.

(** The variable a path is stored in. *)
Definition variable_of (o : ascii) : option bytes :=
  match o with
  | "p"%char => Some ($"PSEUDO_PASSWD")
  | "P"%char => Some ($"PSEUDO_PREFIX")
  | "r"%char | "R"%char => Some ($"PSEUDO_CHROOT")
  | _ => None
  end.

(** The options whose argument is a path; with AT_SYMLINK_NOFOLLOW or not. *)
Definition path_option (o : ascii) : option bool :=
  match o with
  | "i"%char | "m"%char | "M"%char => Some false
  | "p"%char | "P"%char | "r"%char | "R"%char => Some true
  | _ => None
  end.

Definition set_debug (d : debug_state) (s : env_state) : env_state :=
  mkEnv (environ s) (pseudo_env s) (util_initted s) d (evlog_flags s).

Section Main.
Context {PM : PathMax} {PE : PathEnv} {CE : ClientEnv} {BC : BuildConfig} {SE : StartEnv} {M : Malloc} {E : SqlEngine}.

(** [optptr += snprintf(optptr, pseudo_path_max() - (optptr - opts), ...)];
    once the end is beyond the buffer the size wraps around and the text goes
    there. *)
Definition add_opt (text : bytes) (opts : bytes) : option bytes :=
  if pseudo_path_max <? Z.of_nat (length opts) then None
  else Some (opts ++ (if decide (opts = []) then [] else [space]) ++ text).

Definition opts_string (opts : bytes) : bytes := take (Z.to_nat (pseudo_path_max - 1)) opts.

(** [main] has called [pseudo_client_getcwd], and there is no changed root. *)
Definition main_client : client := (pseudo_client_getcwd real_getcwd (mkClient [] [] None None None)).1.

(** [PSEUDO_ROOT_PATH(AT_FDCWD, optarg, flag)] *)
Definition option_path (leave_last : bool) (path : bytes) (b : path_bufs) : option (path_bufs * option bytes) :=
  '(b, r) ← pseudo_root_path main_client b AT_FDCWD (Some path) leave_last;
  Some (b, match r with BaseNull => None | BaseStr s => Some s | BaseFixed f => fixed_str b path f end).

(** A value for a variable of [pseudo_env]. *)
Definition put_value (key : bytes) (value : option bytes) (m : main_state) : main_state :=
  set_menv (pseudo_set_value key value (m_env m)).1 m.

Definition take_path (o : ascii) (leave_last : bool) (path : bytes) (m : main_state) : option (run main_state) :=
  '(b, s) ← option_path leave_last path (m_bufs m);
  Some (match s with
        | None => Exits EXIT_FAILURE
        | Some s =>
            let m := set_bufs b m in
            let m := match variable_of o with Some key => put_value key (Some s) m | None => m end in
            Goes (set_paths (path_to o s (m_paths m)) m)
        end).

Definition take_timeout (value : bytes) (m : main_state) : option (run main_state) :=
  let '(v, rest) := strtoll 10 value in
  if match rest with c :: _ => is_space c | [] => true end then
    opts ← add_opt ($"-t " ++ decimal (int32 v)) (opts m); Some (Goes (set_opts opts (set_timeout (int32 v) m)))
  else Some (Exits EXIT_FAILURE).

(** One turn of the loop over the options. *)
Definition take_main_option (m : main_state) (g : getopt_result) : option (run main_state) :=
  match g with
  | GotError => Some (Exits EXIT_FAILURE)
  | GotOpt o optarg =>
      match path_option o with
      | Some leave_last => take_path o leave_last optarg m
      | None =>
          match o with
          | "h"%char | "V"%char => Some (Exits 0)
          | "l"%char => opts ← add_opt ($"-l") (opts m); Some (Goes (set_flags (flag_on o (m_flags m)) (set_opts opts m)))
          | "t"%char => take_timeout optarg m
          | "v"%char => Some (Goes (set_menv (set_debug (pseudo_debug_verbose (debug (m_env m))) (m_env m)) m))
          | "x"%char => Some (Goes (set_menv (set_debug (pseudo_debug_set optarg (debug (m_env m))) (m_env m)) m))
          | "B"%char | "C"%char | "d"%char | "f"%char | "S"%char => Some (Goes (set_flags (flag_on o (m_flags m)) m))
          | _ => Some (Exits EXIT_FAILURE)
          end
      end
  end.

Fixpoint take_main_options (m : main_state) (l : list getopt_result) : option (run main_state) :=
  match l with
  | [] => Some (Goes m)
  | g :: l =>
      r ← take_main_option m g;
      match r with
      | Exits status => Some (Exits status)
      | Goes m => take_main_options m l
      end
  end.

(** [pseudo_debug_flags_finalize], and the options preserved. *)
Definition finish_options (m : main_state) : main_state :=
  let m := put_value ($"PSEUDO_DEBUG") (Some (flag_letters (debug_flags (debug (m_env m))))) m in
  put_value ($"PSEUDO_OPTS") (Some (opts_string (opts m))) m.

(** ** The prefix ([pseudo_get_prefix]) *)

(** Where a pointer comes to rest that goes back from [i] while it is above
    [low] and not at a slash. *)
Fixpoint back_to (path : bytes) (low i : nat) : nat :=
  match i with
  | O => O
  | S i' => if (i <=? low)%nat || bool_decide (char_at path i = slash) then i else back_to path low i'
  end.

(** The directory of the program without its bin directory; a path without a
    directory to look back from is read before its start. *)
Definition prefix_of_path (path : bytes) : option bytes :=
  let s := back_to path 1 (length path) in
  if (s =? 0)%nat then None
  else
    let mypath := take s path in
    let dir := back_to mypath 0 (s - 1) in
    let mypath := if prefixb ($"/bin") (drop dir mypath) then take dir mypath else mypath in
    Some (if decide (mypath = []) then $"/" else mypath).

(** The text of [mypath] before the path is made canonical, and where [s]
    points. *)
Definition program_path (pathname : bytes) : bytes * nat :=
  let text := if decide (char_at pathname 0 = slash) then pathname
              else default [] real_getcwd ++ slash :: pathname in
  let mypath := take (Z.to_nat (pseudo_path_max - 1)) text in
  (mypath, if decide (char_at pathname 0 = slash) then length mypath else length text).

Definition pseudo_get_prefix (pathname : option bytes) (e : env_state) (b : path_bufs) :
    option (env_state * path_bufs * option bytes) :=
  let '(e, v) := pseudo_get_value ($"PSEUDO_PREFIX") e in
  match v, pathname with
  | None, Some pathname =>
      let '(mypath, s) := program_path pathname in
      '(b, tmp_path) ← pseudo_fix_path b [] (Some mypath) 0 0 true;
      tmp_path ← fixed_str b mypath tmp_path;
      let '(mypath, s) := if pseudo_path_max <=? Z.of_nat (length tmp_path) then (mypath, s) else (tmp_path, length tmp_path) in
      if pseudo_path_max <=? Z.of_nat s then None
      else
        prefix ← prefix_of_path mypath;
        let e := (pseudo_set_value ($"PSEUDO_PREFIX") (Some prefix) e).1 in
        let '(e, v) := pseudo_get_value ($"PSEUDO_PREFIX") e in
        Some (e, b, v)
  | v, _ => Some (e, b, v)
  end.

(** ** Work on the database *)

Section Database.
(** [stat] and [lstat]. *)
Variables main_stat main_lstat : bytes -> option statbuf.

(** -m and -M *)
Definition move_database (p : main_paths) (d : pdb) : option (pdb * run bool) :=
  match opt_m p, opt_M p with
  | None, None => Some (d, Goes false)
  | Some from, Some to =>
      match main_stat to with
      | None => Some (d, Exits EXIT_FAILURE)
      | Some _ =>
          match pseudo_msg_new 0 (Some to) with
          | None => Some (d, Exits EXIT_FAILURE)
          | Some msg =>
              let '(d, rc) := pdb_rename_file d (Some from) msg in
              Some (d, if rc <? 0 then Exits EXIT_FAILURE else Goes true)
          end
      end
  | _, _ => Some (d, Exits EXIT_FAILURE)
  end.

(** -i *)
Definition renumber_database (p : main_paths) (d : pdb) : option (pdb * run bool) :=
  match opt_i p with
  | None => Some (d, Goes false)
  | Some path =>
      match main_stat path with
      | None => Some (d, Exits EXIT_FAILURE)
      | Some buf =>
          match pseudo_msg_new 0 (Some path) with
          | None => Some (d, Exits EXIT_FAILURE)
          | Some msg =>
              let '(msg, rc) := pdb_find_file_path d msg in
              if negb (rc =? 0) then Some (d, Exits EXIT_FAILURE)
              else if negb (st_ino buf =? m_ino msg) then Some (d, Exits EXIT_FAILURE)
              else
                let '(d, rc) := pdb_renumber_all d (m_dev msg) (st_dev buf) in
                Some (d, if rc <? 0 then Exits EXIT_FAILURE else Goes true)
          end
      end
  end.

(** Everything that ends with the check; a status is a byte. *)
Definition database_actions (m : main_state) (d : pdb) : option (pdb * run unit) :=
  '(d, moved) ← move_database (m_paths m) d;
  match moved with
  | Exits status => Some (d, Exits status)
  | Goes moved =>
      '(d, renumbered) ← renumber_database (m_paths m) d;
      match renumbered with
      | Exits status => Some (d, Exits status)
      | Goes renumbered =>
          if opt_C (m_flags m) || moved || renumbered then
            '(d, rc) ← pseudo_db_check d main_lstat getpid (opt_B (m_flags m));
            Some (d, Exits (rc mod 256))
          else Some (d, Goes tt)
      end
  end.
End Database.

(** ** Stopping a server ([pseudo_client_shutdown]) *)

(** A directory of pseudo's own; the descriptor that was opened stays open. *)
Definition shutdown_dir (path : bytes) (p : client_process) : option (Z * client_process) :=
  let '(fd, missing) := open_dir path false in
  let '(fd, made) := if (fd =? -1) && missing then ((open_dir path true).1, mkdir_p path) else (fd, []) in
  let '(fd, conn) := pseudo_fd fd false (p_conn p) in
  let p := with_mkdirs (p_mkdirs p ++ made) (with_conn conn p) in
  if fd =? -1 then None else Some (fd, p).

(** What the server answers to the request, and what comes after that. *)
Record shutdown_env := mkShutdown { sh_connect : connect_env; sh_kernel : bytes -> send_result; sh_ack : sock; sh_last : sock }.

Definition shutdown_message : pseudo_msg_t := set_client getpid (set_op OP_NONE (set_type PSEUDO_MSG_SHUTDOWN empty_msg)).

Definition shutdown_dirs (p : client_process) : option client_process :=
  '(e, path) ← pseudo_prefix_path None (p_env p);
  let p := with_penv e p in
  p ← (if pseudo_prefix_dir_fd (c_fds (p_conn p)) =? -1 then
         '(fd, p) ← shutdown_dir path p;
         Some (with_conn (with_fds (set_prefix_fd fd (c_fds (p_conn p))) (p_conn p)) p)
       else Some p);
  '(e, path) ← pseudo_localstatedir_path None (p_env p);
  let p := with_mkdirs (p_mkdirs p ++ mkdir_p path) (with_penv e p) in
  if pseudo_localstate_dir_fd (c_fds (p_conn p)) =? -1 then
    '(fd, p) ← shutdown_dir path p;
    Some (with_conn (with_fds (set_localstate_fd fd (c_fds (p_conn p))) (p_conn p)) p)
  else Some p.

Definition pseudo_client_shutdown (wait_on_socket : bool) (e : shutdown_env) (p : client_process) :
    option (client_process * Z) :=
  p ← shutdown_dirs p;
  let '(c, rc) := client_connect (sh_connect e) (p_conn p) in
  if negb (rc =? 0) then Some (with_conn c p, 0)
  else
    match pseudo_msg_send (connect_fd (c_fds c)) (Some shutdown_message) (Some 0) None (sh_kernel e) with
    | (_, wire, rc) =>
        let c := if connect_fd (c_fds c) <? 0 then c else ClientConn.event (SendOn (connect_fd (c_fds c)) wire) c in
        if negb (rc =? 0) then Some (with_conn c p, 1)
        else
          '(c, ack) ← receive_answer (sh_ack e) c;
          match ack with
          | None => Some (with_conn c p, 1)
          | Some _ =>
              if wait_on_socket then '(c, _) ← receive_answer (sh_last e) c; Some (with_conn c p, 0)
              else Some (with_conn c p, 0)
          end
    end.

(** ** Running a program *)

(** How a child ended; [Lost]: [waitpid] had nothing to tell. *)
Inductive ending := Exited (code : Z) | Signaled (sig : Z) | Lost.

(** What the system says to main: the modes of files, whether [chdir] to a
    directory works, [fork], how the child ended. *)
Record command_env := mkCommand {
  cm_stat : bytes -> option Z;
  cm_chdir : bytes -> bool;
  cm_ending : ending
}.

(** The directories the loop over PATH goes through; [cur] is the one being
    read. *)
Fixpoint path_dirs (cur path : bytes) : list bytes :=
  match path with
  | [] => if decide (cur = []) then [] else [cur]
  | c :: path => if decide (c = colon) then cur :: path_dirs [] path else path_dirs (cur ++ [c]) path
  end.

(** [snprintf(fullpath, pseudo_path_max(), ...)] *)
Definition full_path (text : bytes) : bytes := take (Z.to_nat (pseudo_path_max - 1)) text.

Definition runnable (c : command_env) (path : bytes) : bool :=
  match cm_stat c path with Some mode => negb (Z.land mode 73 =? 0) | None => false end.

Fixpoint find_in_dirs (c : command_env) (dirs : list bytes) (name : bytes) : option bytes :=
  match dirs with
  | [] => None
  | dir :: dirs =>
      let path := full_path (dir ++ slash :: name) in
      if runnable c path then Some path else find_in_dirs c dirs name
  end.

Definition find_program (c : command_env) (path : option bytes) (name : bytes) : option bytes :=
  if decide (slash ∈ name) then Some (full_path name)
  else find_in_dirs c (path_dirs [] (default ($"/bin:/usr/bin") path)) name.

(** The arguments left, or a shell. *)
Definition program_words (args : list bytes) (shell : option bytes) : list bytes :=
  match args with [] => [default ($"/bin/sh") shell] | _ => args end.

(** How the program ends; [Died] by the signal its child died by. *)
Inductive outcome :=
  | Exit (status : Z)
  | Died (signal : Z)
  | ExecSelf (environ : gmap bytes bytes)
  | Shutdown (wait_on_socket : bool)
  | Serve (daemonize : bool) (timeout : Z) (log : bool)
  | Ran (path : bytes) (argv : list bytes) (environ : gmap bytes bytes) (stop : bool) (after : ending).

(** The status of pseudo when the program it ran has ended. *)
Definition status_after (w : ending) : outcome :=
  match w with
  | Exited code => Exit code
  | Signaled sig => Died sig
  | Lost => Exit 1
  end.

Definition run_command (c : command_env) (m : main_state) (args : list bytes) : option outcome :=
  if match opt_r (m_paths m) with Some root => negb (cm_chdir c root) | None => false end then Some (Exit EXIT_FAILURE)
  else
    let e := environ (m_env m) in
    let words := program_words args (e !! $"SHELL") in
    match find_program c (e !! $"PATH") (hd [] words) with
    | None => Some (Exit EXIT_FAILURE)
    | Some path =>
        s ← pseudo_setupenv (m_env m);
        Some (Ran path words (environ s) (opt_S (m_flags m)) (cm_ending c))
    end.

(** ** [main] *)

(** What follows the work on the database. *)
Definition main_work (c : command_env) (m : main_state) (args : list bytes) : option outcome :=
  let f := m_flags m in
  if opt_S f && bool_decide (args = []) then Some (Shutdown false)
  else if opt_d f && opt_f f then Some (Exit PSEUDO_EXIT_PSEUDO_INVOCATION)
  else if opt_f f || opt_d f then
    if bool_decide (args = []) then Some (Serve (opt_d f) (m_timeout m) (opt_l f))
    else Some (Exit PSEUDO_EXIT_PSEUDO_INVOCATION)
  else run_command c m args.

(** Under its own library, pseudo starts itself again without it, once. *)
Definition main_unload (e : env_state) : option (env_state + outcome) :=
  match environ e !! PRELINK_LIBRARIES with
  | Some v =>
      if has_infix ($"libpseudo") v then
        let '(e, s) := pseudo_get_value ($"PSEUDO_UNLOAD") e in
        match s with
        | Some _ => Some (inr (Exit PSEUDO_EXIT_PSEUDO_LOADED))
        | None =>
            let e := (pseudo_set_value ($"PSEUDO_UNLOAD") (Some ($"YES")) e).1 in
            e ← pseudo_setupenv e;
            Some (inr (ExecSelf (environ (pseudo_dropenv e))))
        end
      else Some (inl e)
  | None => Some (inl e)
  end.

Definition main_start (e : env_state) (b : path_bufs) : main_state :=
  let e := (pseudo_set_value ($"PSEUDO_UNLOAD") None e).1 in
  mkMain (mkFlags false false false false false false) (mkPaths None None None None) [] DEFAULT_PSEUDO_SERVER_TIMEOUT
    (with_environ (delete ($"PSEUDO_UNLOAD") (environ e)) e) b.

Definition main (main_stat main_lstat : bytes -> option statbuf) (c : command_env) (e : env_state) (b : path_bufs)
    (argv : list bytes) (d : pdb) : option (pdb * outcome) :=
  u ← main_unload (pseudo_init_util e);
  match u with
  | inr o => Some (d, o)
  | inl e =>
      let '(options, args) := getopt main_optstring (tail argv) in
      r ← take_main_options (main_start e b) options;
      match r with
      | Exits status => Some (d, Exit status)
      | Goes m =>
          let m := finish_options m in
          '(e, b, prefix) ← pseudo_get_prefix (head argv) (m_env m) (m_bufs m);
          match prefix with
          | None => Some (d, Exit PSEUDO_EXIT_PSEUDO_PREFIX)
          | Some _ =>
              let m := set_bufs b (set_menv e m) in
              '(d, r) ← database_actions main_stat main_lstat m d;
              match r with
              | Exits status => Some (d, Exit status)
              | Goes _ => o ← main_work c m args; Some (d, o)
              end
          end
      end
  end.

(** ** The server a client starts ([client_spawn_server], the child) *)

(** [strsep(&option_string, " ")]: the words between the spaces. *)
Fixpoint split_spaces (s : bytes) : list bytes :=
  match s with
  | [] => [[]]
  | c :: s' =>
      if decide (c = space) then [] :: split_spaces s'
      else match split_spaces s' with [] => [[c]] | w :: ws => (c :: w) :: ws end
  end.

Definition count_spaces (s : bytes) : nat := length (filter (fun c => c = space) s).

(** [argv] has room for [args] pointers, the last of them NULL; a write past
    its end is [None]. *)
Definition server_argv (program : bytes) (option_string : option bytes) : option (list bytes) :=
  match option_string with
  | None => Some [program; $"-d"]
  | Some s =>
      let args := (4 + count_spaces s)%nat in
      let argv := program :: $"-d" :: filter (fun w => w <> []) (split_spaces s) in
      if (length argv <? args)%nat then Some argv else None
  end.

(** The program, its arguments and environment, and the descriptors closed. *)
Definition spawned_server (debug_fd : Z) (e : env_state) : option (bytes * list bytes * gmap bytes bytes * list Z) :=
  let '(e, option_string) := pseudo_get_value ($"PSEUDO_OPTS") e in
  '(e, bindir) ← pseudo_get_bindir e;
  let program := pseudo_append_path bindir (Some ($"pseudo")) in
  argv ← server_argv program option_string;
  let closed := filter (fun fd => fd <> debug_fd) (map Z.of_nat (seq 3 1021)) in
  let e := (pseudo_set_value ($"PSEUDO_UNLOAD") (Some ($"YES")) e).1 in
  e ← pseudo_setupenv e;
  Some (program, argv, environ (pseudo_dropenv e), closed).
End Main.
