(* ===== verification/MainSpec.v ===== *)
(** What the program pseudo promises: the options given to it reach the
    server its programs start; and what it does with the database and with
    the program it runs. *)

From stdpp Require Import base gmap list option strings.
From Stdlib Require Import ZArith Lia Ascii.
From S2P Require Import Prelude Format Tables Modes Message Paths ClientPath Sql FileDb FileDbSpec ServerOp ServerLoop Debug Env EnvSpec ClientConn Passwd Startup StartupSpec PseudoLog Daemon Main.

Open Scope Z_scope.

(** ** What the server is told

    [opts] holds a list of two things, and the flags say what the last of them
    mean. *)

Inductive told := TellLog | TellTimeout (t : Z).

Definition told_text (o : told) : bytes :=
  match o with TellLog => $"-l" | TellTimeout t => $"-t " ++ decimal t end.

Definition told_words (o : told) : list bytes :=
  match o with TellLog => [$"-l"] | TellTimeout t => [$"-t"; decimal t] end.

Definition told_option (o : told) : getopt_result :=
  match o with TellLog => GotOpt "l" [] | TellTimeout t => GotOpt "t" (decimal t) end.

Definition add_text (s text : bytes) : bytes := s ++ (if decide (s = []) then [] else [space]) ++ text.

Definition told_opts (l : list told) : bytes := foldl add_text [] (map told_text l).

Definition wants_log (l : list told) : bool := existsb (fun o => match o with TellLog => true | _ => false end) l.

Definition last_timeout (l : list told) : Z :=
  foldl (fun t o => match o with TellTimeout t => t | _ => t end) DEFAULT_PSEUDO_SERVER_TIMEOUT l.

Definition told_ok (o : told) : Prop := match o with TellTimeout t => - 2 ^ 31 <= t < 2 ^ 31 | _ => True end.

Definition tells (m : main_state) (l : list told) : Prop :=
  opts m = told_opts l /\ opt_l (m_flags m) = wants_log l /\ m_timeout m = last_timeout l /\ Forall told_ok l.

Lemma told_opts_snoc l o : told_opts (l ++ [o]) = add_text (told_opts l) (told_text o).
Proof. unfold told_opts. by rewrite map_app, foldl_app. Qed.

(** *** Words *)

Lemma split_spaces_app s w : split_spaces (s ++ space :: w) = split_spaces s ++ split_spaces w.
Proof.
  induction s as [|c s IH]; cbn [app split_spaces]; [done|]. rewrite IH.
  destruct (decide (c = space)); [done|]. destruct (split_spaces s) eqn:Hs; [|done].
  exfalso. clear - Hs. destruct s; cbn in Hs; [done|]. destruct (decide _); [done|]. by destruct (split_spaces s).
Qed.

Lemma split_word w : space ∉ w -> split_spaces w = [w].
Proof.
  induction w as [|c w IH]; intros Hw; [done|]. apply not_elem_of_cons in Hw as [Hc Hw].
  cbn [split_spaces]. rewrite decide_False by done. by rewrite IH.
Qed.

Lemma split_length s : length (split_spaces s) = S (count_spaces s).
Proof.
  unfold count_spaces. induction s as [|c s IH]; [done|]. cbn [split_spaces]. rewrite filter_cons.
  destruct (decide (c = space)); cbn [length]; [by rewrite IH|]. by destruct (split_spaces s).
Qed.

(** The array of the arguments has room. *)
Lemma server_argv_fits program s :
  server_argv program (Some s) = Some (program :: $"-d" :: filter (fun w => w <> []) (split_spaces s)).
Proof.
  unfold server_argv. cbv zeta. rewrite (proj2 (Nat.ltb_lt _ _)); [done|]. cbn [length].
  pose proof (length_filter (fun w : bytes => w <> []) (split_spaces s)). rewrite split_length in H. lia.
Qed.

(** *** Numbers *)

Lemma digit_in_ten c : digit_in 10 c = digit_value c.
Proof.
  unfold digit_in, digit_value. set (v := Z_of_byte c). cbv zeta.
  destruct (Z.leb_spec 48 v), (Z.leb_spec v 57), (Z.leb_spec 0 (v - 48)), (Z.leb_spec (v - 48) 9); try lia; cbn [andb];
    try (rewrite (proj2 (Z.ltb_lt _ _)); [done|lia]);
    destruct (Z.leb_spec 97 v), (Z.leb_spec v 122), (Z.leb_spec 65 v), (Z.leb_spec v 90); cbn [andb];
    rewrite (proj2 (Z.ltb_ge _ _)); done || lia.
Qed.

Lemma scan_base_ten v l : scan_base 10 v l = scan_digits v l.
Proof.
  revert v. induction l as [|c l IH]; intros v; [done|]. cbn [scan_base scan_digits]. rewrite digit_in_ten.
  by destruct (digit_value c).
Qed.

Lemma strtoll_base_ten l : strtoll_base 10 l = (10, l).
Proof. unfold strtoll_base. destruct l as [|c l]; [done|]. by repeat case_match. Qed.

Lemma digits_no_space f n l : 0 <= n -> space ∉ l -> space ∉ digits f n l.
Proof.
  revert n l. induction f as [|f IH]; intros n l Hn Hl; [done|]. cbn [digits]. cbv zeta.
  assert (space ∉ ascii_of_N (Z.to_N (48 + n mod 10)) :: l) as Hl'.
  { apply not_elem_of_cons. split; [|done]. intros Heq.
    assert (0 <= n mod 10 < 10) as Hm by (apply Z.mod_pos_bound; lia).
    pose proof (digit_value_digit (n mod 10) Hm) as Hd. by rewrite <- Heq in Hd. }
  destruct (_ =? 0); [done|]. apply IH; [|done]. apply Z.div_pos; lia.
Qed.

Lemma decimal_no_space t : space ∉ decimal t.
Proof.
  unfold decimal. destruct (Z.ltb_spec t 0).
  - apply not_elem_of_cons. split; [done|]. apply digits_no_space; [lia|by apply not_elem_of_nil].
  - apply digits_no_space; [lia|by apply not_elem_of_nil].
Qed.

Lemma decimal_nonempty t : decimal t <> [].
Proof.
  unfold decimal. destruct (Z.ltb_spec t 0); [done|].
  destruct (digits_head 10 t []) as (c & r & d & -> & _); [lia|lia|done].
Qed.

(** A number that was printed is read as it was. *)
Lemma strtoll_decimal t : - 2 ^ 31 <= t < 2 ^ 31 -> strtoll 10 (decimal t) = (t, []).
Proof.
  intros Ht. assert (forall n, 0 <= n <= 2 ^ 31 -> exists c r, digits 10 n [] = c :: r /\ is_space c = false /\ c <> "-"%char /\ c <> "+"%char /\ (exists d, digit_in 10 c = Some d) /\ scan_base 10 0 (c :: r) = (n, [])) as Hdig.
  { intros n Hn. destruct (digits_head 10 n []) as (c & r & d & Hd & Hc); [lia|lia|].
    destruct (digit_not_space c d Hc) as (? & ? & ?). exists c, r. rewrite digit_in_ten, scan_base_ten, <- Hd.
    rewrite scan_digits_app; [|lia|]; [by eauto 10|]. assert (10 ^ Z.of_nat 10 = 10000000000) by done. lia. }
  unfold decimal. destruct (Z.ltb_spec t 0) as [Hneg|Hpos].
  - destruct (Hdig (- t)) as (c & r & -> & Hs & Hm & Hp & (d & Hd) & Hv); [lia|].
    unfold strtoll. cbn [skip_space]. change (is_space "-") with false. cbn beta iota zeta. rewrite strtoll_base_ten, Hd, Hv.
    f_equal. unfold INT64_MIN, INT64_MAX. lia.
  - destruct (Hdig t) as (c & r & -> & Hs & Hm & Hp & (d & Hd) & Hv); [lia|].
    unfold strtoll. cbn [skip_space]. rewrite Hs.
    assert (match c :: r with "-"%char :: l' => (-1, l') | "+"%char :: l' => (1, l') | _ => (1, c :: r) end = (1, c :: r)) as ->
      by (by repeat case_match; simplify_eq).
    rewrite strtoll_base_ten, Hd, Hv. f_equal. unfold INT64_MIN, INT64_MAX. lia.
Qed.

(** *** The words of the options *)

Lemma told_opts_words l : Forall told_ok l ->
  filter (fun w => w <> []) (split_spaces (told_opts l)) = @concat _ (map told_words l).
Proof.
  induction l as [|o l IH] using rev_ind; intros Hok; [done|]. apply Forall_app in Hok as [Hok Ho].
  rewrite told_opts_snoc, map_app, concat_app. cbn [map concat]. rewrite app_nil_r.
  assert (filter (fun w => w <> []) (split_spaces (told_text o)) = told_words o) as Hw.
  { destruct o as [|t]; [done|]. cbn [told_text told_words].
    change ($"-t " ++ decimal t) with ($"-t" ++ space :: decimal t). rewrite split_spaces_app.
    rewrite (split_word ($"-t")) by key. rewrite (split_word (decimal t)) by apply decimal_no_space.
    rewrite filter_app, !filter_cons, !filter_nil. by rewrite !decide_True by (done || apply decimal_nonempty). }
  specialize (IH Hok). unfold add_text. destruct (decide (told_opts l = [])) as [He|].
  - rewrite He in IH |- *. cbn in IH. rewrite <- IH. cbn [app]. exact Hw.
  - cbn [app]. rewrite split_spaces_app, filter_app, IH, Hw. done.
Qed.

(** *** The options of the first pseudo *)

Lemma add_opt_told `{PathMax} text l s : add_opt text (told_opts l) = Some s -> s = add_text (told_opts l) text.
Proof. unfold add_opt. by case_match; intros [= <-]. Qed.

Lemma wants_log_snoc l o : wants_log (l ++ [o]) = wants_log l || match o with TellLog => true | _ => false end.
Proof. unfold wants_log. rewrite existsb_app. cbn. by rewrite orb_false_r. Qed.

Lemma last_timeout_snoc l o : last_timeout (l ++ [o]) = match o with TellTimeout t => t | _ => last_timeout l end.
Proof. unfold last_timeout. by rewrite foldl_app. Qed.

(** What an option does to the state. *)
Definition leaves (m m' : main_state) : Prop :=
  opts m' = opts m /\ opt_l (m_flags m') = opt_l (m_flags m) /\ m_timeout m' = m_timeout m.

Lemma take_path_leaves `{PathMax, PathEnv, ClientEnv} o leave_last s m m' :
  take_path o leave_last s m = Some (Goes m') -> leaves m m'.
Proof.
  unfold take_path. destruct (option_path _ _ _) as [[b [s'|]]|]; cbn [mbind option_bind]; [|done..].
  intros [= <-]. by destruct (variable_of o).
Qed.

Lemma option_cases `{PathMax, PathEnv, ClientEnv} m o arg m' :
  take_main_option m (GotOpt o arg) = Some (Goes m') ->
  leaves m m' \/ (o = "l"%char /\ exists s, add_opt ($"-l") (opts m) = Some s /\ m' = set_flags (flag_on o (m_flags m)) (set_opts s m))
  \/ take_timeout arg m = Some (Goes m').
Proof.
  unfold take_main_option. destruct (path_option o) as [ll|]; [left; by eapply take_path_leaves|].
  destruct (decide (o = "l"%char)) as [->|Hl].
  { destruct (add_opt _ _) as [s|]; cbn [mbind option_bind]; [|done]. intros [= <-]. right. left. eauto. }
  destruct (decide (o = "t"%char)) as [->|Ht]; [by auto|].
  repeat case_match; intros Hm; simplify_eq; left; try done.
  all: unfold leaves, set_flags; cbn; by destruct (m_flags m).
Qed.

Lemma timeout_tells `{PathMax} arg m m' l :
  take_timeout arg m = Some (Goes m') -> tells m l -> exists l', tells m' l'.
Proof.
  unfold take_timeout. destruct (strtoll 10 arg) as [v rest]. case_match; [|done].
  intros Hm (Ho & Hl & Ht & Hok). rewrite Ho in Hm. destruct (add_opt _ _) as [s|] eqn:Hs; cbn [mbind option_bind] in Hm; [|done].
  simplify_eq. apply add_opt_told in Hs as ->. exists (l ++ [TellTimeout (int32 v)]).
  split; [by rewrite told_opts_snoc|]. split; [by rewrite wants_log_snoc, orb_false_r|]. split; [by rewrite last_timeout_snoc|].
  apply Forall_app. split; [done|]. apply Forall_singleton. cbn. apply (wrap_signed_range 32); lia.
Qed.

Lemma options_tell `{PathMax, PathEnv, ClientEnv} gs m m' l :
  take_main_options m gs = Some (Goes m') -> tells m l -> exists l', tells m' l'.
Proof.
  revert m l. induction gs as [|g gs IH]; intros m l; cbn [take_main_options]; [intros [= <-]; eauto|].
  destruct (take_main_option m g) as [[status|m1]|] eqn:Hg; cbn [mbind option_bind]; [done| |done].
  intros Hm Ht. assert (exists l1, tells m1 l1) as [l1 ?]; [|eauto].
  destruct g as [o arg|]; [|done]. apply option_cases in Hg as [(Hg1 & Hg2 & Hg3)|[(-> & s & Hs & ->)|Hg]].
  - destruct Ht as (? & ? & ? & ?). exists l. split; [congruence|]. split; [congruence|]. split; [congruence|done].
  - destruct Ht as (Ho & Hl & Hto & Hok). rewrite Ho in Hs. apply add_opt_told in Hs as ->. exists (l ++ [TellLog]).
    split; [by rewrite told_opts_snoc|]. split; [|split; [by rewrite last_timeout_snoc|by apply Forall_app; split; [|repeat constructor]]].
    rewrite wants_log_snoc, orb_true_r. cbn. by destruct (m_flags m).
  - by eapply timeout_tells.
Qed.

(** *** The variables a program gets *)

Lemma export_lookup keys s k :
  environ (foldl export_key s keys) !! k =
    match environ s !! k with Some v => Some v | None => if decide (k ∈ keys) then pseudo_env s !! k else None end /\
  pseudo_env (foldl export_key s keys) = pseudo_env s /\ util_initted (foldl export_key s keys) = util_initted s.
Proof.
  revert s. induction keys as [|k' keys IH]; intros s; cbn [foldl].
  { rewrite decide_False by apply not_elem_of_nil. by destruct (environ s !! k). }
  destruct (IH (export_key s k')) as (-> & -> & ->). unfold export_key, setenv.
  destruct (pseudo_env s !! k') as [v|] eqn:Hv; cbn [environ with_environ pseudo_env util_initted].
  - split; [|done]. destruct (environ s !! k') as [w|] eqn:Hw; cbn [environ].
    + destruct (environ s !! k) eqn:Hk; [done|]. assert (k <> k') by congruence. apply decide_ext. rewrite elem_of_cons. naive_solver.
    + destruct (decide (k = k')) as [->|Hne].
      * rewrite lookup_insert_eq, Hw, decide_True by left. done.
      * rewrite lookup_insert_ne by done. destruct (environ s !! k); [done|]. apply decide_ext. rewrite elem_of_cons. naive_solver.
  - split; [|done]. destruct (environ s !! k); [done|]. destruct (decide (k = k')) as [->|Hne].
    + rewrite (decide_True (P := k' ∈ k' :: keys)) by left. rewrite Hv. by case_decide.
    + apply decide_ext. rewrite elem_of_cons. naive_solver.
Qed.

Lemma exported_settled s : settled s -> settled (foldl export_key s env_keys).
Proof.
  intros [Hi Hs]. split; [by destruct (export_lookup env_keys s []) as (_ & _ & ->)|]. intros k Hk.
  destruct (export_lookup env_keys s k) as (-> & -> & _). rewrite decide_True by done.
  destruct (environ s !! k) eqn:He; [|done]. intros _. apply Hs; [done|]. by rewrite He.
Qed.

Lemma insert_other (e : gmap bytes bytes) (o : option bytes) (f : bytes -> bool) (x : bytes -> bytes) (y p q z k : bytes) :
  k <> p -> k <> q ->
  (<[q := z]> (match o with Some old => if f old then e else <[p := x old]> e | None => <[p := y]> e end)) !! k = e !! k.
Proof.
  intros Hp Hq. rewrite lookup_insert_ne by done. destruct o as [old|]; [destruct (f old); [done|]|]; by rewrite lookup_insert_ne.
Qed.

(** A variable of the environment wins over the value stored. *)
Lemma setupenv_environ {BC : BuildConfig} s s' : pseudo_setupenv s = Some s' ->
  exists s1 s2 libdir x y z, eval_dirs s = Some s1 /\ pseudo_libdir_path None (foldl export_key s1 env_keys) = Some (s2, libdir) /\
    environ s' = <[PRELINK_LIBRARIES := z]> (match environ s2 !! PRELINK_PATH with
                  | Some old => if has_infix libdir old then environ s2 else <[PRELINK_PATH := x old]> (environ s2)
                  | None => <[PRELINK_PATH := y]> (environ s2) end).
Proof.
  unfold pseudo_setupenv. generalize env_keys PRELINK_PATH PRELINK_LIBRARIES. intros keys path preload.
  destruct (eval_dirs s) as [s1|]; cbn [mbind option_bind]; [|done].
  destruct (pseudo_libdir_path None _) as [[s2 libdir]|] eqn:H2; [|done]. intros [= <-].
  exists s1, s2, libdir, (fun old => library_path (Some old) libdir), (library_path None libdir). eexists. by rewrite H2.
Qed.

Lemma setupenv_exports {BC : BuildConfig} s s' k : settled s -> pseudo_setupenv s = Some s' -> k ∈ env_keys -> k ∉ dir_keys ->
  environ s' !! k = match environ s !! k with Some v => Some v | None => pseudo_env s !! k end.
Proof.
  intros Hs Hset Hk Hd. apply setupenv_environ in Hset as (s1 & s2 & libdir & x & y & z & H1 & H2 & ->).
  destruct (eval_dirs_kept _ _ Hs H1) as [Hs1 He1 Hv1].
  destruct (libdir_path_kept _ _ _ (exported_settled _ Hs1) H2) as [_ He2 _].
  destruct (key_names k Hk) as (_ & Hp & Hl). rewrite insert_other by done. rewrite He2.
  destruct (export_lookup env_keys s1 k) as (-> & _). by rewrite decide_True, He1, Hv1 by done.
Qed.

Lemma dropenv_keeps s k : k <> PRELINK_LIBRARIES -> environ (pseudo_dropenv s) !! k = environ s !! k.
Proof. intros Hk. unfold pseudo_dropenv. case_match; [|done]. cbn. by rewrite lookup_insert_ne. Qed.

(** The state keeps its variables and its environment through the options. *)
Definition env_is (env : gmap bytes bytes) (m : main_state) : Prop := settled (m_env m) /\ environ (m_env m) = env.

Lemma put_value_env env k v m : k ∈ env_keys -> env_is env m -> env_is env (put_value k (Some v) m).
Proof.
  intros Hk [Hs He]. unfold env_is, put_value. cbn. destruct (set_value_settled k v _ Hs Hk) as [-> ?]. by rewrite <- He.
Qed.

Lemma put_value_lookup k v m k' env : k ∈ env_keys -> env_is env m ->
  pseudo_env (m_env (put_value k (Some v) m)) !! k' = if decide (k' = k) then Some v else pseudo_env (m_env m) !! k'.
Proof. intros Hk [Hs He]. by apply set_value_lookup. Qed.

Lemma variable_is_key o k : variable_of o = Some k -> k ∈ env_keys.
Proof. unfold variable_of. repeat case_match; intros Hk; simplify_eq; key. Qed.

Lemma option_env `{PathMax, PathEnv, ClientEnv} env m g m' : take_main_option m g = Some (Goes m') -> env_is env m -> env_is env m'.
Proof.
  intros Ho Hm. destruct g as [o arg|]; [|done]. unfold take_main_option in Ho. destruct (path_option o) as [ll|] eqn:Hp.
  - unfold take_path in Ho. destruct (option_path _ _ _) as [[b [s'|]]|]; cbn [mbind option_bind] in Ho; [|done..]. simplify_eq.
    destruct (variable_of o) as [k|] eqn:Hk; [|done]. apply (put_value_env env k s' (set_bufs b m)); [by eapply variable_is_key|done].
  - destruct (decide (o = "l"%char)) as [->|]; [|destruct (decide (o = "t"%char)) as [->|]].
    + destruct (add_opt _ _); cbn [mbind option_bind] in Ho; [by simplify_eq|done].
    + unfold take_timeout in Ho. destruct (strtoll 10 arg). case_match; [|done].
      destruct (add_opt _ _); cbn [mbind option_bind] in Ho; [by simplify_eq|done].
    + repeat case_match; simplify_eq; done.
Qed.

Lemma options_env `{PathMax, PathEnv, ClientEnv} env gs m m' :
  take_main_options m gs = Some (Goes m') -> env_is env m -> env_is env m'.
Proof.
  revert m. induction gs as [|g gs IH]; intros m; cbn [take_main_options]; [by intros [= <-]|].
  destruct (take_main_option m g) as [[status|m1]|] eqn:Hg; cbn [mbind option_bind]; [done| |done]. eauto using option_env.
Qed.

Lemma without_variable key s : key ∈ env_keys -> settled s ->
  let s1 := (pseudo_set_value key None s).1 in
  settled (with_environ (delete key (environ s1)) s1) /\ environ s1 = environ s.
Proof.
  intros Hk Hs. destruct (set_value_lookup key None s [] Hs Hk) as (_ & He & Hi). cbv zeta. split; [|done].
  pose proof (fun k => proj1 (set_value_lookup key None s k Hs Hk)) as Hl.
  revert He Hi Hl. generalize (pseudo_set_value key None s).1. intros s1 He Hi Hl.
  split; [done|]. intros k Hkk. cbn [environ pseudo_env with_environ]. intros [v Hv]. apply lookup_delete_Some in Hv as [Hne Hv].
  rewrite Hl, decide_False by done. apply (proj2 Hs); [done|]. rewrite <- He, Hv. eauto.
Qed.

Lemma start_env e b : env_is (delete ($"PSEUDO_UNLOAD") (environ e)) (main_start (pseudo_init_util e) b).
Proof.
  assert ($"PSEUDO_UNLOAD" ∈ env_keys) as Hk by key. unfold env_is, main_start.
  rewrite <- (init_environ e). pose proof (init_settled e) as Hs. revert Hk Hs. generalize ($"PSEUDO_UNLOAD") (pseudo_init_util e).
  intros key s Hk Hs. destruct (without_variable key s Hk Hs) as [? He]. cbn [m_env environ with_environ]. by rewrite He in *.
Qed.

Lemma get_prefix_env `{PathMax, PathEnv, ClientEnv} p e b e' b' s : settled e -> pseudo_get_prefix p e b = Some (e', b', Some s) ->
  settled e' /\ environ e' = environ e /\ pseudo_env e' !! $"PSEUDO_PREFIX" = Some s /\
  forall k, k <> $"PSEUDO_PREFIX" -> pseudo_env e' !! k = pseudo_env e !! k.
Proof.
  intros Hs. assert ($"PSEUDO_PREFIX" ∈ env_keys) as Hk by key. unfold pseudo_get_prefix. rewrite get_value_settled by done.
  destruct (pseudo_env e !! $"PSEUDO_PREFIX") as [v|] eqn:Hv; [by intros [= <- <- <-]|].
  destruct p as [p|]; [|done]. destruct (program_path p) as [mypath n].
  destruct (pseudo_fix_path _ _ _ _ _ _) as [[b1 f]|]; cbn [mbind option_bind]; [|done].
  destruct (fixed_str b1 mypath f) as [t|]; cbn [mbind option_bind]; [|done].
  match goal with |- context [let '(x, y) := ?c in _] => destruct c as [my n'] end. case_match; [done|].
  destruct (prefix_of_path my) as [pre|]; cbn [mbind option_bind]; [|done].
  destruct (set_value_settled ($"PSEUDO_PREFIX") pre e Hs Hk) as [-> Hst]. rewrite get_value_settled by done. cbn [pseudo_env store_value with_env].
  rewrite lookup_partial_alter_eq. intros [= <- <- <-]. split; [done|]. cbn. rewrite lookup_partial_alter_eq. split; [done|]. split; [done|].
  intros k Hne. by rewrite lookup_partial_alter_ne.
Qed.

(** *** The options of the server *)

Definition told_flags (l : list told) (f : main_flags) : main_flags :=
  mkFlags (opt_B f) (opt_C f) (opt_d f) (opt_f f) (wants_log l) (opt_S f).

(** The state [m] after the options [l]. *)
Definition told_state (m : main_state) (l : list told) : main_state :=
  mkMain (told_flags l (m_flags m)) (m_paths m) (told_opts l) (last_timeout l) (m_env m) (m_bufs m).

Lemma told_opts_mono l l' : (length (told_opts l) <= length (told_opts (l ++ l')))%nat.
Proof.
  induction l' as [|o l' IH] using rev_ind; [by rewrite app_nil_r|]. rewrite app_assoc, told_opts_snoc.
  unfold add_text. rewrite length_app. lia.
Qed.

Lemma take_told `{PathMax, PathEnv, ClientEnv} m l o : Z.of_nat (length (told_opts l)) <= pseudo_path_max -> told_ok o ->
  take_main_option (told_state m l) (told_option o) = Some (Goes (told_state m (l ++ [o]))).
Proof.
  intros Hfit Ho. assert (forall text, add_opt text (told_opts l) = Some (add_text (told_opts l) text)) as Hadd.
  { intros text. unfold add_opt. by rewrite (proj2 (Z.ltb_ge _ _)). }
  unfold told_state. rewrite told_opts_snoc, last_timeout_snoc. unfold told_flags. rewrite wants_log_snoc.
  destruct o as [|t]; cbn [told_option told_text].
  - unfold take_main_option. cbn [path_option opts]. rewrite Hadd. cbn. by rewrite orb_true_r.
  - unfold take_main_option. cbn [path_option opts]. unfold take_timeout. rewrite strtoll_decimal by done.
    rewrite (wrap_signed_small 32) by (cbn in *; lia). cbn [opts]. rewrite Hadd. cbn. by rewrite orb_false_r.
Qed.

Lemma take_all_told `{PathMax, PathEnv, ClientEnv} m l l' : Z.of_nat (length (told_opts (l ++ l'))) <= pseudo_path_max ->
  Forall told_ok l' -> take_main_options (told_state m l) (map told_option l') = Some (Goes (told_state m (l ++ l'))).
Proof.
  revert l. induction l' as [|o l' IH]; intros l Hfit Hok; [by rewrite app_nil_r|]. apply Forall_cons in Hok as [Ho Hok].
  cbn [map take_main_options]. rewrite take_told; [|pose proof (told_opts_mono l (o :: l')); lia|done]. cbn [mbind option_bind].
  replace (l ++ o :: l') with ((l ++ [o]) ++ l') in * by (by rewrite <- app_assoc). by apply IH.
Qed.

Lemma getopt_told l : getopt main_optstring ($"-d" :: @concat _ (map told_words l)) = (GotOpt "d" [] :: map told_option l, []).
Proof.
  assert (getopt main_optstring (@concat _ (map told_words l)) = (map told_option l, [])) as Hl.
  { assert (getopt_word main_optstring ["l"%char] = ([GotOpt "l" []], None)) as H1 by (by vm_compute).
    assert (getopt_word main_optstring ["t"%char] = ([], Some "t"%char)) as H2 by (by vm_compute).
    induction l as [|[|t] l IH]; [done| |]; cbn [map concat told_words told_option app getopt String.list_ascii_of_string];
      rewrite decide_False by key; [rewrite H1|rewrite H2]; by rewrite IH. }
  assert (getopt_word main_optstring ["d"%char] = ([GotOpt "d" []], None)) as H3 by (by vm_compute).
  cbn [getopt String.list_ascii_of_string]. rewrite decide_False by key. by rewrite H3, Hl.
Qed.

Definition daemon_flags : main_flags := mkFlags false false true false false false.

Lemma take_daemon `{PathMax, PathEnv, ClientEnv} m :
  m_flags m = mkFlags false false false false false false -> opts m = [] -> m_timeout m = DEFAULT_PSEUDO_SERVER_TIMEOUT ->
  take_main_option m (GotOpt "d" []) = Some (Goes (told_state (set_flags daemon_flags m) [])).
Proof. destruct m. cbn. by intros -> -> ->. Qed.

(** The variables when the options are done. *)
Lemma finish_env `{PathMax} env m : env_is env m -> env_is env (finish_options m).
Proof. intros Hm. unfold finish_options. apply put_value_env; [key|]. by apply put_value_env; [key|]. Qed.

Lemma finish_lookup `{PathMax} env m k : env_is env m -> k <> $"PSEUDO_DEBUG" ->
  pseudo_env (m_env (finish_options m)) !! k =
    if decide (k = $"PSEUDO_OPTS") then Some (opts_string (opts m)) else pseudo_env (m_env m) !! k.
Proof.
  intros Hm Hk. unfold finish_options.
  assert (env_is env (put_value ($"PSEUDO_DEBUG") (Some (flag_letters (debug_flags (debug (m_env m))))) m)) as Hm' by (by apply put_value_env; [key|]).
  rewrite (put_value_lookup _ _ _ _ env); [|key|done]. case_decide; [done|].
  rewrite (put_value_lookup _ _ _ _ env); [|key|done]. by rewrite decide_False.
Qed.

Lemma start_lookup s b k : settled s -> k <> $"PSEUDO_UNLOAD" -> pseudo_env (m_env (main_start s b)) !! k = pseudo_env s !! k.
Proof.
  intros Hs Hk. unfold main_start. cbn [m_env pseudo_env with_environ].
  destruct (set_value_lookup ($"PSEUDO_UNLOAD") None s k Hs) as (-> & _); [key|]. by rewrite decide_False.
Qed.

Lemma get_prefix_known `{PathMax, PathEnv, ClientEnv} p e b prefix : settled e -> pseudo_env e !! $"PSEUDO_PREFIX" = Some prefix ->
  pseudo_get_prefix p e b = Some (e, b, Some prefix).
Proof. intros Hs Hp. unfold pseudo_get_prefix. rewrite get_value_settled; [|done|key]. by rewrite Hp. Qed.

Lemma finish_flags `{PathMax} m : m_flags (finish_options m) = m_flags m /\ m_paths (finish_options m) = m_paths m /\
  m_timeout (finish_options m) = m_timeout m.
Proof. unfold finish_options, put_value. generalize (pseudo_set_value). by intros. Qed.

(** The end of [main] when the options of a server were read. *)
Definition main_end `{PathMax, PathEnv, ClientEnv, BuildConfig, StartEnv, Malloc, SqlEngine} ms ml c (m : main_state) (argv args : list bytes) (d : pdb) :
    option (pdb * outcome) :=
  '(e, b, prefix) ← pseudo_get_prefix (head argv) (m_env m) (m_bufs m);
  match prefix with
  | None => Some (d, Exit PSEUDO_EXIT_PSEUDO_PREFIX)
  | Some _ =>
      let m := set_bufs b (set_menv e m) in
      '(d, r) ← database_actions ms ml m d;
      match r with
      | Exits status => Some (d, Exit status)
      | Goes _ => o ← main_work c m args; Some (d, o)
      end
  end.

Lemma main_steps `{PathMax, PathEnv, ClientEnv, BuildConfig, StartEnv, Malloc, SqlEngine} ms ml c e b argv d e1 options args :
  main_unload (pseudo_init_util e) = Some (inl e1) -> getopt main_optstring (tail argv) = (options, args) ->
  main ms ml c e b argv d =
    r ← take_main_options (main_start e1 b) options;
    match r with Exits status => Some (d, Exit status) | Goes m => main_end ms ml c (finish_options m) argv args d end.
Proof. intros Hu Hg. unfold main. rewrite Hu, Hg. reflexivity. Qed.

Lemma server_end `{PathMax, PathEnv, ClientEnv, BuildConfig, StartEnv, Malloc, SqlEngine} ms ml c m argv d prefix :
  settled (m_env m) -> pseudo_env (m_env m) !! $"PSEUDO_PREFIX" = Some prefix ->
  opt_C (m_flags m) = false -> opt_d (m_flags m) = true -> opt_f (m_flags m) = false -> opt_S (m_flags m) = false ->
  m_paths m = mkPaths None None None None ->
  main_end ms ml c m argv [] d = Some (d, Serve true (m_timeout m) (opt_l (m_flags m))).
Proof.
  intros Hs Hp. unfold main_end. rewrite (get_prefix_known _ _ _ prefix) by done. cbn [mbind option_bind].
  destruct m as [[? ? ? ? ? ?] ? o t e b]. cbn. by intros -> -> -> -> ->.
Qed.

(** [main] as the server a client starts. *)
Lemma server_main `{PathMax, PathEnv, ClientEnv, BuildConfig, StartEnv, Malloc, SqlEngine} ms ml c es b program l prefix d :
  Forall told_ok l -> Z.of_nat (length (told_opts l)) <= pseudo_path_max ->
  main_unload (pseudo_init_util es) = Some (inl (pseudo_init_util es)) ->
  environ es !! $"PSEUDO_PREFIX" = Some prefix ->
  main ms ml c es b (program :: $"-d" :: @concat _ (map told_words l)) d =
    Some (d, Serve true (last_timeout l) (wants_log l)).
Proof.
  intros Hok Hfit Hu Hp. erewrite main_steps; [|exact Hu|apply getopt_told].
  pose proof (start_env es b) as Hstart. pose proof (start_lookup (pseudo_init_util es) b ($"PSEUDO_PREFIX")) as Hpre.
  rewrite init_lookup, Hp in Hpre by key. specialize (Hpre (init_settled es) ltac:(key)).
  assert (m_flags (main_start (pseudo_init_util es) b) = mkFlags false false false false false false) as Hs1 by reflexivity.
  assert (opts (main_start (pseudo_init_util es) b) = []) as Hs2 by reflexivity.
  assert (m_timeout (main_start (pseudo_init_util es) b) = DEFAULT_PSEUDO_SERVER_TIMEOUT) as Hs3 by reflexivity.
  assert (m_paths (main_start (pseudo_init_util es) b) = mkPaths None None None None) as Hs4 by reflexivity.
  revert Hstart Hpre Hs1 Hs2 Hs3 Hs4. generalize (main_start (pseudo_init_util es) b). intros m0 Hstart Hpre Hs1 Hs2 Hs3 Hs4.
  cbn [take_main_options]. rewrite take_daemon by done. cbn [mbind option_bind]. rewrite take_all_told by done. cbn [mbind option_bind app].
  set (m := told_state _ l). assert (env_is (delete ($"PSEUDO_UNLOAD") (environ es)) m) as Hm by exact Hstart.
  destruct (finish_flags m) as (Hf & Hpa & Ht).
  rewrite (server_end _ _ _ _ _ _ prefix); rewrite ?Hf, ?Ht; try done.
  - by apply (finish_env _ _ Hm).
  - rewrite (finish_lookup _ _ _ Hm) by key. rewrite decide_False by key. exact Hpre.
Qed.

(** *** From the first pseudo to the server *)

Lemma unload_same `{BuildConfig} e e1 : main_unload e = Some (inl e1) -> e1 = e.
Proof.
  unfold main_unload. destruct (environ e !! PRELINK_LIBRARIES) as [v|]; [|by intros [= <-]].
  destruct (has_infix _ v); [|by intros [= <-]]. destruct (pseudo_get_value _ e) as [e' [s|]]; [done|].
  by destruct (pseudo_setupenv _).
Qed.

Lemma work_ran `{PathMax, BuildConfig} c m args path words env stop w :
  main_work c m args = Some (Ran path words env stop w) -> run_command c m args = Some (Ran path words env stop w).
Proof.
  unfold main_work. cbv zeta. destruct (opt_S _ && _); [done|]. destruct (opt_d _ && _); [done|]. destruct (opt_f _ || _); [|done].
  by destruct (bool_decide _).
Qed.

Lemma run_ran `{PathMax, BuildConfig} c m args path words env stop w :
  run_command c m args = Some (Ran path words env stop w) ->
  exists s', pseudo_setupenv (m_env m) = Some s' /\ env = environ s'.
Proof.
  unfold run_command. case_match; [done|]. cbv zeta. destruct (find_program _ _ _); [|done].
  destruct (pseudo_setupenv _) as [s'|]; cbn [mbind option_bind]; [|done]. intros [= <- <- <- <- <-]. eauto.
Qed.

Lemma end_ran `{PathMax, PathEnv, ClientEnv, BuildConfig, StartEnv, Malloc, SqlEngine} ms ml c m argv args d d' path words env stop w :
  main_end ms ml c m argv args d = Some (d', Ran path words env stop w) ->
  exists e b s s', pseudo_get_prefix (head argv) (m_env m) (m_bufs m) = Some (e, b, Some s) /\
    pseudo_setupenv e = Some s' /\ env = environ s'.
Proof.
  unfold main_end. destruct (pseudo_get_prefix _ _ _) as [[[e b1] [s|]]|]; cbn [mbind option_bind]; [|done|done].
  destruct (database_actions _ _ _ _) as [[d1 [status|[]]]|]; cbn [mbind option_bind]; [done| |done].
  destruct (main_work _ _ _) as [o|] eqn:Hw; cbn [mbind option_bind]; [|done]. intros [= <- ->].
  apply work_ran, run_ran in Hw as (s' & Hw & ->). eauto 10.
Qed.

Lemma start_tells e b : tells (main_start e b) [].
Proof. by split. Qed.

Lemma unload_never_runs `{BuildConfig} e o : main_unload e = Some (inr o) ->
  match o with Exit _ | ExecSelf _ => True | _ => False end.
Proof.
  unfold main_unload. destruct (environ e !! PRELINK_LIBRARIES) as [v|]; [|done].
  destruct (has_infix _ v); [|done]. destruct (pseudo_get_value _ e) as [e' [s|]]; [by intros [= <-]|].
  destruct (pseudo_setupenv _); cbn [mbind option_bind]; [by intros [= <-]|done].
Qed.

Lemma main_unloaded `{PathMax, PathEnv, ClientEnv, BuildConfig, StartEnv, Malloc, SqlEngine} ms ml c e b argv d :
  main ms ml c e b argv d =
    u ← main_unload (pseudo_init_util e);
    match u with
    | inr o => Some (d, o)
    | inl e1 =>
        r ← take_main_options (main_start e1 b) (getopt main_optstring (tail argv)).1;
        match r with
        | Exits status => Some (d, Exit status)
        | Goes m => main_end ms ml c (finish_options m) argv (getopt main_optstring (tail argv)).2 d
        end
    end.
Proof.
  unfold main. destruct (main_unload _) as [[e1|o]|]; cbn [mbind option_bind]; [|done|done].
  by destruct (getopt main_optstring (tail argv)).
Qed.

Lemma main_goes `{PathMax, PathEnv, ClientEnv, BuildConfig, StartEnv, Malloc, SqlEngine} ms ml c e b argv d d' path words env stop w :
  main ms ml c e b argv d = Some (d', Ran path words env stop w) ->
  main_unload (pseudo_init_util e) = Some (inl (pseudo_init_util e)) /\
  (r ← take_main_options (main_start (pseudo_init_util e) b) (getopt main_optstring (tail argv)).1;
    match r with
    | Exits status => Some (d, Exit status)
    | Goes m => main_end ms ml c (finish_options m) argv (getopt main_optstring (tail argv)).2 d
    end) = Some (d', Ran path words env stop w).
Proof.
  rewrite main_unloaded. generalize (pseudo_init_util e). intros e0.
  destruct (main_unload e0) as [[e1|o]|] eqn:Hun; cbn [mbind option_bind]; [|intros [= <- ->]; by apply unload_never_runs in Hun|done].
  by rewrite (unload_same _ _ Hun).
Qed.

(** What a client hands to the server it starts. *)
Lemma spawned_values `{BuildConfig} fd e program argv env closed o p :
  settled e -> pseudo_env e !! $"PSEUDO_OPTS" = Some o -> environ e !! $"PSEUDO_PREFIX" = Some p ->
  spawned_server fd e = Some (program, argv, env, closed) ->
  argv = program :: $"-d" :: filter (fun w => w <> []) (split_spaces o) /\ env !! $"PSEUDO_PREFIX" = Some p.
Proof.
  intros Hs Ho Hp. unfold spawned_server. rewrite get_value_settled, Ho by (done || key).
  destruct (pseudo_get_bindir e) as [[e1 dir]|] eqn:Hd; cbn [mbind option_bind]; [|done].
  apply get_dir_kept in Hd as [Hs1 He1 _]; [|done|key|key]. rewrite server_argv_fits. cbn [mbind option_bind].
  destruct (set_value_settled ($"PSEUDO_UNLOAD") ($"YES") e1 Hs1) as [-> Hs2]; [key|].
  destruct (pseudo_setupenv _) as [e3|] eqn:H3; cbn [mbind option_bind]; [|done]. intros Hr. simplify_eq. split; [done|].
  rewrite dropenv_keeps by key. rewrite (setupenv_exports _ _ _ Hs2 H3) by key. cbn [environ store_value with_env]. by rewrite He1, Hp.
Qed.

Lemma opts_string_fits `{PathMax} s : Z.of_nat (length s) < pseudo_path_max -> opts_string s = s.
Proof. intros Hfit. unfold opts_string. apply take_ge. lia. Qed.

(** The environment of the program. *)
Lemma launched `{PathMax, PathEnv, ClientEnv, BuildConfig, StartEnv, Malloc, SqlEngine} ms ml c e b argv d d' path words env stop w m :
  environ e !! $"PSEUDO_OPTS" = None ->
  main ms ml c e b argv d = Some (d', Ran path words env stop w) ->
  take_main_options (main_start (pseudo_init_util e) b) (getopt main_optstring (tail argv)).1 = Some (Goes m) ->
  env !! $"PSEUDO_OPTS" = Some (opts_string (opts m)) /\ is_Some (env !! $"PSEUDO_PREFIX").
Proof.
  intros Hno Hmain Hopts. destruct (main_goes _ _ _ _ _ _ _ _ _ _ _ _ _ Hmain) as [Hun Hend].
  rewrite Hopts in Hend. cbn [mbind option_bind] in Hend. pose proof (options_env _ _ _ _ Hopts (start_env e b)) as Hm.
  apply end_ran in Hend as (e2 & b2 & pre & s' & Hpre & Hset & ->).
  destruct (finish_env _ _ Hm) as [Hf1 Hf2].
  destruct (get_prefix_env _ _ _ _ _ _ Hf1 Hpre) as (Hs2 & He2 & Hp2 & Hk2). split.
  - rewrite (setupenv_exports _ _ _ Hs2 Hset) by key. rewrite He2, Hf2, lookup_delete_ne, Hno by key. rewrite Hk2 by key.
    by rewrite (finish_lookup _ _ _ Hm), decide_True by (done || key).
  - rewrite (setupenv_exports _ _ _ Hs2 Hset) by key. rewrite Hp2. destruct (environ e2 !! _); eauto.
Qed.

(** C21: the options for the server arrive at it.  When pseudo runs a program,
    and a client with the environment of that program starts a server, then
    the server logs if and only if pseudo was given -l, and its timeout is
    that of the last -t, or 30 seconds; it is a daemon, and goes to no other
    work.  PSEUDO_OPTS must not be in the environment before, the options must
    fit in their buffer, and the server must not be left with the library. *)
Theorem options_reach_server `{PathMax, PathEnv, ClientEnv, BuildConfig, StartEnv, Malloc, SqlEngine}
    ms ml c e b argv d d' path words env stop w m ec fd program sargv senv closed es c' b' d2 :
  environ e !! $"PSEUDO_OPTS" = None ->
  main ms ml c e b argv d = Some (d', Ran path words env stop w) ->
  take_main_options (main_start (pseudo_init_util e) b) (getopt main_optstring (tail argv)).1 = Some (Goes m) ->
  Z.of_nat (length (opts m)) < pseudo_path_max ->
  environ ec = env ->
  spawned_server fd (pseudo_init_util ec) = Some (program, sargv, senv, closed) ->
  environ es = senv ->
  main_unload (pseudo_init_util es) = Some (inl (pseudo_init_util es)) ->
  main ms ml c' es b' sargv d2 = Some (d2, Serve true (m_timeout m) (opt_l (m_flags m))).
Proof.
  intros Hno Hmain Hopts Hfit Hec Hsp Hes Hu.
  destruct (options_tell _ _ _ [] Hopts (start_tells _ _)) as (l & Ho & Hl & Ht & Hok).
  destruct (launched _ _ _ _ _ _ _ _ _ _ _ _ _ _ Hno Hmain Hopts) as [Henv [p Hp]].
  rewrite opts_string_fits, Ho in Henv by done. subst env senv.
  apply (spawned_values _ _ _ _ _ _ (told_opts l) p) in Hsp as [-> Hp'];
    [|apply init_settled|rewrite init_lookup, Henv by key; reflexivity|by rewrite init_environ].
  rewrite told_opts_words by done. rewrite (server_main _ _ _ _ _ _ l p); [by rewrite Hl, Ht|done|rewrite <- Ho; lia|done|done].
Qed.

(** *** Examples *)

#[local] Instance sample_main_max : PathMax := {| pseudo_path_max := 64; malloc_path_max := replicate 64 NUL |}.
#[local] Instance sample_main_tree : PathEnv := {|
  real_lstat := fun p => if bool_decide (p = $"/opt" \/ p = $"/opt/bin") then Some (S_IFDIR + 493) else None;
  readlink := fun _ => None;
  malloc_pathbuf := Some (replicate 64 NUL)
|}.
#[local] Instance sample_main_client : ClientEnv := {|
  getpid := 7; ignore_paths := None; program_invocation_name := $"pseudo"; pseudo_tag := []; dupfd := fun _ => 20;
  real_getcwd := Some ($"/opt"); chunk := fun n => Some (replicate (Z.to_nat n) NUL)
|}.
#[local] Instance sample_main_build : BuildConfig := {| PSEUDO_BINDIR := $"bin"; PSEUDO_LIBDIR := $"lib"; PSEUDO_LOCALSTATEDIR := $"var" |}.
#[local] Instance sample_main_start : StartEnv := {| open_dir := fun _ _ => (3, false); process_umask := 18 |}.
#[local] Existing Instance mem_engine.
#[local] Existing Instance zero_malloc.

Definition sample_command : command_env :=
  mkCommand (fun p => if bool_decide (p = $"/bin/ls" \/ p = $"/ls") then Some (S_IFREG + 493) else None) (fun _ => true) (Exited 3).

Definition outside (vars : gmap bytes bytes) : env_state := mkEnv vars ∅ false (mkDebug 0 0) 0.

Definition no_file : bytes -> option statbuf := fun _ => None.

Definition launch (vars : gmap bytes bytes) (argv : list bytes) : option (pdb * outcome) :=
  main no_file no_file sample_command (outside vars) no_bufs argv (sample_pdb [] []).

(** The environment of the program that is run. *)
Definition launched_env (vars : gmap bytes bytes) (argv : list bytes) : gmap bytes bytes :=
  match launch vars argv with Some (_, Ran _ _ env _ _) => env | _ => ∅ end.

(** The server a client in that environment starts. *)
Definition served (vars : gmap bytes bytes) (argv : list bytes) : option outcome :=
  '(_, sargv, senv, _) ← spawned_server 2 (pseudo_init_util (outside (launched_env vars argv)));
  snd <$> main no_file no_file sample_command (outside senv) no_bufs sargv (sample_pdb [] []).

Definition sample_words : list bytes := [$"bin/pseudo"; $"-lt"; $"90"; $"-v"; $"ls"; $"-l"].

Definition serves (o : option outcome) : option (bool * Z * bool) :=
  match o with Some (Serve d t l) => Some (d, t, l) | _ => None end.

Example sample_served : serves (served {[ $"PATH" := $"/usr:/bin" ]} sample_words) = Some (true, 90, true).
Proof. vm_compute. reflexivity. Qed.

(** Options lose to a PSEUDO_OPTS that was in the environment. *)
Example inherited_options_win : serves (served {[ $"PATH" := $"/bin"; $"PSEUDO_OPTS" := [] ]} sample_words) = Some (true, 30, false).
Proof. vm_compute. reflexivity. Qed.

(** So does a prefix. *)
Example inherited_prefix_wins :
  launched_env {[ $"PATH" := $"/bin"; $"PSEUDO_PREFIX" := $"/old" ]} [$"bin/pseudo"; $"-P"; $"/opt"; $"ls"] !! $"PSEUDO_PREFIX" = Some ($"/old").
Proof. vm_compute. reflexivity. Qed.

(** The options printed after the end of the buffer. *)
Example too_many_options : match launch {[ $"PATH" := $"/bin" ]} ($"bin/pseudo" :: replicate 23 ($"-l")) with None => true | _ => false end = true.
Proof. vm_compute. reflexivity. Qed.

(** An empty element of PATH stands for the root of the file system. *)
Example empty_path_element : match launch {[ $"PATH" := $":/bin" ]} sample_words with Some (_, Ran path _ _ _ _) => path | _ => [] end = $"/ls".
Proof. vm_compute. reflexivity. Qed.

Example prefixes : map prefix_of_path [$"/opt/bin/pseudo"; $"/bin/pseudo"; $"/pseudo"; $"/opt/binutils/pseudo"] =
  map Some [$"/opt"; $"/"; $"/"; $"/opt"].
Proof. vm_compute. reflexivity. Qed.

Definition launch_vars : gmap bytes bytes := {[ $"PATH" := $"/usr:/bin" ]}.

Lemma options_reach_server_witness : exists d' path words env stop w program sargv senv closed,
  main no_file no_file sample_command (outside launch_vars) no_bufs sample_words (sample_pdb [] []) =
    Some (d', Ran path words env stop w) /\
  spawned_server 2 (pseudo_init_util (outside env)) = Some (program, sargv, senv, closed) /\
  main no_file no_file sample_command (outside senv) no_bufs sargv (sample_pdb [] []) = Some (sample_pdb [] [], Serve true 90 true).
Proof.
  assert (match take_main_options (main_start (pseudo_init_util (outside launch_vars)) no_bufs) (getopt main_optstring (tail sample_words)).1 with
          | Some (Goes m) => bool_decide (m_timeout m = 90 /\ opt_l (m_flags m) = true /\ Z.of_nat (length (opts m)) < pseudo_path_max)
          | _ => false end = true) as Hm by (vm_compute; reflexivity).
  assert (match main no_file no_file sample_command (outside launch_vars) no_bufs sample_words (sample_pdb [] []) with
          | Some (_, Ran _ _ env _ _) =>
              match spawned_server 2 (pseudo_init_util (outside env)) with
              | Some (_, _, senv, _) => match main_unload (pseudo_init_util (outside senv)) with Some (inl _) => true | _ => false end
              | None => false
              end
          | _ => false end = true) as Hl by (vm_compute; reflexivity).
  assert (environ (outside launch_vars) !! $"PSEUDO_OPTS" = None) as Hno by (vm_compute; reflexivity).
  destruct (main _ _ _ _ _ _ _) as [[d' [| | | | |path words env stop w]]|] eqn:El; try discriminate Hl.
  destruct (spawned_server 2 (pseudo_init_util (outside env))) as [[[[program sargv] senv] closed]|] eqn:Es; [|discriminate Hl].
  destruct (main_unload (pseudo_init_util (outside senv))) as [[e1|o]|] eqn:Eu; try discriminate Hl.
  pose proof (unload_same _ _ Eu) as ->.
  destruct (take_main_options _ _) as [[status|m]|] eqn:Em; try discriminate Hm. apply bool_decide_eq_true in Hm as (Ht & Hlog & Hfit).
  exists d', path, words, env, stop, w, program, sargv, senv, closed. split; [reflexivity|]. split; [exact Es|].
  pose proof (options_reach_server _ _ _ _ _ _ _ _ _ _ _ _ _ m (outside env) 2 program sargv senv closed (outside senv)
    sample_command no_bufs (sample_pdb [] []) Hno El Em Hfit eq_refl Es eq_refl Eu) as Hmain.
  rewrite Ht, Hlog in Hmain. exact Hmain.
Defined.
