(* ===== verification/TreeWalk.v ===== *)
(** Walks over directory trees: [nftw] and [ftw]
    ([ports/unix/guts/nftw_wrapper_base.c], for both sizes of [struct stat]).

    The C library does the walk, but with a callback of pseudo's, which
    replaces what the kernel says of a file by what root would see and then
    calls the program's callback.  Which one that is, and with which flags, it
    finds in an array that all threads share, and where walks of one thread
    may be nested.

    [S] is the state of the process.  The mutex around the array is what makes
    each change of it one step. *)

From stdpp Require Import base list option strings.
From Stdlib Require Import ZArith Lia Ascii.
From S2P Require Import Prelude Message.

Open Scope Z_scope.

Definition FTW_DNR : Z := 2.
Definition FTW_DP : Z := 5.
Definition FTW_PHYS : Z := 1.
Definition FTW_CHDIR : Z := 4.
Definition ENOSYS : Z := 38.
Definition EBUSY : Z := 16.

(** ** The array of walks *)

(** [callback] stands for the function pointer. *)
Record walk_details := mkDetails { callback : Z; walk_flags : Z; walk_tid : Z }.

#[export] Instance walk_details_eq_dec : EqDecision walk_details.
Proof. solve_decision. Defined.

Abbreviation walk_storage := (list walk_details).

Definition append_to_array (d : walk_details) (l : walk_storage) : walk_storage := l ++ [d].

(** The last index below [i] with an entry of the thread. *)
Fixpoint last_of_thread (tid : Z) (l : walk_storage) (i : nat) : option nat :=
  match i with
  | O => None
  | S i =>
      match l !! i with
      | Some d => if walk_tid d =? tid then Some i else last_of_thread tid l i
      | None => last_of_thread tid l i
      end
  end.

Definition find_in_array (tid : Z) (l : walk_storage) : option walk_details :=
  i ← last_of_thread tid l (length l); l !! i.

Definition delete_from_array (tid : Z) (l : walk_storage) : walk_storage :=
  match l with
  | [d] => if walk_tid d =? tid then [] else l
  | _ =>
      match last_of_thread tid l (length l) with
      | None => l
      | Some i => take i l ++ drop (i + 1) l
      end
  end.

(** ** The calls *)

(** What is visited: its path, what the kernel says of it, the type of the
    visit and where the name starts in the path. *)
Record visit := mkVisit { v_path : bytes; v_stat : statbuf; v_type : Z; v_base : Z }.

Section TreeWalk.
Context {S : Type}.

Abbreviation walk_state := (walk_storage * S)%type.
Abbreviation walker := (visit -> walk_state -> walk_state * Z)%type.

(** The wrapped calls the callback makes, the program's callbacks, and the walk
    of the C library, which calls a function on one visit after the other. *)
Class WalkCalls := {
  open_dot : S -> S * Z;
  get_cwd : S -> option bytes;
  call_chdir : bytes -> S -> S;
  call_fchdir : Z -> S -> S;
  call_close : Z -> S -> S;
  call_stat : bool -> bytes -> S -> S * option statbuf;
  user_callback : Z -> walker;
  real_nftw : option bytes -> walker -> Z -> Z -> walk_state -> walk_state * Z
}.
Context {WC : WalkCalls}.

(** With FTW_CHDIR the callback goes where the C library has gone, and notes
    how to come back: a descriptor, or a path. *)
Definition enter_directory (flags : Z) (v : visit) (s : S) : S * Z * option bytes :=
  if Z.land flags FTW_CHDIR =? 0 then (s, -1, None)
  else
    let '(s, fd) := open_dot s in
    let orig_cwd := if fd =? -1 then get_cwd s else None in
    let target := if v_type v =? FTW_DP then v_path v else take (Z.to_nat (v_base v)) (v_path v) in
    (call_chdir target s, fd, orig_cwd).

Definition leave_directory (flags fd : Z) (orig_cwd : option bytes) (s : S) : S :=
  if Z.land flags FTW_CHDIR =? 0 then s
  else if negb (fd =? -1) then call_close fd (call_fchdir fd s)
  else match orig_cwd with Some d => call_chdir d s | None => s end.

(** The kernel's answer, or what the wrapped [stat] says. *)
Definition walk_stat (flags : Z) (v : visit) (s : S) : S * statbuf :=
  if v_type v =? FTW_DNR then (s, v_stat v)
  else
    let '(s, b) := call_stat (negb (Z.land flags FTW_PHYS =? 0)) (v_path v) s in
    (s, default (v_stat v) b).

(** The callback with the details it has found. *)
Definition call_back (d : walk_details) (v : visit) (st : walk_state) : walk_state * Z :=
  let '(l, s) := st in
  let '(s, fd, orig_cwd) := enter_directory (walk_flags d) v s in
  let '(s, b) := walk_stat (walk_flags d) v s in
  let '(l, s, ret) := user_callback (callback d) (mkVisit (v_path v) b (v_type v) (v_base v)) (l, s) in
  ((l, leave_directory (walk_flags d) fd orig_cwd s), ret).

Definition wrap_callback_nftw (tid : Z) : walker := fun v st =>
  match find_in_array tid st.1 with
  | None => (st, -1)
  | Some d => call_back d v st
  end.

Definition wrap_nftw (tid : Z) (path : option bytes) (fn nopenfd flag : Z) (st : walk_state) : walk_state * Z :=
  let '(l, s) := st in
  let '((l, s), rc) := real_nftw path (wrap_callback_nftw tid) nopenfd flag (append_to_array (mkDetails fn flag tid) l, s) in
  ((delete_from_array tid l, s), rc).

(** What the wrapper finds when it is entered: the wrappers are initialised and
    there is a real function, pseudo is disabled, the lock cannot be had, the
    calls are to go through, the canonical path, whether it is ignored. *)
Record walk_entry := mkEntry {
  en_ready : bool; en_disabled : bool; en_lock_fails : bool; en_antimagic : Z; en_path : option bytes; en_ignored : bool
}.

(** The state, the value, and [errno] when it is set here. *)
Definition nftw (tid : Z) (en : walk_entry) (path : option bytes) (fn nopenfd flag : Z) (st : walk_state) :
    walk_state * Z * option Z :=
  if negb (en_ready en) then (st, -1, Some ENOSYS)
  else if en_disabled en then (real_nftw path (user_callback fn) nopenfd flag st, None)
  else if en_lock_fails en then (st, -1, Some EBUSY)
  else if 0 <? en_antimagic en then (real_nftw path (user_callback fn) nopenfd flag st, None)
  else if en_ignored en then (real_nftw (en_path en) (user_callback fn) nopenfd flag st, None)
  else (wrap_nftw tid (en_path en) fn nopenfd flag st, None).

(** [ftw] is [nftw] without flags. *)
Definition wrap_ftw (tid : Z) (en : walk_entry) (path : option bytes) (fn nopenfd : Z) (st : walk_state) :
    walk_state * Z * option Z := nftw tid en path fn nopenfd 0 st.
End TreeWalk.
