(* ===== verification/TreeWalkSpec.v ===== *)
(** Every walk calls its own callback, however walks are nested and however
    those of several threads interleave; and the array is empty when all walks
    are over. *)

From stdpp Require Import base list option strings.
From Stdlib Require Import ZArith Lia Ascii.
From S2P Require Import Prelude Message Paths ClientPath TreeWalk.

Open Scope Z_scope.

(** ** The array as one stack per thread *)

Definition of_thread (tid : Z) (d : walk_details) : Prop := walk_tid d = tid.

#[export] Instance of_thread_dec tid d : Decision (of_thread tid d).
Proof. unfold of_thread. apply _. Defined.

(** The walks of a thread, the innermost last. *)
Definition walks_of (tid : Z) (l : walk_storage) : list walk_details := filter (of_thread tid) l.

Lemma last_of_thread_none tid l n : (n <= length l)%nat -> last_of_thread tid l n = None -> walks_of tid (take n l) = [].
Proof.
  induction n as [|n IH]; intros Hn Hl; [done|]. cbn [last_of_thread] in Hl.
  destruct (lookup_lt_is_Some_2 l n) as [d Hd]; [lia|]. rewrite Hd in Hl. destruct (Z.eqb_spec (walk_tid d) tid) as [|Hne]; [done|].
  unfold walks_of. rewrite (take_S_r _ _ d) by done. rewrite filter_app. change (walks_of tid (take n l) ++ filter (of_thread tid) [d] = []). rewrite IH by (lia || done).
  cbn [app]. rewrite filter_cons, decide_False by done. done.
Qed.

(** Where the array is cut, and what is after the cut. *)
Lemma last_of_thread_some tid l n i : (n <= length l)%nat -> last_of_thread tid l n = Some i ->
  exists d, (i < n)%nat /\ l !! i = Some d /\ walk_tid d = tid /\ walks_of tid (take n l) = walks_of tid (take i l) ++ [d].
Proof.
  induction n as [|n IH]; intros Hn Hl; [done|]. cbn [last_of_thread] in Hl.
  destruct (lookup_lt_is_Some_2 l n) as [d Hd]; [lia|]. rewrite Hd in Hl. unfold walks_of in *. rewrite (take_S_r _ _ d) by done.
  rewrite filter_app. destruct (Z.eqb_spec (walk_tid d) tid) as [He|Hne].
  - injection Hl as <-. exists d. split; [lia|]. split; [done|]. split; [done|]. rewrite filter_cons, decide_True by done. done.
  - destruct (IH ltac:(lia) Hl) as (d' & Hi & Hd' & Ht & Hw). exists d'. split; [lia|]. split; [done|]. split; [done|].
    rewrite Hw. rewrite (filter_cons _ d), decide_False by done. by rewrite filter_nil, app_nil_r.
Qed.

Lemma find_is_last tid l : find_in_array tid l = last (walks_of tid l).
Proof.
  unfold find_in_array. destruct (last_of_thread tid l (length l)) as [i|] eqn:Hl; cbn [mbind option_bind].
  - apply last_of_thread_some in Hl as (d & _ & -> & _ & Hw); [|lia]. rewrite take_ge in Hw by lia. by rewrite Hw, last_snoc.
  - apply last_of_thread_none in Hl; [|lia]. rewrite take_ge in Hl by lia. by rewrite Hl.
Qed.

Lemma walks_append tid d l : walks_of tid (append_to_array d l) = walks_of tid l ++ (if decide (walk_tid d = tid) then [d] else []).
Proof. unfold walks_of, append_to_array. rewrite filter_app, filter_cons. unfold of_thread. by case_decide. Qed.

(** The branch for an array of one is a case of the other. *)
Lemma delete_cases tid l : delete_from_array tid l =
  match last_of_thread tid l (length l) with None => l | Some i => take i l ++ drop (i + 1) l end.
Proof.
  destruct l as [|d [|d' l]]; [done| |done]. cbn. by destruct (walk_tid d =? tid).
Qed.

Lemma walks_delete_own tid l : walks_of tid (delete_from_array tid l) = removelast (walks_of tid l).
Proof.
  rewrite delete_cases. destruct (last_of_thread tid l (length l)) as [i|] eqn:Hl.
  - apply last_of_thread_some in Hl as (d & Hi & Hd & Ht & Hw); [|lia]. rewrite take_ge in Hw by lia.
    rewrite Hw, removelast_last. unfold walks_of in *. rewrite filter_app.
    assert (filter (of_thread tid) l = filter (of_thread tid) (take i l) ++ filter (of_thread tid) (d :: drop (i + 1) l)) as Hs.
    { rewrite <- filter_app. f_equal. rewrite Nat.add_1_r. rewrite <- (drop_S l d i) by done. by rewrite take_drop. }
    rewrite Hs in Hw. apply app_inv_head in Hw. rewrite filter_cons, decide_True in Hw by done. injection Hw as ->. by rewrite app_nil_r.
  - apply last_of_thread_none in Hl; [|lia]. rewrite take_ge in Hl by lia. by rewrite Hl.
Qed.

Lemma walks_delete_other tid tid' l : tid <> tid' -> walks_of tid' (delete_from_array tid l) = walks_of tid' l.
Proof.
  intros Hne. rewrite delete_cases. destruct (last_of_thread tid l (length l)) as [i|] eqn:Hl; [|done].
  apply last_of_thread_some in Hl as (d & Hi & Hd & Ht & _); [|lia]. unfold walks_of. rewrite filter_app.
  rewrite <- (take_drop i l) at 3. rewrite filter_app. f_equal. rewrite (drop_S l d i) by done.
  rewrite filter_cons, decide_False by (unfold of_thread; congruence). by rewrite Nat.add_1_r.
Qed.

Lemma no_walks l : (forall tid, walks_of tid l = []) -> l = [].
Proof.
  intros Hl. destruct l as [|d l]; [done|]. specialize (Hl (walk_tid d)). unfold walks_of in Hl.
  by rewrite filter_cons, decide_True in Hl.
Qed.

(** ** Interleaved walks *)

(** A thread starts a walk, a walk of it visits a file, its innermost walk
    ends. *)
Inductive walk_event := Enter (d : walk_details) | Visits (tid : Z) | Leave (tid : Z).

(** The array, and the details each visit finds. *)
Fixpoint array_run (es : list walk_event) (l : walk_storage) : walk_storage * list (option walk_details) :=
  match es with
  | [] => (l, [])
  | Enter d :: es => array_run es (append_to_array d l)
  | Visits tid :: es => let '(l', out) := array_run es l in (l', find_in_array tid l :: out)
  | Leave tid :: es => array_run es (delete_from_array tid l)
  end.

(** Every thread has a stack of its own, innermost walk first. *)
Definition stacks : Type := Z -> list walk_details.

Definition set_stack (tid : Z) (s : list walk_details) (st : stacks) : stacks :=
  fun t => if decide (t = tid) then s else st t.

Inductive walks : stacks -> list walk_event -> stacks -> list walk_details -> Prop :=
| walks_end st : walks st [] st []
| walks_enter d st es st' out :
    walks (set_stack (walk_tid d) (d :: st (walk_tid d)) st) es st' out -> walks st (Enter d :: es) st' out
| walks_visit tid d r st es st' out :
    st tid = d :: r -> walks st es st' out -> walks st (Visits tid :: es) st' (d :: out)
| walks_leave tid d r st es st' out :
    st tid = d :: r -> walks (set_stack tid r st) es st' out -> walks st (Leave tid :: es) st' out.

(** The array holds the stacks. *)
Definition holds (l : walk_storage) (st : stacks) : Prop := forall tid, walks_of tid l = reverse (st tid).

Lemma holds_enter d l st : holds l st -> holds (append_to_array d l) (set_stack (walk_tid d) (d :: st (walk_tid d)) st).
Proof.
  intros Hl tid. rewrite walks_append, Hl. unfold set_stack. destruct (decide (walk_tid d = tid)) as [<-|].
  - by rewrite decide_True, reverse_cons.
  - by rewrite decide_False, app_nil_r by done.
Qed.

Lemma holds_leave tid d r l st : st tid = d :: r -> holds l st -> holds (delete_from_array tid l) (set_stack tid r st).
Proof.
  intros Hs Hl tid'. unfold set_stack. destruct (decide (tid' = tid)) as [->|].
  - by rewrite walks_delete_own, Hl, Hs, reverse_cons, removelast_last.
  - by rewrite walks_delete_other, Hl.
Qed.

Lemma array_holds st es st' out l : walks st es st' out -> holds l st ->
  exists l', array_run es l = (l', map Some out) /\ holds l' st'.
Proof.
  intros Hw. revert l. induction Hw as [st|d st es st' out _ IH|tid d r st es st' out Hs _ IH|tid d r st es st' out Hs _ IH]; intros l Hl;
    cbn [array_run map].
  - eauto.
  - apply IH. by apply holds_enter.
  - destruct (IH l Hl) as (l' & -> & Hl'). exists l'. by rewrite find_is_last, Hl, Hs, reverse_cons, last_snoc.
  - apply IH. by eapply holds_leave.
Qed.

(** C40: the array shared by all threads is as good as a stack for each.  In
    whatever order walks of different threads begin, visit files and end,
    nested or not, every visit finds the callback and the flags of the
    innermost walk of its thread; and when all walks are over the array is
    empty. *)
Theorem callbacks_own es st out : walks (fun _ => []) es st out ->
  exists l, array_run es [] = (l, map Some out) /\ (forall tid, walks_of tid l = reverse (st tid)) /\
    ((forall tid, st tid = []) -> l = []).
Proof.
  intros Hw. destruct (array_holds _ _ _ _ [] Hw) as (l & Hr & Hl); [by intros tid|]. exists l. split; [done|]. split; [done|].
  intros Hst. apply no_walks. intros tid. by rewrite Hl, Hst.
Qed.

Definition sample_walks : list walk_event :=
  [Enter (mkDetails 1 0 7); Enter (mkDetails 2 4 8); Visits 7; Enter (mkDetails 3 1 7); Visits 8; Visits 7; Leave 7; Visits 7; Leave 7;
   Visits 8; Leave 8].

Lemma callbacks_own_witness : exists st out l, walks (fun _ => []) sample_walks st out /\
  array_run sample_walks [] = (l, map Some out) /\ map callback out = [1; 2; 3; 1; 2] /\ l = [].
Proof.
  assert (exists st, walks (fun _ => []) sample_walks st
    [mkDetails 1 0 7; mkDetails 2 4 8; mkDetails 3 1 7; mkDetails 1 0 7; mkDetails 2 4 8] /\ forall tid, st tid = []) as (st & Hw & Hst).
  { eexists. split; [repeat econstructor|]. intros tid. unfold set_stack. repeat (cbn; case_decide; [done|]). done. }
  destruct (callbacks_own _ _ _ Hw) as (l & Hr & _ & He). eexists st, _, l. split; [exact Hw|]. split; [exact Hr|]. split; [done|by apply He].
Defined.

(** ** One walk *)

Section OneWalk.
Context {S : Type} {WC : WalkCalls (S := S)}.

(** What the C library does depends on its callback only through calls of it. *)
Definition walks_by_calls : Prop := forall path nopenfd flag (P : walk_storage * S -> Prop) f g st,
  (forall v st, P st -> f v st = g v st /\ P (f v st).1) -> P st ->
  real_nftw path f nopenfd flag st = real_nftw path g nopenfd flag st /\ P (real_nftw path f nopenfd flag st).1.

(** A callback of the program ends the walks it begins. *)
Definition leaves_array (fn : Z) : Prop := forall v l s, (user_callback fn v (l, s)).1.1 = l.

Lemma call_back_array d v l s : leaves_array (callback d) -> (call_back d v (l, s)).1.1 = l.
Proof.
  intros Hf. unfold call_back. destruct (enter_directory _ _ _) as [[s1 fd] cwd]. destruct (walk_stat _ _ _) as [s2 b].
  specialize (Hf (mkVisit (v_path v) b (v_type v) (v_base v)) l s2). by destruct (user_callback _ _ _) as [[l' s'] ret].
Qed.

(** A walk is one of the C library with the callback it was given, wrapped,
    and leaves the array as it was: also within a walk. *)
Theorem walk_is_direct tid path fn nopenfd flag l s : walks_by_calls -> leaves_array fn ->
  let d := mkDetails fn flag tid in
  wrap_nftw tid path fn nopenfd flag (l, s) =
    let '((_, s'), rc) := real_nftw path (call_back d) nopenfd flag (l ++ [d], s) in ((l, s'), rc).
Proof.
  intros Hreal Hfn d. unfold wrap_nftw, append_to_array. fold d.
  destruct (Hreal path nopenfd flag (fun st => st.1 = l ++ [d]) (wrap_callback_nftw tid) (call_back d) (l ++ [d], s)) as [-> Hl]; [|done|].
  { intros v [l' s'] Hl'. cbn [fst] in Hl'. subst l'. unfold wrap_callback_nftw. cbn [fst]. rewrite find_is_last.
    assert (walks_of tid (l ++ [d]) = walks_of tid l ++ [d]) as ->.
    { change (l ++ [d]) with (append_to_array d l). rewrite walks_append. by rewrite decide_True. }
    rewrite last_snoc. split; [done|]. by apply call_back_array. }
  destruct (Hreal path nopenfd flag (fun st => st.1 = l ++ [d]) (call_back d) (call_back d) (l ++ [d], s)) as [_ Hl2]; [|done|].
  { intros v [l' s'] Hl'. cbn [fst] in Hl'. subst l'. split; [done|]. by apply call_back_array. }
  destruct (real_nftw _ _ _ _ _) as [[l' s'] rc]. cbn [fst] in Hl2. subst l'. f_equal. f_equal.
  rewrite delete_cases. destruct (last_of_thread tid (l ++ [d]) (length (l ++ [d]))) as [i|] eqn:Hi.
  - rewrite length_app, Nat.add_1_r in Hi. cbn [last_of_thread length] in Hi.
    rewrite list_lookup_middle, Z.eqb_refl in Hi by done. injection Hi as <-.
    rewrite take_app_length. rewrite drop_ge by (rewrite length_app; cbn; lia). apply app_nil_r.
  - apply last_of_thread_none in Hi; [|lia]. rewrite take_ge in Hi by lia.
    change (l ++ [d]) with (append_to_array d l) in Hi. rewrite walks_append, decide_True in Hi by done. by destruct (walks_of tid l).
Qed.
End OneWalk.

(** ** Walks in a changed root

    The path is made canonical when the walk begins, and what is visited is
    looked at by its canonical path: the root is put before it once more. *)

#[local] Instance walk_path_max : PathMax := {| pseudo_path_max := 64; malloc_path_max := replicate 64 NUL |}.
#[local] Instance walk_tree : PathEnv := {|
  real_lstat := fun p => if bool_decide (p = $"/r") then Some 0x41ed else None;
  readlink := fun _ => None;
  malloc_pathbuf := Some (replicate 64 NUL)
|}.

Definition in_changed_root (path : bytes) : option bytes :=
  '(b, r) ← pseudo_root_path (mkClient [] [] (Some ($"/r")) (Some []) (Some ($"/r"))) no_bufs AT_FDCWD (Some path) false;
  match r with BaseFixed f => fixed_str b path f | _ => None end.

Example root_twice : in_changed_root ($"/a") = Some ($"/r/a") /\ in_changed_root ($"/r/a") = Some ($"/r/r/a").
Proof. by vm_compute. Qed.
