(* ===== verification/Accounts.v ===== *)
(** Users and groups ([ports/uids_generic/guts], and [getgrouplist], [getpw],
    [lckpwdf] in [ports/linux/guts]): reading the password and group files
    entry by entry, searches in them, buffers that grow, and the lock.

    Which files these are is in [Passwd].  A stream is the entries that are
    left of a file; [fgetpwent_r] and [fgetgrent_r] of the C library deliver
    the next one, ENOENT at the end, or ERANGE, without moving on, when the
    buffer is too small for the strings of the entry. *)

From stdpp Require Import base list option strings.
From Stdlib Require Import ZArith Lia Ascii.
From S2P Require Import Prelude Format Paths ClientPath Passwd.

Open Scope Z_scope.

Definition ERANGE : Z := 34.
Definition ENOMEM : Z := 12.
Definition PSEUDO_PWD_MAX : Z := 4096.

(** [pw_size], [gr_size]: the room the strings of an entry take. *)
Record pw_entry := mkPw {
  pw_name : bytes; pw_passwd : bytes; pw_uid : Z; pw_gid : Z; pw_gecos : bytes; pw_dir : bytes; pw_shell : bytes; pw_size : Z
}.
Record gr_entry := mkGr { gr_name : bytes; gr_gid : Z; gr_mem : list bytes; gr_size : Z }.

(** The files [pseudo_pwd_open] and [pseudo_grp_open] find, and whether
    [realloc] can give a block of a size. *)
Class AccountFiles := { passwd_file : option (list pw_entry); group_file : option (list gr_entry); realloc_ok : Z -> bool }.

(** ** One entry after the other *)

Section Entries.
Context {E : Type} (size : E -> Z).

(** [pseudo_pwd] or [pseudo_grp]; [None] is NULL. *)
Abbreviation entries := (option (list E)).

(** The value, and the entry [*pwbufp] points to. *)
Definition getent_r (buflen : Z) (st : entries) : entries * Z * option E :=
  match st with
  | None => (None, -1, None)
  | Some [] => (Some [], ENOENT, None)
  | Some (e :: l) => if buflen <? size e then (Some (e :: l), ERANGE, None) else (Some l, 0, Some e)
  end.

(** The loop of the searches; [fuel] calls. *)
Fixpoint search_loop (fuel : nat) (buflen : Z) (wanted : E -> bool) (st : entries) : entries * Z * option E :=
  match fuel with
  | O => (st, 0, None)
  | S fuel =>
      match getent_r buflen st with
      | (st, rc, e) =>
          if rc =? 0 then
            match e with
            | Some e => if wanted e then (st, 0, Some e) else search_loop fuel buflen wanted st
            | None => search_loop fuel buflen wanted st
            end
          else (st, rc, None)
      end
  end.

(** The stream is opened, searched and closed: no stream is left. *)
Definition search_r (file : entries) (buflen : Z) (wanted : E -> bool) : Z * option E :=
  let '(_, rc, e) := search_loop (S (length (default [] file))) buflen wanted file in (rc, e).
End Entries.

Section Accounts.
Context {AF : AccountFiles}.

(** ** Users *)

Definition wrap_setpwent : option (list pw_entry) := passwd_file.
Definition wrap_endpwent : option (list pw_entry) := None.

Definition wrap_getpwent_r (buflen : Z) (st : option (list pw_entry)) : option (list pw_entry) * Z * option pw_entry :=
  getent_r pw_size buflen st.
Definition wrap_getpwnam_r (name : bytes) (buflen : Z) : Z * option pw_entry :=
  search_r pw_size wrap_setpwent buflen (fun e => bool_decide (pw_name e = name)).
Definition wrap_getpwuid_r (uid buflen : Z) : Z * option pw_entry :=
  search_r pw_size wrap_setpwent buflen (fun e => pw_uid e =? uid).

(** The value and [errno], which is set to what the other function returned. *)
Definition with_errno {A} (r : Z * A) : A * option Z := (r.2, if r.1 =? 0 then None else Some r.1).

Definition wrap_getpwent (st : option (list pw_entry)) : option (list pw_entry) * (option pw_entry * option Z) :=
  let '(st, rc, e) := wrap_getpwent_r PSEUDO_PWD_MAX st in (st, with_errno (rc, e)).
Definition wrap_getpwnam (name : bytes) : option pw_entry * option Z := with_errno (wrap_getpwnam_r name PSEUDO_PWD_MAX).
Definition wrap_getpwuid (uid : Z) : option pw_entry * option Z := with_errno (wrap_getpwuid_r uid PSEUDO_PWD_MAX).

(** The value, [errno], and the line that is printed. *)
Definition wrap_getpw (uid : Z) : Z * option Z * option bytes :=
  match wrap_getpwuid_r uid PSEUDO_PWD_MAX with
  | (0, Some p) =>
      let colon := ":"%char in
      (0, None, Some (take (Z.to_nat (PSEUDO_PWD_MAX - 1))
        (pw_name p ++ colon :: pw_passwd p ++ colon :: decimal (int32 (pw_uid p)) ++ colon :: decimal (int32 (pw_gid p))
          ++ colon :: pw_gecos p ++ colon :: pw_dir p ++ colon :: pw_shell p)))
  | (rc, _) => (-1, Some rc, None)
  end.

(** ** Groups *)

Definition wrap_setgrent : option (list gr_entry) := group_file.
Definition wrap_endgrent : option (list gr_entry) := None.

Definition wrap_getgrent_r (buflen : Z) (st : option (list gr_entry)) : option (list gr_entry) * Z * option gr_entry :=
  getent_r gr_size buflen st.
Definition wrap_getgrnam_r (name : bytes) (buflen : Z) : Z * option gr_entry :=
  search_r gr_size wrap_setgrent buflen (fun e => bool_decide (gr_name e = name)).
Definition wrap_getgrgid_r (gid buflen : Z) : Z * option gr_entry :=
  search_r gr_size wrap_setgrent buflen (fun e => gr_gid e =? gid).

(** [grbuflen << 1] in a [size_t]. *)
Definition doubled (len : Z) : Z := uint64 (Z.shiftl len 1).

(** The loop around a call whose buffer may be too small: the length it comes
    to, which is kept for the next time, and the result. *)
Fixpoint growing {S A} (fuel : nat) (call : Z -> S -> S * Z * option A) (len : Z) (s : S) : option (S * Z * (Z * option A)) :=
  match fuel with
  | O => None
  | Datatypes.S fuel =>
      if realloc_ok len then
        let '(s, rc, e) := call len s in
        if rc =? ERANGE then growing fuel call (doubled len) s else Some (s, len, (rc, e))
      else Some (s, len, (ENOMEM, None))
  end.

Definition GROW_FUEL : nat := 64.

Definition wrap_getgrent (len : Z) (st : option (list gr_entry)) : option (option (list gr_entry) * Z * (option gr_entry * option Z)) :=
  '(st, len, r) ← growing GROW_FUEL wrap_getgrent_r len st; Some (st, len, with_errno r).
Definition wrap_getgrnam (name : bytes) (len : Z) : option (Z * (option gr_entry * option Z)) :=
  '(_, len, r) ← growing GROW_FUEL (fun len (_ : unit) => (tt, (wrap_getgrnam_r name len).1, (wrap_getgrnam_r name len).2)) len tt;
  Some (len, with_errno r).
Definition wrap_getgrgid (gid len : Z) : option (Z * (option gr_entry * option Z)) :=
  '(_, len, r) ← growing GROW_FUEL (fun len (_ : unit) => (tt, (wrap_getgrgid_r gid len).1, (wrap_getgrgid_r gid len).2)) len tt;
  Some (len, with_errno r).

(** ** The groups of a user ([getgrouplist]) *)

Record group_list := mkGroups { gl_groups : list Z; gl_found : Z; gl_has : bool }.

(** [if (found < *ngroups) groups[found] = gid; ++found;]; a write past the
    array is [None]. *)
Definition add_group (ngroups gid : Z) (g : group_list) : option group_list :=
  if gl_found g <? ngroups then
    if Z.of_nat (length (gl_groups g)) <=? gl_found g then None
    else Some (mkGroups (<[Z.to_nat (gl_found g) := gid]> (gl_groups g)) (gl_found g + 1) (gl_has g))
  else Some (mkGroups (gl_groups g) (gl_found g + 1) (gl_has g)).

(** The members of one group. *)
Fixpoint scan_members (user : bytes) (group ngroups gid : Z) (mem : list bytes) (g : group_list) : option group_list :=
  match mem with
  | [] => Some g
  | m :: mem =>
      if bool_decide (m = user) then
        g ← add_group ngroups gid g;
        scan_members user group ngroups gid mem (mkGroups (gl_groups g) (gl_found g) (gl_has g || (gid =? group)))
      else scan_members user group ngroups gid mem g
  end.

(** All groups; the value is that of the last [getgrent_r]. *)
Fixpoint scan_groups (fuel : nat) (user : bytes) (group ngroups buflen : Z) (st : option (list gr_entry)) (g : group_list) :
    option (Z * group_list) :=
  match fuel with
  | O => Some (0, g)
  | S fuel =>
      match wrap_getgrent_r buflen st with
      | (st, rc, e) =>
          if rc =? 0 then
            match e with
            | Some e => g ← scan_members user group ngroups (gr_gid e) (gr_mem e) g; scan_groups fuel user group ngroups buflen st g
            | None => scan_groups fuel user group ngroups buflen st g
            end
          else Some (rc, g)
      end
  end.

(** With a buffer that grows until every entry fits. *)
Fixpoint group_scans (fuel : nat) (user : bytes) (group ngroups buflen : Z) (g : group_list) : option group_list :=
  match fuel with
  | O => None
  | S fuel =>
      if realloc_ok buflen then
        let g := mkGroups (gl_groups g) 0 false in
        '(rc, g) ← scan_groups (S (length (default [] wrap_setgrent))) user group ngroups buflen wrap_setgrent g;
        if rc =? ERANGE then group_scans fuel user group ngroups (doubled buflen) g else Some g
      else Some g
  end.

(** The value, the array and [*ngroups]. *)
Definition wrap_getgrouplist (user : bytes) (group : Z) (groups : list Z) (ngroups : Z) : option (Z * list Z * Z) :=
  g ← group_scans GROW_FUEL user group ngroups PSEUDO_PWD_MAX (mkGroups groups 0 false);
  g ← (if gl_has g then Some g else add_group ngroups group g);
  Some (if ngroups <=? gl_found g then -1 else gl_found g, gl_groups g, gl_found g).

(** [getgroups] for a process with these ids: the value, the array and what
    is stored in [errno].  The value of [getgrouplist] counts only when the
    array was too small. *)
Definition wrap_getgroups (uid gid : Z) (groups : list Z) (size : Z) : option (Z * list Z * option Z) :=
  match wrap_getpwuid uid with
  | (Some p, e) =>
      '(rc, groups, found) ← wrap_getgrouplist (pw_name p) gid groups size;
      Some (if (size =? 0) || (found <=? size) then found else rc, groups, e)
  | (None, _) => Some (-1, groups, Some ENOENT)
  end.

(** ** The lock *)

Section LockFile.
Context {EF : EtcFiles} {PF : PasswdFallback}.

(** [locked]: what [fcntl(F_SETLKW)] returns before the alarm.  The value, and
    the descriptors closed and the file removed. *)
Definition wrap_lckpwdf (locked : Z) (p : passwd_state) (l : lock_file) : option (lock_file * Z * list Z * option bytes) :=
  '(l, rc, closed, removed) ← pseudo_pwd_lck_open p l;
  if negb (rc =? -1) then
    if locked =? -1 then
      '(l, _, closed', removed') ← pseudo_pwd_lck_close l; Some (l, -1, closed ++ closed', removed')
    else Some (l, locked, closed, removed)
  else Some (l, rc, closed, removed).

Definition wrap_ulckpwdf (l : lock_file) : option (lock_file * Z * list Z * option bytes) := pseudo_pwd_lck_close l.
End LockFile.
End Accounts.
