(* ===== verification/AccountsSpec.v ===== *)
(** What the searches in the files of users and groups find, that buffers grow
    until the answer fits, and what [getgrouplist] delivers. *)

From stdpp Require Import base list option strings.
From Stdlib Require Import ZArith Lia Ascii.
From S2P Require Import Prelude Format Paths ClientPath Passwd Accounts.

Open Scope Z_scope.

(** ** Searches *)

Section Search.
Context {E : Type} (size : E -> Z).

(** The first entry that is wanted, if the buffer is large enough for it and
    for those before it. *)
Fixpoint first_entry (buflen : Z) (wanted : E -> bool) (l : list E) : Z * option E :=
  match l with
  | [] => (ENOENT, None)
  | e :: l => if buflen <? size e then (ERANGE, None) else if wanted e then (0, Some e) else first_entry buflen wanted l
  end.

Lemma search_first buflen wanted l : search_r size (Some l) buflen wanted = first_entry buflen wanted l.
Proof.
  unfold search_r. cbn [default]. assert (forall n, (length l < n)%nat ->
    (let '(_, rc, e) := search_loop size n buflen wanted (Some l) in (rc, e)) = first_entry buflen wanted l) as Hn; [|exact (Hn _ (Nat.lt_succ_diag_r _))].
  induction l as [|e l IH]; intros [|n] Hn; cbn [length] in Hn; try lia; cbn [search_loop getent_r first_entry]; [done|].
  destruct (buflen <? size e); [done|]. cbn [Z.eqb]. destruct (wanted e); [done|]. apply IH. lia.
Qed.

(** With a buffer that is large enough the size does not matter. *)
Lemma first_entry_fits buflen wanted l : Forall (fun e => size e <= buflen) l ->
  first_entry buflen wanted l = match list_find (fun e => wanted e = true) l with Some (_, e) => (0, Some e) | None => (ENOENT, None) end.
Proof.
  induction 1 as [|e l He Hl IH]; [done|]. cbn [first_entry list_find]. rewrite (proj2 (Z.ltb_ge _ _)) by done.
  destruct (wanted e) eqn:Hw.
  - by rewrite decide_True.
  - rewrite decide_False by congruence. rewrite IH. by destruct (list_find _ l) as [[i x]|].
Qed.
End Search.

(** ** Buffers *)

Lemma doubled_small len : 0 <= len < 2 ^ 63 -> doubled len = 2 * len.
Proof. intros Hl. unfold doubled, wrap_unsigned. rewrite Z.shiftl_mul_pow2, Z.mod_small by lia. lia. Qed.

(** A call that does not need more than [need] bytes is made in the end. *)
Lemma growing_answers `{AccountFiles} {A} (answer : Z -> Z * option A) need fuel len r :
  (forall l, l <= 2 * need -> realloc_ok l = true) -> need < 2 ^ 62 -> (forall l, need <= l -> answer l = r) -> r.1 <> ERANGE ->
  (forall l, (answer l).1 <> ERANGE -> answer l = r) ->
  0 < len <= 2 * need -> need <= len * 2 ^ (Z.of_nat fuel - 1) -> (0 < fuel)%nat ->
  exists len', growing fuel (fun l (_ : unit) => (tt, (answer l).1, (answer l).2)) len tt = Some (tt, len', r) /\ len <= len' <= 2 * need.
Proof.
  intros Hok Hneed Hbig Hr Hsame. revert len. induction fuel as [|fuel IH]; intros len Hlen Hfuel Hpos; [lia|].
  cbn [growing]. rewrite Hok by lia. destruct (Z.eqb_spec (answer len).1 ERANGE) as [He|Hne].
  - assert (len < need) as Hlt. { apply Z.nle_gt. intros Hge. rewrite Hbig in He by done. done. }
    rewrite doubled_small by lia. assert (0 < fuel)%nat as Hf. { destruct fuel; [|lia]. cbn in Hfuel. lia. }
    destruct (IH (2 * len)) as (len' & -> & Hl'); [lia| |done|].
    + replace (Z.of_nat (S fuel) - 1) with (Z.succ (Z.of_nat fuel - 1)) in Hfuel by lia. rewrite Z.pow_succ_r in Hfuel by lia. nia.
    + exists len'. split; [done|lia].
  - exists len. rewrite <- (Hsame len Hne). split; [|lia]. by destruct (answer len).
Qed.

Definition found {E} (wanted : E -> bool) (l : list E) : Z * option E :=
  match list_find (fun e => wanted e = true) l with Some (_, e) => (0, Some e) | None => (ENOENT, None) end.

Lemma found_not_erange {E} (wanted : E -> bool) l : (found wanted l).1 <> ERANGE.
Proof. unfold found. by destruct (list_find _ l) as [[i e]|]. Qed.

Lemma first_entry_found {E} (size : E -> Z) buflen wanted l :
  (first_entry size buflen wanted l).1 <> ERANGE -> first_entry size buflen wanted l = found wanted l.
Proof.
  unfold found. induction l as [|e l IH]; [done|]. cbn [first_entry list_find]. destruct (buflen <? size e); [done|].
  destruct (wanted e) eqn:Hw.
  - by rewrite decide_True.
  - rewrite decide_False by congruence. intros Hn. rewrite IH by done. by destruct (list_find _ l) as [[i x]|].
Qed.

(** What is on disk, and memory for it: no entry needs more than [need]
    bytes. *)
Record memory_for `{AccountFiles} (l : list gr_entry) (need : Z) : Prop := {
  mf_file : group_file = Some l;
  mf_sizes : Forall (fun e => gr_size e <= need) l;
  mf_need : PSEUDO_PWD_MAX <= need < 2 ^ 62;
  mf_realloc k : k <= 2 * need -> realloc_ok k = true
}.

Lemma growing_search `{AccountFiles} l need wanted len : memory_for l need -> PSEUDO_PWD_MAX <= len <= 2 * need ->
  exists len', growing GROW_FUEL (fun k (_ : unit) => (tt, (search_r gr_size wrap_setgrent k wanted).1, (search_r gr_size wrap_setgrent k wanted).2))
      len tt = Some (tt, len', found wanted l) /\ len <= len' <= 2 * need.
Proof.
  intros [Hfile Hsizes Hneed Hok] Hlen. unfold wrap_setgrent. rewrite Hfile. unfold PSEUDO_PWD_MAX, GROW_FUEL in *.
  apply (growing_answers (fun k => search_r gr_size (Some l) k wanted) need); try done.
  - lia.
  - intros k Hk. rewrite search_first. rewrite first_entry_fits; [done|]. apply (Forall_impl _ _ _ Hsizes). cbn. lia.
  - apply found_not_erange.
  - intros k. rewrite search_first. apply first_entry_found.
  - lia.
  - change (Z.of_nat 64 - 1) with 63. nia.
  - lia.
Qed.

(** The group with an id, or none and ENOENT: a buffer that is too small does
    not show. *)
Theorem group_by_id `{AccountFiles} l need gid len : memory_for l need -> PSEUDO_PWD_MAX <= len <= 2 * need ->
  exists len', wrap_getgrgid gid len = Some (len', with_errno (found (fun e => gr_gid e =? gid) l)) /\ PSEUDO_PWD_MAX <= len' <= 2 * need.
Proof.
  intros Hm Hlen. destruct (growing_search l need (fun e => gr_gid e =? gid) len Hm Hlen) as (len' & Hg & Hl).
  exists len'. unfold wrap_getgrgid, wrap_getgrgid_r. rewrite Hg. split; [done|lia].
Qed.

Theorem group_by_name `{AccountFiles} l need name len : memory_for l need -> PSEUDO_PWD_MAX <= len <= 2 * need ->
  exists len', wrap_getgrnam name len = Some (len', with_errno (found (fun e => bool_decide (gr_name e = name)) l)) /\
    PSEUDO_PWD_MAX <= len' <= 2 * need.
Proof.
  intros Hm Hlen. destruct (growing_search l need (fun e => bool_decide (gr_name e = name)) len Hm Hlen) as (len' & Hg & Hl).
  exists len'. unfold wrap_getgrnam, wrap_getgrnam_r. rewrite Hg. split; [done|lia].
Qed.

(** ** The groups of a user *)

(** The array after [xs] was written to its start as far as it goes. *)
Definition fill (groups xs : list Z) : list Z := take (length groups) xs ++ drop (length xs) groups.

Lemma fill_nil groups : fill groups [] = groups.
Proof. unfold fill. by rewrite take_nil. Qed.

Lemma fill_length groups xs : length (fill groups xs) = length groups.
Proof. unfold fill. rewrite length_app, length_take, length_drop. lia. Qed.

Lemma fill_again groups xs ys : (length xs <= length ys)%nat -> fill (fill groups xs) ys = fill groups ys.
Proof.
  intros Hl. unfold fill at 1. rewrite fill_length. unfold fill. f_equal. rewrite drop_app, drop_drop, length_take.
  rewrite drop_ge by (rewrite length_take; lia). cbn [app].
  destruct (decide (length xs <= length groups)%nat).
  - rewrite Nat.min_r by lia. f_equal. lia.
  - rewrite !drop_ge by lia. done.
Qed.

Lemma fill_snoc groups xs x : (length xs < length groups)%nat -> <[length xs := x]> (fill groups xs) = fill groups (xs ++ [x]).
Proof.
  intros Hl. unfold fill. rewrite !take_ge by (rewrite ?length_app; cbn; lia).
  destruct (lookup_lt_is_Some_2 groups (length xs) Hl) as [y Hy]. rewrite (drop_S _ _ _ Hy).
  rewrite (insert_app_r_alt xs) by lia. rewrite Nat.sub_diag. cbn. rewrite length_app. cbn. by rewrite <- app_assoc, Nat.add_1_r.
Qed.

Lemma fill_full groups xs x : (length groups <= length xs)%nat -> fill groups xs = fill groups (xs ++ [x]).
Proof. intros Hl. unfold fill. rewrite take_app_le by lia. rewrite !drop_ge by (rewrite ?length_app; lia). done. Qed.

(** The state after the groups [xs] were met. *)
Definition met (groups : list Z) (group : Z) (xs : list Z) : group_list :=
  mkGroups (fill groups xs) (Z.of_nat (length xs)) (existsb (fun g => g =? group) xs).

Lemma add_group_met groups group xs gid : add_group (Z.of_nat (length groups)) gid (met groups group xs) =
  Some (mkGroups (fill groups (xs ++ [gid])) (Z.of_nat (length xs) + 1) (existsb (fun g => g =? group) xs)).
Proof.
  unfold add_group, met. cbn [gl_found gl_groups gl_has]. destruct (Z.ltb_spec (Z.of_nat (length xs)) (Z.of_nat (length groups))).
  - rewrite (proj2 (Z.leb_gt _ _)) by (rewrite fill_length; lia). rewrite Nat2Z.id, fill_snoc by lia. done.
  - by rewrite <- fill_full by lia.
Qed.

(** The groups of a user in the file. *)
Definition memberships (user : bytes) (e : gr_entry) : list Z :=
  replicate (length (filter (fun m => m = user) (gr_mem e))) (gr_gid e).

Definition groups_of (user : bytes) (l : list gr_entry) : list Z := @concat _ (map (memberships user) l).

Lemma scan_members_met user group groups gid mem xs :
  scan_members user group (Z.of_nat (length groups)) gid mem (met groups group xs) =
    Some (met groups group (xs ++ replicate (length (filter (fun m => m = user) mem)) gid)).
Proof.
  revert xs. induction mem as [|m mem IH]; intros xs; cbn [scan_members]; [cbn; by rewrite app_nil_r|].
  rewrite filter_cons. destruct (decide (m = user)) as [->|Hne].
  - rewrite bool_decide_eq_true_2 by done. rewrite add_group_met. cbn [mbind option_bind gl_groups gl_found gl_has length replicate].
    assert (mkGroups (fill groups (xs ++ [gid])) (Z.of_nat (length xs) + 1) (existsb (fun g => g =? group) xs || (gid =? group)) =
      met groups group (xs ++ [gid])) as ->.
    { unfold met. rewrite existsb_app, length_app. cbn. rewrite orb_false_r. f_equal. lia. }
    rewrite IH. by rewrite <- app_assoc.
  - by rewrite bool_decide_eq_false_2 by done.
Qed.

Lemma scan_groups_met `{AccountFiles} user group groups buflen l fuel xs : (length l < fuel)%nat ->
  exists rc ys, scan_groups fuel user group (Z.of_nat (length groups)) buflen (Some l) (met groups group xs) =
      Some (rc, met groups group (xs ++ ys)) /\
    (Forall (fun e => gr_size e <= buflen) l /\ rc = ENOENT /\ ys = groups_of user l \/
     ~ Forall (fun e => gr_size e <= buflen) l /\ rc = ERANGE /\ (length ys <= length (groups_of user l))%nat).
Proof.
  revert fuel xs. induction l as [|e l IH]; intros [|fuel] xs Hf; cbn [length] in Hf; try lia; cbn [scan_groups wrap_getgrent_r getent_r].
  - exists ENOENT, []. rewrite app_nil_r. split; [done|]. left. by split.
  - unfold wrap_getgrent_r. cbn [getent_r]. destruct (Z.ltb_spec buflen (gr_size e)) as [Hlt|Hge].
    + exists ERANGE, []. rewrite app_nil_r. split; [done|]. right. split; [|split; [done|cbn; lia]]. intros Hall%Forall_inv. lia.
    + cbn [Z.eqb]. rewrite scan_members_met. cbn [mbind option_bind]. fold (memberships user e).
      destruct (IH fuel (xs ++ memberships user e)) as (rc & ys & -> & Hr); [lia|]. exists rc, (memberships user e ++ ys).
      rewrite <- app_assoc. split; [done|]. unfold groups_of. cbn [map concat]. fold (groups_of user l). rewrite !length_app.
      destruct Hr as [(Hall & -> & ->)|(Hn & -> & Hl)]; [left|right].
      * by split; [constructor|].
      * split; [|split; [done|lia]]. intros Hall%Forall_inv_tail. done.
Qed.

(** A scan that is given up leaves what is behind its groups. *)
Lemma drop_fill groups xs n : (length xs <= n)%nat -> drop n (fill groups xs) = drop n groups.
Proof.
  intros Hl. unfold fill. rewrite drop_app, drop_drop, length_take. rewrite drop_ge by (rewrite length_take; lia). cbn [app].
  destruct (decide (length xs <= length groups)%nat).
  - rewrite Nat.min_r by lia. f_equal. lia.
  - rewrite !drop_ge by lia. done.
Qed.

Lemma fill_same groups groups' xs : length groups' = length groups -> drop (length xs) groups' = drop (length xs) groups ->
  fill groups' xs = fill groups xs.
Proof. intros Hl Hd. unfold fill. by rewrite Hl, Hd. Qed.

Lemma group_scans_met `{AccountFiles} user group groups l need fuel buflen array n h : memory_for l need ->
  length array = length groups -> drop (length (groups_of user l)) array = drop (length (groups_of user l)) groups ->
  0 < buflen <= 2 * need -> need <= buflen * 2 ^ (Z.of_nat fuel - 1) -> (0 < fuel)%nat ->
  group_scans fuel user group (Z.of_nat (length groups)) buflen (mkGroups array n h) = Some (met groups group (groups_of user l)).
Proof.
  intros Hm. pose proof Hm as [Hfile Hsizes Hneed Hok]. revert buflen array n h.
  induction fuel as [|fuel IH]; intros buflen array n h Hlen Hdrop Hb Hfuel Hpos; [lia|].
  cbn [group_scans gl_groups]. rewrite Hok by lia. unfold wrap_setgrent. rewrite Hfile. cbv zeta.
  destruct (scan_groups_met user group array buflen l (S (length l)) []) as (rc & ys & Hs & Hr); [lia|].
  rewrite Hlen in Hs. change (met array group []) with (mkGroups (fill array []) 0 false) in Hs. rewrite fill_nil in Hs.
  change (length (default [] (Some l))) with (length l). rewrite Hs. cbn [mbind option_bind app].
  destruct Hr as [(Hall & -> & ->)|(Hn & -> & Hl)].
  - cbn [Z.eqb]. unfold met. by rewrite (fill_same groups).
  - rewrite Z.eqb_refl. assert (buflen < need) as Hlt.
    { apply Z.nle_gt. intros Hge. apply Hn. apply (Forall_impl _ _ _ Hsizes). cbn. lia. }
    rewrite doubled_small by lia. assert (0 < fuel)%nat as Hf by (destruct fuel; [cbn in Hfuel; lia|lia]).
    replace (Z.of_nat (S fuel) - 1) with (Z.succ (Z.of_nat fuel - 1)) in Hfuel by lia. rewrite Z.pow_succ_r in Hfuel by lia.
    apply IH; [by rewrite fill_length|by rewrite drop_fill|lia|nia|done].
Qed.

Lemma getgrouplist_fill `{AccountFiles} l need user group groups : memory_for l need ->
  let all := groups_of user l ++ (if decide (group ∈ groups_of user l) then [] else [group]) in
  wrap_getgrouplist user group groups (Z.of_nat (length groups)) =
    Some (if Z.of_nat (length groups) <=? Z.of_nat (length all) then -1 else Z.of_nat (length all),
          fill groups all, Z.of_nat (length all)).
Proof.
  intros Hm all. unfold wrap_getgrouplist. pose proof (mf_need _ _ Hm) as Hneed. unfold PSEUDO_PWD_MAX, GROW_FUEL in *.
  rewrite (group_scans_met user group groups l need) by (done || lia || (change (Z.of_nat 64 - 1) with 63; nia)).
  cbn [mbind option_bind]. unfold met at 1. cbn [gl_has].
  assert (existsb (fun g => g =? group) (groups_of user l) = bool_decide (group ∈ groups_of user l)) as Hb.
  { apply eq_true_iff_eq. rewrite existsb_exists, bool_decide_eq_true. split.
    - intros (x & Hx%list_elem_of_In & ->%Z.eqb_eq). done.
    - intros Hx. exists group. split; [by apply list_elem_of_In|]. apply Z.eqb_refl. }
  assert (exists h, (if existsb (fun g => g =? group) (groups_of user l) then Some (met groups group (groups_of user l))
     else add_group (Z.of_nat (length groups)) group (met groups group (groups_of user l))) =
     Some (mkGroups (fill groups all) (Z.of_nat (length all)) h)) as [h ->].
  { rewrite Hb. subst all. case_decide as Hin.
    - rewrite bool_decide_eq_true_2 by done. rewrite app_nil_r. by eexists.
    - rewrite bool_decide_eq_false_2 by done. rewrite add_group_met. eexists. rewrite length_app. cbn [length].
      by rewrite Nat2Z.inj_add. }
  done.
Qed.

(** C23: [getgrouplist] delivers the group of every entry the user is a member
    of, once for each time it is named there, and the primary group behind
    them if it is not among them; as many as the array has room for, whatever
    the size of the entries.  The value is their number, or -1 if there is no
    room for one more. *)
Theorem getgrouplist_exact `{AccountFiles} l need user group groups : memory_for l need ->
  let all := groups_of user l ++ (if decide (group ∈ groups_of user l) then [] else [group]) in
  wrap_getgrouplist user group groups (Z.of_nat (length groups)) =
    Some (if decide (length groups <= length all)%nat then -1 else Z.of_nat (length all),
          take (length groups) all ++ drop (length all) groups, Z.of_nat (length all)).
Proof.
  intros Hm all. rewrite (getgrouplist_fill l need) by done. f_equal. f_equal. f_equal. fold all.
  destruct (Z.leb_spec (Z.of_nat (length groups)) (Z.of_nat (length all))); [rewrite decide_True|rewrite decide_False]; done || lia.
Qed.

(** [getgroups] of a user who is in the password file: the number of groups,
    if there is room for all of them or no array is given, and -1 otherwise. *)
Theorem getgroups_exact `{AccountFiles} l need uid gid p groups : memory_for l need -> (wrap_getpwuid uid).1 = Some p ->
  let all := groups_of (pw_name p) l ++ (if decide (gid ∈ groups_of (pw_name p) l) then [] else [gid]) in
  option_map (fun r => r.1) (wrap_getgroups uid gid groups (Z.of_nat (length groups))) =
    Some (if decide (length groups = 0 \/ length all <= length groups)%nat then Z.of_nat (length all) else -1,
          take (length groups) all ++ drop (length all) groups).
Proof.
  intros Hm Hp all. unfold wrap_getgroups. destruct (wrap_getpwuid uid) as [o e]. cbn in Hp. subst o.
  rewrite (getgrouplist_fill l need) by done. fold all. cbn [mbind option_bind option_map fst]. f_equal. f_equal.
  destruct (Z.eqb_spec (Z.of_nat (length groups)) 0), (Z.leb_spec (Z.of_nat (length all)) (Z.of_nat (length groups))),
    (Z.leb_spec (Z.of_nat (length groups)) (Z.of_nat (length all))), (decide (length groups = 0 \/ length all <= length groups)%nat);
    cbn [orb]; done || lia.
Qed.

(** ** Examples *)

Definition sample_groups : list gr_entry :=
  [mkGr ($"wheel") 10 [$"root"; $"bob"] 40; mkGr ($"many") 15 [$"ann"] 9000; mkGr ($"staff") 20 [$"bob"] 30].

#[local] Instance sample_accounts : AccountFiles := {|
  passwd_file := Some [mkPw ($"root") ($"x") 0 0 [] ($"/root") ($"/bin/sh") 60];
  group_file := Some sample_groups;
  realloc_ok k := k <=? 18000
|}.

Lemma sample_memory : memory_for sample_groups 9000.
Proof. split; [done|repeat constructor; cbn; lia|done|]. intros k Hk. cbn. by apply Z.leb_le. Qed.

Lemma getgrouplist_exact_witness :
  wrap_getgrouplist ($"bob") 100 [0; 0; 0; 7; 7] 5 = Some (3, [10; 20; 100; 7; 7], 3).
Proof. exact (getgrouplist_exact sample_groups 9000 ($"bob") 100 [0; 0; 0; 7; 7] sample_memory). Defined.

(** An array with just enough room is refused. *)
Example exact_fit_refused : wrap_getgrouplist ($"bob") 100 [0; 0; 0] 3 = Some (-1, [10; 20; 100], 3).
Proof. by vm_compute. Qed.

(** A user that is not there is an error, ENOENT; one that is looked for
    without a file sets [errno] to -1. *)
Example missing_user : wrap_getpwnam ($"ann") = (None, Some ENOENT).
Proof. by vm_compute. Qed.

Example no_passwd_file : @wrap_getpwnam {| passwd_file := None; group_file := None; realloc_ok _ := true |} ($"ann") = (None, Some (-1)).
Proof. by vm_compute. Qed.

Example printed_user : (wrap_getpw 0).2 = Some ($"root:x:0:0::/root:/bin/sh").
Proof. by vm_compute. Qed.

(** [getgroups] of a user who is not there is ENOENT; an array that is too
    small is -1 and no error number. *)
Example getgroups_errors :
  wrap_getgroups 5 5 [] 0 = Some (-1, [], Some ENOENT) /\
  wrap_getgroups 0 0 [7] 1 = Some (-1, [10], None) /\ wrap_getgroups 0 0 [7; 7] 2 = Some (2, [10; 0], None).
Proof. by vm_compute. Qed.
