(* ===== verification/FileOps.v ===== *)
(** Wrappers of calls that open files by other means than [open], make
    temporary files and hard links, or hand out paths ([ports/unix/guts],
    [ports/linux/guts]; [pseudo_dechroot] in [pseudo_wrappers.c]).

    The state and the calls are those of [Io]; [FileKernel] has the further
    system calls, [ClientView] what these wrappers use of the client besides
    [pseudo_client_op].  A block of memory is a list of bytes; an access
    outside of it is [None]. *)

From stdpp Require Import base list option strings.
From Stdlib Require Import ZArith Lia Ascii.
From S2P Require Import Prelude Tables Modes Message Paths ClientPath Env Io Wrappers.

Open Scope Z_scope.

Definition ERANGE : Z := 34.
Definition ENAMETOOLONG : Z := 36.
Definition ENOMEM : Z := 12.
Definition ENOSYS : Z := 38.
Definition F_DUPFD : Z := 0.
Definition O_LARGEFILE : Z := 0.
Definition O_TRUNC : Z := 0x200.
Definition CREAT_FLAGS : Z := Z.lor O_CREAT (Z.lor O_WRONLY O_TRUNC).
Definition SYS_renameat2 : Z := 316.
Definition SYS_seccomp : Z := 317.
Definition SECCOMP_SET_MODE_FILTER : Z := 1.
Definition PR_SET_SECCOMP : Z := 22.
(** What a program gives [prctl] to install a filter. *)
Definition SECCOMP_MODE_STRICT : Z := 1.
Definition SECCOMP_MODE_FILTER : Z := 2.
Definition F_DUPFD_CLOEXEC : Z := 1030.

(** Calls that return a stream give its descriptor, -1 for NULL; [mkstemp] and
    its like give the template as it is afterwards; [sys_link] gets NULL for a
    path that could not be made. *)
Class FileKernel (K : Type) := {
  sys_fopen : bytes -> bytes -> syscall K;
  sys_freopen : bytes -> bytes -> Z -> syscall K;
  sys_fopen64 : bytes -> bytes -> syscall K;
  sys_freopen64 : bytes -> bytes -> Z -> syscall K;
  sys_opendir : bytes -> syscall K;
  sys_closedir : Z -> syscall K;
  sys_fclose : Z -> syscall K;
  sys_mkostemps : bytes -> Z -> Z -> K -> K * Z * option Z * bytes;
  sys_mkostemp64 : bytes -> Z -> K -> K * Z * option Z * bytes;
  sys_mkdtemp : bytes -> K -> K * Z * option Z * bytes;
  sys_mktemp : bytes -> K -> K * Z * option Z * bytes;
  sys_link : option bytes -> option bytes -> syscall K;
  sys_linkat : Z -> bytes -> Z -> option bytes -> Z -> syscall K;
  sys_fcntl : Z -> Z -> Z -> syscall K;
  sys_fcntl64 : Z -> Z -> Z -> syscall K;
  sys_dup : Z -> syscall K;
  sys_chdir : bytes -> syscall K;
  sys_fchdir : Z -> syscall K;
  sys_bind : Z -> syscall K;
  sys_fts_open : list bytes -> syscall K
}.

(** Besides its paths, [pseudo_client_linked_paths]. *)
Class ClientView (S : Type) := {
  view_paths :: PathView S;
  linked_paths : bytes -> bytes -> S -> S
}.

(** *** Paths in a changed root *)

(** [s[i] = c] *)
Definition set_byte (i : nat) (c : ascii) (s : bytes) : option bytes := poke i c s.

(** [len] is the length, [None] for [(size_t) -1]. *)
Definition pseudo_dechroot (chroot : option bytes) (s : bytes) (len : option nat) : option (bytes * nat) :=
  let len := default (strlen s) len in
  match chroot with
  | Some root =>
      if negb (length root =? 0)%nat && (length root <=? len)%nat && prefixb root s then
        c ← s !! length root;
        if decide (c = slash) then
          let rest := drop (length root) (take len s) in
          s ← memcpy_at 0 rest s;
          s ← set_byte (length rest) NUL s;
          Some (s, length rest)
        else if decide (c = NUL) then
          s ← set_byte 0 slash s;
          s ← set_byte 1 NUL s;
          Some (s, 1%nat)
        else Some (s, len)
      else Some (s, len)
  | None => Some (s, len)
  end.

(** [rc] and [buf] are what the kernel returned and wrote. *)
Definition wrap_readlinkat (chroot : option bytes) (rc : Z) (buf : bytes) : option (bytes * Z) :=
  if 0 <? rc then '(buf, len) ← pseudo_dechroot chroot buf (Some (Z.to_nat rc)); Some (buf, Z.of_nat len)
  else Some (buf, rc).

Definition wrap_readlink := wrap_readlinkat.

(** The results of the C library's [glob] for the pattern it is given. *)
Definition wrap_glob (chroot : option bytes) (real_glob : bytes -> Z * list bytes) (pattern : bytes) : option (Z * list bytes) :=
  let pattern := match chroot with
                 | Some root => if bool_decide (head pattern = Some slash) && negb (length root =? 0)%nat
                                then root ++ slash :: pattern else pattern
                 | None => pattern
                 end in
  let '(rc, paths) := real_glob pattern in
  if rc =? 0 then
    paths ← mapM (fun p => '(p, _) ← pseudo_dechroot chroot (p ++ [NUL]) None; Some (c_str p)) paths;
    Some (rc, paths)
  else Some (rc, paths).

Definition wrap_glob64 := wrap_glob.

(** An error number, or the block with the path. *)
Inductive path_result := PathError (e : Z) | PathIn (block : bytes).

(** The size of the block for [getcwd(NULL, 0)]. *)
Definition cwd_size (c : client) (cwd : bytes) : Z :=
  let size := Z.of_nat (length cwd) + 1 in
  match ClientPath.pseudo_chroot c with
  | Some root =>
      if negb (length root =? 0)%nat && (Z.of_nat (length root) <=? size) && prefixb root (cwd ++ [NUL])
      then Z.max 2 (size - Z.of_nat (length root)) else size
  | None => size
  end.

(** [malloc] gives a block of the size asked for, or none. *)
Definition wrap_getcwd (malloc : Z -> option bytes) (c : client) (buf : option bytes) (size : Z) : option path_result :=
  match ClientPath.pseudo_cwd c with
  | None => Some (PathError EACCES)
  | Some cwd =>
      let rel := default [] (pseudo_cwd_rel c) in
      let copy buf size :=
        if size <=? Z.of_nat (length rel) then Some (PathError ERANGE)
        else
          buf ← memcpy_at 0 (rel ++ [NUL]) buf;
          if decide (char_at buf 0 = NUL) then PathIn <$> memcpy_at 0 [slash; NUL] buf else Some (PathIn buf) in
      match buf with
      | Some buf => copy buf size
      | None =>
          let size := if size =? 0 then cwd_size c cwd else size in
          match malloc size with
          | None => Some (PathError ENOMEM)
          | Some buf => copy buf size
          end
      end
  end.

Definition wrap_get_current_dir_name (malloc : Z -> option bytes) (c : client) : option path_result := wrap_getcwd malloc c None 0.

Definition wrap_getwd (malloc : Z -> option bytes) (path_max : Z) (c : client) (buf : option bytes) : option path_result :=
  r ← wrap_getcwd malloc c buf path_max;
  Some (match r with PathError e => PathError (if e =? ERANGE then ENAMETOOLONG else e) | r => r end).

(** [rname] is the canonical path; [resolved] the caller's block, if any. *)
Definition wrap_realpath (sys_path_max : Z) (rname : option bytes) (resolved : option bytes) : option path_result :=
  match rname with
  | None => Some (PathError ENAMETOOLONG)
  | Some rname =>
      let rname := match rname with c :: l => c :: rev (drop_slashes (rev l)) | [] => [] end in
      if sys_path_max <=? Z.of_nat (length rname) then Some (PathError ENAMETOOLONG)
      else
        match resolved with
        | Some block => PathIn <$> memcpy_at 0 (rname ++ [NUL]) block
        | None => Some (PathIn (rname ++ [NUL]))
        end
  end.

Definition wrap_canonicalize_file_name (sys_path_max : Z) (rname : option bytes) : option path_result :=
  wrap_realpath sys_path_max rname None.

(** *** Shells

    The call gets the environment of the process. *)

Definition wrap_popen {BC : BuildConfig} (real_popen : env_state -> Z) (s : env_state) : option (env_state * Z) :=
  s ← own_environment s; Some (s, real_popen s).
Definition wrap_system {BC : BuildConfig} (real_system : env_state -> Z) (command : option bytes) (s : env_state) : option (env_state * Z) :=
  match command with
  | None => Some (s, 1)
  | Some _ => s ← own_environment s; Some (s, real_system s)
  end.

(** *** Wrappers with effects *)

Section FileOps.
Context {K S : Type} {KE : Kernel K} {FK : FileKernel K} {SE : Session S} {CV : ClientView S}.

Definition get_root_path (dirfd : Z) (path : bytes) (leave_last : bool) : io K S (option bytes) := fun w =>
  Some (w, root_path (w_session w) dirfd path leave_last).
Definition tell_linked (old new : bytes) : io K S unit := fun w =>
  Some (mkWorld (w_kernel w) (w_errno w) (linked_paths old new (w_session w)) (pseudo_umask w) (Io.pseudo_chroot w) (pseudo_nosymlinkexp w), tt).

(** A call that rewrites a template. *)
Definition real_temp (f : K -> K * Z * option Z * bytes) : io K S (Z * bytes) := fun w =>
  let '(k, rc, e, t) := f (w_kernel w) in
  Some (mkWorld k (default (w_errno w) e) (w_session w) (pseudo_umask w) (Io.pseudo_chroot w) (pseudo_nosymlinkexp w), (rc, t)).

Definition lift {A} (o : option A) : io K S A := fun w => (fun a => (w, a)) <$> o.

(** **** Streams and directories *)

(** What [fopen] and [freopen] have in common; the file is there before. *)
Definition open_stream (path mode : bytes) (f : syscall K) : io K S Z :=
  before ← base_stat path;
  rc ← real f;
  save_errno ← get_errno;
  if negb (rc =? -1) then
    buf ← base_fstat rc;
    _ ← match buf with
        | Some b =>
            _ ← match before with
                | None =>
                    umask ← get_umask;
                    _ ← real (sys_fchmod rc (PSEUDO_FS_MODE (Z.ldiff 0x1b6 umask) false));
                    tell OP_CREAT 0 (-1) (-1) (Some path) (Some b)
                | Some _ => mret None
                end;
            tell OP_OPEN (pseudo_access_fopen mode) rc (-1) (Some path) (Some b)
        | None => tell OP_OPEN (pseudo_access_fopen mode) rc (-1) (Some path) None
        end;
    _ ← set_errno save_errno;
    mret rc
  else mret rc.

Definition wrap_fopen (path mode : bytes) : io K S Z := open_stream path mode (sys_fopen path mode).
Definition wrap_freopen (path mode : bytes) (stream : Z) : io K S Z := open_stream path mode (sys_freopen path mode stream).
Definition wrap_fopen64 (path mode : bytes) : io K S Z := open_stream path mode (sys_fopen64 path mode).
Definition wrap_freopen64 (path mode : bytes) (stream : Z) : io K S Z := open_stream path mode (sys_freopen64 path mode stream).

Definition wrap_opendir (path : bytes) : io K S Z :=
  rc ← real (sys_opendir path);
  if negb (rc =? -1) then
    save_errno ← get_errno;
    buf ← base_fstat rc;
    _ ← tell OP_OPEN PSA_READ rc (-1) (Some path) buf;
    _ ← set_errno save_errno;
    mret rc
  else mret rc.

(** [None]: the stream is NULL. *)
Definition wrap_closedir (fd : option Z) : io K S Z :=
  match fd with
  | None => _ ← set_errno EFAULT; mret (-1)
  | Some fd => _ ← tell OP_CLOSE 0 fd (-1) None None; real (sys_closedir fd)
  end.
Definition wrap_fclose (fd : option Z) : io K S Z :=
  match fd with
  | None => _ ← set_errno EFAULT; mret (-1)
  | Some fd => _ ← tell OP_CLOSE 0 fd (-1) None None; real (sys_fclose fd)
  end.

(** **** Temporary files *)

(** [memcpy(template + len - 6 - suffixlen,
     tmp_template + strlen(tmp_template) - 6 - suffixlen, 6)] *)
Definition put_back (template tmp : bytes) (suffixlen : Z) : option bytes :=
  let i := Z.of_nat (length template) - 6 - suffixlen in
  let j := Z.of_nat (length tmp) - 6 - suffixlen in
  if (i <? 0) || (j <? 0) || (Z.of_nat (length tmp) + 1 <? j + 6) then None
  else c_str <$> memcpy_at (Z.to_nat i) (take 6 (drop (Z.to_nat j) (tmp ++ [NUL]))) (template ++ [NUL]).

(** The template is made canonical, given to the call, and what the call put
    in goes back into it. *)
Definition make_temp (template : option bytes) (suffixlen no_template : Z) (value : Z -> Z) (f : bytes -> K -> K * Z * option Z * bytes)
    (record : Z -> bytes -> io K S unit) : io K S (Z * option bytes) :=
  match template with
  | None => _ ← set_errno EFAULT; mret (no_template, None)
  | Some template =>
      tmp ← get_root_path AT_FDCWD template true;
      match tmp with
      | None => _ ← set_errno ENOENT; mret (-1, Some template)
      | Some tmp =>
          '(rc, tmp) ← real_temp (f tmp);
          _ ← (if negb (rc =? -1) then
                 save_errno ← get_errno; _ ← record rc tmp; set_errno save_errno
               else mret tt);
          template ← lift (put_back template tmp suffixlen);
          mret (value rc, Some template)
      end
  end.

(** A new file that is open. *)
Definition record_temp (rc : Z) (tmp : bytes) : io K S unit :=
  buf ← base_fstat rc;
  match buf with
  | Some b =>
      _ ← real (sys_fchmod rc (PSEUDO_FS_MODE 0x180 false));
      _ ← tell OP_CREAT 0 (-1) (-1) (Some tmp) (Some b);
      _ ← tell OP_OPEN (Z.lor PSA_READ PSA_WRITE) rc (-1) (Some tmp) (Some b);
      mret tt
  | None => _ ← tell OP_OPEN (Z.lor PSA_READ PSA_WRITE) rc (-1) (Some tmp) None; mret tt
  end.

Definition wrap_mkostemps (template : option bytes) (suffixlen oflags : Z) : io K S (Z * option bytes) :=
  make_temp template suffixlen 0 (fun rc => rc) (fun tmp => sys_mkostemps tmp suffixlen oflags) record_temp.
Definition wrap_mkstemps (template : option bytes) (suffixlen : Z) := wrap_mkostemps template suffixlen 0.
Definition wrap_mkostemp (template : option bytes) (oflags : Z) := wrap_mkostemps template 0 oflags.
Definition wrap_mkstemp (template : option bytes) := wrap_mkostemps template 0 0.
Definition wrap_mkostemp64 (template : option bytes) (oflags : Z) : io K S (Z * option bytes) :=
  make_temp template 0 0 (fun rc => rc) (fun tmp => sys_mkostemp64 tmp oflags) record_temp.
Definition wrap_mkstemp64 (template : option bytes) := wrap_mkostemp64 template 0.

(** The value is -1 for NULL, 0 for the template, which is also what a call
    returns that made no directory. *)
Definition wrap_mkdtemp (template : option bytes) : io K S (Z * option bytes) :=
  make_temp template 0 (-1) (fun _ => 0) sys_mkdtemp (fun _ tmp =>
    buf ← base_stat tmp;
    match buf with
    | Some b => _ ← tell OP_CREAT 0 (-1) (-1) (Some tmp) (Some b); mret tt
    | None => mret tt
    end).
Definition wrap_mktemp (template : option bytes) : io K S (Z * option bytes) :=
  make_temp template 0 (-1) (fun _ => 0) sys_mktemp (fun _ _ => mret tt).

(** **** Descriptors, the current directory and the root *)

Definition fcntl_with (call : Z -> Z -> Z -> syscall K) (fd cmd arg : Z) : io K S Z :=
  rc ← real (call fd cmd arg);
  if (cmd =? F_DUPFD) || (cmd =? F_DUPFD_CLOEXEC) then
    save_errno ← get_errno;
    _ ← (if negb (rc =? -1) then tell OP_DUP 0 fd rc None None else mret None);
    _ ← set_errno save_errno;
    mret rc
  else mret rc.

Definition wrap_fcntl := fcntl_with sys_fcntl.
Definition wrap_fcntl64 := fcntl_with sys_fcntl64.

(** The client is told of a [dup] that failed, too. *)
Definition wrap_dup (fd : Z) : io K S Z :=
  rc ← real (sys_dup fd);
  save_errno ← get_errno;
  _ ← tell OP_DUP 0 fd rc None None;
  _ ← set_errno save_errno;
  mret rc.

Definition wrap_chdir (path : option bytes) : io K S Z :=
  match path with
  | None => _ ← set_errno EFAULT; mret (-1)
  | Some path =>
      rc ← real (sys_chdir path);
      _ ← (if negb (rc =? -1) then tell OP_CHDIR 0 (-1) (-1) (Some path) None else mret None);
      mret rc
  end.

Definition wrap_fchdir (dirfd : Z) : io K S Z :=
  rc ← real (sys_fchdir dirfd);
  _ ← (if negb (rc =? -1) then tell OP_CHDIR 0 (-1) dirfd None None else mret None);
  mret rc.

Definition wrap_chroot (path : option bytes) : io K S Z :=
  msg ← tell OP_CHROOT 0 (-1) (-1) path None;
  mret (match msg with None => -1 | Some _ => 0 end).

(** **** Hard links and sockets *)

Definition proc_self_fd : bytes := $"/proc/self/fd/".

(** [pseudo_chroot_len && strncmp(oldpath, pseudo_chroot, pseudo_chroot_len) &&
     oldpath[pseudo_chroot_len] == '/'], and then the part behind. *)
Definition strip_other_root (chroot : option bytes) (oldpath : bytes) : option bytes :=
  match chroot with
  | Some root =>
      if negb (length root =? 0)%nat && negb (prefixb root oldpath) then
        c ← (oldpath ++ [NUL]) !! length root;
        Some (if decide (c = slash) then drop (length root) oldpath else oldpath)
      else Some oldpath
  | None => Some oldpath
  end.

(** The message to the server once there is a link: [old] is where it is
    found, [b] what is found there. *)
Definition record_link (old : option bytes) (newpath : bytes) (b : statbuf) : io K S unit :=
  msg ← tell OP_STAT 0 (-1) (-1) old (Some b);
  _ ← tell OP_LINK 0 (-1) (-1) (Some newpath) (Some (overlay msg b));
  match old with Some old => tell_linked old newpath | None => mret tt end.

(** A file that is open and may have no name yet (O_TMPFILE). *)
Definition link_open_file (fd : Z) (oldpath newpath : bytes) (b : statbuf) : io K S unit :=
  msg ← tell OP_FSTAT 0 fd (-1) None (Some b);
  if succeeded msg then
    let b := default b (pseudo_stat_msg (Some b) msg) in
    _ ← tell OP_LINK 0 (-1) (-1) (Some newpath) (Some b);
    tell_linked oldpath newpath
  else
    _ ← tell OP_CREAT 0 fd (-1) (Some newpath) (Some b);
    _ ← tell OP_OPEN 0 fd (-1) (Some newpath) (Some b);
    mret tt.

(** A link that was made has two paths, and a path that could not be made is
    refused by the kernel. *)
Definition wrap_linkat (olddirfd : Z) (oldname : bytes) (newdirfd : Z) (newname : bytes) (flags : Z) : io K S Z :=
  let follow := negb (Z.land flags AT_SYMLINK_FOLLOW =? 0) in
  '(chroot, _) ← get_chroot;
  oldpath ← lift (strip_other_root chroot oldname);
  newpath ← get_root_path newdirfd newname true;
  if prefixb proc_self_fd oldpath && follow then
    let tmpfile_fd := int32 (atoi (drop (length proc_self_fd) oldpath)) in
    rc ← real (sys_linkat AT_FDCWD oldpath AT_FDCWD newpath AT_SYMLINK_FOLLOW);
    save_errno ← get_errno;
    if rc =? -1 then mret rc
    else
      buf ← (if negb (tmpfile_fd =? -1) then base_fstat tmpfile_fd else base_lstat oldpath);
      match buf, newpath with
      | Some b, Some newpath =>
          _ ← (if negb (tmpfile_fd =? -1) then link_open_file tmpfile_fd oldpath newpath b
               else record_link (Some oldpath) newpath b);
          _ ← set_errno save_errno;
          mret rc
      | None, _ => _ ← set_errno ENOENT; mret (-1)
      | Some _, None => lift None
      end
  else
    oldpath ← get_root_path olddirfd oldname (negb follow);
    rc ← real (sys_link oldpath newpath);
    save_errno ← get_errno;
    if rc =? -1 then mret rc
    else
      match oldpath, newpath with
      | Some oldpath, Some newpath =>
          buf ← base_lstat oldpath;
          match buf with
          | Some b => _ ← record_link (Some oldpath) newpath b; _ ← set_errno save_errno; mret rc
          | None => _ ← set_errno ENOENT; mret (-1)
          end
      | _, _ => lift None
      end.

Definition wrap_link (oldname newname : bytes) : io K S Z := wrap_linkat AT_FDCWD oldname AT_FDCWD newname 0.

(** [sun_path]: the address is one of AF_UNIX; the path of the socket. *)
Definition wrap_bind (sockfd : Z) (sun_path : option bytes) : io K S Z :=
  rc ← real (sys_bind sockfd);
  match sun_path with
  | Some ((_ :: _) as name) =>
      if 0 <=? rc then
        path ← get_root_path AT_FDCWD name true;
        buf ← match path with Some path => base_stat path | None => _ ← set_errno EFAULT; mret None end;
        _ ← tell OP_MKNOD 0 (-1) (-1) path (Some (default stack_stat buf));
        mret rc
      else mret rc
  | _ => mret rc
  end.

(** **** Calls that are hardly emulated *)

(** The canonical paths are made and freed again. *)
Definition wrap_fts_open (path_argv : option (list bytes)) : io K S Z :=
  match path_argv with
  | None => _ ← set_errno EFAULT; mret (-1)
  | Some path_argv => fun w =>
      let rpath_argv := map (fun p => root_path (w_session w) AT_FDCWD p true) path_argv in
      (if existsb (fun p => bool_decide (p = None)) rpath_argv then _ ← set_errno ENOMEM; mret (-1)
       else real (sys_fts_open path_argv)) w
  end.

Definition wrap_renameat2 (olddirfd : Z) (oldpath : bytes) (newdirfd : Z) (newpath : bytes) (flags : Z) : io K S Z :=
  _ ← set_errno ENOSYS; mret (-1).

(** **** The other names of [stat] and [open] *)

(** Every field the model has is copied. *)
Definition pseudo_stat32_from64 (buf : statbuf) : statbuf :=
  mkStat (st_dev buf) (st_ino buf) (Message.st_mode buf) (st_nlink buf) (st_uid buf) (st_gid buf) (st_rdev buf).

(** The buffer is filled by the kernel and then overwritten; a call that fails
    overwrites it with what is on the stack. *)
Definition wrap___fxstat (ver fd : Z) : io K S (Z * statbuf) :=
  _ ← base_fstat fd;
  '(rc, buf64) ← wrap___fxstat64 ver fd;
  mret (rc, pseudo_stat32_from64 (default stack_stat buf64)).
Definition wrap___fxstatat (ver dirfd : Z) (path : bytes) (flags : Z) : io K S (Z * statbuf) :=
  _ ← base_fstatat dirfd path flags;
  '(rc, buf64) ← wrap___fxstatat64 ver dirfd path flags;
  mret (rc, pseudo_stat32_from64 (default stack_stat buf64)).
Definition wrap___xstat (ver : Z) (path : bytes) := wrap___fxstatat ver AT_FDCWD path 0.
Definition wrap___lxstat (ver : Z) (path : bytes) := wrap___fxstatat ver AT_FDCWD path AT_SYMLINK_NOFOLLOW.
Definition wrap_fstat (fd : Z) := wrap___fxstat _STAT_VER fd.
Definition wrap_fstatat (dirfd : Z) (path : bytes) (flags : Z) := wrap___fxstatat _STAT_VER dirfd path flags.
Definition wrap_stat (path : bytes) := wrap___fxstatat _STAT_VER AT_FDCWD path 0.
Definition wrap_lstat (path : bytes) := wrap___fxstatat _STAT_VER AT_FDCWD path AT_SYMLINK_NOFOLLOW.

Definition wrap_open (path : bytes) (flags mode : Z) : io K S Z := wrap_openat AT_FDCWD path flags mode.
Definition wrap_open64 (path : bytes) (flags mode : Z) : io K S Z := wrap_openat AT_FDCWD path (Z.lor flags O_LARGEFILE) mode.
Definition wrap_openat64 (dirfd : Z) (path : bytes) (flags mode : Z) : io K S Z := wrap_openat dirfd path (Z.lor flags O_LARGEFILE) mode.
Definition wrap___openat_2 (dirfd : Z) (path : bytes) (flags : Z) : io K S Z := wrap_openat dirfd path flags 0.
Definition wrap___openat64_2 (dirfd : Z) (path : bytes) (flags : Z) : io K S Z := wrap_openat dirfd path (Z.lor flags O_LARGEFILE) 0.
Definition wrap_creat (path : bytes) (mode : Z) : io K S Z := wrap_open path CREAT_FLAGS mode.
Definition wrap_creat64 (path : bytes) (mode : Z) : io K S Z := wrap_openat AT_FDCWD path (Z.lor CREAT_FLAGS O_LARGEFILE) mode.

(** **** Calls that could leave pseudo *)

(** [syscall] with its first argument, and [prctl]; [None]: the real call. *)
Definition syscall_answer (number cmd : Z) : option (Z * option Z) :=
  if number =? SYS_renameat2 then Some (-1, Some ENOSYS)
  else if (number =? SYS_seccomp) && (cmd =? SECCOMP_SET_MODE_FILTER) then Some (0, None)
  else None.
Definition prctl_answer (option cmd : Z) : Datatypes.option (Z * Datatypes.option Z) :=
  if (option =? PR_SET_SECCOMP) && (cmd =? SECCOMP_SET_MODE_FILTER) then Some (0, None) else None.

(** Names no program should use. *)
Definition wrap_tempnam (template pfx : option bytes) : io K S Z := _ ← set_errno ENOMEM; mret (-1).
Definition wrap_tmpnam (s : option bytes) : io K S Z := _ ← set_errno ENOMEM; mret (-1).

Definition wrap_close_range (lowfd maxfd flags : Z) : io K S Z := _ ← set_errno ENOSYS; mret (-1).
End FileOps.
