(* ===== verification/FileOpsSpec.v ===== *)
(** What the wrappers of [FileOps] promise: every file that is opened is made
    known with its descriptor, a hard link shares what its file is believed to
    be, a template names the file that was made, and paths handed out lie
    within the changed root. *)

From stdpp Require Import base gmap list option strings.
From Stdlib Require Import ZArith Lia Ascii.
From S2P Require Import Prelude Tables Modes Message Sql Env FileDb FileDbSpec ServerOp OpInvariant FsSpec OpRefine Refine Paths ClientPath ServerLoop ServerLoopSpec ClientConn ClientConnSpec ClientOp ClientOpSpec RoundTrip Io Wrappers Emulator SampleKernel System FileOps.

Open Scope Z_scope.

(** ** Opening *)

(** A client that keeps a record of operations, descriptors and paths, latest
    first. *)
Record heard := Heard { h_op : pseudo_op_t; h_fd : Z; h_path : option bytes }.

Definition hearing (S : Type) : Type := (S * list heard)%type.

#[export] Instance hearing_session {S} {SE : Session S} : Session (hearing S) :=
  fun op access fd dirfd path buf extra1 extra2 s =>
    match client_op op access fd dirfd path buf extra1 extra2 s.1 with
    | Some (s', r) => Some ((s', Heard op fd path :: s.2), r)
    | None => None
    end.

#[export] Instance hearing_view {S} {CV : ClientView S} : ClientView (hearing S) := {|
  view_paths := {| root_path s := root_path s.1; path_ignored s := path_ignored s.1 |};
  linked_paths old new s := (linked_paths old new s.1, s.2)
|}.

Inductive opening :=
| Openat (dirfd : Z) (path : bytes) (flags mode : Z)
| Fopen (path mode : bytes)
| Freopen (path mode : bytes) (stream : Z)
| Fopen64 (path mode : bytes)
| Freopen64 (path mode : bytes) (stream : Z)
| Opendir (path : bytes)
| Mkostemps (template : bytes) (suffixlen oflags : Z)
| Mkostemp64 (template : bytes) (oflags : Z).

Section Opening.
Context {K S : Type} {KE : Kernel K} {FK : FileKernel K} {SE : Session S} {CV : ClientView S}.

Definition do_opening (o : opening) : io K (hearing S) Z :=
  match o with
  | Openat dirfd path flags mode => wrap_openat dirfd path flags mode
  | Fopen path mode => wrap_fopen path mode
  | Freopen path mode stream => wrap_freopen path mode stream
  | Fopen64 path mode => wrap_fopen64 path mode
  | Freopen64 path mode stream => wrap_freopen64 path mode stream
  | Opendir path => wrap_opendir path
  | Mkostemps template suffixlen oflags => '(rc, _) ← wrap_mkostemps (Some template) suffixlen oflags; mret rc
  | Mkostemp64 template oflags => '(rc, _) ← wrap_mkostemp64 (Some template) oflags; mret rc
  end.

(** A file without a name. *)
Definition nameless (o : opening) : bool :=
  match o with Openat _ _ flags _ => Z.land flags O_TMPFILE =? O_TMPFILE | _ => false end.

(** The path the file is known by: the one given, or the one the kernel made
    of the canonical template. *)
Definition opened_path (o : opening) (w : world K (hearing S)) (path : bytes) : Prop :=
  match o with
  | Openat _ p _ _ | Fopen p _ | Freopen p _ _ | Fopen64 p _ | Freopen64 p _ _ | Opendir p => path = p
  | Mkostemps t suffixlen oflags =>
      exists tmp, root_path (w_session w).1 AT_FDCWD t true = Some tmp /\ path = (sys_mkostemps tmp suffixlen oflags (w_kernel w)).2
  | Mkostemp64 t oflags =>
      exists tmp, root_path (w_session w).1 AT_FDCWD t true = Some tmp /\ path = (sys_mkostemp64 tmp oflags (w_kernel w)).2
  end.

(** May the call make the file? *)
Definition may_create (o : opening) (w : world K (hearing S)) : bool :=
  match o with
  | Openat dirfd p flags _ =>
      negb (Z.land flags O_CREAT =? 0) &&
      match (sys_fstatat dirfd p (if negb (Z.land flags O_NOFOLLOW =? 0) then AT_SYMLINK_NOFOLLOW else 0) (w_kernel w)).1 with
      | Some _ => false | None => true end
  | Fopen p _ | Freopen p _ _ | Fopen64 p _ | Freopen64 p _ _ => match (sys_fstatat AT_FDCWD p 0 (w_kernel w)).1 with Some _ => false | None => true end
  | Opendir _ => false
  | _ => true
  end.

(** What is told about a call that returned [rc]. *)
Definition told_of (o : opening) (w : world K (hearing S)) (rc : Z) (news : list heard) : Prop :=
  if (rc =? -1) || nameless o then news = []
  else exists path made, opened_path o w path /\ (made = true -> may_create o w = true) /\
    news = Heard OP_OPEN rc (Some path) :: (if (made : bool) then [Heard OP_CREAT (-1) (Some path)] else []).

(** One step of a wrapper: what it does to the record, and what it keeps. *)
Lemma tell_hears op access fd dirfd path buf (w w' : world K (hearing S)) r :
  tell op access fd dirfd path buf w = Some (w', r) ->
  (w_session w').2 = Heard op fd path :: (w_session w).2 /\ w_kernel w' = w_kernel w.
Proof.
  unfold tell, ask, client_op, hearing_session. destruct (client_op _ _ _ _ _ _ _ _ _) as [[s r']|]; [|done].
  by intros [= <- <-].
Qed.

Lemma real_hears f (w w' : world K (hearing S)) rc : real f w = Some (w', rc) -> w_session w' = w_session w.
Proof. unfold real. destruct (f _) as [[k r] e]. by intros [= <- <-]. Qed.

Lemma stat_hears f (w w' : world K (hearing S)) b : base_stat_call f w = Some (w', b) ->
  w_session w' = w_session w /\ w_kernel w' = w_kernel w /\ b = (f (w_kernel w)).1.
Proof. unfold base_stat_call. destruct (f _) as [b' e]. by intros [= <- <-]. Qed.

Lemma bind_hears {A B} (m : io K (hearing S) A) (f : A -> io K (hearing S) B) w r :
  (m ≫= f) w = Some r -> exists w1 a, m w = Some (w1, a) /\ f a w1 = Some r.
Proof. unfold mbind, io_bind. destruct (m w) as [[w1 a]|]; [|done]. intros H. by exists w1, a. Qed.

Lemma errno_hears (w w' : world K (hearing S)) e u : set_errno e w = Some (w', u) -> w_session w' = w_session w /\ w_kernel w' = w_kernel w.
Proof. by intros [= <-]. Qed.

Lemma lift_hears {A} (o : option A) (w w' : world K (hearing S)) a : lift o w = Some (w', a) -> w' = w /\ o = Some a.
Proof. unfold lift. destruct o; [|done]. by intros [= <- <-]. Qed.

Lemma temp_hears f (w w' : world K (hearing S)) r : real_temp f w = Some (w', r) ->
  w_session w' = w_session w /\ r.2 = (f (w_kernel w)).2.
Proof. unfold real_temp. destruct (f _) as [[[k rc] e] t]. by intros [= <- <-]. Qed.

Ltac hear :=
  match goal with
  | H : (_ ≫= _) _ = Some _ |- _ => apply bind_hears in H as (? & ? & ? & H)
  | H : mret _ _ = Some _ |- _ => injection H as <- <-
  | H : get_errno _ = Some _ |- _ => injection H as <- <-
  | H : get_umask _ = Some _ |- _ => injection H as <- <-
  | H : get_root_path _ _ _ _ = Some _ |- _ => injection H as <- <-
  | H : lift _ _ = Some _ |- _ => apply lift_hears in H as [-> ?]
  | H : set_errno _ _ = Some _ |- _ => apply errno_hears in H as [? ?]
  | H : base_stat_call _ _ = Some _ |- _ => apply stat_hears in H as (? & ? & ?)
  | H : base_fstatat _ _ _ _ = Some _ |- _ => apply stat_hears in H as (? & ? & ?)
  | H : base_stat _ _ = Some _ |- _ => apply stat_hears in H as (? & ? & ?)
  | H : base_fstat _ _ = Some _ |- _ => apply stat_hears in H as (? & ? & ?)
  | H : real _ _ = Some _ |- _ => apply real_hears in H
  | H : real_temp _ _ = Some _ |- _ => apply temp_hears in H as [? ?]
  | H : tell _ _ _ _ _ _ _ = Some _ |- _ => apply tell_hears in H as [? ?]
  | H : (let '(_, _) := ?p in _) _ = Some _ |- _ => destruct p eqn:?
  | H : (if ?b then _ else _) _ = Some _ |- _ => destruct b eqn:?
  | H : (match ?b with Some _ => _ | None => _ end) _ = Some _ |- _ => destruct b eqn:?
  end.

(** What the record holds in the end, from what each step added to it. *)
Ltac records := repeat match goal with
  | H : w_session _ = _ |- _ => rewrite H in *; clear H
  | H : (w_session _).2 = _ |- _ => rewrite H in *; clear H
  end.

Lemma told_opened o (w : world K (hearing S)) rc path (made : bool) :
  negb (rc =? -1) = true -> nameless o = false -> opened_path o w path -> (made = true -> may_create o w = true) ->
  forall l, l = Heard OP_OPEN rc (Some path) :: (if made then [Heard OP_CREAT (-1) (Some path)] else []) ++ (w_session w).2 ->
  exists news, l = news ++ (w_session w).2 /\ told_of o w rc news.
Proof.
  intros Hrc%negb_true_iff Hn Hp Hm l ->.
  exists (Heard OP_OPEN rc (Some path) :: (if made then [Heard OP_CREAT (-1) (Some path)] else [])).
  split; [done|]. unfold told_of. rewrite Hrc, Hn. by exists path, made.
Qed.

Lemma told_nothing o (w : world K (hearing S)) rc l : (rc =? -1) || nameless o = true -> l = (w_session w).2 ->
  exists news, l = news ++ (w_session w).2 /\ told_of o w rc news.
Proof. intros H ->. exists []. unfold told_of. by rewrite H. Qed.

Ltac told p :=
  match goal with
  | |- exists _, _ :: _ :: _ = _ /\ _ => apply (told_opened _ _ _ p true)
  | |- exists _, _ :: _ = _ /\ _ => apply (told_opened _ _ _ p false)
  | |- exists _, (w_session _).2 = _ /\ _ => apply told_nothing
  end; intros; cbn [nameless opened_path may_create]; rewrite ?orb_false_r;
  repeat match goal with H : _ = (sys_fstatat _ _ _ _).1 |- _ => rewrite <- H; clear H end;
  try done; try (by apply negb_false_iff).

Lemma open_stream_told o path mode f (w w' : world K (hearing S)) rc :
  match o with Fopen p _ | Freopen p _ _ | Fopen64 p _ | Freopen64 p _ _ => p = path | _ => False end ->
  open_stream path mode f w = Some (w', rc) ->
  exists news, (w_session w').2 = news ++ (w_session w).2 /\ told_of o w rc news.
Proof. unfold open_stream. intros Ho H. destruct o; try done; subst; repeat hear; records; simplify_eq; told path. Qed.

Lemma opendir_told path (w w' : world K (hearing S)) rc : wrap_opendir path w = Some (w', rc) ->
  exists news, (w_session w').2 = news ++ (w_session w).2 /\ told_of (Opendir path) w rc news.
Proof. unfold wrap_opendir. intros H. repeat hear; records; simplify_eq; told path. Qed.

Lemma openat_told dirfd path flags mode (w w' : world K (hearing S)) rc : wrap_openat dirfd path flags mode w = Some (w', rc) ->
  exists news, (w_session w').2 = news ++ (w_session w).2 /\ told_of (Openat dirfd path flags mode) w rc news.
Proof.
  unfold wrap_openat. intros H. repeat hear; records; simplify_eq; told path.
  all: try (by rewrite Heqb0, orb_true_r); try by (apply orb_true_iff; left; apply negb_false_iff).
  all: rewrite Heqb2; by destruct (sys_fstatat dirfd path _ (w_kernel w)).1.
Qed.

Lemma make_temp_told o template suffixlen f (w w' : world K (hearing S)) rc t :
  nameless o = false -> may_create o w = true ->
  (forall tmp, root_path (w_session w).1 AT_FDCWD template true = Some tmp -> opened_path o w (f tmp (w_kernel w)).2) ->
  make_temp (Some template) suffixlen 0 (fun rc => rc) f record_temp w = Some (w', (rc, t)) ->
  exists news, (w_session w').2 = news ++ (w_session w).2 /\ told_of o w rc news.
Proof.
  unfold make_temp, record_temp. intros Hn Hm Hp H.
  repeat hear; records; simplify_eq; cbn [snd] in *; simplify_eq.
  4: by told template.
  all: told (f l (w_kernel w)).2; auto; apply orb_true_iff; left; by apply negb_false_iff.
Qed.

(** C3: Opening is told, whatever opened the file: [openat],
    [fopen], [freopen] (or their 64-bit variants), [opendir] or the [mkstemp]
    family.  A call that fails tells
    nothing; for one that succeeds the last thing the client hears is OP_OPEN
    with the descriptor returned and the path of the file (for a temporary
    file the one the kernel made of the template), and before it at most
    OP_CREAT with the same path, and that only when the file was not there.
    Only a file opened with O_TMPFILE, which has no name, is not told. *)
Theorem opening_told o (w w' : world K (hearing S)) rc :
  do_opening o w = Some (w', rc) ->
  exists news, (w_session w').2 = news ++ (w_session w).2 /\ told_of o w rc news.
Proof.
  destruct o; cbn [do_opening].
  - apply openat_told.
  - by apply open_stream_told.
  - by apply open_stream_told.
  - by apply open_stream_told.
  - by apply open_stream_told.
  - apply opendir_told.
  - intros H. repeat hear. eapply make_temp_told; [done..| |eassumption]. intros tmp Ht. by exists tmp.
  - intros H. repeat hear. eapply make_temp_told; [done..| |eassumption]. intros tmp Ht. by exists tmp.
Qed.
End Opening.

(** ** The calls with a [struct stat] *)

Section Stat.
Context {K S : Type} {KE : Kernel K} {SE : Session S}.

Definition narrowed (r : world K S * (Z * option statbuf)) : world K S * (Z * statbuf) := (r.1, (r.2.1, default stack_stat r.2.2)).

Lemma stat32_same b : pseudo_stat32_from64 b = b.
Proof. by destruct b. Qed.

(** To ask the kernel twice is to ask it once. *)
Lemma asked_twice f (m : option statbuf -> io K S (Z * option statbuf)) (w : world K S) :
  (_ ← base_stat_call f;
   '(rc, b) ← (buf ← base_stat_call f; m buf);
   mret (rc, pseudo_stat32_from64 (default stack_stat b))) w = option_map narrowed ((buf ← base_stat_call f; m buf) w).
Proof.
  unfold mbind, io_bind, base_stat_call. destruct (f (w_kernel w)) as [b [e|]] eqn:Hf; cbn [w_kernel w_errno]; rewrite Hf;
    cbn [default from_option id w_errno w_session pseudo_umask Io.pseudo_chroot pseudo_nosymlinkexp];
    destruct (m b _) as [[w' [rc b']]|]; cbn; by rewrite ?stat32_same.
Qed.

(** They answer what their 64-bit variants answer, with the same state of the
    process afterwards. *)
Theorem fstatat_as_fstatat64 dirfd path flags (w : world K S) :
  wrap_fstatat dirfd path flags w = option_map narrowed (wrap_fstatat64 dirfd path flags w).
Proof. apply (asked_twice (sys_fstatat dirfd path flags)). Qed.

Theorem fstat_as_fstat64 fd (w : world K S) : wrap_fstat fd w = option_map narrowed (wrap_fstat64 fd w).
Proof. apply (asked_twice (sys_fstat fd)). Qed.
End Stat.

(** ** Hard links *)

(** To note which descriptors have a second path changes nothing else. *)
Class LinkedView (S : Type) {SE : Session S} {SC : ServerConfig} {EM : Emulator S} {CV : ClientView S} := {
  linked_believed old new s a : believes s a -> believes (linked_paths old new s) a;
  linked_ids old new s : new_ids (linked_paths old new s) = new_ids s;
  linked_names old new s : fd_name (linked_paths old new s) = fd_name s
}.

Section Links.
Context {K S : Type} {KE : Kernel K} {FK : FileKernel K} {SE : Session S} {CV : ClientView S} {SC : ServerConfig} {EM : Emulator S}
  {LV : LinkedView S}.
Context (no_xattrdb : PSEUDO_XATTRDB = false).

(** The server is asked about the old name, and told of the new one with the
    attributes it has on record. *)
Lemma record_link_known (k : K) e s u c n a old new b at0 :
  believes s a -> canonical old -> heeded old -> canonical new -> heeded new -> stat_ok b ->
  known a old (stat_key b) (stat_attrs b) at0 -> names a !! new = None ->
  exists s', record_link (Some old) new b (mkWorld k e s u c n) = Some (mkWorld k e s' u c n, tt) /\
    believes s' (fs_link new (stat_key b) a) /\ new_ids s' = new_ids s /\ fd_name s' = fd_name s.
Proof.
  intros Hb Hc Hh Hc' Hh' Hs Hk Hn.
  destruct (tell_stat no_xattrdb k e s u c n a OP_STAT (-1) (-1) (Some old) old b at0) as (s1 & m & Ht & Hb1 & Hi1 & Hf1 & Hov); try done.
  destruct (believes_ok s1 a Hb1) as [Hfs _]. pose proof Hk as (_ & Hin & Hty).
  assert (stat_ok (reported b at0)) as Hs' by (apply reported_ok; [done|by eapply Hfs]).
  destruct (tell_ok k e s1 u c n a OP_LINK (-1) (-1) (Some new) new (reported b at0) (fs_link new (stat_key b) a)
    RESULT_SUCCEED None) as (s2 & m2 & Ht2 & Hb2 & Hi2 & Hf2 & _); try done.
  { by apply (step_link _ _ _ _ _ at0). }
  exists (linked_paths old new s2). unfold record_link. run. rewrite Ht. run. rewrite Hov, Ht2. run.
  split; [done|]. split; [by apply linked_believed|]. by rewrite linked_ids, linked_names, Hi2, Hf2, Hi1, Hf1.
Qed.

(** C4: A hard link is one file with two names.  For a file the server knows,
    a [linkat] that the kernel carries out returns 0, leaves [errno] alone and
    takes the file system the program sees to the one with the new name for
    the same inode and nothing else changed; a [stat] of the old or of the new
    name then reports the owner, group, mode and device on record, whatever
    they are on disk. *)
Theorem link_shares_file (w : world K S) a olddirfd oldname newdirfd newname flags opath old new b at0 k1 :
  let follow := negb (Z.land flags AT_SYMLINK_FOLLOW =? 0) in
  believes (w_session w) a ->
  strip_other_root (Io.pseudo_chroot w) oldname = Some opath -> prefixb proc_self_fd opath && follow = false ->
  root_path (w_session w) olddirfd oldname (negb follow) = Some old -> root_path (w_session w) newdirfd newname true = Some new ->
  canonical old -> heeded old -> canonical new -> heeded new -> stat_ok b ->
  sys_link (Some old) (Some new) (w_kernel w) = (k1, 0, None) ->
  sys_fstatat AT_FDCWD old AT_SYMLINK_NOFOLLOW k1 = (Some b, None) ->
  known a old (stat_key b) (stat_attrs b) at0 -> names a !! new = None ->
  exists w', wrap_linkat olddirfd oldname newdirfd newname flags w = Some (w', 0) /\
    call_done w w' (fs_link new (stat_key b) a) /\ w_kernel w' = k1 /\
    forall name b', name = old \/ name = new -> stat_ok b' -> stat_key b' = stat_key b -> Message.st_mode b' = Message.st_mode b ->
      sys_fstatat AT_FDCWD name AT_SYMLINK_NOFOLLOW k1 = (Some b', None) ->
      exists w2, wrap_fstatat64 AT_FDCWD name AT_SYMLINK_NOFOLLOW w' = Some (w2, (0, Some (reported b' at0))).
Proof.
  intros follow. destruct w as [k e s u c n]. cbn [w_session w_kernel Io.pseudo_chroot].
  intros Hb Hstrip Hproc Hold Hnew Hc Hh Hc' Hh' Hs Hlink Hstat Hk Hn.
  destruct (record_link_known k1 e s u c n a old new b at0) as (s' & Hrec & Hb' & Hi & Hf); try done.
  exists (mkWorld k1 e s' u c n). split_and!; try done.
  - unfold wrap_linkat. run. unfold lift, get_root_path, base_lstat. cbn [w_session]. fold follow.
    rewrite Hstrip. cbn [fmap option_fmap option_map]. run.
    rewrite Hnew. run. rewrite Hproc. run. rewrite Hold. run. rewrite Hlink. run. change (0 =? -1) with false. run. rewrite Hstat. run. by rewrite Hrec.
  - intros name b' Hname Hs' Hkey Hmode Hst'.
    destruct (stat_call no_xattrdb k1 e s' u c n (fs_link new (stat_key b) a) AT_FDCWD name AT_SYMLINK_NOFOLLOW b' (reported b' at0))
      as (s2 & Hs2 & _); try done; try (by destruct Hname as [-> | ->]).
    + left. exists at0. split; [|done]. destruct Hk as (H1 & H2 & H3). rewrite Hkey. split; [|split; [done|cbn in *; by rewrite Hmode]].
      unfold fs_link. cbn [names]. destruct Hname as [-> | ->]; [|apply lookup_insert_eq].
      rewrite lookup_insert_ne; [done|]. intros ->. congruence.
    + by eexists.
Qed.
End Links.

Definition with_linked (old new : bytes) {E : SqlEngine} (y : system) : system :=
  mkSystem (with_paths (pseudo_client_linked_paths old new (c_paths (sy_client y))) (sy_client y)) (sy_server y) (sy_slot y).

Definition system_view {E : SqlEngine} (rp : client -> Z -> bytes -> bool -> option bytes) : ClientView system := {|
  view_paths := system_paths rp;
  linked_paths old new y := with_linked old new y
|}.

Lemma linked_only_linked old new c : exists l, pseudo_client_linked_paths old new c = set_linked_fd_paths l c.
Proof.
  unfold pseudo_client_linked_paths. generalize (length (fd_paths c) - 3)%nat, 3. intros n. revert c.
  induction n as [|n IH]; intros c first; cbn [for_fds].
  - exists (linked_fd_paths c). by destruct c.
  - match goal with |- context [for_fds n _ _ ?c'] => destruct (IH c' (first + 1)) as [l ->] end.
    exists l. by destruct (is_at _ _ _).
Qed.

#[export] Instance system_linked {E : SqlEngine} {L : SqlLaws E} {RL : SqlReliable E} {PM : PathMax} {SC : ServerConfig}
    {M : Malloc} {ML : MallocLaws} {CE : ClientEnv} {CL : ClientEnvLaws CE} (Hm : forall k, is_Some (malloc k)) rp :
  LinkedView system (EM := system_emulator Hm) (CV := system_view rp).
Proof.
  constructor; intros old new [[c ?] sv i]; cbn [linked_paths system_view]; unfold with_linked; cbn [sy_client c_paths with_paths];
    destruct (linked_only_linked old new c) as [l ->]; [|done..].
  intros a []. by constructor.
Qed.

(** ** Samples *)

Definition disk_link (old new : bytes) : syscall disk := fun k =>
  match d_files k !! old, d_files k !! new with
  | Some b, None => (disk_files (<[new := b]> (d_files k)) k, 0, None)
  | None, _ => (k, -1, Some ENOENT)
  | _, Some _ => (k, -1, Some EEXIST)
  end.

(** X's become a's. *)
Definition disk_temp (tmp : bytes) : bytes := map (fun c => if decide (c = "X"%char) then "a"%char else c) tmp.

#[export] Instance disk_file_kernel : FileKernel disk := {|
  sys_fopen p _ := disk_open p 0x1b6;
  sys_freopen p _ _ := disk_open p 0x1b6;
  sys_fopen64 p _ := disk_open p 0x1b6;
  sys_freopen64 p _ _ := disk_open p 0x1b6;
  sys_opendir p k := match d_files k !! p with Some _ => disk_open p 0 k | None => (k, -1, Some ENOENT) end;
  sys_closedir fd := sys_close fd;
  sys_fclose fd := sys_close fd;
  sys_mkostemps tmp _ _ k := let '(k, fd, e) := disk_open (disk_temp tmp) 0x180 k in (k, fd, e, disk_temp tmp);
  sys_mkostemp64 tmp _ k := let '(k, fd, e) := disk_open (disk_temp tmp) 0x180 k in (k, fd, e, disk_temp tmp);
  sys_mkdtemp tmp k := let '(k, rc, e) := disk_create (disk_temp tmp) (Z.lor S_IFDIR 0x1c0) k in (k, rc, e, disk_temp tmp);
  sys_mktemp tmp k := (k, 0, None, disk_temp tmp);
  sys_link old new k := match old, new with Some old, Some new => disk_link old new k | _, _ => (k, -1, Some EFAULT) end;
  sys_linkat _ old _ new _ k := match new with Some new => disk_link old new k | None => (k, -1, Some EFAULT) end;
  sys_fcntl _ _ _ k := (k, -1, Some EINVAL);
  sys_fcntl64 _ _ _ k := (k, -1, Some EINVAL);
  sys_dup fd k := (k, -1, Some 9);
  sys_chdir p k := match d_files k !! p with Some _ => (k, 0, None) | None => (k, -1, Some ENOENT) end;
  sys_fchdir fd k := (k, 0, None);
  sys_bind _ k := (k, 0, None);
  sys_fts_open paths k := match paths with p :: _ => disk_open p 0 k | [] => (k, -1, Some EINVAL) end
|}.

#[local] Existing Instance mem_engine.
#[local] Existing Instance mem_engine_laws.
#[local] Existing Instance mem_engine_reliable.
#[local] Existing Instance pipe_path_max.
#[local] Existing Instance zero_malloc.
#[local] Existing Instance zero_malloc_laws.
#[local] Existing Instance sample_config.
#[local] Existing Instance sample_client_env.
#[local] Existing Instance sample_client_env_laws.
#[local] Existing Instance sample_emulator.

(** Paths are canonical as they come. *)
#[local] Instance sample_view : ClientView system := system_view (fun _ _ p _ => Some p).

Definition new_name : bytes := $"/d/x".

Lemma new_name_heeded : canonical new_name /\ system_heeded new_name.
Proof.
  split.
  - split; [|vm_compute; congruence]. split; [done|]. split; [by apply no_nul_b|done].
  - split; [intros c; reflexivity|vm_compute; congruence].
Qed.

Lemma link_shares_file_witness : exists w',
  wrap_linkat AT_FDCWD ($"/d/f") AT_FDCWD new_name 0 sample_world = Some (w', 0) /\
  exists w2, wrap_fstatat64 AT_FDCWD new_name AT_SYMLINK_NOFOLLOW w' = Some (w2, (0, Some (reported disk_f session_disk))).
Proof.
  destruct (@link_shares_file disk system disk_kernel disk_file_kernel _ sample_view sample_config sample_emulator
    (system_linked zero_malloc_gives (fun _ _ p _ => Some p)) eq_refl sample_world linked_fs AT_FDCWD ($"/d/f") AT_FDCWD new_name 0
    ($"/d/f") ($"/d/f") new_name disk_f session_disk (disk_link ($"/d/f") new_name sample_disk).1.1) as (w' & Hw & _ & _ & Hst).
  - exact linked_believes.
  - reflexivity.
  - reflexivity.
  - reflexivity.
  - reflexivity.
  - apply sample_canonical. by left.
  - apply sample_canonical. by left.
  - apply new_name_heeded.
  - apply new_name_heeded.
  - exact disk_f_ok.
  - vm_compute. reflexivity.
  - vm_compute. reflexivity.
  - by split.
  - reflexivity.
  - exists w'. split; [exact Hw|].
    apply (Hst new_name disk_f); [by right|exact disk_f_ok|reflexivity|reflexivity|vm_compute; reflexivity].
Defined.

(** A client that records what it is told and nothing else. *)
#[local] Instance silent_session : Session unit := fun _ _ _ _ _ _ _ _ s => Some (s, None).
#[local] Instance silent_view : ClientView unit := {| view_paths := {| root_path _ _ p _ := Some p; path_ignored _ _ := false |}; linked_paths _ _ s := s |}.

Definition hearing_world : world disk (hearing unit) := mkWorld sample_disk 0 (tt, []) 0x12 None false.

Lemma opening_told_witness : exists w', do_opening (Fopen ($"/d/n") ($"w")) hearing_world = Some (w', 21) /\
  exists news, (w_session w').2 = news ++ [] /\ told_of (Fopen ($"/d/n") ($"w")) hearing_world 21 news.
Proof.
  destruct (do_opening (Fopen ($"/d/n") ($"w")) hearing_world) as [[w' rc]|] eqn:Ho; [|exfalso; vm_compute in Ho; discriminate].
  assert (rc = 21) as -> by (vm_compute in Ho; congruence).
  destruct (opening_told (Fopen ($"/d/n") ($"w")) hearing_world w' 21 Ho) as (news & H1 & H2).
  exists w'. split; [reflexivity|]. by exists news.
Defined.

(** [mkdtemp] returns the template when the directory could not be made. *)
Example mkdtemp_hides_failure :
  let made := disk_files (<[$"/d/aaaaaa" := disk_f]> (d_files sample_disk)) sample_disk in
  let w := mkWorld made 0 (tt, [] : list heard) 0x12 None false in
  option_map (fun r => (w_errno r.1, r.2)) (wrap_mkdtemp (Some ($"/d/XXXXXX")) w) = Some (EEXIST, (0, Some ($"/d/aaaaaa"))).
Proof. vm_compute. reflexivity. Qed.

(** [mkstemp(NULL)] returns descriptor 0. *)
Example mkstemp_of_null :
  option_map (fun r => (w_errno r.1, r.2)) (wrap_mkstemp None hearing_world) = Some (EFAULT, (0, None)).
Proof. vm_compute. reflexivity. Qed.

(** A template of fewer than six bytes that is long enough once it is
    canonical: the write goes before its beginning. *)
Example put_back_before_template : put_back ($"XXX") ($"/directory/XXX") 0 = None.
Proof. reflexivity. Qed.

(** A link read into a buffer it fills, when it is the root itself: the byte
    after the buffer is read. *)
Example dechroot_reads_past_end : wrap_readlinkat (Some ($"/root")) 5 ($"/root") = None.
Proof. vm_compute. reflexivity. Qed.

(** [linkat] with a name that is not below the root and shorter than it
    reads past the end of the name. *)
Example linkat_reads_past_end : strip_other_root (Some ($"/some/root")) ($"/x") = None.
Proof. vm_compute. reflexivity. Qed.

(** In the root itself [getcwd] stores "/" and its terminator in a buffer of
    one byte. *)
Example getcwd_one_byte c : wrap_getcwd (fun _ => None) (mkClient [] [] (Some ($"/r")) (Some []) (Some ($"/r"))) (Some [c]) 1 = None.
Proof. reflexivity. Qed.

(** [getcwd(NULL, 0)] in /ab, where the root is /a, allocates one byte less
    than the path it copies needs. *)
Example getcwd_other_directory :
  cwd_size (mkClient [] [] (Some ($"/ab")) (Some ($"/ab")) (Some ($"/a"))) ($"/ab") = 2.
Proof. vm_compute. reflexivity. Qed.

(** A [dup] that failed is told, with -1 for the new descriptor. *)
Example dup_failure_told :
  option_map (fun r => (r.2, (w_session r.1).2)) (wrap_dup 50 hearing_world) = Some (-1, [Heard OP_DUP 50 None]).
Proof. vm_compute. reflexivity. Qed.

(** [fts_open] walks the path as it was given, not the one in the root. *)
Example fts_open_original :
  let CV := {| view_paths := {| root_path _ _ p _ := Some ($"/root" ++ p); path_ignored _ _ := false |}; linked_paths _ _ s := s |} : ClientView (hearing unit) in
  option_map (fun r => d_fds (w_kernel r.1) !! r.2) (wrap_fts_open (CV := CV) (Some [$"/d"]) hearing_world) = Some (Some ($"/d")).
Proof. vm_compute. reflexivity. Qed.

(** [prctl] compares the mode of [PR_SET_SECCOMP] with the operation
    [SECCOMP_SET_MODE_FILTER] of another call: a filter is installed, and what
    is pretended is the strict mode. *)
Example prctl_installs_filter :
  (prctl_answer PR_SET_SECCOMP SECCOMP_MODE_FILTER, prctl_answer PR_SET_SECCOMP SECCOMP_MODE_STRICT) = (None, Some (0, None)).
Proof. reflexivity. Qed.
